(* ===== verification/_CoqProject ===== *)
-Q . S2P
Prelude.v
CosmWasm.v
DrandCommon.v
NoisProtocol.v
Fixtures.v
Sink.v
Payment.v
Icecube.v
Drand.v
GatewayState.v
RequestRouter.v
Gateway.v
GatewayTyped.v
GatewayDrain.v
Nois.v
Proxy.v
Monitoring.v
Demo.v
System.v
Handshake.v
Network.v
NetworkSafety.v
Oracle.v
Bank.v
NoisChain.v
ChainInvariant.v
ChainSafety.v
Testing.v
SinkTests.v
PaymentTests.v
IcecubeTests.v
MonitoringTests.v
DemoTests.v
CommonTests.v
GatewayTests.v
ProxyTests.v
DrandTests.v
MiscTests.v
