(* ===== verification/Prelude.v ===== *)
(** * The Nois contracts: a verification development

    Nois brings the beacons of the drand network to CosmWasm chains. Bots submit
    signatures of drand rounds to nois-drand on the Nois chain, which verifies
    them, rewards the bots and reports the randomness to nois-gateway. Dapps on
    consumer chains ask nois-proxy for randomness; the proxy sends the request
    over an IBC channel to the gateway, the gateway commits it to the next drand
    round, queues it until the round is reported, delivers the beacon over IBC
    and lets a payment contract per channel collect the price; the proxy finally
    calls the dapp back. Part of every price is burnt by nois-sink; nois-icecube
    holds funds for the bot rewards. nois-monitoring and nois-demo are dapps.

    This library is a shallow embedding of these contracts. Every entry point of
    every contract (instantiate, migrate, execute, sudo, reply, query and the IBC
    callbacks) is an executable function of the state monad [M S E A], that is
    [S → outcome E A * S], where [S] is the record of the storage items and maps
    of the contract and an [outcome] is [Ok], [Err] (a [Result] of the source) or
    [Panic] (an overflow: the workspace compiles with overflow checks; an
    [unwrap]). A handler that fails returns the storage at the point of failure;
    the runtime discards it ([transact], and the relations [step] and [call],
    which only have rules for [Ok]). The one place where the source turns an
    error into a committed result, [or_else_ack] around [ibc_packet_receive],
    keeps the writes made before the error, as the source does.

    ** Files

    - [Prelude] (this file): outcomes, the monad and its notation, inversion
      ([inv_run]) and preservation ([preserves], [preserve]) automation,
      machine integers ([umax], [uadd], [usub], [umul], [try_into]), ordered map
      iteration, reachability, and lemmas on lists and maps.
    - [CosmWasm]: what the contracts use of cosmwasm-std and cw-storage-plus:
      coins, timestamps, messages, responses, IBC data, [Item] and [Map] with
      their accessors. Chain services are parameters: [Api] and [Querier]
      (records), [Json], [Display], [Anybuf], [Sha256] (classes).
    - [DrandCommon]: packages/drand-common, the clock of the rounds.
    - [NoisProtocol]: packages/nois-protocol, packets, lifetimes, channel checks.
    - [Fixtures]: concrete instances of the parameters for the witnesses.
    - [Sink], [Payment], [Icecube], [Drand], [Monitoring], [Demo]: the contracts
      of the same names (contracts/nois-sink and so on). In each file: errors,
      state, messages, the handlers of contract.rs, lemmas, properties, witnesses.
    - [GatewayState] (state/*.rs, drand_archive.rs), [RequestRouter]
      (request_router.rs) and [Gateway] (contract.rs, msg.rs, error.rs,
      job_id.rs): contracts/nois-gateway. [GatewayTyped] has the typing of its
      stored data, [GatewayDrain] how long the reports of a round take.
    - [Nois]: the types of the nois crate shared by proxy and dapps.
    - [Proxy]: contracts/nois-proxy with the feature governance_owned, and so
      also contracts/nois-proxy-governance-owned, which re-exports it.
    - [System]: theorems about several contracts at once; the class
      [Understands] states that one contract parses what another one writes.
    - [Handshake]: opening the channel, the welcome and price packets.
    - [Network]: a transition system of one gateway, one nois-drand and any
      number of chains with a proxy, with the packets and callbacks in flight;
      [NetworkSafety] has its invariant, [Oracle] the service it refines.
    - [Bank]: the bank module as a class with its laws, and a ledger that
      implements it. [NoisChain]: the contracts of the Nois chain with a bank,
      and its transactions, which deliver messages depth first and atomically;
      [ChainInvariant] has what a transaction does and the invariant of every
      reachable chain, [ChainSafety] the theorems about the customers' money.
    - [Testing] and [SinkTests], [PaymentTests], [IcecubeTests],
      [MonitoringTests], [DemoTests], [CommonTests], [GatewayTests],
      [ProxyTests], [DrandTests], [MiscTests]: every unit test of the
      repository, evaluated on the model (see below).

    Definitions have the names of the source; a Rust path [A::B] is [A_B], a
    method [f] of a type is [A_f] or [f], and fields that clash carry a prefix.
    A storage constant such as [CONFIG: Item<Config>] is an [Item] or [Map], a
    pair of a getter and a setter of the record [Storage] of its contract.

    ** What the theorems show

    - The network ([Network], [NetworkSafety], [Oracle]): in every reachable
      world, whatever dapps, bots, relayers and attackers do, the callbacks that
      a proxy sends carry randomness of a drand signature that verifies for a
      round published after the requested time, and answer a request that this
      chain made (callbacks_are_authentic); every request is in exactly one
      place, in flight, queued, being delivered or answered
      (requests_are_conserved); a delivery in flight can be received until it
      expires, and timed out from then on (delivery_can_be_received); and the whole network refines an oracle that
      only has the operations request, publish and answer
      (network_refines_oracle).
    - The system ([System], [Handshake]): a request of a dapp ends as one job in
      the queue of the first round after the requested time, and its delivery
      calls back that dapp with that job ID (request_round_trip); only
      randomness of a signature that verifies reaches the gateway and the jobs
      (verified_randomness_is_delivered); opening a channel leaves the proxy
      with the gateway's price and payment address (handshake_informs_proxy).
    - The money ([NoisChain], [ChainInvariant], [ChainSafety]): on a chain where
      accounts and contracts of others do what they like, also calling back into
      these contracts, the payment contract of a customer loses money only to a
      request on its channel that is acknowledged with success, and then exactly
      the price (customer_funds_are_safe); every acknowledged request moves the
      price, to the sink, the relayer and the community pool (request_is_paid);
      a request is served when it fits, the customer owns its price in unois and
      nois-drand accepts its round (funded_request_is_served); and what nois-sink burnt is what its ashes say
      (burns_are_recorded).
    - The gateway: the storage maps of jobs refine first-in first-out queues
      (job_queue_is_fifo); over all reachable states no job is lost, reordered
      or answered twice (no_job_is_lost, archived_queue_only_shrinks), and what
      is stored has the type the code relies on (stored_data_typed); a request
      that fits is always accepted, a trusted report with randomness that is not
      empty always makes progress, and repeating it answers every job of the round after a bounded number of
      calls (request_is_acknowledged, add_verified_round_delivers,
      reports_answer_every_job); only trusted sources feed the archive
      (archive_fed_by_trusted_sources); a packet that is answered with an error
      acknowledgement leaves no trace although its writes are committed
      (error_ack_has_no_effect).
    - The drand contract: beacons are verified, write-once and present exactly
      for submitted rounds, positions of submissions are gapless, and rewards
      are exactly those that eligible bots earn.
    - The proxy: requests are accepted under the documented conditions, commit
      to rounds that are published after the block plus a safety margin, price
      messages commute, only the owner changes the owner's settings or moves
      funds other than the price of a requested beacon, and the channel to the gateway is a state machine of relayers.
    - Sink, payment, icecube, monitoring and demo: an append-only ledger with
      exact pages, the branches of a payment, funds that can only go to
      nois-drand, outcomes that are immutable and come from the proxy, and an
      estimate that is total and in range.
    - Two theorems show behaviour that surprises: a denom listed twice is quoted
      at its first and charged at its last price (duplicate_price_misquoted), and
      a job that is rolled again before its first answer arrives records a
      delivery before its requested time (rolled_twice_delivery_too_early).

    ** The unit tests of the repository

    The definitions of the contracts are checked against the tests that the
    repository keeps for the code: each of its unit tests is a definition with
    the name of the test function, and a lemma per file ([drand_tests_pass] and
    so on) shows by evaluation that all of them pass. What is a parameter
    elsewhere is executable there ([Testing]): SHA-256, bech32 addresses,
    hexadecimal, the protobuf format, and as signature scheme the table of
    recorded drand signatures of drand-common/src/testing.rs; the known answers
    of the tests (randomness of rounds, groups of bots, the bytes of a public
    transaction, two addresses on mainnet) fix these algorithms. As under
    [mock_dependencies], a call that fails keeps its writes; several tests of
    the gateway rely on that. A test is written with the helpers of its file
    where the source repeats a query or a message.

    ** Fuel and bounds

    The only loop that is not structural is the [while] loop of
    [RequestRouter::new_drand]. [new_drand_loop] takes fuel, and running out of
    fuel is a [Panic], so a theorem with the outcome [Ok] covers it. [new_drand]
    starts it with the limit of jobs per submission, which the loop reaches at
    the latest after that many iterations; add_verified_round_delivers shows
    that the call returns. The gas of [NoisChain.dispatch] counts messages; a
    transaction that runs out of it fails, like one that runs out of gas, and
    funded_request_is_served shows that six messages are enough for a request.
    Machine integers are [N] with a check at every
    operation that can overflow, in the width of the source.

    ** What is not modelled

    - BLS verification and the derivation of randomness (drand-verify), SHA-256,
      instantiate2 addresses, protobuf encoding (anybuf) and the nois crate's
      dice and decimals are parameters: [DrandVerify], [Sha256], [Instantiate2],
      [Anybuf], [Nois]. Of the derived randomness, an array of 32 bytes in the
      crate, the class [DrandVerify] only says that it is not empty. The unit
      tests run with the instances of [Testing]; the dice and decimals are stubs
      there, too.
    - cosmwasm-std and cw-storage-plus are modelled by what they do to the
      storage: [Item] and [Map] as fields and finite maps, a [Deque] as the list
      of its elements with the wrap-around of its [u32] indices ([push_back]),
      and raw keys with the panic on an empty value ([raw_set]). Integers inside
      a message or a stored record are [N]; that those in the storage of the
      gateway fit their width is a theorem (stored_data_typed).
    - JSON is the class [Json]; theorems that need it assume that parsing inverts
      serializing ([JsonLaws]), with [Fixtures] as an instance.
    - The chain's modules and the relayers: messages are data, and a packet
      reaches its receiver as an argument of its entry point. The bank is the
      class [Bank]; staking, transfers to other chains and the prices of gas are
      left out of [NoisChain], and so is nois-icecube, which stakes and sends
      tokens like an account.
    - packages/multitest, the schema generators and the TypeScript integration
      tests hold no contract logic; nois-proxy-governance-owned has no code of
      its own.

    ** The network model

    The definitions of [Network] have no counterpart in the source: they model
    the chains, the IBC channels and the message dispatch between the contracts,
    whose entry points they call. What they assume is what the chains and IBC
    provide: the sender and the funds of a call are authentic; a packet carries
    its timeout and is received at most once, at the other end of its channel,
    while this end is open, in a block before the timeout, and it times out only
    after that or when this end is closed; a transaction that sends a packet over
    an end that is not open fails; channels open in the order of the handshake,
    and a proxy's end closes after the gateway's; a call that fails changes
    nothing. Every channel that carries packets ends at a proxy and at the
    gateway: this is an assumption on how the contracts are set up, because
    [ibc_channel_connect] accepts any counterparty; a proxy that is connected to
    something else is outside the theorems. Clocks are not modelled; the blocks
    of the events need not be in order. Names of
    chains are unique, the manager of the gateway trusts nois-drand and nobody
    else ([trusts_drand]), and accounts are not contracts of the system.
    Messages from one contract to another are separate events, so an atomic
    transaction is the special case in which they follow at once.

    ** The chain model

    Neither have the definitions of [NoisChain] a counterpart in the source:
    they are the runtime that the contracts of the Nois chain are written for.
    A message moves its funds first and then runs the contract; what the
    contract answers with is delivered before the messages that follow; an
    error undoes the transaction. (All messages of these contracts are sent
    without a reply.) Contracts of others answer with any messages; their
    answers are a parameter of the transaction. The class [Setup] holds the
    addresses, the address functions of the chain and the code ID of
    nois-payment, and [SetupLaws] says that the addresses differ, that
    validation returns a valid address unchanged, and that the message to the
    community pool is decoded to what was encoded. As in [Network] the manager
    of the gateway configures no drand contract but nois-drand, and accounts are
    not contracts. The fields [acks] and [burnt] only record what happened.

    ** Possible extensions

    The default range of accepted times of a proxy against the 32 bits of the
    queue keys; the pages of the remaining queries; the statistics of the
    gateway's customers as functions of the request log; the rewards that leave
    nois-drand on [NoisChain], and the integration tests of packages/multitest
    on it. *)
From stdpp Require Import prelude gmap strings list sorting pretty.
From Stdlib Require Import NArith Lia.

#[global] Open Scope N_scope.

(** ** Results, panics and handlers over a contract's storage *)

(** A Rust [Result] of a function that may also panic. The release profile of
    the workspace sets [overflow-checks = true] and [panic = 'abort'], so an
    arithmetic overflow is a [Panic], never a wrapped value. *)
Inductive outcome (E A : Type) : Type :=
  | Ok (a : A)
  | Err (e : E)
  | Panic.
Arguments Ok {E A} a.
Arguments Err {E A} e.
Arguments Panic {E A}.

#[global] Instance outcome_ret E : MRet (outcome E) := λ A a, Ok a.
#[global] Instance outcome_bind E : MBind (outcome E) := λ A B k m,
  match m with
  | Ok a => k a
  | Err e => Err e
  | Panic => Panic
  end.

(** A computation with mutable access to a storage [S]. As in Rust, the writes
    made before an early return stay in the storage that the caller holds. *)
Definition M (S E A : Type) : Type := S → outcome E A * S.

#[global] Instance M_ret S E : MRet (M S E) := λ A a s, (Ok a, s).
#[global] Instance M_bind S E : MBind (M S E) := λ A B k m s,
  match m s with
  | (Ok a, s') => k a s'
  | (Err e, s') => (Err e, s')
  | (Panic, s') => (Panic, s')
  end.

Definition fail {S E A} (e : E) : M S E A := λ s, (Err e, s).
Definition panic {S E A} : M S E A := λ s, (Panic, s).
Definition lift {S E A} (o : outcome E A) : M S E A := λ s, (o, s).
Definition gets {S E A} (f : S → A) : M S E A := λ s, (Ok (f s), s).
Definition modify {S E} (f : S → S) : M S E unit := λ s, (Ok tt, f s).

(** [ensure!(cond, e)] *)
Definition ensure {S E} (b : bool) (e : E) : M S E unit :=
  if b then mret tt else fail e.

(** [Result::map_err] *)
Definition map_err {E F A} (f : E → F) (o : outcome E A) : outcome F A :=
  match o with
  | Ok a => Ok a
  | Err e => Err (f e)
  | Panic => Panic
  end.

(** [Option::ok_or] *)
Definition ok_or {E A} (o : option A) (e : E) : outcome E A :=
  match o with Some a => Ok a | None => Err e end.

Definition unwrap_or {A} (d : A) (o : option A) : A :=
  match o with Some a => a | None => d end.

(** A [for] loop whose body may return early. *)
Fixpoint for_each {S E A} (f : A → M S E unit) (l : list A) : M S E unit :=
  match l with
  | [] => mret tt
  | x :: l => f x ;; for_each f l
  end.

(** [iter().map(f).collect::<Result<Vec<_>, _>>()] *)
Fixpoint map_m {S E A B} (f : A → M S E B) (l : list A) : M S E (list B) :=
  match l with
  | [] => mret []
  | x :: l => y ← f x; ys ← map_m f l; mret (y :: ys)
  end.

(** The chain commits the storage of an entry point that returned [Ok] and
    rolls it back after an error or a panic. *)
Definition transact {S E A} (m : M S E A) (s : S) : outcome E A * S :=
  match m s with
  | (Ok a, s') => (Ok a, s')
  | (o, _) => (o, s)
  end.

(** ** Transition systems *)

(** The states reached from an initial state by finitely many steps. *)
Definition reachable {S} (init : S → Prop) (step : S → S → Prop) (s : S) : Prop :=
  ∃ s0, init s0 ∧ rtc step s0 s.

Definition is_ok {E A} (o : outcome E A) : bool :=
  match o with Ok _ => true | _ => false end.

(** Builder style: [x |> f] is [f x]. *)
Declare Scope builder_scope.
Delimit Scope builder_scope with builder.
Notation "x |> f" := (f x) (at level 50, left associativity, only parsing) : builder_scope.
#[global] Open Scope builder_scope.

(** ** Machine integers *)

(** Unsigned integers are numbers of [N]; the operations carry the width. *)
Definition umax (w : N) : N := 2 ^ w - 1.
Abbreviation u8 := N (only parsing).
Abbreviation u16 := N (only parsing).
Abbreviation u32 := N (only parsing).
Abbreviation u64 := N (only parsing).
Abbreviation Uint128 := N (only parsing).

Definition checked {E} (w x : N) : outcome E N := if x <=? umax w then Ok x else Panic.
Definition uadd {E} (w a b : N) : outcome E N := checked w (a + b).
Definition umul {E} (w a b : N) : outcome E N := checked w (a * b).
Definition usub {E} (a b : N) : outcome E N := if b <=? a then Ok (a - b) else Panic.

(** [x.try_into().expect(..)] *)
Definition try_into {E} (w x : N) : outcome E N := checked w x.

(** [x.to_be_bytes()] of an integer of [n] bytes. *)
Fixpoint to_be_bytes (n : nat) (x : N) : list N :=
  match n with
  | O => []
  | S n => to_be_bytes n (x / 256) ++ [x mod 256]
  end.

(** ** Keys in storage order *)

(** The order in which a [Map] of the storage iterates over its keys. *)
Class KeyOrder (K : Type) := {
  key_le : relation K;
  key_le_dec :: RelDecision key_le;
  key_le_total :: Total key_le;
  key_le_trans :: Transitive key_le;
  key_le_antisymm :: AntiSymm (=) key_le;
}.

Definition key_lt {K} `{KeyOrder K} (a b : K) : Prop := key_le a b ∧ a ≠ b.
#[global] Instance key_lt_dec `{KeyOrder K} `{EqDecision K} : RelDecision (key_lt (K:=K)).
Proof. unfold RelDecision, key_lt. solve_decision. Defined.

Definition entry_le {K V} `{KeyOrder K} (p q : K * V) : Prop := key_le p.1 q.1.
#[global] Instance entry_le_dec {K V} `{KeyOrder K} : RelDecision (entry_le (K:=K) (V:=V)).
Proof. unfold RelDecision, entry_le. solve_decision. Defined.

(** The entries of a map in ascending key order. *)
Definition entries {K V} `{Countable K} `{KeyOrder K} (m : gmap K V) : list (K * V) :=
  merge_sort entry_le (map_to_list m).

#[global] Program Instance N_key_order : KeyOrder N := {| key_le := N.le |}.

#[global] Program Instance string_key_order : KeyOrder string := {| key_le := String.le |}.

(** Composite keys of fixed width components: the first component decides. *)
Definition pair_le {A B} `{KeyOrder A} `{KeyOrder B} (p q : A * B) : Prop :=
  key_lt p.1 q.1 ∨ (p.1 = q.1 ∧ key_le p.2 q.2).

#[global] Program Instance pair_key_order {A B} `{KeyOrder A} `{EqDecision A}
    `{KeyOrder B} : KeyOrder (A * B) := {| key_le := pair_le |}.
Next Obligation. unfold RelDecision, pair_le. intros. solve_decision. Defined.
Next Obligation.
  intros A B ? ? ? [a b] [c d]. unfold pair_le, key_lt; simpl.
  destruct (decide (a = c)) as [->|Hne].
  - destruct (total key_le b d); naive_solver.
  - destruct (total key_le a c); naive_solver.
Qed.
Next Obligation.
  intros A B ? ? ? [a b] [c d] [e f]; unfold pair_le, key_lt; simpl.
  intros [[Hac Hne]|[-> Hbd]] [[Hce Hne']|[-> Hdf]].
  - left. split; [by etrans|]. intros ->. by apply Hne, (anti_symm key_le).
  - by left.
  - by left.
  - right. split; [done|by etrans].
Qed.
Next Obligation.
  intros A B ? ? ? [a b] [c d]; unfold pair_le, key_lt; simpl.
  intros [[Hac Hne]|[-> Hbd]] [[Hca Hne']|[Heq Hdb]]; simplify_eq; try done.
  - destruct Hne. by apply (anti_symm key_le).
  - f_equal. by apply (anti_symm key_le).
Qed.

(** The entries under one first component, as [Map::prefix] gives them. *)
Definition prefix_entries {A B V} `{Countable A} `{Countable B} `{KeyOrder A}
    `{KeyOrder B} (a : A) (m : gmap (A * B) V) : list (B * V) :=
  omap (λ e : (A * B) * V, if decide (e.1.1 = a) then Some (e.1.2, e.2) else None)
    (entries m).

(** ** Running handlers *)

Section run.
Context {S E : Type}.
Implicit Types s : S.

Lemma M_bind_ok {A B} (m : M S E A) (k : A → M S E B) s r s' :
  (m ≫= k) s = (Ok r, s') → ∃ a s1, m s = (Ok a, s1) ∧ k a s1 = (Ok r, s').
Proof. unfold mbind, M_bind. destruct (m s) as [[a|e|] s1]; naive_solver. Qed.

Lemma M_bind_run {A B} (m : M S E A) (k : A → M S E B) s a s1 :
  m s = (Ok a, s1) → (m ≫= k) s = k a s1.
Proof. unfold mbind, M_bind. by intros ->. Qed.

Lemma M_bind_err {A B} (m : M S E A) (k : A → M S E B) s e s1 :
  m s = (Err e, s1) → (m ≫= k) s = (Err e, s1).
Proof. unfold mbind, M_bind. by intros ->. Qed.

Lemma M_bind_panic {A B} (m : M S E A) (k : A → M S E B) s s1 :
  m s = (Panic, s1) → (m ≫= k) s = (Panic, s1).
Proof. unfold mbind, M_bind. by intros ->. Qed.

Lemma M_bind_assoc {A B C} (m : M S E A) (f : A → M S E B) (g : B → M S E C) s :
  ((m ≫= f) ≫= g) s = (m ≫= λ x, f x ≫= g) s.
Proof. unfold mbind, M_bind. by destruct (m s) as [[]]. Qed.

Lemma M_ret_ok {A} (a r : A) s s' :
  (mret a : M S E A) s = (Ok r, s') → r = a ∧ s' = s.
Proof. unfold mret, M_ret. naive_solver. Qed.

Lemma lift_ok {A} (o : outcome E A) s r s' :
  (lift o : M S E A) s = (Ok r, s') → o = Ok r ∧ s' = s.
Proof. unfold lift. naive_solver. Qed.

Lemma gets_ok {A} (f : S → A) s r s' :
  (gets f : M S E A) s = (Ok r, s') → r = f s ∧ s' = s.
Proof. unfold gets. naive_solver. Qed.

Lemma modify_ok (f : S → S) s r s' :
  (modify f : M S E unit) s = (Ok r, s') → s' = f s.
Proof. unfold modify. naive_solver. Qed.

Lemma ensure_ok (b : bool) (e : E) s r s' :
  (ensure b e : M S E unit) s = (Ok r, s') → b = true ∧ s' = s.
Proof. unfold ensure, mret, M_ret, fail. destruct b; naive_solver. Qed.

Lemma fail_ok {A} (e : E) s (r : A) s' : (fail e : M S E A) s = (Ok r, s') → False.
Proof. done. Qed.

Lemma panic_ok {A} s (r : A) s' : (panic : M S E A) s = (Ok r, s') → False.
Proof. done. Qed.

(** A run that is known to succeed, written with its final state. *)
Lemma run_snd {A} (m : M S E A) s : is_ok (m s).1 = true → ∃ r, m s = (Ok r, (m s).2).
Proof. destruct (m s) as [[r|e|] s']; naive_solver. Qed.

Lemma transact_ok {A} (m : M S E A) s r s' :
  transact m s = (Ok r, s') ↔ m s = (Ok r, s').
Proof. unfold transact. destruct (m s) as [[]]; naive_solver. Qed.

Lemma transact_not_ok {A} (m : M S E A) s o s' :
  transact m s = (o, s') → (∀ r, o ≠ Ok r) → s' = s.
Proof. unfold transact. destruct (m s) as [[]]; naive_solver. Qed.

End run.

(** Runs the first operation of a handler, of which [tac] proves the result. *)
Tactic Notation "run_step" "by" tactic3(tac) :=
  rewrite ?M_bind_assoc; erewrite M_bind_run; [|tac]; cbv beta iota.

Lemma outcome_bind_ok {E A B} (m : outcome E A) (k : A → outcome E B) r :
  m ≫= k = Ok r → ∃ a, m = Ok a ∧ k a = Ok r.
Proof. destruct m; naive_solver. Qed.

Lemma map_err_ok {E F A} (f : E → F) (o : outcome E A) r :
  map_err f o = Ok r → o = Ok r.
Proof. destruct o; naive_solver. Qed.

Lemma ok_or_ok {E A} (o : option A) (e : E) r : ok_or o e = Ok r → o = Some r.
Proof. destruct o; naive_solver. Qed.

Lemma checked_ok {E} w x y : (checked w x : outcome E N) = Ok y → y = x ∧ x ≤ umax w.
Proof. unfold checked. destruct (N.leb_spec x (umax w)); naive_solver. Qed.

Lemma checked_le {E} w x : x ≤ umax w → (checked w x : outcome E N) = Ok x.
Proof. unfold checked. destruct (N.leb_spec x (umax w)); [done|lia]. Qed.

Lemma checked_gt {E} w x : umax w < x → (checked w x : outcome E N) = Panic.
Proof. unfold checked. destruct (N.leb_spec x (umax w)); [lia|done]. Qed.

Lemma uadd_ok {E} w a b y : (uadd w a b : outcome E N) = Ok y → y = a + b ∧ a + b ≤ umax w.
Proof. apply checked_ok. Qed.

Lemma umul_ok {E} w a b y : (umul w a b : outcome E N) = Ok y → y = a * b ∧ a * b ≤ umax w.
Proof. apply checked_ok. Qed.

Lemma usub_ok {E} a b y : (usub a b : outcome E N) = Ok y → y = a - b ∧ b ≤ a.
Proof. unfold usub. destruct (N.leb_spec b a); naive_solver. Qed.

Lemma try_into_ok {E} w x y : (try_into w x : outcome E N) = Ok y → y = x ∧ x ≤ umax w.
Proof. apply checked_ok. Qed.

(** Decomposes the hypotheses that say a computation returned [Ok]. The tactic
    [run_hook] is extended by the files that add primitives. *)
Ltac run_hook := fail.
Ltac inv_run_step :=
  match goal with
  | H : mbind _ _ _ = (Ok _, _) |- _ =>
      apply M_bind_ok in H as (? & ? & ? & H); cbv beta in H
  | H : mbind _ _ = Ok _ |- _ =>
      apply outcome_bind_ok in H as (? & ? & H); cbv beta in H
  | H : mret _ _ = (Ok _, _) |- _ => apply M_ret_ok in H as [? ?]; subst
  | H : lift _ _ = (Ok _, _) |- _ => apply lift_ok in H as [H ->]
  | H : gets _ _ = (Ok _, _) |- _ => apply gets_ok in H as [-> ->]
  | H : modify _ _ = (Ok _, _) |- _ => apply modify_ok in H as ->
  | H : ensure _ _ _ = (Ok _, _) |- _ => apply ensure_ok in H as [H ->]
  | H : fail _ _ = (Ok _, _) |- _ => destruct (fail_ok _ _ _ _ H)
  | H : panic _ = (Ok _, _) |- _ => destruct (panic_ok _ _ _ H)
  | H : map_err _ _ = Ok _ |- _ => apply map_err_ok in H
  | H : ok_or _ _ = Ok _ |- _ => apply ok_or_ok in H
  | H : uadd _ _ _ = Ok _ |- _ => apply uadd_ok in H as [-> H]
  | H : umul _ _ _ = Ok _ |- _ => apply umul_ok in H as [-> H]
  | H : usub _ _ = Ok _ |- _ => apply usub_ok in H as [-> H]
  | H : try_into _ _ = Ok _ |- _ => apply try_into_ok in H as [-> H]
  | H : negb _ = true |- _ => apply negb_true_iff in H
  | H : negb _ = false |- _ => apply negb_false_iff in H
  | H : bool_decide _ = true |- _ => apply bool_decide_eq_true_1 in H
  | H : bool_decide _ = false |- _ => apply bool_decide_eq_false_1 in H
  | H : (_ <? _)%N = true |- _ => apply N.ltb_lt in H
  | H : (_ <? _)%N = false |- _ => apply N.ltb_ge in H
  | H : (_ <=? _)%N = true |- _ => apply N.leb_le in H
  | H : (_ <=? _)%N = false |- _ => apply N.leb_gt in H
  | H : (_ =? _)%N = true |- _ => apply N.eqb_eq in H
  | H : (_ =? _)%N = false |- _ => apply N.eqb_neq in H
  | H : mret _ = Ok _ |- _ => injection H as H; subst
  | H : Ok _ = Ok _ |- _ => injection H as H; subst
  | H : Err _ = Ok _ |- _ => discriminate H
  | H : Panic = Ok _ |- _ => discriminate H
  | _ => run_hook
  end.
Ltac inv_run := repeat inv_run_step.

Lemma to_be_bytes_inj n x y :
  x < 256 ^ N.of_nat n → y < 256 ^ N.of_nat n → to_be_bytes n x = to_be_bytes n y → x = y.
Proof.
  revert x y. induction n as [|n IH]; intros x y; [simpl; lia|].
  rewrite Nat2N.inj_succ, N.pow_succ_r by lia. intros Hx Hy [Hd Hm]%app_inj_2; [|done].
  apply IH in Hd; [|by apply N.Div0.div_lt_upper_bound..]. injection Hm as Hm.
  rewrite (N.div_mod x 256), (N.div_mod y 256) by done. by rewrite Hd, Hm.
Qed.

(** ** Lists *)

Lemma StronglySorted_weaken {A} (R R' : relation A) (l : list A) :
  (∀ x y, R x y → R' x y) → StronglySorted R l → StronglySorted R' l.
Proof.
  intros HR. induction 1 as [|x l Hs IH Hall]; constructor; [done|].
  eapply Forall_impl; [exact Hall|]. auto.
Qed.


Section entries.
Context {K V : Type} `{Countable K} `{KeyOrder K}.
Implicit Types m : gmap K V.

Lemma entries_Permutation m : entries m ≡ₚ map_to_list m.
Proof. apply merge_sort_Permutation. Qed.

Lemma elem_of_entries m k v : (k, v) ∈ entries m ↔ m !! k = Some v.
Proof. by rewrite entries_Permutation, elem_of_map_to_list. Qed.

Lemma length_entries m : length (entries m) = size m.
Proof. rewrite entries_Permutation. apply length_map_to_list. Qed.

Lemma NoDup_fst_entries m : NoDup (entries m).*1.
Proof. rewrite entries_Permutation. apply NoDup_fst_map_to_list. Qed.

#[global] Instance entry_le_total : Total (entry_le (K:=K) (V:=V)).
Proof. intros p q. apply (total key_le). Qed.
#[global] Instance entry_le_trans : Transitive (entry_le (K:=K) (V:=V)).
Proof. intros p q r. unfold entry_le. apply transitivity. Qed.

(** Strictly ascending keys. *)
Definition ascending (l : list (K * V)) : Prop :=
  StronglySorted (λ p q : K * V, key_lt p.1 q.1) l.

Lemma ascending_of_sorted (l : list (K * V)) :
  StronglySorted entry_le l → NoDup l.*1 → ascending l.
Proof.
  induction 1 as [|p l Hs IH Hall]; simpl; [constructor|].
  rewrite NoDup_cons. intros [Hnin Hnd]. constructor; [by apply IH|].
  rewrite Forall_forall in Hall |- *. intros q Hq. split; [by apply Hall|].
  intros Heq. apply Hnin. rewrite Heq. by apply list_elem_of_fmap_2.
Qed.

Lemma entries_ascending m : ascending (entries m).
Proof.
  apply ascending_of_sorted; [|apply NoDup_fst_entries].
  apply StronglySorted_merge_sort; apply _.
Qed.

Lemma ascending_NoDup (l : list (K * V)) : ascending l → NoDup l.
Proof.
  induction 1 as [|p l Hs IH Hall]; constructor; [|done].
  intros Hin. rewrite Forall_forall in Hall. by destruct (Hall p Hin) as [_ []].
Qed.

(** An ascending list is determined by its elements. *)
Lemma ascending_unique (l l' : list (K * V)) :
  ascending l → ascending l' → (∀ k v, (k, v) ∈ l ↔ (k, v) ∈ l') → l = l'.
Proof.
  intros Hl Hl' Heq. eapply StronglySorted_unique_strong; [|apply Hl|apply Hl'|].
  - intros p q _ _ [Hpq Hne] [Hqp _]. destruct Hne. by apply (anti_symm key_le).
  - apply NoDup_Permutation; [by apply ascending_NoDup..|]. by intros [k v].
Qed.

(** The entries are the only ascending list with the elements of the map. *)
Lemma entries_unique m (l : list (K * V)) :
  ascending l → (∀ k v, (k, v) ∈ l ↔ m !! k = Some v) → entries m = l.
Proof.
  intros Hl Heq. apply ascending_unique; [apply entries_ascending|done|].
  intros k v. by rewrite elem_of_entries, Heq.
Qed.

Lemma ascending_snoc (l : list (K * V)) k v :
  ascending l → (∀ k' v', (k', v') ∈ l → key_lt k' k) → ascending (l ++ [(k, v)]).
Proof.
  intros Hl Hlast. apply StronglySorted_app. split_and!; [|done|by repeat constructor].
  intros [k1 v1] q Hin ->%list_elem_of_singleton. simpl. eauto.
Qed.

Lemma ascending_filter (P : K * V → Prop) `{∀ x, Decision (P x)} (l : list (K * V)) :
  ascending l → ascending (filter P l).
Proof.
  induction 1 as [|p l Hs IH Hall]; [constructor|].
  rewrite filter_cons. destruct (decide (P p)); [|done]. constructor; [done|].
  rewrite Forall_forall in Hall |- *. intros q [_ Hq]%list_elem_of_filter. by apply Hall.
Qed.

Lemma entries_filter (P : K * V → Prop) `{∀ x, Decision (P x)} m :
  entries (filter P m) = filter P (entries m).
Proof.
  apply entries_unique; [apply ascending_filter, entries_ascending|].
  intros k v. rewrite list_elem_of_filter, map_lookup_filter_Some, elem_of_entries. tauto.
Qed.

Lemma entries_empty : entries (∅ : gmap K V) = [].
Proof. apply entries_unique; [constructor|]. intros. rewrite lookup_empty. set_solver. Qed.

(** Inserting above all keys appends. *)
Lemma entries_insert_last m k v :
  (∀ k' v', m !! k' = Some v' → key_lt k' k) → entries (<[k:=v]> m) = entries m ++ [(k, v)].
Proof.
  intros Hlast. apply entries_unique.
  - apply ascending_snoc; [apply entries_ascending|].
    intros k' v' Hin%elem_of_entries. eauto.
  - intros k' v'. rewrite elem_of_app, list_elem_of_singleton, elem_of_entries.
    destruct (decide (k = k')) as [->|Hne].
    + rewrite lookup_insert_eq. destruct (m !! k') eqn:Hk; [|naive_solver].
      by destruct (Hlast _ _ Hk) as [_ []].
    + rewrite lookup_insert_ne by done. naive_solver.
Qed.

(** Removing the first entry leaves the tail. *)
Lemma entries_delete_first m k v l :
  entries m = (k, v) :: l → entries (delete k m) = l.
Proof.
  intros Hm. pose proof (entries_ascending m) as Hasc. rewrite Hm in Hasc.
  inversion_clear Hasc as [|? ? Hs Hall]. apply entries_unique; [done|].
  rewrite Forall_forall in Hall. intros k' v'.
  rewrite lookup_delete_Some, <-elem_of_entries, Hm, elem_of_cons.
  split; [|naive_solver]. intros Hin. split; [|by right].
  intros <-. by destruct (Hall _ Hin) as [_ []].
Qed.

End entries.

(** ** Entries under a prefix *)

Section prefix.
Context {A B V : Type} `{Countable A} `{Countable B} `{KeyOrder A} `{KeyOrder B}.
Implicit Types m : gmap (A * B) V.

Lemma elem_of_prefix_entries (a : A) m b v :
  (b, v) ∈ prefix_entries a m ↔ m !! (a, b) = Some v.
Proof.
  unfold prefix_entries. rewrite list_elem_of_omap. split.
  - intros ([[a' b'] v'] & Hin%elem_of_entries & Heq). simpl in Heq. by case_decide; simplify_eq.
  - intros Hm. exists ((a, b), v). rewrite elem_of_entries. simpl. by rewrite decide_True.
Qed.

Lemma prefix_entries_insert (a : A) m b v :
  m !! (a, b) = None → prefix_entries a (<[(a, b):=v]> m) ≡ₚ (b, v) :: prefix_entries a m.
Proof.
  intros Hm. unfold prefix_entries. rewrite !entries_Permutation, map_to_list_insert by done.
  simpl. by rewrite decide_True.
Qed.

Lemma prefix_entries_insert_other (a a' : A) m b v :
  a ≠ a' → m !! (a', b) = None →
  prefix_entries a (<[(a', b):=v]> m) ≡ₚ prefix_entries a m.
Proof.
  intros Hne Hm. unfold prefix_entries.
  rewrite !entries_Permutation, map_to_list_insert by done.
  simpl. by rewrite decide_False.
Qed.

Lemma prefix_entries_ascending (a : A) m : ascending (prefix_entries a m).
Proof.
  unfold prefix_entries. induction (entries_ascending m) as [|[[a1 b1] v1] l _ IH Hall];
    simpl; [constructor|].
  case_decide; [|done]. simpl in *. subst. constructor; [done|].
  rewrite Forall_forall in Hall. apply Forall_forall. intros [b2 v2] ([[a' b'] v'] & Hin & Heq)%list_elem_of_omap.
  simpl in Heq. case_decide; simplify_eq. destruct (Hall _ Hin) as [Hle Hne]. simpl in *.
  destruct Hle as [[_ []]|[_ Hle]]; [done|]. split; [done|]. naive_solver.
Qed.

Lemma prefix_entries_unique (a : A) m (l : list (B * V)) :
  ascending l → (∀ b v, (b, v) ∈ l ↔ m !! (a, b) = Some v) → prefix_entries a m = l.
Proof.
  intros Hl Heq. apply ascending_unique; [apply prefix_entries_ascending|done|].
  intros b v. by rewrite elem_of_prefix_entries, Heq.
Qed.

Lemma prefix_entries_ext (a : A) m m' :
  (∀ b, m !! (a, b) = m' !! (a, b)) → prefix_entries a m = prefix_entries a m'.
Proof.
  intros Hm. apply prefix_entries_unique; [apply prefix_entries_ascending|].
  intros b v. by rewrite elem_of_prefix_entries, Hm.
Qed.

(** Inserting above all keys of the prefix appends. *)
Lemma prefix_entries_insert_last (a : A) m b v :
  (∀ b' v', m !! (a, b') = Some v' → key_lt b' b) →
  prefix_entries a (<[(a, b):=v]> m) = prefix_entries a m ++ [(b, v)].
Proof.
  intros Hlast. apply prefix_entries_unique.
  - apply ascending_snoc; [apply prefix_entries_ascending|].
    intros b' v' Hin%elem_of_prefix_entries. eauto.
  - intros b' v'. rewrite elem_of_app, list_elem_of_singleton, elem_of_prefix_entries.
    destruct (decide (b = b')) as [->|Hne].
    + rewrite lookup_insert_eq. destruct (m !! (a, b')) eqn:Hk; [|naive_solver].
      by destruct (Hlast _ _ Hk) as [_ []].
    + rewrite lookup_insert_ne by naive_solver. naive_solver.
Qed.

(** Removing the first entry of the prefix leaves the tail. *)
Lemma prefix_entries_delete_first (a : A) m b v l :
  prefix_entries a m = (b, v) :: l → prefix_entries a (delete (a, b) m) = l.
Proof.
  intros Hm. pose proof (prefix_entries_ascending a m) as Hasc. rewrite Hm in Hasc.
  inversion_clear Hasc as [|? ? Hs Hall]. apply prefix_entries_unique; [done|].
  rewrite Forall_forall in Hall. intros b' v'.
  rewrite lookup_delete_Some, <-elem_of_prefix_entries, Hm, elem_of_cons.
  split; [|naive_solver]. intros Hin. split; [|by right].
  intros [= <-]. by destruct (Hall _ Hin) as [_ []].
Qed.
End prefix.

(** ** Maps updated for every element of a list *)

Section folds.
Context {K V : Type} `{Countable K}.

Lemma is_Some_foldl_insert (v : V) (m : gmap K V) (l : list K) k :
  is_Some (foldl (λ m a, <[a:=v]> m) m l !! k) ↔ is_Some (m !! k) ∨ k ∈ l.
Proof.
  revert m. induction l as [|a l IH]; intros m; simpl; [set_solver|].
  rewrite IH, lookup_insert_is_Some, elem_of_cons. destruct (decide (a = k)); naive_solver.
Qed.

Lemma is_Some_foldl_delete (m : gmap K V) (l : list K) k :
  is_Some (foldl (λ m a, delete a m) m l !! k) ↔ is_Some (m !! k) ∧ k ∉ l.
Proof.
  revert m. induction l as [|a l IH]; intros m; simpl; [set_solver|].
  rewrite IH, lookup_delete_is_Some, elem_of_cons. naive_solver.
Qed.
End folds.

(** ** Computations that keep a property of the state *)

(** Whatever the outcome, the storage the computation leaves satisfies [P]. *)
Definition preserves {S E A} (P : S → Prop) (m : M S E A) : Prop := ∀ s, P s → P (m s).2.

Create HintDb preserves.

Section preserves.
Context {S E : Type} (P : S → Prop).

Lemma preserves_bind {A B} (m : M S E A) (k : A → M S E B) :
  preserves P m → (∀ a, preserves P (k a)) → preserves P (m ≫= k).
Proof.
  intros Hm Hk s Hs. specialize (Hm s Hs). unfold mbind, M_bind.
  destruct (m s) as [[a|e|] s']; simpl in *; [by apply Hk|done..].
Qed.

Lemma preserves_ret {A} (a : A) : preserves P (mret a : M S E A).
Proof. by intros s. Qed.
Lemma preserves_lift {A} (o : outcome E A) : preserves P (lift o).
Proof. by intros s. Qed.
(** The rest of the computation may use what the result is. *)
Lemma preserves_lift_then {A B} (o : outcome E A) (k : A → M S E B) :
  (∀ a, o = Ok a → preserves P (k a)) → preserves P (a ← lift o; k a).
Proof. intros Hk s Hs. unfold mbind, M_bind, lift. destruct o; [by apply Hk|done..]. Qed.
Lemma preserves_fail {A} (e : E) : preserves P (fail e : M S E A).
Proof. by intros s. Qed.
Lemma preserves_panic {A} : preserves P (panic : M S E A).
Proof. by intros s. Qed.
Lemma preserves_gets {A} (f : S → A) : preserves P (gets f : M S E A).
Proof. by intros s. Qed.
Lemma preserves_ensure (b : bool) (e : E) : preserves P (ensure b e).
Proof. destruct b; by intros s. Qed.
Lemma preserves_modify (f : S → S) :
  (∀ s, P s → P (f s)) → preserves P (modify f : M S E unit).
Proof. intros Hf s Hs. by apply Hf. Qed.

Lemma preserves_for_each {A} (f : A → M S E unit) l :
  (∀ x, preserves P (f x)) → preserves P (for_each f l).
Proof.
  intros Hf. induction l as [|x l IH]; simpl; [apply preserves_ret|].
  apply preserves_bind; [done|]. intros _. apply IH.
Qed.

Lemma preserves_map_m {A B} (f : A → M S E B) l :
  (∀ x, preserves P (f x)) → preserves P (map_m f l).
Proof.
  intros Hf. induction l as [|x l IH]; simpl; [apply preserves_ret|].
  apply preserves_bind; [done|]. intros y. apply preserves_bind; [done|].
  intros ys. apply preserves_ret.
Qed.

Lemma preserves_run {A} (m : M S E A) s o s' : preserves P m → m s = (o, s') → P s → P s'.
Proof. intros Hm Hrun Hs. specialize (Hm s Hs). by rewrite Hrun in Hm. Qed.
End preserves.

#[export] Hint Resolve preserves_ret preserves_lift preserves_fail preserves_panic
  preserves_gets preserves_ensure : preserves.

(** Follows the structure of a computation. Writes are left as goals on the
    states. *)
Ltac preserve :=
  repeat match goal with
  | |- preserves _ (mbind _ _) => apply preserves_bind; [|intros ?]
  | |- preserves _ (for_each _ _) => apply preserves_for_each; intros ?
  | |- preserves _ (map_m _ _) => apply preserves_map_m; intros ?
  | |- preserves _ (match ?x with _ => _ end) => destruct x
  | |- preserves _ _ => solve [auto with preserves]
  end.

(** ** Computations that cannot return an error *)

(** From a state that satisfies [P] the computation returns or panics, and
    leaves a state that satisfies [P]. *)
Definition unfailing {S E A} (P : S → Prop) (m : M S E A) : Prop :=
  ∀ s, P s → P (m s).2 ∧ ∀ e, (m s).1 ≠ Err e.

Create HintDb unfailing.

Section unfailing.
Context {S E : Type} (P : S → Prop).

Lemma unfailing_bind {A B} (m : M S E A) (k : A → M S E B) :
  unfailing P m → (∀ a, unfailing P (k a)) → unfailing P (m ≫= k).
Proof.
  intros Hm Hk s Hs. destruct (Hm s Hs) as [Hs' Hne]. unfold mbind, M_bind.
  destruct (m s) as [[a|e|] s'] eqn:Hms; simpl in *; [by apply Hk|by destruct (Hne e)|by split].
Qed.

(** A read of which the result is known. *)
Lemma unfailing_read {A B} (m : M S E A) (R : A → Prop) (k : A → M S E B) :
  (∀ s, P s → ∃ a, m s = (Ok a, s) ∧ R a) → (∀ a, R a → unfailing P (k a)) →
  unfailing P (m ≫= k).
Proof.
  intros Hm Hk s Hs. destruct (Hm s Hs) as (a & Ha & HR). rewrite (M_bind_run _ _ _ _ _ Ha).
  by apply Hk.
Qed.

Lemma unfailing_ret {A} (a : A) : unfailing P (mret a : M S E A).
Proof. by intros s. Qed.
Lemma unfailing_panic {A} : unfailing P (panic : M S E A).
Proof. by intros s. Qed.
Lemma unfailing_gets {A} (f : S → A) : unfailing P (gets f : M S E A).
Proof. by intros s. Qed.
Lemma unfailing_modify (f : S → S) :
  (∀ s, P s → P (f s)) → unfailing P (modify f : M S E unit).
Proof. intros Hf s Hs. split; [by apply Hf|done]. Qed.
Lemma unfailing_lift {A} (o : outcome E A) : (∀ e, o ≠ Err e) → unfailing P (lift o).
Proof. by intros Ho s. Qed.
End unfailing.

Lemma checked_no_err {E} w x (e : E) : checked w x ≠ Err e.
Proof. unfold checked. by destruct (_ <=? _). Qed.
Lemma usub_no_err {E} a b (e : E) : usub a b ≠ Err e.
Proof. unfold usub. by destruct (_ <=? _). Qed.
Lemma outcome_bind_no_err {E A B} (o : outcome E A) (k : A → outcome E B) :
  (∀ e, o ≠ Err e) → (∀ a e, k a ≠ Err e) → ∀ e, (o ≫= k) ≠ Err e.
Proof. intros Ho Hk e. destruct o as [a|e'|]; simpl; [apply Hk|by destruct (Ho e')|done]. Qed.

#[export] Hint Resolve checked_no_err usub_no_err outcome_bind_no_err : unfailing.
#[export] Hint Extern 1 (uadd _ _ _ ≠ Err _) => apply checked_no_err : unfailing.
#[export] Hint Extern 1 (umul _ _ _ ≠ Err _) => apply checked_no_err : unfailing.
#[export] Hint Extern 1 (try_into _ _ ≠ Err _) => apply checked_no_err : unfailing.
#[export] Hint Extern 1 (Ok _ ≠ Err _) => discriminate : unfailing.
#[export] Hint Resolve unfailing_ret unfailing_panic unfailing_gets unfailing_lift : unfailing.

Ltac unfail :=
  repeat match goal with
  | |- unfailing _ (mbind _ _) => apply unfailing_bind; [|intros ?]
  | |- unfailing _ (match ?x with _ => _ end) => destruct x
  | |- unfailing _ _ => solve [eauto with unfailing]
  end.

(** ** Loops *)

Lemma for_each_preserves {S E A} (P : S → Prop) (f : A → M S E unit) l s u s' :
  (∀ x s u s', x ∈ l → f x s = (Ok u, s') → P s → P s') →
  for_each f l s = (Ok u, s') → P s → P s'.
Proof.
  revert s. induction l as [|x l IH]; simpl; intros s Hf Hrun Hs; inv_run; [done|].
  eapply IH; [|done|].
  - intros. eapply Hf; [|done..]. by right.
  - eapply Hf; [|done..]. by left.
Qed.

(** ** Invariants of transition systems *)

Section reachable.
Context {S : Type} (init : S → Prop) (step : S → S → Prop).

Lemma rtc_preserved (I : S → Prop) s s' :
  (∀ s s', I s → step s s' → I s') → I s → rtc step s s' → I s'.
Proof. intros Hstep Hs. induction 1; eauto. Qed.

Lemma reachable_invariant (I : S → Prop) :
  (∀ s, init s → I s) → (∀ s s', I s → step s s' → I s') →
  ∀ s, reachable init step s → I s.
Proof. intros Hi Hstep s (s0 & H0 & Hr). eapply rtc_preserved; eauto. Qed.

Lemma reachable_step s s' : reachable init step s → step s s' → reachable init step s'.
Proof. intros (s0 & H0 & Hr) Hs. exists s0. split; [done|]. by eapply rtc_r. Qed.

Lemma reachable_init s : init s → reachable init step s.
Proof. intros. by exists s. Qed.
End reachable.

(** ** Intervals of identifiers *)

(** [n] consecutive numbers from [a]. *)
Fixpoint seqN (a : N) (n : nat) : list N :=
  match n with
  | O => []
  | S n => a :: seqN (a + 1) n
  end.

Lemma elem_of_seqN a n x : x ∈ seqN a n ↔ a ≤ x < a + N.of_nat n.
Proof.
  revert a. induction n as [|n IH]; intros a; simpl.
  - split; [intros Hx; by apply elem_of_nil in Hx|lia].
  - rewrite elem_of_cons, IH. lia.
Qed.

Lemma length_seqN a n : length (seqN a n) = n.
Proof. revert a. induction n; intros; simpl; auto. Qed.

Lemma StronglySorted_seqN a n : StronglySorted N.lt (seqN a n).
Proof.
  revert a. induction n as [|n IH]; intros a; simpl; constructor; [done|].
  apply Forall_forall. intros x Hx%elem_of_seqN. lia.
Qed.

Lemma take_seqN k a n : take k (seqN a n) = seqN a (k `min` n).
Proof. revert a n. induction k as [|k IH]; intros a [|n]; simpl; by rewrite ?IH. Qed.

Lemma seqN_snoc a n : seqN a (S n) = seqN a n ++ [a + N.of_nat n].
Proof.
  revert a. induction n as [|n IH]; intros a; [simpl; by rewrite N.add_0_r|].
  change (seqN a (S (S n))) with (a :: seqN (a + 1) (S n)). rewrite IH.
  by replace (a + N.of_nat (S n)) with (a + 1 + N.of_nat n) by lia.
Qed.

(** A strictly increasing list is determined by its elements. *)
Lemma sorted_lt_unique (l l' : list N) :
  StronglySorted N.lt l → StronglySorted N.lt l' → (∀ x, x ∈ l ↔ x ∈ l') → l = l'.
Proof.
  assert (∀ k : list N, StronglySorted N.lt k → NoDup k) as Hnd.
  { induction 1 as [|x k Hs IH Hall]; constructor; [|done].
    intros Hin. rewrite Forall_forall in Hall. specialize (Hall x Hin). lia. }
  intros Hl Hl' Heq. eapply StronglySorted_unique_strong; [| |apply Hl'|].
  - intros x y _ _ ? ?. lia.
  - done.
  - by apply NoDup_Permutation; [apply Hnd|apply Hnd|].
Qed.

Lemma key_lt_N (a b : N) : key_lt a b ↔ a < b.
Proof. unfold key_lt. change (key_le a b) with (a ≤ b). lia. Qed.

Lemma ascending_keys {V} (l : list (N * V)) : ascending l → StronglySorted N.lt l.*1.
Proof.
  induction 1 as [|p l Hs IH Hall]; simpl; constructor; [done|].
  apply Forall_fmap. eapply Forall_impl; [exact Hall|]. intros q Hq.
  change (p.1 < q.1). by apply key_lt_N.
Qed.

Lemma ascending_interval {V} (l : list (N * V)) a n :
  ascending l → (∀ k, (∃ v, (k, v) ∈ l) ↔ a ≤ k < a + N.of_nat n) → l.*1 = seqN a n.
Proof.
  intros Hl Hk. apply sorted_lt_unique; [by apply ascending_keys|apply StronglySorted_seqN|].
  intros x. rewrite elem_of_seqN, <-Hk, list_elem_of_fmap. split.
  - intros ([k v] & -> & Hin). by exists v.
  - intros [v Hin]. by exists (x, v).
Qed.
