(* ===== verification/CosmWasm.v ===== *)
(** * The contract runtime: values, storage, messages

    The vocabulary that the contracts take from [cosmwasm_std] and
    [cw_storage_plus]. Data types are written with the constructors the
    contracts use. What the chain computes for a contract (address validation,
    queries, serialization, number formatting) is a parameter: the records
    [Api] and [Querier], bundled in [Deps], and the classes [Json] and
    [Display]. An [Item] is an optional value and a [Map] a finite map inside
    the contract's storage record, reached through a getter and a setter. *)
From stdpp Require Import prelude gmap strings list sorting pretty.
From Stdlib Require Import NArith Lia.
From S2P Require Import Prelude.

(** ** Values *)

(** A Rocq [string] is a sequence of bytes: it stands for Rust's UTF-8
    strings as well as for [Binary] and [HexBinary]. *)
Abbreviation Addr := string (only parsing).
Abbreviation Binary := string (only parsing).
Abbreviation HexBinary := string (only parsing).

(** Number of bytes. *)
Definition len (b : string) : N := N.of_nat (String.length b).

Record Coin := { amount : Uint128; denom : string }.
#[global] Instance Coin_eq_dec : EqDecision Coin.
Proof. solve_decision. Defined.

(** [coin(amount, denom)] and [Coin::new(amount, denom)] *)
Definition coin (a : Uint128) (d : string) : Coin := {| amount := a; denom := d |}.

(** [Uint128::mul_floor((n, d))]: the product is computed in 256 bits; the
    quotient must fit in 128 bits. *)
Definition mul_floor {E} (x n d : Uint128) : outcome E Uint128 := checked 128 (x * n / d).

(** Nanoseconds since the UNIX epoch, 64 bits. *)
Abbreviation Timestamp := N (only parsing).
Definition nanos_per_second : N := 1000000000.
Definition from_seconds (s : u64) : Timestamp := s * nanos_per_second.
Definition from_nanos (n : u64) : Timestamp := n.
Definition plus_nanos {E} (t : Timestamp) (n : u64) : outcome E Timestamp := uadd 64 t n.
Definition plus_seconds {E} (t : Timestamp) (s : u64) : outcome E Timestamp :=
  uadd 64 t (s * nanos_per_second).

(** ** Errors *)

Inductive StdError :=
  | StdError_GenericErr (msg : string)
  | StdError_NotFound
  | StdError_ParseErr (msg : string)
  | StdError_SerializeErr (msg : string)
  | StdError_Other (msg : string).
#[global] Instance StdError_eq_dec : EqDecision StdError.
Proof. solve_decision. Defined.

(** [impl From<StdError> for E], the conversion made by the [?] operator. *)
Class FromStd (E : Type) := from_std : StdError → E.
#[global] Instance FromStd_self : FromStd StdError := id.

(** An error type with no values. *)
Abbreviation Never := Empty_set (only parsing).

(** [r?] for a [StdResult]. *)
Definition std {S E A} `{FromStd E} (o : outcome StdError A) : M S E A :=
  lift (map_err from_std o).

(** ** What the chain computes for a contract *)

Record Api := {
  addr_validate_ : string → outcome StdError Addr;
  addr_canonicalize_ : string → outcome StdError Binary;
  addr_humanize_ : Binary → outcome StdError Addr;
}.

Inductive SystemError :=
  | SystemError_NoSuchCode (code_id : u64)
  | SystemError_Other (msg : string).

Record Querier := {
  query_balance_ : Addr → string → outcome StdError Coin;
  (** the checksum in [CodeInfoResponse] *)
  query_wasm_code_info_ : u64 → outcome StdError Binary;
  (** [raw_query] of [WasmQuery::CodeInfo]: [None] for [SystemResult::Ok] *)
  raw_query_code_info_ : u64 → option SystemError;
}.

Record Deps := { api : Api; querier : Querier }.

Definition addr_validate {S E} `{FromStd E} (deps : Deps) (a : string) : M S E Addr :=
  std (addr_validate_ (api deps) a).
Definition query_balance {S E} `{FromStd E} (deps : Deps) (a : Addr) (d : string) : M S E Coin :=
  std (query_balance_ (querier deps) a d).

(** [to_json_binary] and [from_json] for the types of the contracts. *)
Class Json (A : Type) := {
  to_json_binary : A → outcome StdError Binary;
  from_json : Binary → outcome StdError A;
}.

(** What the contracts rely on: serializing one of their own values succeeds
    and parsing the result gives the value back. *)
Class JsonLaws (A : Type) `{Json A} :=
  json_roundtrip : ∀ x : A, ∃ b, to_json_binary x = Ok b ∧ from_json b = Ok x.

(** [Display] and hex formatting of library types, used in event attributes
    and error messages. *)
Class Display := {
  show_coin : Coin → string;
  show_timestamp : Timestamp → string;
  show_std_error : StdError → string;
  show_system_error : SystemError → string;
  to_hex : HexBinary → string;
}.

(** [anybuf::Anybuf], the protobuf writer: field number, value, buffer. *)
Class Anybuf := {
  Anybuf_new : Binary;
  append_string : N → string → Binary → Binary;
  append_message : N → Binary → Binary → Binary;
}.

Class Sha256 := sha256 : Binary → Binary.

Record Env := {
  block_height : u64;
  block_time : Timestamp;
  (** [env.transaction.map(|t| t.index)] *)
  transaction_index : option u32;
  contract_address : Addr;
}.

Record MessageInfo := { sender : Addr; funds : list Coin }.

(** ** Messages and responses *)

Inductive BankMsg :=
  | BankMsg_Send (to_address : string) (amount : list Coin)
  | BankMsg_Burn (amount : list Coin).

Inductive WasmMsg :=
  | WasmMsg_Execute (contract_addr : string) (msg : Binary) (funds : list Coin)
  | WasmMsg_Instantiate2 (admin : option string) (code_id : u64) (label : string)
      (msg : Binary) (funds : list Coin) (salt : Binary).

Inductive IbcMsg :=
  | IbcMsg_Transfer (channel_id to_address : string) (amount : Coin)
      (timeout : Timestamp) (memo : option string)
  | IbcMsg_SendPacket (channel_id : string) (data : Binary) (timeout : Timestamp).

Inductive StakingMsg :=
  | StakingMsg_Delegate (validator : string) (amount : Coin)
  | StakingMsg_Undelegate (validator : string) (amount : Coin)
  | StakingMsg_Redelegate (src_validator dst_validator : string) (amount : Coin).

Inductive DistributionMsg :=
  | DistributionMsg_WithdrawDelegatorReward (validator : string).

Inductive CosmosMsg :=
  | CosmosMsg_Bank (m : BankMsg)
  | CosmosMsg_Wasm (m : WasmMsg)
  | CosmosMsg_Ibc (m : IbcMsg)
  | CosmosMsg_Staking (m : StakingMsg)
  | CosmosMsg_Distribution (m : DistributionMsg)
  | CosmosMsg_Stargate (type_url : string) (value : Binary).

Inductive ReplyOn := ReplyOn_Never | ReplyOn_Error.

Record SubMsg := {
  sub_id : u64;
  sub_msg : CosmosMsg;
  sub_gas_limit : option u64;
  sub_reply_on : ReplyOn;
}.

(** [SubMsg::new] *)
Definition SubMsg_new (m : CosmosMsg) : SubMsg :=
  {| sub_id := 0; sub_msg := m; sub_gas_limit := None; sub_reply_on := ReplyOn_Never |}.
Definition SubMsg_reply_on_error (m : CosmosMsg) (id : u64) : SubMsg :=
  {| sub_id := id; sub_msg := m; sub_gas_limit := None; sub_reply_on := ReplyOn_Error |}.
Definition with_gas_limit (limit : u64) (m : SubMsg) : SubMsg :=
  {| sub_id := sub_id m; sub_msg := sub_msg m;
     sub_gas_limit := Some limit; sub_reply_on := sub_reply_on m |}.

Abbreviation Attribute := (string * string)%type (only parsing).
Definition attr (k v : string) : Attribute := (k, v).

Record Event := { event_type : string; event_attributes : list Attribute }.

(** [Response] and [IbcBasicResponse] *)
Record Response := {
  messages : list SubMsg;
  attributes : list Attribute;
  events : list Event;
}.
Abbreviation IbcBasicResponse := Response (only parsing).

Definition Response_new : Response := {| messages := []; attributes := []; events := [] |}.
Definition add_submessage (m : SubMsg) (r : Response) : Response :=
  {| messages := messages r ++ [m]; attributes := attributes r; events := events r |}.
Definition add_message (m : CosmosMsg) (r : Response) : Response :=
  add_submessage (SubMsg_new m) r.
Definition add_messages (ms : list CosmosMsg) (r : Response) : Response :=
  {| messages := messages r ++ (SubMsg_new <$> ms);
     attributes := attributes r; events := events r |}.
Definition add_attribute (k v : string) (r : Response) : Response :=
  {| messages := messages r; attributes := attributes r ++ [(k, v)]; events := events r |}.
Definition add_attributes (l : list Attribute) (r : Response) : Response :=
  {| messages := messages r; attributes := attributes r ++ l; events := events r |}.
Definition add_event (e : Event) (r : Response) : Response :=
  {| messages := messages r; attributes := attributes r; events := events r ++ [e] |}.

(** The result of a submessage that is reported to [reply]. *)
Inductive SubMsgResult :=
  | SubMsgResult_Ok
  | SubMsgResult_Err (err : string).
Record Reply := { reply_id : u64; reply_result : SubMsgResult }.

(** ** IBC *)

Inductive IbcOrder := IbcOrder_Unordered | IbcOrder_Ordered.
#[global] Instance IbcOrder_eq_dec : EqDecision IbcOrder.
Proof. solve_decision. Defined.

Record IbcChannel := {
  (** [endpoint.channel_id], the local end *)
  endpoint_channel_id : string;
  order : IbcOrder;
  version : string;
}.

Inductive IbcChannelOpenMsg :=
  | IbcChannelOpenMsg_OpenInit (channel : IbcChannel)
  | IbcChannelOpenMsg_OpenTry (channel : IbcChannel) (counterparty_version : string).
Inductive IbcChannelConnectMsg :=
  | IbcChannelConnectMsg_OpenAck (channel : IbcChannel) (counterparty_version : string)
  | IbcChannelConnectMsg_OpenConfirm (channel : IbcChannel).
Inductive IbcChannelCloseMsg :=
  | IbcChannelCloseMsg_CloseInit (channel : IbcChannel)
  | IbcChannelCloseMsg_CloseConfirm (channel : IbcChannel).

(** [IbcChannelCloseMsg::channel] *)
Definition close_channel (m : IbcChannelCloseMsg) : IbcChannel :=
  match m with
  | IbcChannelCloseMsg_CloseInit c | IbcChannelCloseMsg_CloseConfirm c => c
  end.

Record IbcPacketReceiveMsg := {
  packet_data : Binary;
  (** [packet.dest.channel_id], the local end *)
  packet_dest_channel_id : string;
  relayer : Addr;
}.

Record IbcPacketAckMsg := { acknowledgement_data : Binary }.

Inductive StdAck :=
  | StdAck_Success (data : Binary)
  | StdAck_Error (err : string).

#[global] Instance StdAck_eq_dec : EqDecision StdAck.
Proof. solve_decision. Defined.
#[global] Program Instance StdAck_countable : Countable StdAck :=
  inj_countable'
    (λ a, match a with StdAck_Success d => inl d | StdAck_Error e => inr e end)
    (λ e, match e with inl d => StdAck_Success d | inr e => StdAck_Error e end) _.
Next Obligation. by intros []. Qed.

(** [IbcReceiveResponse]: the acknowledgement (serialized by the runtime) and
    the part it shares with [Response]. *)
Record IbcReceiveResponse := { acknowledgement : StdAck; response : Response }.

(** [.or_else(|e| ...)] in the [ibc_packet_receive] entry points: errors become acknowledgements
    and the writes made before the error stay. *)
Definition or_else_ack {S E F} (display : E → string) (m : M S E IbcReceiveResponse) :
    M S F IbcReceiveResponse := λ s,
  match m s with
  | (Ok r, s') => (Ok r, s')
  | (Err e, s') =>
      (Ok {| acknowledgement := StdAck_Error ("Error processing packet: " +:+ display e);
             response := Response_new
               |> add_event {| event_type := "ibc";
                               event_attributes := [attr "packet" "receive"] |} |}, s')
  | (Panic, s') => (Panic, s')
  end.

(** ** Storage *)

(** [cw_storage_plus::Item<A>] in the storage [S] of a contract. *)
Record Item (S A : Type) := { item_get : S → option A; item_set : option A → S → S }.
Arguments item_get {S A} i s : rename.
Arguments item_set {S A} i v s : rename.

(** [cw_storage_plus::Map<K, V>] *)
Record Map (S K V : Type) `{Countable K} := {
  map_get : S → gmap K V;
  map_set : gmap K V → S → S;
}.
Arguments map_get {S K V _ _} m s : rename.
Arguments map_set {S K V _ _} m v s : rename.

Section storage.
Context {S E : Type}.

Definition may_load {A} (i : Item S A) : M S E (option A) := gets (item_get i).
Definition load `{FromStd E} {A} (i : Item S A) : M S E A := λ s,
  match item_get i s with
  | Some a => (Ok a, s)
  | None => (Err (from_std StdError_NotFound), s)
  end.
(** [load(..).unwrap()] *)
Definition load_unwrap {A} (i : Item S A) : M S E A := λ s,
  match item_get i s with
  | Some a => (Ok a, s)
  | None => (Panic, s)
  end.
Definition save {A} (i : Item S A) (a : A) : M S E unit := modify (item_set i (Some a)).
Definition remove {A} (i : Item S A) : M S E unit := modify (item_set i None).
(** [Item::exists] *)
Definition is_set {A} (i : Item S A) : M S E bool :=
  gets (λ s, match item_get i s with Some _ => true | None => false end).

Lemma std_json_run `{FromStd E} `{JsonLaws A} (x : A) s :
  ∃ b, (std (to_json_binary x) : M S E Binary) s = (Ok b, s).
Proof. destruct (json_roundtrip x) as (b & Hb & _). exists b. by rewrite Hb. Qed.

Context {K V : Type} `{Countable K}.
Definition map_may_load (m : Map S K V) (k : K) : M S E (option V) :=
  gets (λ s, map_get m s !! k).
Definition map_load `{FromStd E} (m : Map S K V) (k : K) : M S E V := λ s,
  match map_get m s !! k with
  | Some v => (Ok v, s)
  | None => (Err (from_std StdError_NotFound), s)
  end.
Definition map_has (m : Map S K V) (k : K) : M S E bool :=
  gets (λ s, bool_decide (is_Some (map_get m s !! k))).
Definition map_save (m : Map S K V) (k : K) (v : V) : M S E unit :=
  modify (λ s, map_set m (<[k:=v]> (map_get m s)) s).
Definition map_remove (m : Map S K V) (k : K) : M S E unit :=
  modify (λ s, map_set m (delete k (map_get m s)) s).
End storage.

(** [Storage::set] of a raw key: the storage refuses an empty value by a panic. *)
Definition raw_set {S E K} `{Countable K} (m : Map S K Binary) (k : K) (v : Binary) :
    M S E unit :=
  if bool_decide (v = "") then panic else map_save m k v.

(** [Deque::push_back] on the elements from front to back. The indices of the
    head and the tail are [u32]s that wrap around: after [2 ^ 32] elements the
    tail meets the head, which reads as an empty deque. *)
Definition push_back {A} (l : list A) (x : A) : list A :=
  if N.of_nat (length l) <? umax 32 then l ++ [x] else [].

(** [cw2]: the contract name and version kept under [contract_info]. *)
Record ContractVersion := { cw2_contract : string; cw2_version : string }.
Definition set_contract_version {S E} (i : Item S ContractVersion) (name version : string) :
    M S E unit :=
  save i {| cw2_contract := name; cw2_version := version |}.

Inductive Order := Order_Ascending | Order_Descending.

(** [Map::range] with optional exclusive bounds, as a list. *)
Definition in_bounds {K V} `{KeyOrder K} (low top : option K) (e : K * V) : Prop :=
  match low with Some l => key_lt l e.1 | None => True end ∧
  match top with Some t => key_lt e.1 t | None => True end.
#[global] Instance in_bounds_dec {K V} `{KeyOrder K} `{EqDecision K} (low top : option K)
    (e : K * V) : Decision (in_bounds low top e).
Proof. unfold in_bounds. destruct low, top; apply _. Defined.

Definition range_of {K V} `{Countable K} `{KeyOrder K} (low top : option K) (o : Order)
    (m : gmap K V) : list (K * V) :=
  let l := filter (in_bounds low top) (entries m) in
  match o with Order_Ascending => l | Order_Descending => reverse l end.

#[global] Arguments range_of : simpl never.

Definition range {S E K V} `{Countable K} `{KeyOrder K} (m : Map S K V)
    (low top : option K) (o : Order) : M S E (list (K * V)) :=
  gets (λ s, range_of low top o (map_get m s)).

(** ** Running storage operations *)

Section storage_lemmas.
Context {S E : Type}.
Implicit Types s : S.

Lemma load_ok `{FromStd E} {A} (i : Item S A) s r s' :
  (load i : M S E A) s = (Ok r, s') → item_get i s = Some r ∧ s' = s.
Proof. unfold load. destruct (item_get i s); naive_solver. Qed.

Lemma load_some `{FromStd E} {A} (i : Item S A) s a :
  item_get i s = Some a → (load i : M S E A) s = (Ok a, s).
Proof. unfold load. by intros ->. Qed.

Lemma load_unwrap_ok {A} (i : Item S A) s r s' :
  (load_unwrap i : M S E A) s = (Ok r, s') → item_get i s = Some r ∧ s' = s.
Proof. unfold load_unwrap. destruct (item_get i s); naive_solver. Qed.

Lemma std_ok `{FromStd E} {A} (o : outcome StdError A) s r s' :
  (std o : M S E A) s = (Ok r, s') → o = Ok r ∧ s' = s.
Proof. unfold std. intros [?%map_err_ok ->]%lift_ok. done. Qed.

Lemma std_run `{FromStd E} {A} (o : outcome StdError A) s a :
  o = Ok a → (std o : M S E A) s = (Ok a, s).
Proof. by intros ->. Qed.

Context {K V : Type} `{Countable K}.

Lemma map_load_ok `{FromStd E} (m : Map S K V) k s r s' :
  (map_load m k : M S E V) s = (Ok r, s') → map_get m s !! k = Some r ∧ s' = s.
Proof. unfold map_load. destruct (map_get m s !! k); naive_solver. Qed.

Lemma map_load_some `{FromStd E} (m : Map S K V) k s v :
  map_get m s !! k = Some v → (map_load m k : M S E V) s = (Ok v, s).
Proof. unfold map_load. by intros ->. Qed.

Lemma map_save_ok (m : Map S K V) k v s r s' :
  (map_save m k v : M S E unit) s = (Ok r, s') →
  s' = map_set m (<[k:=v]> (map_get m s)) s.
Proof. by intros ->%modify_ok. Qed.

Lemma map_remove_ok (m : Map S K V) k s r s' :
  (map_remove m k : M S E unit) s = (Ok r, s') →
  s' = map_set m (delete k (map_get m s)) s.
Proof. by intros ->%modify_ok. Qed.

Lemma map_may_load_ok (m : Map S K V) k s r s' :
  (map_may_load m k : M S E _) s = (Ok r, s') → r = map_get m s !! k ∧ s' = s.
Proof. by intros [-> ->]%gets_ok. Qed.

Lemma map_has_ok (m : Map S K V) k s r s' :
  (map_has m k : M S E _) s = (Ok r, s') →
  r = bool_decide (is_Some (map_get m s !! k)) ∧ s' = s.
Proof. by intros [-> ->]%gets_ok. Qed.
End storage_lemmas.

Lemma raw_set_ok {S E K} `{Countable K} (m : Map S K Binary) k v s r s' :
  (raw_set m k v : M S E unit) s = (Ok r, s') →
  v ≠ "" ∧ s' = map_set m (<[k:=v]> (map_get m s)) s.
Proof. unfold raw_set. case_bool_decide; [done|]. by intros ->%map_save_ok. Qed.

Lemma raw_set_run {S E K} `{Countable K} (m : Map S K Binary) k v s :
  v ≠ "" → (raw_set m k v : M S E unit) s = (Ok tt, map_set m (<[k:=v]> (map_get m s)) s).
Proof. intros Hv. unfold raw_set. by rewrite bool_decide_false. Qed.

Lemma may_load_ok {S E A} (i : Item S A) s r s' :
  (may_load i : M S E _) s = (Ok r, s') → r = item_get i s ∧ s' = s.
Proof. by intros [-> ->]%gets_ok. Qed.

Lemma is_set_ok {S E A} (i : Item S A) s r s' :
  (is_set i : M S E _) s = (Ok r, s') →
  r = match item_get i s with Some _ => true | None => false end ∧ s' = s.
Proof. by intros [-> ->]%gets_ok. Qed.

Lemma save_ok {S E A} (i : Item S A) a s r s' :
  (save i a : M S E _) s = (Ok r, s') → s' = item_set i (Some a) s.
Proof. by intros ->%modify_ok. Qed.

Lemma remove_ok {S E A} (i : Item S A) s r s' :
  (remove i : M S E _) s = (Ok r, s') → s' = item_set i None s.
Proof. by intros ->%modify_ok. Qed.

Ltac run_hook ::=
  match goal with
  | H : load _ _ = (Ok _, _) |- _ => apply load_ok in H as [H ->]
  | H : load_unwrap _ _ = (Ok _, _) |- _ => apply load_unwrap_ok in H as [H ->]
  | H : std _ _ = (Ok _, _) |- _ => apply std_ok in H as [H ->]
  | H : addr_validate _ _ _ = (Ok _, _) |- _ => apply std_ok in H as [H ->]
  | H : query_balance _ _ _ _ = (Ok _, _) |- _ => apply std_ok in H as [H ->]
  | H : may_load _ _ = (Ok _, _) |- _ => apply may_load_ok in H as [-> ->]
  | H : is_set _ _ = (Ok _, _) |- _ => apply is_set_ok in H as [-> ->]
  | H : save _ _ _ = (Ok _, _) |- _ => apply save_ok in H as ->
  | H : remove _ _ = (Ok _, _) |- _ => apply remove_ok in H as ->
  | H : set_contract_version _ _ _ _ = (Ok _, _) |- _ => apply save_ok in H as ->
  | H : map_load _ _ _ = (Ok _, _) |- _ => apply map_load_ok in H as [H ->]
  | H : map_may_load _ _ _ = (Ok _, _) |- _ => apply map_may_load_ok in H as [-> ->]
  | H : map_has _ _ _ = (Ok _, _) |- _ => apply map_has_ok in H as [-> ->]
  | H : map_save _ _ _ _ = (Ok _, _) |- _ => apply map_save_ok in H as ->
  | H : raw_set _ _ _ _ = (Ok _, _) |- _ => apply raw_set_ok in H as [? ->]
  | H : map_remove _ _ _ = (Ok _, _) |- _ => apply map_remove_ok in H as ->
  | H : range _ _ _ _ _ = (Ok _, _) |- _ => apply gets_ok in H as [-> ->]
  | H : plus_seconds _ _ = Ok _ |- _ => apply uadd_ok in H as [-> H]
  | H : plus_nanos _ _ = Ok _ |- _ => apply uadd_ok in H as [-> H]
  | H : mul_floor _ _ _ = Ok _ |- _ => apply checked_ok in H as [-> H]
  end.

(** A loop that validates each address before it uses it. *)
Lemma for_each_addr_ok {S E} `{FromStd E} (deps : Deps) (body : Addr → M S E unit)
    (f : Addr → S → S) (l : list string) s u s' :
  (∀ a s u s', body a s = (Ok u, s') → s' = f a s) →
  for_each (λ x, a ← addr_validate deps x; body a) l s = (Ok u, s') →
  ∃ addrs, Forall2 (λ x a, addr_validate_ (api deps) x = Ok a) l addrs ∧
    s' = foldl (λ s a, f a s) s addrs.
Proof.
  intros Hbody. revert s. induction l as [|x l IH]; simpl; intros s Hrun; inv_run.
  - by exists [].
  - match goal with H : body _ _ = _ |- _ => apply Hbody in H as -> end.
    match goal with H : for_each _ _ _ = _ |- _ => apply IH in H as (addrs & ? & ->) end.
    eexists (_ :: addrs). split; [by constructor|done].
Qed.

Section preserves_storage.
Context {S E : Type} (P : S → Prop).

Lemma preserves_load `{FromStd E} {A} (i : Item S A) : preserves P (load i : M S E A).
Proof. intros s Hs. unfold load. by destruct (item_get i s). Qed.
Lemma preserves_load_then `{FromStd E} {A B} (i : Item S A) (k : A → M S E B) :
  (∀ a s, P s → item_get i s = Some a → P (k a s).2) → preserves P (load i ≫= k).
Proof.
  intros Hk s Hs. unfold mbind, M_bind, load. destruct (item_get i s) eqn:Hi; [by apply Hk|done].
Qed.
Lemma preserves_load_unwrap {A} (i : Item S A) : preserves P (load_unwrap i : M S E A).
Proof. intros s Hs. unfold load_unwrap. by destruct (item_get i s). Qed.
Lemma preserves_may_load {A} (i : Item S A) : preserves P (may_load i : M S E _).
Proof. by intros s. Qed.
Lemma preserves_is_set {A} (i : Item S A) : preserves P (is_set i : M S E _).
Proof. by intros s. Qed.
Lemma preserves_std `{FromStd E} {A} (o : outcome StdError A) : preserves P (std o : M S E A).
Proof. by intros s. Qed.
Lemma preserves_addr_validate `{FromStd E} deps a :
  preserves P (addr_validate deps a : M S E _).
Proof. by intros s. Qed.
Lemma preserves_query_balance `{FromStd E} deps a d :
  preserves P (query_balance deps a d : M S E _).
Proof. by intros s. Qed.
Context {K V : Type} `{Countable K}.
Lemma preserves_map_may_load (m : Map S K V) k : preserves P (map_may_load m k : M S E _).
Proof. by intros s. Qed.
Lemma preserves_map_has (m : Map S K V) k : preserves P (map_has m k : M S E _).
Proof. by intros s. Qed.
Lemma preserves_map_load `{FromStd E} (m : Map S K V) k : preserves P (map_load m k : M S E _).
Proof. intros s Hs. unfold map_load. by destruct (map_get m s !! k). Qed.
Lemma preserves_range `{KeyOrder K} (m : Map S K V) low top o :
  preserves P (range m low top o : M S E _).
Proof. by intros s. Qed.
End preserves_storage.

(** A write that keeps the property, and then something that preserves it. *)
Lemma preserves_after_write {S E B} (P : S → Prop) (f : S → S) (k : M S E B) s :
  P (f s) → preserves P k → P ((modify f ;; k) s).2.
Proof. intros Hf Hk. by apply Hk. Qed.

#[export] Hint Resolve preserves_load preserves_load_unwrap preserves_may_load preserves_is_set
  preserves_std preserves_addr_validate preserves_query_balance preserves_map_may_load
  preserves_map_has preserves_map_load preserves_range : preserves.

Section unfailing_storage.
Context {S E : Type} (P : S → Prop) `{FromStd E}.

Lemma unfailing_load_then {A B} (i : Item S A) (k : A → M S E B) :
  (∀ s, P s → is_Some (item_get i s)) → (∀ a, unfailing P (k a)) → unfailing P (load i ≫= k).
Proof.
  intros Hi Hk. apply (unfailing_read P _ (λ _, True)); [|auto].
  intros s [a Ha]%Hi. exists a. split; [by apply load_some|done].
Qed.
Lemma unfailing_map_load_then `{Countable K} {V B} (m : Map S K V) k0 (k : V → M S E B) :
  (∀ s, P s → is_Some (map_get m s !! k0)) → (∀ a, unfailing P (k a)) →
  unfailing P (map_load m k0 ≫= k).
Proof.
  intros Hi Hk. apply (unfailing_read P _ (λ _, True)); [|auto].
  intros s [a Ha]%Hi. exists a. split; [by apply map_load_some|done].
Qed.
Lemma unfailing_std {A} (o : outcome StdError A) :
  (∀ e, o ≠ Err e) → unfailing P (std o : M S E A).
Proof. intros Ho s Hs. split; [done|]. destruct o as [|e|]; [done|by destruct (Ho e)|done]. Qed.
Lemma unfailing_may_load {A} (i : Item S A) : unfailing P (may_load i : M S E _).
Proof. by intros s. Qed.
Lemma unfailing_map_may_load `{Countable K} {V} (m : Map S K V) k :
  unfailing P (map_may_load m k : M S E _).
Proof. by intros s. Qed.
Lemma to_json_no_err `{JsonLaws A} (x : A) e : to_json_binary x ≠ Err e.
Proof. destruct (json_roundtrip x) as (b & -> & _). done. Qed.
End unfailing_storage.

#[export] Hint Resolve unfailing_std unfailing_may_load unfailing_map_may_load to_json_no_err
  : unfailing.
#[export] Hint Extern 1 (mul_floor _ _ _ ≠ Err _) => apply checked_no_err : unfailing.
#[export] Hint Extern 1 (plus_seconds _ _ ≠ Err _) => apply checked_no_err : unfailing.
#[export] Hint Extern 1 (plus_nanos _ _ ≠ Err _) => apply checked_no_err : unfailing.

Lemma sub_msg_new (l : list CosmosMsg) : sub_msg <$> (SubMsg_new <$> l) = l.
Proof. rewrite <-list_fmap_compose. by apply list_fmap_id. Qed.

(** Runs a goal forward: unfolds the monad and the storage primitives. *)
Ltac run_unfold :=
  unfold load, load_unwrap, std, addr_validate, query_balance, may_load, is_set, save, remove,
    map_load, map_may_load, map_has, map_save, map_remove,
    set_contract_version, range, gets, modify, lift, ensure,
    fail, panic, mbind, M_bind, mret, M_ret.

(** The response of a call that is known to succeed. *)
Definition response_of {E} (o : outcome E Response) : Response :=
  match o with Ok r => r | _ => Response_new end.

Lemma run_response {S E} (m : M S E Response) s :
  is_ok (m s).1 = true → m s = (Ok (response_of (m s).1), (m s).2).
Proof. by destruct (m s) as [[r|e|] s']. Qed.

(** ** Transactions *)

(** The result of a transaction that is committed. *)
Definition committed {S E A} (m : M S E A) (s : S) : option (A * S) :=
  match m s with (Ok r, s') => Some (r, s') | _ => None end.

Lemma committed_Some {S E A} (m : M S E A) s r s' :
  committed m s = Some (r, s') → m s = (Ok r, s').
Proof. unfold committed. destruct (m s) as [[]]; naive_solver. Qed.

(** A message that a contract is called with, when it parses. *)
Definition parse {A} `{Json A} (b : Binary) : option A :=
  match (from_json b : outcome StdError A) with Ok x => Some x | _ => None end.

(** ** Ranges *)

Section range_lemmas.
Context {K V : Type} `{Countable K} `{KeyOrder K}.
Implicit Types m : gmap K V.

Lemma elem_of_range_of low top o m k v :
  (k, v) ∈ range_of low top o m ↔ m !! k = Some v ∧ in_bounds (V:=V) low top (k, v).
Proof.
  unfold range_of. destruct o; rewrite ?elem_of_reverse, list_elem_of_filter, elem_of_entries; tauto.
Qed.

Lemma range_of_all m : range_of None None Order_Ascending m = entries m.
Proof.
  unfold range_of. induction (entries m) as [|e l IH]; [done|].
  rewrite filter_cons_True by done. by rewrite IH.
Qed.
End range_lemmas.
