(* ===== verification/DrandCommon.v ===== *)
(** * drand rounds (packages/drand-common)

    The clock of the drand network the system listens to: publish time of a
    round, the first round after a point in time, and the rounds that are
    incentivized by default. *)
From stdpp Require Import prelude gmap strings list sorting pretty.
From Stdlib Require Import NArith Lia.
From S2P Require Import Prelude.
From S2P Require Import CosmWasm.

Definition DRAND_CHAIN_HASH : string :=
  "dbd506d6ef76e5f386f41c651dcb808c5bcbd75471cc4eafa3f4df7ad4e4c493".
Definition DRAND_GENESIS : Timestamp := from_seconds 1677685200.
Definition DRAND_ROUND_LENGTH : u64 := 3000000000.

(** The public key of the network, 96 bytes. *)
Definition DRAND_MAINNET2_PUBKEY : list u8 := [
    160; 184; 98; 167; 82; 127; 238; 58; 115; 27; 203; 89; 40; 10; 182; 171; 214; 45; 92; 11; 110;
    160; 61; 196; 221; 246; 97; 47; 223; 201; 208; 31; 1; 195; 21; 66; 84; 23; 113; 144; 52; 117;
    235; 30; 198; 97; 95; 141; 13; 240; 184; 182; 220; 227; 133; 129; 29; 109; 207; 140; 190; 251;
    135; 89; 229; 230; 22; 163; 223; 208; 84; 201; 40; 148; 7; 102; 217; 165; 185; 219; 145; 227;
    182; 151; 229; 215; 10; 151; 81; 129; 224; 7; 248; 127; 202; 94].

Definition time_of_round {E} (round : u64) : outcome E Timestamp :=
  d ← usub round 1;
  n ← umul 64 d DRAND_ROUND_LENGTH;
  plus_nanos DRAND_GENESIS n.

Definition round_after {E} (base : Timestamp) : outcome E u64 :=
  if base <? DRAND_GENESIS then Ok 1
  else
    from_genesis ← usub base DRAND_GENESIS;
    let periods_since_genesis := from_genesis / DRAND_ROUND_LENGTH in
    next_period_index ← uadd 64 periods_since_genesis 1;
    uadd 64 next_period_index 1.

Definition is_incentivized (round : u64) : bool :=
  negb (round =? 0) && (round mod 25 =? 0).

(** ** Lemmas *)

(** The mathematical value of the two functions. *)
Definition publish_time (round : N) : N := DRAND_GENESIS + (round - 1) * DRAND_ROUND_LENGTH.
Definition next_round (base : N) : N :=
  if base <? DRAND_GENESIS then 1 else (base - DRAND_GENESIS) / DRAND_ROUND_LENGTH + 2.

Lemma time_of_round_ok {E} round :
  1 ≤ round → publish_time round ≤ umax 64 →
  (time_of_round round : outcome E N) = Ok (publish_time round).
Proof.
  unfold publish_time, time_of_round, usub, plus_nanos, umul, uadd. intros H1 Hmax.
  destruct (N.leb_spec 1 round); [|lia]. cbn [mbind outcome_bind].
  rewrite checked_le by lia. cbn [mbind outcome_bind]. by rewrite checked_le.
Qed.

Lemma time_of_round_inv {E} round t :
  (time_of_round round : outcome E N) = Ok t →
  1 ≤ round ∧ t = publish_time round ∧ publish_time round ≤ umax 64.
Proof. unfold time_of_round, publish_time. intros. inv_run. auto. Qed.

Lemma round_after_ok {E} base :
  base ≤ umax 64 → (round_after base : outcome E N) = Ok (next_round base).
Proof.
  unfold round_after, next_round. intros Hb.
  destruct (N.ltb_spec base DRAND_GENESIS) as [|Hge]; [done|].
  assert ((base - DRAND_GENESIS) / DRAND_ROUND_LENGTH ≤ 18446744073) as Hq.
  { transitivity (umax 64 / DRAND_ROUND_LENGTH); [|by vm_compute].
    apply N.Div0.div_le_mono. lia. }
  assert (18446744076 ≤ umax 64) by by vm_compute.
  unfold usub, uadd. destruct (N.leb_spec DRAND_GENESIS base); [|lia].
  cbn [mbind outcome_bind]. rewrite checked_le by lia.
  cbn [mbind outcome_bind]. rewrite checked_le by lia. f_equal. lia.
Qed.

Lemma round_after_inv {E} base r :
  (round_after base : outcome E N) = Ok r → r = next_round base.
Proof.
  unfold round_after, next_round. destruct (base <? DRAND_GENESIS); intros Hrun; inv_run; [done|].
  by rewrite <-N.add_assoc.
Qed.

Lemma round_after_bound {E} base r : (round_after base : outcome E N) = Ok r → r ≤ umax 64.
Proof. unfold round_after. destruct (base <? DRAND_GENESIS); intros Hrun; by inv_run. Qed.

Lemma round_after_no_err {E} base (e : E) : round_after base ≠ Err e.
Proof. unfold round_after. destruct (_ <? _); [done|]. revert e. eauto 10 with unfailing. Qed.
Lemma time_of_round_no_err {E} round (e : E) : time_of_round round ≠ Err e.
Proof. revert e. unfold time_of_round. eauto 10 with unfailing. Qed.

Lemma next_round_pos base : 1 ≤ next_round base.
Proof. unfold next_round. destruct (base <? DRAND_GENESIS); [done|].
  generalize ((base - DRAND_GENESIS) / DRAND_ROUND_LENGTH). lia. Qed.

Lemma publish_time_next_round_gt base : base < publish_time (next_round base).
Proof.
  unfold publish_time, next_round. destruct (N.ltb_spec base DRAND_GENESIS); [lia|].
  pose proof (N.div_mod (base - DRAND_GENESIS) DRAND_ROUND_LENGTH).
  pose proof (N.mod_lt (base - DRAND_GENESIS) DRAND_ROUND_LENGTH).
  set (q := (base - DRAND_GENESIS) / DRAND_ROUND_LENGTH) in *.
  set (m := (base - DRAND_GENESIS) mod DRAND_ROUND_LENGTH) in *.
  assert (DRAND_ROUND_LENGTH ≠ 0) by done.
  replace (q + 2 - 1) with (q + 1) by lia.
  rewrite N.mul_add_distr_r. lia.
Qed.

Lemma publish_time_before_next_round base round :
  round < next_round base → 1 ≤ round → publish_time round ≤ base.
Proof.
  unfold publish_time, next_round. destruct (N.ltb_spec base DRAND_GENESIS); [lia|].
  intros Hr _. pose proof (N.Div0.mul_div_le (base - DRAND_GENESIS) DRAND_ROUND_LENGTH).
  set (q := (base - DRAND_GENESIS) / DRAND_ROUND_LENGTH) in *.
  assert ((round - 1) * DRAND_ROUND_LENGTH ≤ q * DRAND_ROUND_LENGTH); [|lia].
  apply N.mul_le_mono_r. lia.
Qed.

Lemma publish_time_next_round_le base :
  DRAND_GENESIS ≤ base → publish_time (next_round base) ≤ base + DRAND_ROUND_LENGTH.
Proof.
  unfold publish_time, next_round. intros Hg.
  destruct (N.ltb_spec base DRAND_GENESIS); [lia|].
  pose proof (N.Div0.mul_div_le (base - DRAND_GENESIS) DRAND_ROUND_LENGTH).
  set (q := (base - DRAND_GENESIS) / DRAND_ROUND_LENGTH) in *.
  replace (q + 2 - 1) with (q + 1) by lia. rewrite N.mul_add_distr_r. lia.
Qed.

(** The first [after] value whose round leaves the 32 bits of the job queue. *)
Lemma next_round_u32 base :
  base < DRAND_GENESIS + (umax 32 - 1) * DRAND_ROUND_LENGTH → next_round base ≤ umax 32.
Proof.
  unfold next_round. intros Hb. destruct (N.ltb_spec base DRAND_GENESIS); [done|].
  assert ((base - DRAND_GENESIS) / DRAND_ROUND_LENGTH < umax 32 - 1); [|lia].
  apply N.Div0.div_lt_upper_bound. lia.
Qed.

(** Every round of 32 bits has a publish time. *)
Lemma publish_time_u32 round : round ≤ umax 32 → publish_time round ≤ umax 64.
Proof.
  intros Hr. transitivity (publish_time (umax 32)); [|by vm_compute].
  unfold publish_time. apply N.add_le_mono_l, N.mul_le_mono_r. lia.
Qed.

#[export] Hint Resolve round_after_no_err time_of_round_no_err : unfailing.

(** ** Properties *)

(** C38. [round_after] commits to the next round of the future: for every base
    time that leaves room for one more round in 64 bits, both functions
    succeed, the committed round is published strictly after the base time,
    and every earlier round is published no later than the base time. *)
Theorem round_after_is_next_round (base : Timestamp)
    (Hbase : base + DRAND_ROUND_LENGTH ≤ umax 64) :
  ∃ round t, (round_after base : outcome StdError u64) = Ok round ∧
    (time_of_round round : outcome StdError Timestamp) = Ok t ∧ base < t ∧
    ∀ r, 1 ≤ r < round →
      ∃ t', (time_of_round r : outcome StdError Timestamp) = Ok t' ∧ t' ≤ base.
Proof.
  exists (next_round base), (publish_time (next_round base)).
  assert (publish_time (next_round base) ≤ umax 64) as Hmax.
  { destruct (N.ltb_spec base DRAND_GENESIS) as [Hlt|].
    - unfold next_round. rewrite (proj2 (N.ltb_lt _ _)) by done. by vm_compute.
    - pose proof (publish_time_next_round_le base). lia. }
  split_and!.
  - apply round_after_ok. lia.
  - by apply time_of_round_ok; [apply next_round_pos|].
  - apply publish_time_next_round_gt.
  - intros r [H1 Hr]. exists (publish_time r).
    pose proof (publish_time_before_next_round base r Hr H1).
    split; [|done]. apply time_of_round_ok; [done|]. lia.
Qed.

Lemma round_after_is_next_round_witness :
  ∃ round t, (round_after 1677685203000000000 : outcome StdError u64) = Ok round ∧
    (time_of_round round : outcome StdError Timestamp) = Ok t ∧ 1677685203000000000 < t ∧
    ∀ r, 1 ≤ r < round →
      ∃ t', (time_of_round r : outcome StdError Timestamp) = Ok t' ∧ t' ≤ 1677685203000000000.
Proof. apply (round_after_is_next_round 1677685203000000000). by vm_compute. Defined.

(** [time_of_round] panics exactly on round 0 and on rounds whose publish
    time does not fit in 64 bits of nanoseconds; it never returns an error. *)
Lemma time_of_round_panics (round : u64) :
  (time_of_round round : outcome StdError Timestamp) = Panic ↔
    round = 0 ∨ umax 64 < DRAND_GENESIS + (round - 1) * DRAND_ROUND_LENGTH.
Proof.
  split.
  - intros Hp. destruct (decide (round = 0)) as [|Hne]; [by left|right].
    apply N.nle_gt. intros Hle.
    rewrite time_of_round_ok in Hp; [done|lia|exact Hle].
  - intros Hcase. destruct (time_of_round round) as [t|e|] eqn:Ht; [| |done].
    + apply time_of_round_inv in Ht as (? & _ & Hmax).
      unfold publish_time in Hmax. lia.
    + exfalso. revert Ht. unfold time_of_round, usub, umul, plus_nanos, uadd, checked.
      repeat (cbn [mbind outcome_bind]; case_match); try done.
      all: cbn [mbind outcome_bind]; repeat case_match; done.
Qed.
