(* ===== verification/NoisProtocol.v ===== *)
(** * The IBC protocol between proxy and gateway (packages/nois-protocol) *)
From stdpp Require Import prelude gmap strings list sorting pretty.
From Stdlib Require Import NArith Lia.
From S2P Require Import Prelude.
From S2P Require Import CosmWasm.

(** ** Packets (ibc_msg.rs) *)

(** From nois-proxy to nois-gateway. *)
Inductive InPacket :=
  | InPacket_RequestBeacon (after : Timestamp) (origin : Binary)
  | InPacket_PullBeaconPrice.

Inductive InPacketAck :=
  | InPacketAck_RequestProcessed (source_id : string)
  | InPacketAck_RequestQueued (source_id : string)
  | InPacketAck_PullBeaconPrice (timestamp : Timestamp) (amount : Uint128) (denom : string).

(** From nois-gateway to nois-proxy. *)
Inductive OutPacket :=
  | OutPacket_DeliverBeacon (source_id : string) (published : Timestamp)
      (randomness : HexBinary) (origin : Binary)
  | OutPacket_Welcome (payment : string)
  | OutPacket_PushBeaconPrice (timestamp : Timestamp) (amount : Uint128) (denom : string).

Inductive OutPacketAck :=
  | OutPacketAck_DeliverBeacon
  | OutPacketAck_Welcome
  | OutPacketAck_PushBeaconPrice.

(** ** Constants (lib.rs) *)

Definition IBC_APP_VERSION : string := "nois-v7".
Definition APP_ORDER : IbcOrder := IbcOrder_Unordered.
Definition BAD_APP_ORDER : IbcOrder := IbcOrder_Ordered.
Definition REQUEST_BEACON_PACKET_LIFETIME : u64 := 100 * 24 * 3600.
Definition DELIVER_BEACON_PACKET_LIFETIME : u64 := 100 * 24 * 3600.
Definition BEACON_PRICE_PACKET_LIFETIME : u64 := 100 * 24 * 3600.
Definition WELCOME_PACKET_LIFETIME : u64 := 100 * 24 * 3600.
Definition TRANSFER_PACKET_LIFETIME : u64 := 24 * 3600.

(** ** Channel checks (checks.rs) *)

Inductive ChannelError :=
  | ChannelError_InvalidChannelOrder
  | ChannelError_InvalidChannelVersion (expected : string).

Definition ChannelError_display (e : ChannelError) : string :=
  match e with
  | ChannelError_InvalidChannelOrder => "Only supports unordered channels"
  | ChannelError_InvalidChannelVersion expected =>
      "Counterparty version must be '" +:+ expected +:+ "'"
  end.

Definition check_order (order : IbcOrder) : outcome ChannelError unit :=
  if bool_decide (order ≠ APP_ORDER) then Err ChannelError_InvalidChannelOrder else Ok tt.

Definition check_version (version : string) : outcome ChannelError unit :=
  if bool_decide (version ≠ IBC_APP_VERSION)
  then Err (ChannelError_InvalidChannelVersion IBC_APP_VERSION) else Ok tt.

(** ** Instances and lemmas *)

#[global] Instance InPacket_eq_dec : EqDecision InPacket.
Proof. solve_decision. Defined.
#[global] Instance InPacketAck_eq_dec : EqDecision InPacketAck.
Proof. solve_decision. Defined.
#[global] Instance OutPacket_eq_dec : EqDecision OutPacket.
Proof. solve_decision. Defined.
#[global] Instance OutPacketAck_eq_dec : EqDecision OutPacketAck.
Proof. solve_decision. Defined.

#[global] Program Instance InPacket_countable : Countable InPacket :=
  inj_countable'
    (λ p, match p with
          | InPacket_RequestBeacon a o => Some (a, o)
          | InPacket_PullBeaconPrice => None
          end)
    (λ e, match e with
          | Some (a, o) => InPacket_RequestBeacon a o
          | None => InPacket_PullBeaconPrice
          end) _.
Next Obligation. by intros []. Qed.

#[global] Program Instance InPacketAck_countable : Countable InPacketAck :=
  inj_countable'
    (λ p, match p with
          | InPacketAck_RequestProcessed s => inl (inl s)
          | InPacketAck_RequestQueued s => inl (inr s)
          | InPacketAck_PullBeaconPrice t a d => inr (t, a, d)
          end)
    (λ e, match e with
          | inl (inl s) => InPacketAck_RequestProcessed s
          | inl (inr s) => InPacketAck_RequestQueued s
          | inr (t, a, d) => InPacketAck_PullBeaconPrice t a d
          end) _.
Next Obligation. by intros []. Qed.

#[global] Program Instance OutPacket_countable : Countable OutPacket :=
  inj_countable'
    (λ p, match p with
          | OutPacket_DeliverBeacon s t r o => inl (s, t, r, o)
          | OutPacket_Welcome s => inr (inl s)
          | OutPacket_PushBeaconPrice t a d => inr (inr (t, a, d))
          end)
    (λ e, match e with
          | inl (s, t, r, o) => OutPacket_DeliverBeacon s t r o
          | inr (inl s) => OutPacket_Welcome s
          | inr (inr (t, a, d)) => OutPacket_PushBeaconPrice t a d
          end) _.
Next Obligation. by intros []. Qed.

#[global] Program Instance OutPacketAck_countable : Countable OutPacketAck :=
  inj_countable'
    (λ p, match p with
          | OutPacketAck_DeliverBeacon => None
          | OutPacketAck_Welcome => Some false
          | OutPacketAck_PushBeaconPrice => Some true
          end)
    (λ e, match e with
          | None => OutPacketAck_DeliverBeacon
          | Some false => OutPacketAck_Welcome
          | Some true => OutPacketAck_PushBeaconPrice
          end) _.
Next Obligation. by intros []. Qed.

Lemma check_order_ok o r : check_order o = Ok r → o = APP_ORDER.
Proof. unfold check_order. case_bool_decide; [done|]. destruct o; naive_solver. Qed.

Lemma check_version_ok v r : check_version v = Ok r → v = IBC_APP_VERSION.
Proof. unfold check_version. case_bool_decide; [done|].
  destruct (decide (v = IBC_APP_VERSION)); naive_solver. Qed.
