(* ===== verification/Fixtures.v ===== *)
(** * Concrete instances of the runtime's parameters

    Executable instances of the classes and records of [CosmWasm], used where
    a statement is evaluated on concrete inputs: a serializer for every
    countable type, an address validator that accepts every non-empty string,
    a bank with fixed balances, and formatting functions. *)
From stdpp Require Import prelude gmap strings list sorting pretty.
From Stdlib Require Import NArith Lia Ascii.
From S2P Require Import Prelude.
From S2P Require Import CosmWasm.

(** ** A serializer *)

Fixpoint positive_to_string (p : positive) : string :=
  match p with
  | xH => "1"
  | xO p => String "o"%char (positive_to_string p)
  | xI p => String "i"%char (positive_to_string p)
  end.

Fixpoint string_to_positive (s : string) : option positive :=
  match s with
  | String "1"%char EmptyString => Some xH
  | String "o"%char s => xO <$> string_to_positive s
  | String "i"%char s => xI <$> string_to_positive s
  | _ => None
  end.

#[global] Instance countable_json {A} `{Countable A} : Json A := {|
  to_json_binary x := Ok (positive_to_string (encode x));
  from_json b :=
    match string_to_positive b ≫= decode with
    | Some x => Ok x
    | None => Err (StdError_ParseErr "invalid")
    end;
|}.

(** ** Chain services *)

Definition test_api : Api := {|
  addr_validate_ s :=
    if bool_decide (s = "") then Err (StdError_GenericErr "Empty address") else Ok s;
  addr_canonicalize_ s := Ok s;
  addr_humanize_ b := Ok b;
|}.

(** Every account owns [b] of every denom. *)
Definition test_querier (b : N) : Querier := {|
  query_balance_ _ d := Ok (coin b d);
  query_wasm_code_info_ _ := Ok "checksum";
  raw_query_code_info_ _ := None;
|}.

Definition test_deps (b : N) : Deps := {| api := test_api; querier := test_querier b |}.

#[global] Instance test_display : Display := {|
  show_coin c := pretty (amount c) +:+ denom c;
  show_timestamp t := pretty t;
  show_std_error _ := "std error";
  show_system_error _ := "system error";
  to_hex b := b;
|}.

#[global] Instance test_anybuf : Anybuf := {|
  Anybuf_new := "";
  append_string n v b := b +:+ pretty n +:+ ":" +:+ v +:+ ";";
  append_message n v b := b +:+ pretty n +:+ ":{" +:+ v +:+ "}";
|}.

#[global] Instance test_sha256 : Sha256 := λ b, b.

Definition test_env (height time : N) : Env := {|
  block_height := height; block_time := time;
  transaction_index := Some 3; contract_address := "contract";
|}.

(** ** Lemmas *)

Lemma string_to_positive_to_string p :
  string_to_positive (positive_to_string p) = Some p.
Proof. induction p as [p IH|p IH|]; simpl; by rewrite ?IH. Qed.

#[global] Instance countable_json_laws {A} `{Countable A} : JsonLaws A.
Proof.
  intros x. eexists. split; [done|]. simpl.
  rewrite string_to_positive_to_string. simpl. by rewrite decode_encode.
Qed.
