(* ===== verification/Sink.v ===== *)
(** * nois-sink: burning tokens and keeping the ashes (contracts/nois-sink) *)
From stdpp Require Import prelude gmap strings list sorting pretty.
From Stdlib Require Import NArith Lia.
From S2P Require Import Prelude.
From S2P Require Import CosmWasm.
From S2P Require Import Fixtures.

(** ** Errors, state and messages (error.rs, state.rs, msg.rs) *)

Inductive ContractError :=
  | ContractError_Std (e : StdError)
  | ContractError_WrongDenom
  | ContractError_TooManyCoins
  | ContractError_NoCoins
  | ContractError_NonPayableMessage
  | ContractError_NoFundsToBurn.
#[global] Instance ContractError_from_std : FromStd ContractError := ContractError_Std.

Record Ash := { burner : option Addr; ash_amount : Coin; time : Timestamp }.

Record Storage := {
  contract_info : option ContractVersion;
  ashes : gmap u32 Ash;
  ashes_last_id : option u32;
}.

Definition CONTRACT_INFO : Item Storage ContractVersion := {|
  item_get := contract_info;
  item_set v s := {| contract_info := v; ashes := ashes s; ashes_last_id := ashes_last_id s |};
|}.
Definition ASHES : Map Storage u32 Ash := {|
  map_get := ashes;
  map_set v s :=
    {| contract_info := contract_info s; ashes := v; ashes_last_id := ashes_last_id s |};
|}.
Definition ASHES_LAST_ID : Item Storage u32 := {|
  item_get := ashes_last_id;
  item_set v s := {| contract_info := contract_info s; ashes := ashes s; ashes_last_id := v |};
|}.

Record InstantiateMsg := {}.
Inductive ExecuteMsg := ExecuteMsg_Burn | ExecuteMsg_BurnBalance.
Inductive QueryMsg :=
  | QueryMsg_AshesAsc (start_after : option u32) (limit : option u32)
  | QueryMsg_AshesDesc (start_after : option u32) (limit : option u32).

Record QueriedAsh := {
  id : u32;
  queried_burner : option Addr;
  queried_amount : Coin;
  queried_time : Timestamp;
}.

Definition QueriedAsh_make (ash : Ash) (id : u32) : QueriedAsh :=
  {| id := id; queried_burner := burner ash; queried_amount := ash_amount ash;
     queried_time := time ash |}.

Record AshesResponse := { queried_ashes : list QueriedAsh }.

(** ** The contract (contract.rs) *)

Definition BURN_DENOM : string := "unois".
Definition CARGO_PKG_NAME : string := "nois-sink".
Definition CARGO_PKG_VERSION : string := "0.15.4".

Section contract.
Context `{Display}.

Definition instantiate (deps : Deps) (env : Env) (info : MessageInfo) (msg : InstantiateMsg) :
    M Storage ContractError Response :=
  set_contract_version CONTRACT_INFO CARGO_PKG_NAME CARGO_PKG_VERSION ;;
  mret Response_new.

Definition migrate (deps : Deps) (env : Env) : M Storage StdError Response :=
  set_contract_version CONTRACT_INFO CARGO_PKG_NAME CARGO_PKG_VERSION ;;
  mret Response_new.

Definition execute_burn (deps : Deps) (info : MessageInfo) (env : Env) :
    M Storage ContractError Response :=
  let funds := funds info in
  let burner := sender info in
  ensure (negb (1 <? N.of_nat (length funds))) ContractError_TooManyCoins ;;
  amount ← lift (ok_or (last funds) ContractError_NoCoins);
  ensure (bool_decide (denom amount = BURN_DENOM)) ContractError_WrongDenom ;;
  last_id ← may_load ASHES_LAST_ID;
  new_id ← lift (uadd 32 (unwrap_or 0 last_id) 1);
  save ASHES_LAST_ID new_id ;;
  let time := block_time env in
  map_save ASHES new_id {| burner := Some burner; ash_amount := amount; time := time |} ;;
  let msg := CosmosMsg_Bank (BankMsg_Burn [amount]) in
  mret (Response_new
    |> add_message msg
    |> add_attribute "burnt_amount" (show_coin amount)
    |> add_attribute "burner" burner
    |> add_attribute "time" (show_timestamp time)).

Definition execute_burn_balance (deps : Deps) (info : MessageInfo) (env : Env) :
    M Storage ContractError Response :=
  ensure (bool_decide (funds info = [])) ContractError_NonPayableMessage ;;
  contract_balance ← query_balance deps (contract_address env) BURN_DENOM;
  ensure (negb (amount contract_balance =? 0)) ContractError_NoFundsToBurn ;;
  last_id ← may_load ASHES_LAST_ID;
  new_id ← lift (uadd 32 (unwrap_or 0 last_id) 1);
  save ASHES_LAST_ID new_id ;;
  let time := block_time env in
  map_save ASHES new_id {| burner := None; ash_amount := contract_balance; time := time |} ;;
  let msg := CosmosMsg_Bank (BankMsg_Burn [contract_balance]) in
  mret (Response_new
    |> add_message msg
    |> add_attribute "burnt_amount" (show_coin contract_balance)
    |> add_attribute "time" (show_timestamp time)).

Definition execute (deps : Deps) (env : Env) (info : MessageInfo) (msg : ExecuteMsg) :
    M Storage ContractError Response :=
  match msg with
  | ExecuteMsg_Burn => execute_burn deps info env
  | ExecuteMsg_BurnBalance => execute_burn_balance deps info env
  end.

Definition query_ashes (deps : Deps) (start_after : option u32) (limit : option u32)
    (order : Order) : M Storage StdError AshesResponse :=
  let limit := N.to_nat (unwrap_or 100 limit) in
  let '(low_bound, top_bound) :=
    match order with
    | Order_Ascending => (start_after, None)
    | Order_Descending => (None, start_after)
    end in
  rows ← range ASHES low_bound top_bound order;
  mret {| queried_ashes :=
    (λ '(key, ash), {| id := key; queried_burner := burner ash;
                       queried_amount := ash_amount ash; queried_time := time ash |})
      <$> take limit rows |}.

Definition query `{Json AshesResponse} (deps : Deps) (env : Env) (msg : QueryMsg) :
    M Storage StdError Binary :=
  match msg with
  | QueryMsg_AshesAsc start_after limit =>
      r ← query_ashes deps start_after limit Order_Ascending; std (to_json_binary r)
  | QueryMsg_AshesDesc start_after limit =>
      r ← query_ashes deps start_after limit Order_Descending; std (to_json_binary r)
  end.

(** ** The contract as a transition system *)

Definition empty_storage : Storage :=
  {| contract_info := None; ashes := ∅; ashes_last_id := None |}.

Inductive init : Storage → Prop :=
  | init_instantiate deps env info msg r s :
      instantiate deps env info msg empty_storage = (Ok r, s) → init s.

Inductive step : Storage → Storage → Prop :=
  | step_execute deps env info msg r s s' :
      execute deps env info msg s = (Ok r, s') → step s s'
  | step_migrate deps env r s s' :
      migrate deps env s = (Ok r, s') → step s s'.
End contract.

(** ** Lemmas *)

Definition last_id (s : Storage) : N := unwrap_or 0 (ashes_last_id s).

(** [s'] is [s] with one more ash, under the next id. *)
Definition recorded (ash : Ash) (s s' : Storage) : Prop :=
  last_id s + 1 ≤ umax 32 ∧
  s' = {| contract_info := contract_info s;
          ashes := <[last_id s + 1 := ash]> (ashes s);
          ashes_last_id := Some (last_id s + 1) |}.

(** The ids in use are the interval from 1 to the last id. *)
Definition ledger (s : Storage) : Prop :=
  ∀ i, is_Some (ashes s !! i) ↔ 1 ≤ i ≤ last_id s.

Section lemmas.
Context `{Display}.

Lemma execute_burn_ok deps info env s r s' :
  execute_burn deps info env s = (Ok r, s') →
  ∃ c, funds info = [c] ∧ denom c = BURN_DENOM ∧
    messages r = [SubMsg_new (CosmosMsg_Bank (BankMsg_Burn [c]))] ∧
    recorded {| burner := Some (sender info); ash_amount := c; time := block_time env |} s s'.
Proof.
  unfold execute_burn. intros Hrun. inv_run.
  destruct (funds info) as [|c [|]]; simpl in *; simplify_eq; [|lia].
  eexists. unfold recorded, last_id. eauto.
Qed.

Lemma execute_burn_run deps info env s c :
  funds info = [c] → denom c = BURN_DENOM → last_id s + 1 ≤ umax 32 →
  ∃ r s', execute_burn deps info env s = (Ok r, s') ∧
    recorded {| burner := Some (sender info); ash_amount := c; time := block_time env |} s s'.
Proof.
  intros Hfunds Hdenom Hid.
  destruct (run_snd (execute_burn deps info env) s) as [r Hr].
  { unfold execute_burn. run_unfold. rewrite Hfunds. simpl. rewrite bool_decide_true by done.
    unfold last_id in Hid. simpl. unfold uadd. by rewrite checked_le. }
  do 2 eexists. split; [exact Hr|].
  destruct (execute_burn_ok _ _ _ _ _ _ Hr) as (c' & Hc & _ & _ & Hrec).
  rewrite Hfunds in Hc. injection Hc as <-. exact Hrec.
Qed.

Lemma execute_burn_balance_ok deps info env s r s' :
  execute_burn_balance deps info env s = (Ok r, s') →
  ∃ c, funds info = [] ∧
    query_balance_ (querier deps) (contract_address env) BURN_DENOM = Ok c ∧ amount c ≠ 0 ∧
    messages r = [SubMsg_new (CosmosMsg_Bank (BankMsg_Burn [c]))] ∧
    recorded {| burner := None; ash_amount := c; time := block_time env |} s s'.
Proof.
  unfold execute_burn_balance. intros Hrun. inv_run.
  eexists. unfold recorded, last_id. split_and!; eauto.
Qed.

Lemma execute_ok deps env info msg s r s' :
  execute deps env info msg s = (Ok r, s') →
  ∃ ash, recorded ash s s' ∧
    messages r = [SubMsg_new (CosmosMsg_Bank (BankMsg_Burn [ash_amount ash]))].
Proof.
  destruct msg; simpl.
  - intros (c & _ & _ & ? & ?)%execute_burn_ok. eauto.
  - intros (c & _ & _ & _ & ? & ?)%execute_burn_balance_ok. eauto.
Qed.

Lemma sink_step_cases s s' : step s s' →
  (∃ ash, recorded ash s s') ∨ (ashes s' = ashes s ∧ ashes_last_id s' = ashes_last_id s).
Proof.
  destruct 1 as [?????? s' (ash & ? & _)%execute_ok|]; [eauto|].
  unfold migrate in *. inv_run. by right.
Qed.

Lemma recorded_ledger ash s s' : ledger s → recorded ash s s' → ledger s'.
Proof.
  intros Hl [_ ->] i. specialize (Hl i). revert Hl. unfold last_id. simpl.
  generalize (unwrap_or 0 (ashes_last_id s)). intros n Hl.
  destruct (decide (n + 1 = i)) as [<-|Hne].
  - rewrite lookup_insert_eq. split; [lia|eauto].
  - rewrite lookup_insert_ne, Hl by done. lia.
Qed.

Lemma reachable_ledger s : reachable init step s → ledger s.
Proof.
  apply reachable_invariant.
  - intros ? []. unfold instantiate in *. inv_run. intros i. simpl.
    rewrite lookup_empty. unfold last_id. simpl. split; [by intros [??]|lia].
  - intros s1 s2 Hl Hs. destruct (sink_step_cases _ _ Hs) as [[ash Hr]|[Ha Hi]].
    + by eapply recorded_ledger.
    + intros i. unfold ledger, last_id in *. rewrite Ha, Hi. apply Hl.
Qed.

(** The ids that a page may show, in ascending order. *)
Lemma range_ids s low top :
  ledger s →
  (range_of low top Order_Ascending (ashes s)).*1 =
    seqN (unwrap_or 0 low + 1)
      (N.to_nat (match top with Some t => N.min (t - 1) (last_id s) | None => last_id s end
                 - unwrap_or 0 low)).
Proof.
  intros Hl. apply ascending_interval.
  - apply ascending_filter, entries_ascending.
  - intros k.
    assert ((∃ v, (k, v) ∈ range_of low top Order_Ascending (ashes s)) ↔
      is_Some (ashes s !! k) ∧ in_bounds (V:=()) low top (k, tt)) as ->.
    { unfold is_Some. setoid_rewrite elem_of_range_of. unfold in_bounds. naive_solver. }
    rewrite (Hl k). unfold in_bounds, unwrap_or.
    destruct low, top; simpl; rewrite ?key_lt_N; lia.
Qed.
End lemmas.

(** ** Properties *)

(** The entries of a page: the ids in the order and with the limit the query
    asks for, out of the ids in use after (or before) [start_after]. *)
Definition page_ids (s : Storage) (start_after limit : option u32) (o : Order) : list u32 :=
  take (N.to_nat (unwrap_or 100 limit))
    match o with
    | Order_Ascending =>
        let a := unwrap_or 0 start_after in seqN (a + 1) (N.to_nat (last_id s - a))
    | Order_Descending =>
        reverse (seqN 1 (N.to_nat
          match start_after with Some t => N.min (t - 1) (last_id s) | None => last_id s end))
    end.

(** C29. The ashes are an append-only ledger: in every reachable state the ids
    in use are exactly [1 .. last_id], and no step changes or removes an ash
    that is already recorded. *)
Theorem ashes_append_only `{Display} (s : Storage) (Hs : reachable init step s) :
  (∀ i, is_Some (ashes s !! i) ↔ 1 ≤ i ≤ last_id s) ∧
  ∀ s', step s s' → ashes s ⊆ ashes s' ∧ last_id s ≤ last_id s'.
Proof.
  pose proof (reachable_ledger s Hs) as Hl. split; [exact Hl|].
  intros s' [[ash [_ ->]]|[Ha Hi]]%sink_step_cases; unfold last_id; simpl.
  - split; [|fold (last_id s); unfold last_id; lia].
    apply insert_subseteq. destruct (ashes s !! (last_id s + 1)) eqn:Hk; [|done].
    assert (1 ≤ last_id s + 1 ≤ last_id s) by (apply Hl; eauto). lia.
  - by rewrite Ha, Hi.
Qed.

(** [query_ashes] shows the ledger page by page: in a reachable state the
    query succeeds without changing the state, returns exactly the ids of the
    requested page in the requested order, and every entry shows the ash
    recorded under its id. *)
Lemma query_ashes_pages `{Display} (deps : Deps) (s : Storage) (start_after limit : option u32)
    (order : Order) (Hs : reachable init step s) :
  ∃ r, query_ashes deps start_after limit order s = (Ok r, s) ∧
    id <$> queried_ashes r = page_ids s start_after limit order ∧
    ∀ q, q ∈ queried_ashes r →
      ∃ ash, ashes s !! id q = Some ash ∧ q = QueriedAsh_make ash (id q).
Proof.
  pose proof (reachable_ledger s Hs) as Hl.
  unfold query_ashes, page_ids. destruct order; run_unfold; simpl; eexists; (split; [done|]); simpl.
  - split.
    + rewrite <-list_fmap_compose, <-(range_ids s start_after None Hl), <-fmap_take.
      by apply list_fmap_ext; intros ? [] ?.
    + intros q ([k ash] & -> & Hin%(subseteq_take)%elem_of_range_of)%list_elem_of_fmap. naive_solver.
  - split.
    + rewrite <-list_fmap_compose.
      pose proof (range_ids s None start_after Hl) as Hr. unfold unwrap_or at 1 2 in Hr.
      rewrite N.add_0_l, N.sub_0_r in Hr. rewrite <-Hr, <-fmap_reverse, <-fmap_take.
      by apply list_fmap_ext; intros ? [] ?.
    + intros q ([k ash] & -> & Hin%(subseteq_take)%elem_of_range_of)%list_elem_of_fmap. naive_solver.
Qed.

(** What [execute_burn] burns is what it records, and every other call is
    rejected without touching the ledger: the call succeeds exactly when one
    [unois] coin is sent and the id counter has room; then the only message
    burns that coin and the new ash holds the sender, the coin and the block
    time under the next id. *)
Lemma execute_burn_spec `{Display} (deps : Deps) (env : Env) (info : MessageInfo) (s : Storage) :
  match execute deps env info ExecuteMsg_Burn s with
  | (Ok r, s') =>
      ∃ c, funds info = [c] ∧ denom c = BURN_DENOM ∧
        messages r = [SubMsg_new (CosmosMsg_Bank (BankMsg_Burn [c]))] ∧
        recorded {| burner := Some (sender info); ash_amount := c; time := block_time env |} s s'
  | (Err e, s') => s' = s ∧
      ((e = ContractError_NoCoins ∧ funds info = []) ∨
       (e = ContractError_TooManyCoins ∧ 2 ≤ N.of_nat (length (funds info))) ∨
       (e = ContractError_WrongDenom ∧ ∃ c, funds info = [c] ∧ denom c ≠ BURN_DENOM))
  | (Panic, s') => s' = s ∧ umax 32 ≤ last_id s
  end.
Proof.
  destruct (execute deps env info ExecuteMsg_Burn s) as [[r|e|] s'] eqn:Hrun.
  - by apply execute_burn_ok in Hrun.
  - revert Hrun. simpl. unfold execute_burn. run_unfold.
    destruct (funds info) as [|c [|c' l]] eqn:Hf; simpl.
    + naive_solver.
    + case_bool_decide; [|naive_solver]. unfold uadd, checked.
      destruct (unwrap_or 0 (ashes_last_id s) + 1 <=? umax 32); naive_solver.
    + assert ((1 <? N.of_nat (S (S (length l)))) = true) as -> by (apply N.ltb_lt; lia).
      simpl. intros [= <- <-]. split; [done|]. right; left. split; [done|lia].
  - revert Hrun. simpl. unfold execute_burn. run_unfold.
    destruct (funds info) as [|c [|c' l]] eqn:Hf; simpl; [done| |].
    + case_bool_decide; [|done]. unfold uadd, checked. simpl.
      change (unwrap_or 0 (ashes_last_id s)) with (last_id s).
      destruct (N.leb_spec (last_id s + 1) (umax 32)); [done|].
      intros [= <-]. split; [done|lia].
    + assert ((1 <? N.of_nat (S (S (length l)))) = true) as -> by (apply N.ltb_lt; lia). done.
Qed.

(** ** Witnesses *)

Definition sample_info (coins : list Coin) : MessageInfo :=
  {| sender := "joe"; funds := coins |}.
Definition sample_empty : Storage :=
  (instantiate (test_deps 0) (test_env 1 10) (sample_info []) Build_InstantiateMsg
    empty_storage).2.
(** Five coins are burned by joe, then a balance of seven. *)
Definition sample_burn : Storage :=
  (execute (test_deps 0) (test_env 2 20) (sample_info [coin 5 "unois"]) ExecuteMsg_Burn
    sample_empty).2.
Definition sample : Storage :=
  (execute (test_deps 7) (test_env 3 30) (sample_info []) ExecuteMsg_BurnBalance sample_burn).2.

Lemma execute_step `{Display} deps env info msg s :
  is_ok (execute deps env info msg s).1 = true → step s (execute deps env info msg s).2.
Proof. intros [r Hr]%run_snd. by econstructor. Qed.

Lemma sink_sample_reachable : reachable init step sample.
Proof.
  exists sample_empty. split.
  { by apply (init_instantiate (test_deps 0) (test_env 1 10) (sample_info [])
      Build_InstantiateMsg Response_new). }
  eapply rtc_l; [by apply (execute_step (test_deps 0) (test_env 2 20)
    (sample_info [coin 5 "unois"]) ExecuteMsg_Burn)|].
  apply rtc_once. by apply (execute_step (test_deps 7) (test_env 3 30)
    (sample_info []) ExecuteMsg_BurnBalance sample_burn).
Qed.

Lemma ashes_append_only_witness :
  last_id sample = 2 ∧
  (∀ i, is_Some (ashes sample !! i) ↔ 1 ≤ i ≤ last_id sample) ∧
  ∀ s', step sample s' → ashes sample ⊆ ashes s' ∧ last_id sample ≤ last_id s'.
Proof. split; [reflexivity|]. apply (ashes_append_only sample sink_sample_reachable). Defined.

Lemma query_ashes_pages_witness :
  ∃ r, query_ashes (test_deps 0) (Some 1) (Some 5) Order_Ascending sample = (Ok r, sample) ∧
    id <$> queried_ashes r = [2] ∧
    ∀ q, q ∈ queried_ashes r →
      ∃ ash, ashes sample !! id q = Some ash ∧ q = QueriedAsh_make ash (id q).
Proof.
  apply (query_ashes_pages (test_deps 0) sample (Some 1) (Some 5) Order_Ascending sink_sample_reachable).
Defined.
