(* ===== verification/Payment.v ===== *)
(** * nois-payment: distributing the price of a beacon (contracts/nois-payment) *)
From stdpp Require Import prelude gmap strings list sorting pretty.
From Stdlib Require Import NArith Lia.
From S2P Require Import Prelude.
From S2P Require Import CosmWasm.
From S2P Require Import Fixtures.

(** ** Errors, state and messages (error.rs, state.rs, msg.rs) *)

Inductive ContractError :=
  | ContractError_Std (e : StdError)
  | ContractError_DontSendFunds
  | ContractError_InvalidAddress
  | ContractError_Unauthorized.
#[global] Instance ContractError_from_std : FromStd ContractError := ContractError_Std.

Record Config := { sink : Addr; gateway : Addr }.

Record Storage := { contract_info : option ContractVersion; config : option Config }.

Definition CONTRACT_INFO : Item Storage ContractVersion := {|
  item_get := contract_info;
  item_set v s := {| contract_info := v; config := config s |};
|}.
Definition CONFIG : Item Storage Config := {|
  item_get := config;
  item_set v s := {| contract_info := contract_info s; config := v |};
|}.

Record InstantiateMsg := { msg_sink : string }.
Inductive ExecuteMsg :=
  | ExecuteMsg_Pay (burn community_pool : Coin) (relayer : string * Coin).
Inductive NoisSinkExecuteMsg := NoisSinkExecuteMsg_Burn.
Inductive QueryMsg := QueryMsg_Config.
Abbreviation ConfigResponse := Config (only parsing).

(** ** The contract (contract.rs) *)

Definition CARGO_PKG_NAME : string := "nois-payment".
Definition CARGO_PKG_VERSION : string := "0.15.4".

Section contract.
Context `{Display} `{Anybuf} `{Json NoisSinkExecuteMsg}.

Definition instantiate (deps : Deps) (env : Env) (info : MessageInfo) (msg : InstantiateMsg) :
    M Storage ContractError Response :=
  nois_sink_addr ← lift (map_err (λ _, ContractError_InvalidAddress)
    (addr_validate_ (api deps) (msg_sink msg)));
  save CONFIG {| sink := nois_sink_addr; gateway := sender info |} ;;
  set_contract_version CONTRACT_INFO CARGO_PKG_NAME CARGO_PKG_VERSION ;;
  mret (Response_new
    |> add_attribute "action" "instantiate"
    |> add_attribute "nois_sink" (msg_sink msg)
    |> add_attribute "nois_gateway" (sender info)).

Definition migrate (deps : Deps) (env : Env) : M Storage StdError Response :=
  set_contract_version CONTRACT_INFO CARGO_PKG_NAME CARGO_PKG_VERSION ;;
  mret Response_new.

Definition encode_msg_fund_community_pool (amt : Coin) (depositor : Addr) : Binary :=
  let coin := Anybuf_new
    |> append_string 1 (denom amt)
    |> append_string 2 (pretty (amount amt)) in
  Anybuf_new
    |> append_message 1 coin
    |> append_string 2 depositor.

Definition execute_pay (deps : Deps) (info : MessageInfo) (env : Env)
    (burn community_pool : Coin) (relayer : string * Coin) :
    M Storage ContractError Response :=
  let funds := funds info in
  config ← load_unwrap CONFIG;
  ensure (bool_decide (sender info = gateway config)) ContractError_Unauthorized ;;
  ensure (bool_decide (funds = [])) ContractError_DontSendFunds ;;
  lift (map_err (λ _, ContractError_InvalidAddress) (addr_validate_ (api deps) relayer.1)) ;;
  out_msgs ←
    (if negb (amount burn =? 0) then
       b ← std (to_json_binary NoisSinkExecuteMsg_Burn);
       mret [CosmosMsg_Wasm (WasmMsg_Execute (sink config) b [burn])]
     else mret []);
  let out_msgs :=
    if negb (amount relayer.2 =? 0) then
      out_msgs ++ [CosmosMsg_Bank (BankMsg_Send relayer.1 [relayer.2])]
    else out_msgs in
  let out_msgs :=
    if negb (amount community_pool =? 0) then
      out_msgs ++ [CosmosMsg_Stargate "/cosmos.distribution.v1beta1.MsgFundCommunityPool"
        (encode_msg_fund_community_pool community_pool (contract_address env))]
    else out_msgs in
  mret (Response_new
    |> add_messages out_msgs
    |> add_attribute "burnt" (show_coin burn)
    |> add_attribute "relayer_reward" (show_coin relayer.2)
    |> add_attribute "relayer_address" relayer.1
    |> add_attribute "sent_to_community_pool" (show_coin community_pool)).

Definition execute (deps : Deps) (env : Env) (info : MessageInfo) (msg : ExecuteMsg) :
    M Storage ContractError Response :=
  match msg with
  | ExecuteMsg_Pay burn community_pool relayer =>
      execute_pay deps info env burn community_pool relayer
  end.

Definition query_config (deps : Deps) : M Storage StdError ConfigResponse :=
  load CONFIG.

Definition query `{Json ConfigResponse} (deps : Deps) (env : Env) (msg : QueryMsg) :
    M Storage StdError Binary :=
  match msg with
  | QueryMsg_Config => r ← query_config deps; std (to_json_binary r)
  end.
End contract.

#[global] Instance NoisSinkExecuteMsg_eq_dec : EqDecision NoisSinkExecuteMsg.
Proof. solve_decision. Defined.
#[global] Program Instance NoisSinkExecuteMsg_countable : Countable NoisSinkExecuteMsg :=
  inj_countable' (λ _, tt) (λ _, NoisSinkExecuteMsg_Burn) _.
Next Obligation. by intros []. Qed.
#[global] Instance InstantiateMsg_eq_dec : EqDecision InstantiateMsg.
Proof. solve_decision. Defined.
#[global] Program Instance InstantiateMsg_countable : Countable InstantiateMsg :=
  inj_countable' msg_sink (λ s, {| msg_sink := s |}) _.
Next Obligation. by intros []. Qed.
#[global] Instance ExecuteMsg_eq_dec : EqDecision ExecuteMsg.
Proof. solve_decision. Defined.
#[global] Program Instance ExecuteMsg_countable : Countable ExecuteMsg :=
  inj_countable'
    (λ '(ExecuteMsg_Pay b c r), ((amount b, denom b), (amount c, denom c),
                                 (r.1, (amount r.2, denom r.2))))
    (λ '((ba, bd), (ca, cd), (r, (ra, rd))),
      ExecuteMsg_Pay (coin ba bd) (coin ca cd) (r, coin ra rd)) _.
Next Obligation. by intros [[] [] [? []]]. Qed.

(** ** Lemmas *)

(** The messages of a payment: one per part with a non-zero amount, in the
    order burn, relayer, community pool. *)
Definition pay_messages `{Anybuf} (cfg : Config) (burn_binary : Binary) (env : Env)
    (burn community_pool : Coin) (relayer : string * Coin) : list CosmosMsg :=
  (if amount burn =? 0 then []
   else [CosmosMsg_Wasm (WasmMsg_Execute (sink cfg) burn_binary [burn])]) ++
  (if amount relayer.2 =? 0 then []
   else [CosmosMsg_Bank (BankMsg_Send relayer.1 [relayer.2])]) ++
  (if amount community_pool =? 0 then []
   else [CosmosMsg_Stargate "/cosmos.distribution.v1beta1.MsgFundCommunityPool"
          (encode_msg_fund_community_pool community_pool (contract_address env))]).

Lemma execute_pay_run `{Display} `{Anybuf} `{Json NoisSinkExecuteMsg} deps env info burn
    community_pool relayer s cfg b a :
  config s = Some cfg → to_json_binary NoisSinkExecuteMsg_Burn = Ok b →
  sender info = gateway cfg → funds info = [] → addr_validate_ (api deps) relayer.1 = Ok a →
  ∃ r, execute deps env info (ExecuteMsg_Pay burn community_pool relayer) s = (Ok r, s) ∧
    messages r = SubMsg_new <$> pay_messages cfg b env burn community_pool relayer.
Proof.
  intros Hcfg Hb Hsender Hfunds Haddr.
  unfold execute, execute_pay, pay_messages. run_unfold. simpl.
  rewrite Hcfg, Hb. simpl. rewrite !bool_decide_true, Haddr by done. simpl.
  destruct (amount burn =? 0), (amount relayer.2 =? 0), (amount community_pool =? 0);
    simpl; by eauto.
Qed.

(** ** Properties *)

(** [execute_pay] on every branch. Once the contract is instantiated the
    call never changes the state. It is refused for every sender but the
    gateway, for attached funds and for an invalid relayer address, in this
    order; otherwise it succeeds and its messages are one transfer per part
    with a non-zero amount: the burn to the sink, the reward to the relayer,
    the rest to the community pool. *)
Lemma execute_pay_spec `{Display} `{Anybuf} `{JsonLaws NoisSinkExecuteMsg}
    (deps : Deps) (env : Env) (info : MessageInfo) (burn community_pool : Coin)
    (relayer : string * Coin) (s : Storage) (cfg : Config) (Hcfg : config s = Some cfg) :
  ∃ o b, execute deps env info (ExecuteMsg_Pay burn community_pool relayer) s = (o, s) ∧
    to_json_binary NoisSinkExecuteMsg_Burn = Ok b ∧
    if bool_decide (sender info ≠ gateway cfg) then o = Err ContractError_Unauthorized
    else if bool_decide (funds info ≠ []) then o = Err ContractError_DontSendFunds
    else match addr_validate_ (api deps) relayer.1 with
         | Err _ => o = Err ContractError_InvalidAddress
         | Panic => o = Panic
         | Ok _ => ∃ r, o = Ok r ∧
             messages r = SubMsg_new <$> pay_messages cfg b env burn community_pool relayer
         end.
Proof.
  destruct (json_roundtrip NoisSinkExecuteMsg_Burn) as (b & Hb & _).
  destruct (decide (sender info = gateway cfg)) as [Hsender|Hsender].
  2: { unfold execute, execute_pay. run_unfold. simpl. rewrite Hcfg. simpl.
       rewrite (bool_decide_false (_ = _)), (bool_decide_true (_ ≠ _)) by done. by eauto 10. }
  destruct (decide (funds info = [])) as [Hfunds|Hfunds].
  2: { unfold execute, execute_pay. run_unfold. simpl. rewrite Hcfg. simpl.
       rewrite bool_decide_true, !(bool_decide_false (funds info = [])) by done.
       rewrite bool_decide_false, bool_decide_true by naive_solver. by eauto 10. }
  rewrite !bool_decide_false by naive_solver.
  destruct (addr_validate_ (api deps) relayer.1) as [a|e|] eqn:Haddr.
  - edestruct (execute_pay_run deps env info burn community_pool relayer) as (r & Hr & ?);
      [done..|]. by eauto 10.
  - unfold execute, execute_pay. run_unfold. simpl. rewrite Hcfg. simpl.
    rewrite !bool_decide_true, Haddr by done. by eauto 10.
  - unfold execute, execute_pay. run_unfold. simpl. rewrite Hcfg. simpl.
    rewrite !bool_decide_true, Haddr by done. by eauto 10.
Qed.

Definition sample_config : Config := {| sink := "sink"; gateway := "gateway" |}.
Definition sample : Storage := {| contract_info := None; config := Some sample_config |}.

Lemma execute_pay_spec_witness :
  ∃ o b, execute (test_deps 0) (test_env 1 1) {| sender := "gateway"; funds := [] |}
      (ExecuteMsg_Pay (coin 40 "unois") (coin 40 "unois") ("relayer", coin 0 "unois")) sample
      = (o, sample) ∧
    to_json_binary NoisSinkExecuteMsg_Burn = Ok b ∧
    ∃ r, o = Ok r ∧ messages r = SubMsg_new <$>
      [CosmosMsg_Wasm (WasmMsg_Execute "sink" b [coin 40 "unois"]);
       CosmosMsg_Stargate "/cosmos.distribution.v1beta1.MsgFundCommunityPool"
         (encode_msg_fund_community_pool (coin 40 "unois") "contract")].
Proof.
  apply (execute_pay_spec (test_deps 0) (test_env 1 1) {| sender := "gateway"; funds := [] |}
    (coin 40 "unois") (coin 40 "unois") ("relayer", coin 0 "unois") sample sample_config eq_refl).
Defined.
