(* ===== verification/Icecube.v ===== *)
(** * nois-icecube: the melting supply for bot rewards (contracts/nois-icecube) *)
From stdpp Require Import prelude gmap strings list sorting pretty.
From Stdlib Require Import NArith Lia.
From S2P Require Import Prelude.
From S2P Require Import CosmWasm.
From S2P Require Import Fixtures.

(** ** Errors, state and messages (error.rs, state.rs, msg.rs) *)

Inductive ContractError :=
  | ContractError_Std (e : StdError)
  | ContractError_Unauthorized
  | ContractError_ContractAlreadySet
  | ContractError_NoisDrandAddressUnset.
#[global] Instance ContractError_from_std : FromStd ContractError := ContractError_Std.

Record Config := { manager : Addr; drand : option Addr }.

Record Storage := { contract_info : option ContractVersion; config : option Config }.

Definition CONTRACT_INFO : Item Storage ContractVersion := {|
  item_get := contract_info;
  item_set v s := {| contract_info := v; config := config s |};
|}.
Definition CONFIG : Item Storage Config := {|
  item_get := config;
  item_set v s := {| contract_info := contract_info s; config := v |};
|}.

Record InstantiateMsg := { msg_manager : string }.
Inductive ExecuteMsg :=
  | ExecuteMsg_Delegate (addr : string) (amount : Uint128)
  | ExecuteMsg_Undelegate (addr : string) (amount : Uint128)
  | ExecuteMsg_Redelegate (src_addr dest_addr : string) (amount : Uint128)
  | ExecuteMsg_ClaimRewards (addr : string)
  | ExecuteMsg_SetDrandAddr (addr : string)
  | ExecuteMsg_SendFundsToDrand (funds : Coin)
  | ExecuteMsg_SetManagerAddr (manager : string).
Inductive QueryMsg := QueryMsg_Config.
Abbreviation ConfigResponse := Config (only parsing).

(** ** The contract (contract.rs) *)

Definition STAKING_DENOM : string := "unois".
Definition CARGO_PKG_NAME : string := "nois-icecube".
Definition CARGO_PKG_VERSION : string := "0.15.4".

Section contract.
Context `{Display}.

Definition instantiate (deps : Deps) (env : Env) (info : MessageInfo) (msg : InstantiateMsg) :
    M Storage StdError Response :=
  manager ← addr_validate deps (msg_manager msg);
  save CONFIG {| manager := manager; drand := None |} ;;
  set_contract_version CONTRACT_INFO CARGO_PKG_NAME CARGO_PKG_VERSION ;;
  mret Response_new.

Definition migrate (deps : Deps) (env : Env) : M Storage StdError Response :=
  set_contract_version CONTRACT_INFO CARGO_PKG_NAME CARGO_PKG_VERSION ;;
  mret Response_new.

Definition execute_send_funds_to_drand (deps : Deps) (env : Env) (funds : Coin) :
    M Storage ContractError Response :=
  config ← load CONFIG;
  match drand config with
  | None => fail ContractError_NoisDrandAddressUnset
  | Some nois_drand_contract =>
      mret (Response_new
        |> add_attribute "nois-icecube-sent-amount" (show_coin funds)
        |> add_message (CosmosMsg_Bank (BankMsg_Send nois_drand_contract [funds])))
  end.

Definition execute_delegate (deps : Deps) (info : MessageInfo) (addr : string) (amt : Uint128) :
    M Storage ContractError Response :=
  config ← load CONFIG;
  ensure (bool_decide (sender info = manager config)) ContractError_Unauthorized ;;
  mret (Response_new
    |> add_message (CosmosMsg_Staking (StakingMsg_Delegate addr (coin amt STAKING_DENOM)))).

Definition execute_undelegate (deps : Deps) (info : MessageInfo) (addr : string) (amt : Uint128) :
    M Storage ContractError Response :=
  config ← load CONFIG;
  ensure (bool_decide (sender info = manager config)) ContractError_Unauthorized ;;
  mret (Response_new
    |> add_message (CosmosMsg_Staking (StakingMsg_Undelegate addr (coin amt STAKING_DENOM)))).

Definition execute_redelegate (deps : Deps) (info : MessageInfo) (src_addr dest_addr : string)
    (amt : Uint128) : M Storage ContractError Response :=
  config ← load CONFIG;
  ensure (bool_decide (sender info = manager config)) ContractError_Unauthorized ;;
  mret (Response_new
    |> add_message (CosmosMsg_Staking
         (StakingMsg_Redelegate src_addr dest_addr (coin amt STAKING_DENOM)))).

Definition execute_claim_rewards (addr : string) : M Storage ContractError Response :=
  mret (Response_new
    |> add_message (CosmosMsg_Distribution (DistributionMsg_WithdrawDelegatorReward addr))).

Definition execute_set_drand_addr (deps : Deps) (info : MessageInfo) (env : Env)
    (addr : string) : M Storage ContractError Response :=
  config ← load CONFIG;
  ensure (bool_decide (sender info = manager config)) ContractError_Unauthorized ;;
  ensure (negb (bool_decide (is_Some (drand config)))) ContractError_ContractAlreadySet ;;
  nois_drand_address ← addr_validate deps addr;
  save CONFIG {| manager := manager config; drand := Some nois_drand_address |} ;;
  mret (Response_new |> add_attribute "nois-drand-address" nois_drand_address).

Definition execute_set_manager_addr (deps : Deps) (info : MessageInfo) (env : Env)
    (manager_ : string) : M Storage ContractError Response :=
  config ← load CONFIG;
  ensure (bool_decide (sender info = manager config)) ContractError_Unauthorized ;;
  manager_addr ← addr_validate deps manager_;
  save CONFIG {| manager := manager_addr; drand := drand config |} ;;
  mret (Response_new |> add_attribute "manager" manager_addr).

Definition execute (deps : Deps) (env : Env) (info : MessageInfo) (msg : ExecuteMsg) :
    M Storage ContractError Response :=
  match msg with
  | ExecuteMsg_SendFundsToDrand funds => execute_send_funds_to_drand deps env funds
  | ExecuteMsg_Delegate addr amt => execute_delegate deps info addr amt
  | ExecuteMsg_Undelegate addr amt => execute_undelegate deps info addr amt
  | ExecuteMsg_Redelegate src_addr dest_addr amt =>
      execute_redelegate deps info src_addr dest_addr amt
  | ExecuteMsg_ClaimRewards addr => execute_claim_rewards addr
  | ExecuteMsg_SetDrandAddr addr => execute_set_drand_addr deps info env addr
  | ExecuteMsg_SetManagerAddr manager => execute_set_manager_addr deps info env manager
  end.

Definition query_config (deps : Deps) : M Storage StdError ConfigResponse :=
  load CONFIG.

Definition query `{Json ConfigResponse} (deps : Deps) (env : Env) (msg : QueryMsg) :
    M Storage StdError Binary :=
  match msg with
  | QueryMsg_Config => r ← query_config deps; std (to_json_binary r)
  end.

(** ** The contract as a transition system *)

Definition empty_storage : Storage := {| contract_info := None; config := None |}.

Inductive init : Storage → Prop :=
  | init_instantiate deps env info msg r s :
      instantiate deps env info msg empty_storage = (Ok r, s) → init s.

(** One transaction that succeeds, with the messages it sends. *)
Inductive call (s : Storage) : Addr → list CosmosMsg → Storage → Prop :=
  | call_execute deps env info msg r s' :
      execute deps env info msg s = (Ok r, s') →
      call s (sender info) (sub_msg <$> messages r) s'
  | call_migrate deps env who r s' :
      migrate deps env s = (Ok r, s') →
      call s who (sub_msg <$> messages r) s'.

Definition step (s s' : Storage) : Prop := ∃ who msgs, call s who msgs s'.
End contract.

(** ** Lemmas *)

Definition drand_of (s : Storage) : option Addr := config s ≫= drand.

Section lemmas.
Context `{Display}.

Ltac unfold_execute :=
  unfold execute, execute_send_funds_to_drand, execute_delegate, execute_undelegate,
    execute_redelegate, execute_claim_rewards, execute_set_drand_addr,
    execute_set_manager_addr in *.

Lemma call_drand s who msgs s' d : call s who msgs s' → drand_of s = Some d → drand_of s' = Some d.
Proof.
  unfold drand_of. destruct 1 as [deps env info msg r s' Hrun|deps env who r s' Hrun].
  - destruct msg; unfold_execute; inv_run; try done.
    + intros Hd. simplify_option_eq. destruct (drand _); naive_solver.
    + case_match; inv_run. done.
    + intros Hd. by simplify_option_eq.
  - unfold migrate in Hrun. by inv_run.
Qed.

(** What a message may be, given the state and the caller. *)
Definition allowed_msg (s : Storage) (who : Addr) (m : CosmosMsg) : Prop :=
  match m with
  | CosmosMsg_Bank (BankMsg_Send to_address _) => drand_of s = Some to_address
  | CosmosMsg_Staking _ => manager <$> config s = Some who
  | CosmosMsg_Distribution _ => True
  | _ => False
  end.

Lemma call_allowed s who msgs s' : call s who msgs s' → Forall (allowed_msg s who) msgs.
Proof.
  destruct 1 as [deps env info msg r s' Hrun|deps env who r s' Hrun].
  - destruct msg; unfold_execute; inv_run; repeat case_match; inv_run; simpl in *;
      first [apply Forall_nil_2 | apply Forall_singleton]; try done.
    all: unfold allowed_msg, drand_of.
    all: match goal with H : config _ = Some _ |- _ => rewrite H end; simpl; by f_equal.
  - unfold migrate in Hrun. inv_run. done.
Qed.
End lemmas.

(** ** Properties *)

(** C27. The supply can only melt into one address. Let [d] be the address a
    bank transfer of the contract goes to in some state. Then [d] is the
    configured nois-drand contract, no later step can change it, and in every
    later call of anybody each message is a bank transfer to [d], a staking
    operation sent by the current manager, or a reward claim: the manager has
    no way to withdraw. *)
Theorem funds_only_leave_to_drand `{Display} (s s1 s2 s3 : Storage) (who who2 : Addr)
    (msgs msgs2 : list CosmosMsg) (d : Addr) (sent : list Coin)
    (Hcall : call s who msgs s1) (Hsent : CosmosMsg_Bank (BankMsg_Send d sent) ∈ msgs)
    (Hlater : rtc step s1 s2) (Hcall2 : call s2 who2 msgs2 s3) :
  drand_of s = Some d ∧ drand_of s2 = Some d ∧
  ∀ m, m ∈ msgs2 →
    (∃ coins, m = CosmosMsg_Bank (BankMsg_Send d coins)) ∨
    (∃ op, m = CosmosMsg_Staking op ∧ manager <$> config s2 = Some who2) ∨
    (∃ op, m = CosmosMsg_Distribution op).
Proof.
  pose proof (proj1 (Forall_forall _ _) (call_allowed _ _ _ _ Hcall) _ Hsent) as Hd.
  simpl in Hd.
  assert (drand_of s2 = Some d) as Hd2.
  { eapply (rtc_preserved step (λ s, drand_of s = Some d) s1); [|by eauto using call_drand|done].
    intros ?? ? (? & ? & ?). eauto using call_drand. }
  split_and!; [done..|]. intros m Hm.
  pose proof (proj1 (Forall_forall _ _) (call_allowed _ _ _ _ Hcall2) _ Hm) as Ha.
  destruct m as [[]| | | | |]; simpl in Ha; naive_solver.
Qed.

(** ** Witness *)

Definition sample : Storage :=
  {| contract_info := None; config := Some {| manager := "boss"; drand := Some "drand" |} |}.

Lemma funds_only_leave_to_drand_witness :
  drand_of sample = Some "drand" ∧ drand_of sample = Some "drand" ∧
  ∀ m, m ∈ [CosmosMsg_Staking (StakingMsg_Delegate "val" (coin 5 "unois"))] →
    (∃ coins, m = CosmosMsg_Bank (BankMsg_Send "drand" coins)) ∨
    (∃ op, m = CosmosMsg_Staking op ∧ manager <$> config sample = Some "boss") ∨
    (∃ op, m = CosmosMsg_Distribution op).
Proof.
  apply (funds_only_leave_to_drand sample sample sample sample "anyone" "boss"
    [CosmosMsg_Bank (BankMsg_Send "drand" [coin 1 "unois"])]
    [CosmosMsg_Staking (StakingMsg_Delegate "val" (coin 5 "unois"))] "drand" [coin 1 "unois"]).
  - by apply (call_execute sample (test_deps 0) (test_env 1 1)
      {| sender := "anyone"; funds := [] |} (ExecuteMsg_SendFundsToDrand (coin 1 "unois"))
      (Response_new
        |> add_attribute "nois-icecube-sent-amount" (show_coin (coin 1 "unois"))
        |> add_message (CosmosMsg_Bank (BankMsg_Send "drand" [coin 1 "unois"]))) sample).
  - by left.
  - reflexivity.
  - by apply (call_execute sample (test_deps 0) (test_env 1 1)
      {| sender := "boss"; funds := [] |} (ExecuteMsg_Delegate "val" 5)
      (Response_new |> add_message (CosmosMsg_Staking
        (StakingMsg_Delegate "val" (coin 5 STAKING_DENOM)))) sample).
Defined.
