(* ===== verification/Drand.v ===== *)
(** * nois-drand: verified beacons and bot incentives (contracts/nois-drand)

    State, messages and handlers of the contract that verifies drand beacons,
    stores them and rewards the bots that submit them. The signature scheme
    ([drand_verify]) and SHA-256 are parameters. *)
From stdpp Require Import prelude gmap strings list sorting pretty.
From Stdlib Require Import NArith Lia Ascii.
From S2P Require Import Prelude.
From S2P Require Import CosmWasm.
From S2P Require Import DrandCommon.
From S2P Require Import Fixtures.

(** The parts of the [drand_verify] crate that the contract calls. [verify] is
    [None] when the crate returns an error. [derive_randomness] returns an array
    of 32 bytes; all that is used of this type is that it is not empty. *)
Class DrandVerify := {
  Pubkey : Type;
  from_fixed_unchecked : list u8 → option Pubkey;
  verify : Pubkey → u64 → Binary → Binary → option bool;
  derive_randomness : Binary → HexBinary;
  derive_randomness_nonempty signature : derive_randomness signature ≠ "";
}.

(** ** Errors (error.rs) *)

Inductive ContractError :=
  | ContractError_Std (e : StdError)
  | ContractError_MonikerEmpty
  | ContractError_Unauthorized
  | ContractError_ContractAlreadySet
  | ContractError_MonikerTooLong
  | ContractError_InvalidPubkey
  | ContractError_RoundTooLow (round min_round : u64)
  | ContractError_InvalidSignature
  | ContractError_SignatureDoesNotMatchState
  | ContractError_SubmissionExists.
#[global] Instance ContractError_from_std : FromStd ContractError := ContractError_Std.

(** ** State (state.rs) *)

Record Config := {
  manager : Addr;
  gateway : option Addr;
  min_round : u64;
  incentive_point_price : Uint128;
  incentive_denom : string;
}.

Record VerifiedBeacon := { verified : Timestamp; randomness : HexBinary }.

Record QueriedBeacon := {
  queried_round : u64;
  queried_published : Timestamp;
  queried_verified : Timestamp;
  queried_randomness : HexBinary;
}.

Definition QueriedBeacon_make {E} (beacon : VerifiedBeacon) (round : u64) :
    outcome E QueriedBeacon :=
  published ← time_of_round round;
  Ok {| queried_round := round; queried_published := published;
        queried_verified := verified beacon; queried_randomness := randomness beacon |}.

Record StoredSubmission := {
  pos : u16;
  time : Timestamp;
  height : u64;
  tx_index : option u32;
}.

Definition INCENTIVIZED_BY_GATEWAY_MARKER : u8 := 1.

Record Bot := { moniker : string; rounds_added : u64; reward_points : u64 }.

Record QueriedBot := {
  queried_moniker : string;
  queried_address : Addr;
  queried_rounds_added : u64;
  queried_reward_points : u64;
}.

Definition QueriedBot_make (bot : Bot) (address : Addr) : QueriedBot :=
  {| queried_moniker := moniker bot; queried_address := address;
     queried_rounds_added := rounds_added bot; queried_reward_points := reward_points bot |}.

Record Storage := {
  contract_info : option ContractVersion;
  config : option Config;
  beacons : gmap u64 VerifiedBeacon;
  bots : gmap Addr Bot;
  allowlist : gmap Addr unit;
  submissions : gmap (u64 * Addr) StoredSubmission;
  submissions_count : gmap u64 u16;
  incentivized_by_gateway : gmap u64 u8;
}.

Definition CONTRACT_INFO : Item Storage ContractVersion := {|
  item_get := contract_info;
  item_set v s := Build_Storage v (config s) (beacons s) (bots s) (allowlist s)
    (submissions s) (submissions_count s) (incentivized_by_gateway s);
|}.
Definition CONFIG : Item Storage Config := {|
  item_get := config;
  item_set v s := Build_Storage (contract_info s) v (beacons s) (bots s) (allowlist s)
    (submissions s) (submissions_count s) (incentivized_by_gateway s);
|}.
Definition BEACONS : Map Storage u64 VerifiedBeacon := {|
  map_get := beacons;
  map_set v s := Build_Storage (contract_info s) (config s) v (bots s) (allowlist s)
    (submissions s) (submissions_count s) (incentivized_by_gateway s);
|}.
Definition BOTS : Map Storage Addr Bot := {|
  map_get := bots;
  map_set v s := Build_Storage (contract_info s) (config s) (beacons s) v (allowlist s)
    (submissions s) (submissions_count s) (incentivized_by_gateway s);
|}.
Definition ALLOWLIST : Map Storage Addr unit := {|
  map_get := allowlist;
  map_set v s := Build_Storage (contract_info s) (config s) (beacons s) (bots s) v
    (submissions s) (submissions_count s) (incentivized_by_gateway s);
|}.
Definition SUBMISSIONS : Map Storage (u64 * Addr) StoredSubmission := {|
  map_get := submissions;
  map_set v s := Build_Storage (contract_info s) (config s) (beacons s) (bots s)
    (allowlist s) v (submissions_count s) (incentivized_by_gateway s);
|}.
Definition SUBMISSIONS_COUNT : Map Storage u64 u16 := {|
  map_get := submissions_count;
  map_set v s := Build_Storage (contract_info s) (config s) (beacons s) (bots s)
    (allowlist s) (submissions s) v (incentivized_by_gateway s);
|}.
Definition INCENTIVIZED_BY_GATEWAY : Map Storage u64 u8 := {|
  map_get := incentivized_by_gateway;
  map_set v s := Build_Storage (contract_info s) (config s) (beacons s) (bots s)
    (allowlist s) (submissions s) (submissions_count s) v;
|}.

(** ** Messages (msg.rs) *)

Record InstantiateMsg := {
  msg_manager : string;
  msg_min_round : u64;
  msg_incentive_point_price : Uint128;
  msg_incentive_denom : string;
}.

Inductive ExecuteMsg :=
  | ExecuteMsg_AddRound (round : u64) (signature : HexBinary)
  | ExecuteMsg_RegisterBot (moniker : string)
  | ExecuteMsg_SetIncentivized (round : u64)
  | ExecuteMsg_UpdateAllowlistBots (add remove : list string)
  | ExecuteMsg_SetConfig (manager gateway : option string) (min_round : option u64)
      (incentive_point_price : option Uint128) (incentive_denom : option string).

Inductive QueryMsg :=
  | QueryMsg_Config
  | QueryMsg_Beacon (round : u64)
  | QueryMsg_BeaconsAsc (start_after : option u64) (limit : option u32)
  | QueryMsg_BeaconsDesc (start_after : option u64) (limit : option u32)
  | QueryMsg_IsIncentivized (sender : string) (rounds : list u64)
  | QueryMsg_Submissions (round : u64)
  | QueryMsg_Bot (address : string)
  | QueryMsg_Bots
  | QueryMsg_Allowlist
  | QueryMsg_IsAllowlisted (bot : string).

Abbreviation ConfigResponse := Config (only parsing).
Record BeaconResponse := { response_beacon : option QueriedBeacon }.
Record BeaconsResponse := { response_beacons : list QueriedBeacon }.
Record BotResponse := { response_bot : option QueriedBot }.
Record BotsResponse := { response_bots : list QueriedBot }.
Record AllowlistResponse := { allowed : list string }.
Record IsAllowlistedResponse := { listed : bool }.
Record QueriedSubmission := {
  submission_bot : Addr;
  submission_time : Timestamp;
  submission_height : u64;
  submission_tx_index : option u32;
}.
Definition QueriedSubmission_make (stored : StoredSubmission) (bot_address : Addr) :
    QueriedSubmission :=
  {| submission_bot := bot_address; submission_time := time stored;
     submission_height := height stored; submission_tx_index := tx_index stored |}.
Record IsIncentivizedResponse := { incentivized : list bool }.
Record SubmissionsResponse := {
  response_round : u64;
  response_submissions : list QueriedSubmission;
}.

(** The message for the gateway. *)
Inductive NoisGatewayExecuteMsg :=
  | NoisGatewayExecuteMsg_AddVerifiedRound (round : u64) (randomness : HexBinary)
      (is_verifying_tx : bool).

(** ** Event attributes (attributes.rs) *)

Definition ATTR_ROUND : string := "round".
Definition ATTR_RANDOMNESS : string := "randomness".
Definition ATTR_BOT : string := "bot".
Definition ATTR_REWARD_POINTS : string := "reward_points".
Definition ATTR_REWARD_PAYOUT : string := "reward_payout".

(** ** Bots (bots.rs) *)

Definition MAX_MONIKER_LEN : N := 20.

Definition validate_moniker (moniker : string) : outcome ContractError unit :=
  if bool_decide (moniker = "") then Err ContractError_MonikerEmpty
  else if MAX_MONIKER_LEN <? len moniker then Err ContractError_MonikerTooLong
  else Ok tt.

Inductive Group := Group_A | Group_B.
#[global] Instance Group_eq_dec : EqDecision Group.
Proof. solve_decision. Defined.

(** The first byte of a hash (of 32 bytes, so never empty). *)
Definition first_byte (hash : Binary) : u8 :=
  match hash with String c _ => N_of_ascii c | EmptyString => 0 end.

Definition group `{Sha256} (addr : Addr) : Group :=
  let hash := sha256 addr in
  if first_byte hash mod 2 =? 0 then Group_A else Group_B.

Definition eligible_group (round : u64) : Group :=
  if round mod 2 =? 0 then Group_A else Group_B.

(** ** The contract (contract.rs) *)

Definition NUMBER_OF_INCENTIVES_PER_ROUND : u16 := 6.
Definition NUMBER_OF_SUBMISSION_VERIFICATION_PER_ROUND : u16 := 3.
Definition INCENTIVE_POINTS_FOR_VERIFICATION : u64 := 35.
Definition INCENTIVE_POINTS_FOR_FAST_BOT : u64 := 15.
Definition CARGO_PKG_NAME : string := "nois-drand".
Definition CARGO_PKG_VERSION : string := "0.15.4".

(** The order of [submissions.sort_by(..)]. *)
Definition pos_le (a b : Addr * StoredSubmission) : Prop := pos a.2 ≤ pos b.2.
#[global] Instance pos_le_dec : RelDecision pos_le.
Proof. intros ??. unfold pos_le. apply _. Defined.

Section contract.
Context `{Display} `{Sha256} `{DrandVerify} `{Json NoisGatewayExecuteMsg}.

Definition instantiate (deps : Deps) (env : Env) (info : MessageInfo) (msg : InstantiateMsg) :
    M Storage ContractError Response :=
  manager ← addr_validate deps (msg_manager msg);
  let config := {|
    manager := manager; gateway := None; min_round := msg_min_round msg;
    incentive_point_price := msg_incentive_point_price msg;
    incentive_denom := msg_incentive_denom msg |} in
  save CONFIG config ;;
  set_contract_version CONTRACT_INFO CARGO_PKG_NAME CARGO_PKG_VERSION ;;
  mret Response_new.

Definition migrate (deps : Deps) (env : Env) : M Storage StdError Response :=
  set_contract_version CONTRACT_INFO CARGO_PKG_NAME CARGO_PKG_VERSION ;;
  mret Response_new.

(** Whether the round is incentivized for [sender]. *)
Definition is_incentivized {E} (deps : Deps) (sender : Addr) (round min_round : u64) :
    M Storage E bool :=
  if round <? min_round then mret false
  else
    by_gateway ← map_has INCENTIVIZED_BY_GATEWAY round;
    if by_gateway || DrandCommon.is_incentivized round
    then mret (bool_decide (group sender = eligible_group round))
    else mret false.

Definition execute_register_bot (deps : Deps) (env : Env) (info : MessageInfo)
    (moniker : string) : M Storage ContractError Response :=
  lift (validate_moniker moniker) ;;
  stored ← map_may_load BOTS (sender info);
  let bot :=
    match stored with
    | Some bot => {| moniker := moniker; rounds_added := rounds_added bot;
                     reward_points := reward_points bot |}
    | None => {| moniker := moniker; rounds_added := 0; reward_points := 0 |}
    end in
  map_save BOTS (sender info) bot ;;
  mret Response_new.

Definition execute_set_incentivized (deps : Deps) (env : Env) (info : MessageInfo)
    (round : u64) : M Storage ContractError Response :=
  config ← load CONFIG;
  ensure (bool_decide (Some (sender info) = gateway config)) ContractError_Unauthorized ;;
  let min_round := min_round config in
  ensure (negb (round <? min_round)) (ContractError_RoundTooLow round min_round) ;;
  map_save INCENTIVIZED_BY_GATEWAY round INCENTIVIZED_BY_GATEWAY_MARKER ;;
  mret Response_new.

Definition execute_update_allowlist_bots (deps : Deps) (info : MessageInfo)
    (add remove : list string) : M Storage ContractError Response :=
  config ← load CONFIG;
  ensure (bool_decide (sender info = manager config)) ContractError_Unauthorized ;;
  for_each (λ bot,
    addr ← addr_validate deps bot;
    has ← map_has ALLOWLIST addr;
    if negb has then map_save ALLOWLIST addr tt else mret tt) add ;;
  for_each (λ bot,
    addr ← addr_validate deps bot;
    has ← map_has ALLOWLIST addr;
    if (has : bool) then map_remove ALLOWLIST addr else mret tt) remove ;;
  mret Response_new.

Definition execute_add_round (deps : Deps) (env : Env) (info : MessageInfo)
    (round : u64) (signature : HexBinary) : M Storage ContractError Response :=
  ensure (bool_decide (funds info = []))
    (ContractError_Std (StdError_GenericErr "Do not send funds")) ;;
  config ← load CONFIG;
  let min_round := min_round config in
  ensure (negb (round <? min_round)) (ContractError_RoundTooLow round min_round) ;;
  count ← map_may_load SUBMISSIONS_COUNT round;
  let submissions_count := unwrap_or 0 count in
  let randomness := derive_randomness signature in
  '(is_verifying_tx, points) ←
    (if submissions_count <? NUMBER_OF_SUBMISSION_VERIFICATION_PER_ROUND then
       pk ← lift (ok_or (from_fixed_unchecked DRAND_MAINNET2_PUBKEY) ContractError_InvalidPubkey);
       ensure (unwrap_or false (verify pk round "" signature)) ContractError_InvalidSignature ;;
       points ← lift (uadd 64 0 INCENTIVE_POINTS_FOR_VERIFICATION);
       mret (true, points)
     else
       already ← map_load BEACONS round;
       ensure (bool_decide (randomness = Drand.randomness already))
         ContractError_SignatureDoesNotMatchState ;;
       mret (false, 0));
  points ←
    (if submissions_count <? NUMBER_OF_INCENTIVES_PER_ROUND
     then lift (uadd 64 points INCENTIVE_POINTS_FOR_FAST_BOT) else mret points);
  let beacon := {| verified := block_time env; Drand.randomness := randomness |} in
  let submissions_key := (round, sender info) in
  exists_already ← map_has SUBMISSIONS submissions_key;
  ensure (negb exists_already) ContractError_SubmissionExists ;;
  bot ← map_may_load BOTS (sender info);
  let is_registered := bool_decide (is_Some bot) in
  is_allowlisted ← map_has ALLOWLIST (sender info);
  new_count ← lift (uadd 16 submissions_count 1);
  map_save SUBMISSIONS submissions_key
    {| pos := new_count; time := block_time env; height := block_height env;
       tx_index := transaction_index env |} ;;
  map_save SUBMISSIONS_COUNT round new_count ;;
  let attributes := [
    attr ATTR_ROUND (pretty round);
    attr ATTR_RANDOMNESS (to_hex randomness);
    attr ATTR_BOT (sender info)] in
  out_msgs ←
    match gateway config with
    | Some gateway =>
        b ← std (to_json_binary
          (NoisGatewayExecuteMsg_AddVerifiedRound round randomness is_verifying_tx));
        mret [CosmosMsg_Wasm (WasmMsg_Execute gateway b [])]
    | None => mret []
    end;
  incentivized ← is_incentivized deps (sender info) round min_round;
  let is_eligible :=
    incentivized && is_registered && is_allowlisted && negb (points =? 0) in
  let points := if is_eligible then points else 0 in
  let attributes := attributes ++ [attr ATTR_REWARD_POINTS (pretty points)] in
  match bot with
  | Some bot =>
      rounds_added ← lift (uadd 64 (rounds_added bot) 1);
      reward_points ← lift (uadd 64 (reward_points bot) points);
      map_save BOTS (sender info)
        {| moniker := moniker bot; Drand.rounds_added := rounds_added;
           Drand.reward_points := reward_points |}
  | None => mret tt
  end ;;
  payout ←
    (if is_eligible then
       desired_amount ← lift (umul 128 points (incentive_point_price config));
       contract_balance ← query_balance deps (contract_address env) (incentive_denom config);
       if desired_amount <=? amount contract_balance
       then mret (coin desired_amount (incentive_denom config))
       else mret (coin 0 (incentive_denom config))
     else mret (coin 0 (incentive_denom config)));
  let attributes := attributes ++ [attr ATTR_REWARD_PAYOUT (show_coin payout)] in
  let out_msgs :=
    if negb (amount payout =? 0)
    then out_msgs ++ [CosmosMsg_Bank (BankMsg_Send (sender info) [payout])] else out_msgs in
  has_beacon ← map_has BEACONS round;
  (if negb has_beacon then map_save BEACONS round beacon else mret tt) ;;
  mret (Response_new
    |> add_messages out_msgs
    |> add_attributes attributes).

Definition execute_set_config (deps : Deps) (info : MessageInfo)
    (manager_ gateway_ : option string) (min_round_ : option u64)
    (incentive_point_price_ : option Uint128) (incentive_denom_ : option string) :
    M Storage ContractError Response :=
  config ← load CONFIG;
  ensure (bool_decide (sender info = manager config)) ContractError_Unauthorized ;;
  gateway ←
    match gateway_ with
    | Some gateway => a ← addr_validate deps gateway; mret (Some a)
    | None => mret (gateway config)
    end;
  manager ←
    match manager_ with
    | Some ma => addr_validate deps ma
    | None => mret (manager config)
    end;
  let new_config := {|
    Drand.manager := manager;
    Drand.gateway := gateway;
    min_round := unwrap_or (min_round config) min_round_;
    incentive_point_price := unwrap_or (incentive_point_price config) incentive_point_price_;
    incentive_denom := unwrap_or (incentive_denom config) incentive_denom_ |} in
  save CONFIG new_config ;;
  mret Response_new.

Definition execute (deps : Deps) (env : Env) (info : MessageInfo) (msg : ExecuteMsg) :
    M Storage ContractError Response :=
  match msg with
  | ExecuteMsg_AddRound round signature => execute_add_round deps env info round signature
  | ExecuteMsg_RegisterBot moniker => execute_register_bot deps env info moniker
  | ExecuteMsg_SetIncentivized round => execute_set_incentivized deps env info round
  | ExecuteMsg_UpdateAllowlistBots add remove =>
      execute_update_allowlist_bots deps info add remove
  | ExecuteMsg_SetConfig manager gateway min_round incentive_point_price incentive_denom =>
      execute_set_config deps info manager gateway min_round incentive_point_price
        incentive_denom
  end.

(** *** Queries *)

Definition query_config (deps : Deps) : M Storage StdError ConfigResponse :=
  load CONFIG.

Definition query_beacon (deps : Deps) (round : u64) : M Storage StdError BeaconResponse :=
  beacon ← map_may_load BEACONS round;
  match beacon with
  | Some b => q ← lift (QueriedBeacon_make b round); mret {| response_beacon := Some q |}
  | None => mret {| response_beacon := None |}
  end.

Definition query_beacons (deps : Deps) (start_after : option u64) (limit : option u32)
    (order : Order) : M Storage StdError BeaconsResponse :=
  let limit := N.to_nat (unwrap_or 100 limit) in
  let '(low_bound, top_bound) :=
    match order with
    | Order_Ascending => (start_after, None)
    | Order_Descending => (None, start_after)
    end in
  rows ← range BEACONS low_bound top_bound order;
  beacons ← map_m (λ '(round, beacon), lift (QueriedBeacon_make beacon round)) (take limit rows);
  mret {| response_beacons := beacons |}.

Definition query_is_incentivized (deps : Deps) (sender : string) (rounds : list u64) :
    M Storage StdError IsIncentivizedResponse :=
  sender ← addr_validate deps sender;
  config ← load CONFIG;
  incentivized ← map_m (λ round, is_incentivized deps sender round (min_round config)) rounds;
  mret {| incentivized := incentivized |}.

Definition query_submissions (deps : Deps) (round : u64) :
    M Storage StdError SubmissionsResponse :=
  submissions ← gets (λ s, prefix_entries round (map_get SUBMISSIONS s));
  let submissions := merge_sort pos_le submissions in
  mret {| response_round := round;
          response_submissions :=
            (λ '(addr, stored), QueriedSubmission_make stored addr) <$> submissions |}.

Definition query_bot (deps : Deps) (address : string) : M Storage StdError BotResponse :=
  address ← addr_validate deps address;
  bot ← map_may_load BOTS address;
  mret {| response_bot := (λ bot, QueriedBot_make bot address) <$> bot |}.

Definition query_bots (deps : Deps) : M Storage StdError BotsResponse :=
  rows ← range BOTS None None Order_Ascending;
  mret {| response_bots := (λ '(address, bot), QueriedBot_make bot address) <$> rows |}.

Definition query_allowlist (deps : Deps) : M Storage StdError AllowlistResponse :=
  rows ← range ALLOWLIST None None Order_Ascending;
  mret {| allowed := rows.*1 |}.

Definition query_is_allowlisted (deps : Deps) (bot : string) :
    M Storage StdError IsAllowlistedResponse :=
  bot_addr ← addr_validate deps bot;
  listed ← map_has ALLOWLIST bot_addr;
  mret {| listed := listed |}.

Definition query `{Json ConfigResponse} `{Json BeaconResponse} `{Json BeaconsResponse}
    `{Json IsIncentivizedResponse} `{Json SubmissionsResponse} `{Json BotResponse}
    `{Json BotsResponse} `{Json AllowlistResponse} `{Json IsAllowlistedResponse}
    (deps : Deps) (env : Env) (msg : QueryMsg) : M Storage StdError Binary :=
  match msg with
  | QueryMsg_Config => r ← query_config deps; std (to_json_binary r)
  | QueryMsg_Beacon round => r ← query_beacon deps round; std (to_json_binary r)
  | QueryMsg_BeaconsAsc start_after limit =>
      r ← query_beacons deps start_after limit Order_Ascending; std (to_json_binary r)
  | QueryMsg_BeaconsDesc start_after limit =>
      r ← query_beacons deps start_after limit Order_Descending; std (to_json_binary r)
  | QueryMsg_IsIncentivized sender rounds =>
      r ← query_is_incentivized deps sender rounds; std (to_json_binary r)
  | QueryMsg_Submissions round => r ← query_submissions deps round; std (to_json_binary r)
  | QueryMsg_Bot address => r ← query_bot deps address; std (to_json_binary r)
  | QueryMsg_Bots => r ← query_bots deps; std (to_json_binary r)
  | QueryMsg_Allowlist => r ← query_allowlist deps; std (to_json_binary r)
  | QueryMsg_IsAllowlisted bot => r ← query_is_allowlisted deps bot; std (to_json_binary r)
  end.

(** *** The contract as a transition system *)

Definition empty_storage : Storage := Build_Storage None None ∅ ∅ ∅ ∅ ∅ ∅.

Inductive init : Storage → Prop :=
  | init_instantiate deps env info msg r s :
      instantiate deps env info msg empty_storage = (Ok r, s) → init s.

Inductive step : Storage → Storage → Prop :=
  | step_execute deps env info msg r s s' :
      execute deps env info msg s = (Ok r, s') → step s s'
  | step_migrate deps env r s s' :
      migrate deps env s = (Ok r, s') → step s s'.
End contract.

(** ** Lemmas *)

(** The number of submissions of a round. *)
Definition count_of (s : Storage) (round : u64) : N := unwrap_or 0 (submissions_count s !! round).

(** The points the [count + 1]-th submission of a round can earn. *)
Definition points_for (count : N) : N :=
  (if count <? NUMBER_OF_SUBMISSION_VERIFICATION_PER_ROUND
   then INCENTIVE_POINTS_FOR_VERIFICATION else 0) +
  (if count <? NUMBER_OF_INCENTIVES_PER_ROUND then INCENTIVE_POINTS_FOR_FAST_BOT else 0).

(** Reads the fields of an updated storage. *)
Ltac simpl_storage :=
  cbn [map_get map_set item_get item_set CONTRACT_INFO CONFIG BEACONS BOTS ALLOWLIST SUBMISSIONS
    SUBMISSIONS_COUNT INCENTIVIZED_BY_GATEWAY contract_info config beacons bots allowlist
    submissions submissions_count incentivized_by_gateway negb andb] in *.

Section spec.
Context `{Display} `{Sha256} `{DrandVerify} `{Json NoisGatewayExecuteMsg}.

(** The signature of a submission passes: it verifies, for the first
    submissions of the round, or gives the randomness stored before. *)
Definition signature_accepted (s : Storage) (round : u64) (signature : HexBinary) : Prop :=
  if count_of s round <? NUMBER_OF_SUBMISSION_VERIFICATION_PER_ROUND then
    ∃ pk, from_fixed_unchecked DRAND_MAINNET2_PUBKEY = Some pk ∧
      verify pk round "" signature = Some true
  else ∃ b, beacons s !! round = Some b ∧ randomness b = derive_randomness signature.

(** The round is incentivized for the bot, and the bot is registered,
    allowlisted and among the first six. *)
Definition eligible (s : Storage) (who : Addr) (round : u64) : bool :=
  (bool_decide (is_Some (incentivized_by_gateway s !! round)) ||
     DrandCommon.is_incentivized round) &&
  bool_decide (group who = eligible_group round) &&
  bool_decide (is_Some (bots s !! who)) && bool_decide (is_Some (allowlist s !! who)) &&
  (count_of s round <? NUMBER_OF_INCENTIVES_PER_ROUND).

Definition earned_points (s : Storage) (who : Addr) (round : u64) : N :=
  if eligible s who round then points_for (count_of s round) else 0.

(** The payout for the points: all or nothing, depending on the balance. *)
Definition payout (deps : Deps) (env : Env) (cfg : Config) (points : N) (c : Coin) : Prop :=
  if points =? 0 then c = coin 0 (incentive_denom cfg)
  else ∃ balance,
    query_balance_ (querier deps) (contract_address env) (incentive_denom cfg) = Ok balance ∧
    points * incentive_point_price cfg ≤ umax 128 ∧
    c = coin (if points * incentive_point_price cfg <=? amount balance
              then points * incentive_point_price cfg else 0) (incentive_denom cfg).

(** The state after a submission of [who]. *)
Definition submitted (s : Storage) (env : Env) (who : Addr) (round : u64)
    (signature : HexBinary) : Storage :=
  {| contract_info := contract_info s;
     config := config s;
     beacons :=
       match beacons s !! round with
       | Some _ => beacons s
       | None => <[round := {| verified := block_time env;
                               randomness := derive_randomness signature |}]> (beacons s)
       end;
     bots :=
       match bots s !! who with
       | Some bot => <[who := {| moniker := moniker bot; rounds_added := rounds_added bot + 1;
           reward_points := reward_points bot + earned_points s who round |}]> (bots s)
       | None => bots s
       end;
     allowlist := allowlist s;
     submissions := <[(round, who) := {| pos := count_of s round + 1; time := block_time env;
       height := block_height env; tx_index := transaction_index env |}]> (submissions s);
     submissions_count := <[round := count_of s round + 1]> (submissions_count s);
     incentivized_by_gateway := incentivized_by_gateway s |}.

(** Everything a successful submission does. *)
Definition add_round_ok (deps : Deps) (env : Env) (info : MessageInfo) (round : u64)
    (signature : HexBinary) (s : Storage) (r : Response) (s' : Storage) : Prop :=
  ∃ cfg c to_gateway,
    let who := sender info in
    let points := earned_points s who round in
    config s = Some cfg ∧ funds info = [] ∧ min_round cfg ≤ round ∧
    signature_accepted s round signature ∧
    submissions s !! (round, who) = None ∧
    count_of s round + 1 ≤ umax 16 ∧
    payout deps env cfg points c ∧
    s' = submitted s env who round signature ∧
    messages r = SubMsg_new <$>
      to_gateway ++
      (if amount c =? 0 then [] else [CosmosMsg_Bank (BankMsg_Send who [c])]) ∧
    match gateway cfg with
    | None => to_gateway = []
    | Some gw => ∃ b,
        to_json_binary (NoisGatewayExecuteMsg_AddVerifiedRound round
          (derive_randomness signature)
          (count_of s round <? NUMBER_OF_SUBMISSION_VERIFICATION_PER_ROUND)) = Ok b ∧
        to_gateway = [CosmosMsg_Wasm (WasmMsg_Execute gw b [])]
    end ∧
    attributes r = [
      (ATTR_ROUND, pretty round); (ATTR_RANDOMNESS, to_hex (derive_randomness signature));
      (ATTR_BOT, who); (ATTR_REWARD_POINTS, pretty points);
      (ATTR_REWARD_PAYOUT, show_coin c)].

Lemma is_incentivized_ok {E} deps who round min s b s' :
  (is_incentivized deps who round min : M Storage E bool) s = (Ok b, s') →
  s' = s ∧ b = negb (round <? min) &&
    (bool_decide (is_Some (incentivized_by_gateway s !! round)) ||
       DrandCommon.is_incentivized round) &&
    bool_decide (group who = eligible_group round).
Proof.
  unfold is_incentivized. destruct (round <? min) eqn:Hr; intros Hrun; inv_run; [done|].
  simpl in *. destruct (_ || _); inv_run; auto.
Qed.

(** The steps of [execute_add_round] that branch. *)
Lemma verification_ok {E} `{FromStd E} round signature (ep es em : E) s x s1 :
  ((if count_of s round <? NUMBER_OF_SUBMISSION_VERIFICATION_PER_ROUND then
     pk ← lift (ok_or (from_fixed_unchecked DRAND_MAINNET2_PUBKEY) ep);
     ensure (unwrap_or false (verify pk round "" signature)) es ;;
     points ← lift (uadd 64 0 INCENTIVE_POINTS_FOR_VERIFICATION);
     mret (true, points)
   else
     already ← map_load BEACONS round;
     ensure (bool_decide (derive_randomness signature = randomness already)) em ;;
     mret (false, 0)) : M Storage E (bool * N)) s = (Ok x, s1) →
  s1 = s ∧ signature_accepted s round signature ∧
  x = (count_of s round <? NUMBER_OF_SUBMISSION_VERIFICATION_PER_ROUND,
       if count_of s round <? NUMBER_OF_SUBMISSION_VERIFICATION_PER_ROUND
       then INCENTIVE_POINTS_FOR_VERIFICATION else 0).
Proof.
  unfold signature_accepted.
  destruct (count_of s round <? NUMBER_OF_SUBMISSION_VERIFICATION_PER_ROUND);
    intros Hrun; inv_run; split_and!; eauto.
  destruct (verify _ _ _ _) as [[]|] eqn:?; naive_solver.
Qed.

Lemma speed_bonus_ok {E} (count points : N) s x s1 :
  ((if count <? NUMBER_OF_INCENTIVES_PER_ROUND
    then lift (uadd 64 points INCENTIVE_POINTS_FOR_FAST_BOT)
    else mret points) : M Storage E N) s = (Ok x, s1) →
  s1 = s ∧ x = points + (if count <? NUMBER_OF_INCENTIVES_PER_ROUND
                         then INCENTIVE_POINTS_FOR_FAST_BOT else 0).
Proof. destruct (_ <? _); intros Hrun; inv_run; split; try done. lia. Qed.

Lemma payout_ok deps env cfg (is_eligible : bool) points s c s1 :
  (is_eligible = true → points ≠ 0) →
  ((if is_eligible then
      desired_amount ← lift (umul 128 points (incentive_point_price cfg));
      contract_balance ← query_balance deps (contract_address env) (incentive_denom cfg);
      if desired_amount <=? amount contract_balance
      then mret (coin desired_amount (incentive_denom cfg))
      else mret (coin 0 (incentive_denom cfg))
    else mret (coin 0 (incentive_denom cfg))) : M Storage ContractError Coin) s = (Ok c, s1) →
  s1 = s ∧ payout deps env cfg (if is_eligible then points else 0) c.
Proof.
  unfold payout. intros Hp. destruct is_eligible; intros Hrun; inv_run; [|done].
  rewrite (proj2 (N.eqb_neq _ _)) by auto.
  match goal with H : (if ?b then _ else _) _ = _ |- _ => destruct b eqn:Hle in H |- * end.
  all: inv_run; (split; [done|]); eexists; split_and!; eauto.
  - by rewrite (proj2 (N.leb_le _ _)).
  - by rewrite (proj2 (N.leb_gt _ _)).
Qed.

Lemma gateway_message_ok (gw : option Addr) (x : NoisGatewayExecuteMsg) s out s1 :
  (match gw with
   | Some gateway =>
       b ← std (to_json_binary x); mret [CosmosMsg_Wasm (WasmMsg_Execute gateway b [])]
   | None => mret []
   end : M Storage ContractError (list CosmosMsg)) s = (Ok out, s1) →
  s1 = s ∧ match gw with
           | None => out = []
           | Some gw => ∃ b, to_json_binary x = Ok b ∧
               out = [CosmosMsg_Wasm (WasmMsg_Execute gw b [])]
           end.
Proof. destruct gw; intros Hrun; inv_run; eauto. Qed.

Lemma bot_update_ok (bot : option Bot) who points s u s1 :
  bot = bots s !! who →
  (match bot with
   | Some bot =>
       added ← lift (uadd 64 (rounds_added bot) 1);
       earned ← lift (uadd 64 (reward_points bot) points);
       map_save BOTS who
         {| moniker := moniker bot; rounds_added := added; reward_points := earned |}
   | None => mret tt
   end : M Storage ContractError unit) s = (Ok u, s1) →
  s1 = map_set BOTS
    (match bots s !! who with
     | Some bot => <[who := {| moniker := moniker bot; rounds_added := rounds_added bot + 1;
                               reward_points := reward_points bot + points |}]> (bots s)
     | None => bots s
     end) s.
Proof. intros ->. destruct (bots s !! who); intros Hrun; inv_run; [done|]. by destruct s. Qed.

Lemma beacon_store_ok round b s u s1 :
  ((if negb (bool_decide (is_Some (map_get BEACONS s !! round)))
    then map_save BEACONS round b else mret tt) : M Storage ContractError unit) s = (Ok u, s1) →
  s1 = map_set BEACONS
    (match beacons s !! round with Some _ => beacons s | None => <[round := b]> (beacons s) end) s.
Proof.
  simpl. destruct (beacons s !! round); simpl; intros Hrun; inv_run; [|done]. by destruct s.
Qed.

Lemma eligible_earned s who round :
  eligible s who round =
  ((bool_decide (is_Some (incentivized_by_gateway s !! round)) ||
      DrandCommon.is_incentivized round) &&
   bool_decide (group who = eligible_group round)) &&
  bool_decide (is_Some (bots s !! who)) && bool_decide (is_Some (allowlist s !! who)) &&
  negb (points_for (count_of s round) =? 0).
Proof.
  unfold eligible. f_equal. unfold points_for. generalize (count_of s round). intros n.
  unfold NUMBER_OF_INCENTIVES_PER_ROUND, NUMBER_OF_SUBMISSION_VERIFICATION_PER_ROUND.
  destruct (N.ltb_spec n 3), (N.ltb_spec n 6); try done. lia.
Qed.

Lemma execute_add_round_ok deps env info round signature s r s' :
  execute_add_round deps env info round signature s = (Ok r, s') →
  add_round_ok deps env info round signature s r s'.
Proof.
  unfold execute_add_round. intros Hrun. inv_run. cbn [map_get item_get CONFIG SUBMISSIONS_COUNT] in *.
  change (unwrap_or 0 (submissions_count s !! round)) with (count_of s round) in *.
  match goal with H : (if _ then _ else _) s = _ |- _ =>
    apply verification_ok in H as (-> & Hsig & ->) end.
  inv_run.
  match goal with H : (if _ then _ else _) s = _ |- _ =>
    apply speed_bonus_ok in H as (-> & ->) end.
  inv_run. fold (points_for (count_of s round)) in *.
  match goal with H : context [to_json_binary] |- _ =>
    apply gateway_message_ok in H as (-> & Hgw) end.
  match goal with H : is_incentivized _ _ _ _ _ = _ |- _ =>
    apply is_incentivized_ok in H as (-> & ->) end.
  match goal with H : match map_get BOTS s !! _ with _ => _ end _ = _ |- _ =>
    apply bot_update_ok in H as ->; [|done] end.
  match goal with H : context [query_balance] |- _ =>
    apply payout_ok in H as (-> & Hpay) end.
  2: { intros He. rewrite He. by apply andb_prop in He as [_ He%negb_true_iff%N.eqb_neq]. }
  match goal with H : context [map_get BEACONS] |- _ => apply beacon_store_ok in H as -> end.
  simpl_storage.
  match goal with H : min_round ?c ≤ _ |- _ =>
    rewrite (proj2 (N.ltb_ge _ _) H) in *; exists c end.
  rewrite !andb_true_l, <-?eligible_earned in *. fold (earned_points s (sender info) round) in *.
  do 2 eexists. split_and!; try done.
  - by apply eq_None_not_Some.
  - revert Hpay. unfold earned_points. by destruct (eligible _ _ _).
  - simpl. destruct (amount _ =? 0); simpl; by rewrite ?app_nil_r.
Qed.
End spec.

(** *** The allowlist *)

Section allowlist.
Context `{Display} `{Sha256} `{DrandVerify} `{Json NoisGatewayExecuteMsg}.

Lemma allow_ok (a : Addr) (s : Storage) u s' :
  (has ← map_has ALLOWLIST a;
   if negb has then map_save ALLOWLIST a tt else mret tt : M Storage ContractError unit) s
    = (Ok u, s') →
  s' = map_set ALLOWLIST (<[a:=tt]> (allowlist s)) s.
Proof.
  intros Hrun. inv_run. simpl in *. destruct (allowlist s !! a) as [[]|] eqn:Ha; simpl in *; inv_run.
  - rewrite insert_id by done. by destruct s.
  - done.
Qed.

Lemma disallow_ok (a : Addr) (s : Storage) u s' :
  (has ← map_has ALLOWLIST a;
   if (has : bool) then map_remove ALLOWLIST a else mret tt : M Storage ContractError unit) s
    = (Ok u, s') →
  s' = map_set ALLOWLIST (delete a (allowlist s)) s.
Proof.
  intros Hrun. inv_run. simpl in *. destruct (allowlist s !! a) as [[]|] eqn:Ha; simpl in *; inv_run.
  - done.
  - rewrite delete_id by done. by destruct s.
Qed.

Lemma foldl_allowlist (g : Addr → gmap Addr unit → gmap Addr unit) l (s : Storage) :
  foldl (λ s a, map_set ALLOWLIST (g a (allowlist s)) s) s l =
  map_set ALLOWLIST (foldl (λ m a, g a m) (allowlist s) l) s.
Proof.
  revert s. induction l as [|a l IH]; intros s; [by destruct s|]. simpl. by rewrite IH.
Qed.

(** The addresses named by the message, and the allowlist that results. *)
Definition allowlist_updated (deps : Deps) (add remove : list string) (s s' : Storage) : Prop :=
  ∃ added removed,
    Forall2 (λ bot a, addr_validate_ (api deps) bot = Ok a) add added ∧
    Forall2 (λ bot a, addr_validate_ (api deps) bot = Ok a) remove removed ∧
    (∀ a, is_Some (allowlist s' !! a) ↔
      (is_Some (allowlist s !! a) ∨ a ∈ added) ∧ a ∉ removed) ∧
    s' = map_set ALLOWLIST (allowlist s') s.

Lemma execute_update_allowlist_bots_ok deps info add remove s r s' :
  execute_update_allowlist_bots deps info add remove s = (Ok r, s') →
  manager <$> config s = Some (sender info) ∧ r = Response_new ∧
  allowlist_updated deps add remove s s'.
Proof.
  unfold execute_update_allowlist_bots. intros Hrun. inv_run.
  match goal with H : for_each _ add _ = _ |- _ =>
    eapply (for_each_addr_ok (E:=ContractError)) in H as (added & Hadd & Heq); [|exact allow_ok]; subst end.
  match goal with H : for_each _ remove _ = _ |- _ =>
    eapply (for_each_addr_ok (E:=ContractError)) in H as (removed & Hrem & Heq); [|exact disallow_ok]; subst end.
  rewrite (foldl_allowlist delete), (foldl_allowlist (λ a, <[a:=tt]>)). simpl_storage.
  split_and!; [by match goal with H : config s = Some _ |- _ => rewrite H; simpl; congruence end|done|].
  exists added, removed. split_and!; [done..| |by destruct s].
  intros a. simpl. by rewrite is_Some_foldl_delete, is_Some_foldl_insert.
Qed.
End allowlist.

(** *** The invariant of the rounds *)

Section invariant.
Context `{Display} `{Sha256} `{DrandVerify} `{Json NoisGatewayExecuteMsg}.

(** The beacon is the randomness of a signature of its round that verifies
    under the key of the drand network. *)
Definition verified_beacon (round : u64) (b : VerifiedBeacon) : Prop :=
  ∃ pk signature, from_fixed_unchecked DRAND_MAINNET2_PUBKEY = Some pk ∧
    verify pk round "" signature = Some true ∧ randomness b = derive_randomness signature.

Record well_formed (s : Storage) : Prop := {
  wf_positions round :
    (λ e, pos e.2) <$> prefix_entries round (submissions s)
      ≡ₚ seqN 1 (N.to_nat (count_of s round));
  wf_count round : count_of s round ≤ umax 16;
  wf_beacons round : is_Some (beacons s !! round) ↔ 1 ≤ count_of s round;
  wf_verified round b : beacons s !! round = Some b → verified_beacon round b;
}.

(** The fields that only submissions change. *)
Definition same_rounds (s s' : Storage) : Prop :=
  beacons s' = beacons s ∧ submissions s' = submissions s ∧
  submissions_count s' = submissions_count s.

Lemma same_rounds_well_formed s s' : same_rounds s s' → well_formed s → well_formed s'.
Proof.
  intros (Hb & Hs & Hc) [Hp Hn Hbc Hv].
  split; unfold count_of in *; rewrite ?Hb, ?Hs, ?Hc; done.
Qed.

Lemma execute_other_ok deps env info msg s r s' :
  (∀ round signature, msg ≠ ExecuteMsg_AddRound round signature) →
  execute deps env info msg s = (Ok r, s') → same_rounds s s'.
Proof.
  unfold execute. intros Hmsg Hrun. destruct msg as [| | |add remove|]; [by destruct (Hmsg _ _ eq_refl)| | | |].
  - unfold execute_register_bot in Hrun. by inv_run.
  - unfold execute_set_incentivized in Hrun. by inv_run.
  - apply execute_update_allowlist_bots_ok in Hrun as (_ & _ & (? & ? & _ & _ & _ & ->)). done.
  - unfold execute_set_config in Hrun. inv_run. repeat case_match; by inv_run.
Qed.

(** A step is a submission or leaves the rounds alone. *)
Lemma drand_step_cases s s' :
  step s s' →
  same_rounds s s' ∨
  ∃ deps env info round signature r, add_round_ok deps env info round signature s r s'.
Proof.
  destruct 1 as [deps env info msg r s s' Hrun|deps env r s s' Hrun].
  - destruct msg as [round signature| | | |];
      [right|left; (eapply execute_other_ok; [|exact Hrun]; done)..].
    do 6 eexists. by apply execute_add_round_ok.
  - left. unfold migrate in Hrun. by inv_run.
Qed.

Lemma count_of_submitted s env who round signature round' :
  count_of (submitted s env who round signature) round' =
  if decide (round = round') then count_of s round + 1 else count_of s round'.
Proof. unfold count_of at 1. simpl. case_decide; subst; by simplify_map_eq. Qed.

Lemma beacons_submitted s env who round signature round' :
  beacons (submitted s env who round signature) !! round' =
  if decide (round = round') then
    Some (unwrap_or {| verified := block_time env; randomness := derive_randomness signature |}
      (beacons s !! round))
  else beacons s !! round'.
Proof. simpl. destruct (beacons s !! round) eqn:?; case_decide; subst; by simplify_map_eq. Qed.

Lemma submitted_well_formed s env who round signature :
  well_formed s → signature_accepted s round signature →
  submissions s !! (round, who) = None → count_of s round + 1 ≤ umax 16 →
  well_formed (submitted s env who round signature).
Proof.
  intros [Hp Hn Hbc Hv] Hsig Hnew Hmax. split.
  - intros round'. rewrite count_of_submitted. cbn [submissions submitted]. case_decide; subst.
    + rewrite prefix_entries_insert by done. simpl. rewrite Hp.
      rewrite N2Nat.inj_add, Nat.add_comm. change (N.to_nat 1 + ?n)%nat with (S n).
      rewrite seqN_snoc, N2Nat.id, (N.add_comm 1). apply Permutation_cons_append.
    + rewrite prefix_entries_insert_other by done. apply Hp.
  - intros round'. rewrite count_of_submitted. by case_decide.
  - intros round'. rewrite count_of_submitted, beacons_submitted. case_decide; [|done].
    split; [lia|eauto].
  - intros round' b. rewrite beacons_submitted. case_decide; [|apply Hv]. subst.
    intros [= <-]. destruct (beacons s !! round') as [b|] eqn:Hb; simpl; [by apply Hv|].
    unfold signature_accepted in Hsig. destruct (_ <? _).
    + destruct Hsig as (pk & ? & ?). by exists pk, signature.
    + destruct Hsig as (b & ? & _). congruence.
Qed.

Lemma step_well_formed s s' : well_formed s → step s s' → well_formed s'.
Proof.
  intros Hwf [Hsame|(deps & env & info & round & signature & r & Hok)]%drand_step_cases.
  - by eapply same_rounds_well_formed.
  - destruct Hok as (? & ? & ? & _ & _ & _ & ? & ? & ? & _ & -> & _).
    by apply submitted_well_formed.
Qed.

Lemma reachable_well_formed s : reachable init step s → well_formed s.
Proof.
  apply reachable_invariant; [|apply step_well_formed].
  intros _ [deps env info msg r s0 Hrun]. unfold instantiate in Hrun. inv_run.
  split; intros round; simpl_storage; unfold count_of; simpl; rewrite ?lookup_empty; try done.
Qed.

Lemma step_beacons s s' : step s s' → beacons s ⊆ beacons s'.
Proof.
  intros [(-> & _)|(deps & env & info & round & signature & r & Hok)]%drand_step_cases; [done|].
  destruct Hok as (? & ? & ? & _ & _ & _ & _ & _ & _ & _ & -> & _).
  apply map_subseteq_spec. intros round' b Hb. rewrite beacons_submitted.
  case_decide; [|done]. subst. by rewrite Hb.
Qed.
End invariant.

(** *** The order of the submissions *)

#[global] Instance pos_le_total : Total pos_le.
Proof. intros ??. unfold pos_le. lia. Qed.
#[global] Instance pos_le_trans : Transitive pos_le.
Proof. intros ???. unfold pos_le. lia. Qed.

Lemma sorted_by_positions (l : list (Addr * StoredSubmission)) n :
  (λ e, pos e.2) <$> l ≡ₚ seqN 1 n → (λ e, pos e.2) <$> merge_sort pos_le l = seqN 1 n.
Proof.
  intros Hl. assert (StronglySorted pos_le (merge_sort pos_le l)) as Hs.
  { apply StronglySorted_merge_sort; apply _. }
  apply (StronglySorted_unique N.le).
  - induction Hs as [|e k _ IH Hall]; simpl; constructor; [done|].
    apply Forall_fmap. eapply Forall_impl; [exact Hall|]. auto.
  - eapply StronglySorted_weaken; [|apply StronglySorted_seqN]. lia.
  - by rewrite merge_sort_Permutation.
Qed.

(** ** Properties *)

Section properties.
Context `{Display} `{Sha256} `{DrandVerify} `{Json NoisGatewayExecuteMsg}.

(** C19. What an accepted submission does. [execute_add_round] accepts only
    calls without funds, for a round not below the minimum, not submitted
    before by this bot, whose signature verifies (for the first three
    submissions) or reproduces the stored randomness. It then records the
    submission at the next position, stores the beacon if there is none, credits
    the bot with exactly the points it earned, forwards the round to the gateway
    and pays points times price if the balance covers it and nothing otherwise. *)
Theorem add_round_effects (deps : Deps) (env : Env) (info : MessageInfo) (round : u64)
    (signature : HexBinary) (s s' : Storage) (r : Response)
    (Hrun : execute deps env info (ExecuteMsg_AddRound round signature) s = (Ok r, s')) :
  add_round_ok deps env info round signature s r s'.
Proof. by apply execute_add_round_ok. Qed.

(** C12. In every reachable state a beacon is stored exactly for the rounds with
    a submission, it is the randomness of a signature that verifies under the
    key of the drand network, and the submissions of a round hold the positions
    from 1 to their number, each once. *)
Theorem stored_beacons_verified (s : Storage) (Hs : reachable init step s) (round : u64) :
  (is_Some (beacons s !! round) ↔ 1 ≤ count_of s round) ∧
  (∀ b, beacons s !! round = Some b → verified_beacon round b) ∧
  (λ e, pos e.2) <$> prefix_entries round (submissions s)
    ≡ₚ seqN 1 (N.to_nat (count_of s round)).
Proof. destruct (reachable_well_formed s Hs) as [Hp _ Hb Hv]. auto. Qed.

(** C23. Beacons are write-once: no sequence of messages, from any sender,
    changes or removes a beacon that is stored. *)
Theorem beacons_write_once (s s' : Storage) (round : u64) (b : VerifiedBeacon)
    (Hsteps : rtc step s s') (Hb : beacons s !! round = Some b) :
  beacons s' !! round = Some b.
Proof.
  eapply (rtc_preserved step (λ s, beacons s !! round = Some b) s); [|done..].
  intros ?? ? ?%step_beacons. by eapply lookup_weaken.
Qed.

(** [query_submissions] lists the submissions of a round in the order in
    which they were accepted: in a reachable state the entries at the indices
    0, 1, ... are those stored under the positions 1, 2, ... *)
Lemma query_submissions_in_order (deps : Deps) (s : Storage) (round : u64)
    (Hs : reachable init step s) :
  ∃ rows, query_submissions deps round s =
      (Ok {| response_round := round;
             response_submissions := (λ e, QueriedSubmission_make e.2 e.1) <$> rows |}, s) ∧
    (λ e, pos e.2) <$> rows = seqN 1 (N.to_nat (count_of s round)) ∧
    ∀ bot sub, (bot, sub) ∈ rows ↔ submissions s !! (round, bot) = Some sub.
Proof.
  exists (merge_sort pos_le (prefix_entries round (submissions s))). split_and!.
  - unfold query_submissions. run_unfold. cbn [map_get SUBMISSIONS]. do 3 f_equal.
    apply list_fmap_ext. by intros ? [].
  - apply sorted_by_positions, (wf_positions _ (reachable_well_formed s Hs)).
  - intros bot sub. rewrite merge_sort_Permutation. apply elem_of_prefix_entries.
Qed.

(** [UpdateAllowlistBots] is for the manager only; afterwards exactly the
    addresses that were listed before or are added, and are not removed, are
    listed, and nothing else changed: an address that is both added and removed
    ends up removed. *)
Lemma update_allowlist_bots_spec (deps : Deps) (env : Env) (info : MessageInfo)
    (add remove : list string) (s s' : Storage) (r : Response)
    (Hrun : execute deps env info (ExecuteMsg_UpdateAllowlistBots add remove) s = (Ok r, s')) :
  manager <$> config s = Some (sender info) ∧ allowlist_updated deps add remove s s'.
Proof. apply execute_update_allowlist_bots_ok in Hrun. tauto. Qed.

(** C37. A bot that is not on the allowlist is not credited any point, whatever
    it submits: its counter of points keeps its value and the reported points
    are zero. *)
Theorem unlisted_bot_earns_nothing (deps : Deps) (env : Env) (info : MessageInfo) (round : u64)
    (signature : HexBinary) (s s' : Storage) (r : Response) (bot bot' : Bot)
    (Hrun : execute deps env info (ExecuteMsg_AddRound round signature) s = (Ok r, s'))
    (Hunlisted : allowlist s !! sender info = None)
    (Hbot : bots s !! sender info = Some bot) (Hbot' : bots s' !! sender info = Some bot') :
  reward_points bot' = reward_points bot ∧ rounds_added bot' = rounds_added bot + 1 ∧
  (ATTR_REWARD_POINTS, "0") ∈ attributes r ∧
  ∀ to coins, SubMsg_new (CosmosMsg_Bank (BankMsg_Send to coins)) ∉ messages r.
Proof.
  apply execute_add_round_ok in Hrun as (cfg & c & to_gw & _ & _ & _ & _ & _ & _ & Hpay & -> & Hmsgs & Hgw & Hattr).
  assert (earned_points s (sender info) round = 0) as Hzero.
  { unfold earned_points, eligible. rewrite Hunlisted, !andb_false_r. done. }
  rewrite Hzero in *. unfold payout in Hpay. simpl in Hpay. subst c.
  cbn [bots submitted] in Hbot'. rewrite Hbot, lookup_insert_eq, Hzero in Hbot'.
  injection Hbot' as <-. simpl. rewrite N.add_0_r, Hattr, Hmsgs. split_and!; [done..| |].
  - do 3 right. by left.
  - simpl. rewrite app_nil_r. intros to coins [m [[= <-] Hin]]%list_elem_of_fmap.
    destruct (gateway cfg); [destruct Hgw as (? & _ & ->); set_solver|subst; set_solver].
Qed.
End properties.

(** ** Witnesses *)

#[global] Instance NoisGatewayExecuteMsg_eq_dec : EqDecision NoisGatewayExecuteMsg.
Proof. solve_decision. Defined.
#[global] Program Instance NoisGatewayExecuteMsg_countable : Countable NoisGatewayExecuteMsg :=
  inj_countable'
    (λ m, match m with NoisGatewayExecuteMsg_AddVerifiedRound r x v => (r, x, v) end)
    (λ '(r, x, v), NoisGatewayExecuteMsg_AddVerifiedRound r x v) _.
Next Obligation. by intros []. Qed.

#[global] Instance ExecuteMsg_eq_dec : EqDecision ExecuteMsg.
Proof. solve_decision. Defined.
#[global] Program Instance ExecuteMsg_countable : Countable ExecuteMsg :=
  inj_countable'
    (λ m, match m with
          | ExecuteMsg_AddRound r x => inl (inl (r, x))
          | ExecuteMsg_RegisterBot n => inl (inr n)
          | ExecuteMsg_SetIncentivized r => inr (inl r)
          | ExecuteMsg_UpdateAllowlistBots a r => inr (inr (inl (a, r)))
          | ExecuteMsg_SetConfig a b c d e => inr (inr (inr (a, b, c, d, e)))
          end)
    (λ x, match x with
          | inl (inl (r, x)) => ExecuteMsg_AddRound r x
          | inl (inr n) => ExecuteMsg_RegisterBot n
          | inr (inl r) => ExecuteMsg_SetIncentivized r
          | inr (inr (inl (a, r))) => ExecuteMsg_UpdateAllowlistBots a r
          | inr (inr (inr (a, b, c, d, e))) => ExecuteMsg_SetConfig a b c d e
          end) _.
Next Obligation. by intros []. Qed.

(** A signature scheme in which the signature of a round is its number. *)
#[global, refine] Instance test_drand_verify : DrandVerify := {|
  Pubkey := list u8;
  from_fixed_unchecked k := Some k;
  verify _ round previous signature := Some (bool_decide (signature = pretty round));
  derive_randomness signature := "randomness of " +:+ signature;
|}.
Proof. done. Defined.

Definition sample_info (who : Addr) : MessageInfo := {| sender := who; funds := [] |}.
Definition sample_init : Storage :=
  (instantiate (test_deps 0) (test_env 1 10) (sample_info "creator")
    {| msg_manager := "boss"; msg_min_round := 10; msg_incentive_point_price := 2;
       msg_incentive_denom := "unois" |} empty_storage).2.
Definition sample_run (s : Storage) (call : Addr * ExecuteMsg) : Storage :=
  (execute (test_deps 1000) (test_env 2 20) (sample_info call.1) call.2 s).2.

(** Two bots register, one of them is allowlisted; both submit round 50. *)
Definition sample_calls : list (Addr * ExecuteMsg) := [
  ("joe", ExecuteMsg_RegisterBot "Joe"); ("bob", ExecuteMsg_RegisterBot "Bob");
  ("boss", ExecuteMsg_UpdateAllowlistBots ["joe"; "eve"] ["eve"]);
  ("joe", ExecuteMsg_AddRound 50 "50"); ("bob", ExecuteMsg_AddRound 50 "50")].
Definition sample_after (n : nat) : Storage := foldl sample_run sample_init (take n sample_calls).
Definition sample : Storage := sample_after 5.

Lemma sample_run_step s call :
  is_ok (execute (test_deps 1000) (test_env 2 20) (sample_info call.1) call.2 s).1 = true →
  step s (sample_run s call).
Proof. intros [r Hr]%run_snd. by eapply step_execute. Qed.

Lemma sample_steps n : (n ≤ 5)%nat → rtc step sample_init (sample_after n).
Proof.
  intros Hn. do 6 (destruct n as [|n];
    [repeat first [apply rtc_refl|
       eapply rtc_r; [|apply (sample_run_step _ (_, _)); by vm_compute]]|]).
  lia.
Qed.

Lemma drand_sample_reachable n : (n ≤ 5)%nat → reachable init step (sample_after n).
Proof.
  intros Hn. exists sample_init. split; [|by apply sample_steps].
  by apply (init_instantiate (test_deps 0) (test_env 1 10) (sample_info "creator")
    {| msg_manager := "boss"; msg_min_round := 10; msg_incentive_point_price := 2;
       msg_incentive_denom := "unois" |} Response_new).
Qed.

(** The allowlisted bot earns 50 points, paid out as 100 unois. *)
Lemma add_round_effects_witness : ∃ r,
  add_round_ok (test_deps 1000) (test_env 2 20) (sample_info "joe") 50 "50" (sample_after 3) r
    (sample_after 4) ∧
  messages r = [SubMsg_new (CosmosMsg_Bank (BankMsg_Send "joe" [coin 100 "unois"]))].
Proof.
  eexists. split.
  - apply (add_round_effects (test_deps 1000) (test_env 2 20) (sample_info "joe") 50 "50"
      (sample_after 3) (sample_after 4)). by vm_compute.
  - by vm_compute.
Defined.

Lemma stored_beacons_verified_witness :
  count_of sample 50 = 2 ∧
  (is_Some (beacons sample !! 50) ↔ 1 ≤ count_of sample 50) ∧
  (∀ b, beacons sample !! 50 = Some b → verified_beacon 50 b) ∧
  (λ e, pos e.2) <$> prefix_entries 50 (submissions sample)
    ≡ₚ seqN 1 (N.to_nat (count_of sample 50)).
Proof.
  split; [by vm_compute|].
  apply (stored_beacons_verified sample (drand_sample_reachable 5 (le_n 5)) 50).
Defined.

Lemma beacons_write_once_witness :
  beacons sample !! 50 = Some {| verified := 20; randomness := "randomness of 50" |}.
Proof.
  apply (beacons_write_once (sample_after 4) sample 50); [|by vm_compute].
  apply rtc_once, (sample_run_step (sample_after 4) ("bob", ExecuteMsg_AddRound 50 "50")).
  by vm_compute.
Defined.

Lemma query_submissions_in_order_witness :
  ∃ rows, query_submissions (test_deps 0) 50 sample =
      (Ok {| response_round := 50;
             response_submissions := (λ e, QueriedSubmission_make e.2 e.1) <$> rows |}, sample) ∧
    (λ e, pos e.2) <$> rows = seqN 1 (N.to_nat (count_of sample 50)) ∧
    ∀ bot sub, (bot, sub) ∈ rows ↔ submissions sample !! (50, bot) = Some sub.
Proof.
  apply (query_submissions_in_order (test_deps 0) sample 50 (drand_sample_reachable 5 (le_n 5))).
Defined.

Lemma update_allowlist_bots_spec_witness :
  manager <$> config (sample_after 2) = Some "boss" ∧
  allowlist_updated (test_deps 1000) ["joe"; "eve"] ["eve"] (sample_after 2) (sample_after 3).
Proof.
  apply (update_allowlist_bots_spec (test_deps 1000) (test_env 2 20) (sample_info "boss")
    ["joe"; "eve"] ["eve"] (sample_after 2) (sample_after 3) Response_new).
  by vm_compute.
Defined.

Lemma unlisted_bot_earns_nothing_witness : ∃ r,
  reward_points {| moniker := "Bob"; rounds_added := 1; reward_points := 0 |} = 0 ∧
  rounds_added {| moniker := "Bob"; rounds_added := 1; reward_points := 0 |} = 0 + 1 ∧
  (ATTR_REWARD_POINTS, "0") ∈ attributes r ∧
  ∀ to coins, SubMsg_new (CosmosMsg_Bank (BankMsg_Send to coins)) ∉ messages r.
Proof.
  eexists.
  apply (unlisted_bot_earns_nothing (test_deps 1000) (test_env 2 20) (sample_info "bob") 50 "50"
    (sample_after 4) sample _ {| moniker := "Bob"; rounds_added := 0; reward_points := 0 |}
    {| moniker := "Bob"; rounds_added := 1; reward_points := 0 |}); by vm_compute.
Defined.
