(* ===== verification/GatewayState.v ===== *)
(** * The state of nois-gateway (contracts/nois-gateway/src/state)

    Configuration, customers, the queue of unprocessed jobs per drand round, the
    log of requests per channel, the counters of processed jobs and the archive
    of published randomness, each with the operations the contract uses. The
    job queue has an abstract specification: a list of jobs per round. *)
From stdpp Require Import prelude gmap strings list sorting pretty.
From Stdlib Require Import NArith Lia.
From S2P Require Import Prelude.
From S2P Require Import CosmWasm.

(** ** Data (config.rs, customers.rs, drand_jobs.rs, requests_log.rs) *)

Record Config := {
  drand : option Addr;
  trusted_sources : option (list Addr);
  manager : Addr;
  price : Coin;
  payment_code_id : u64;
  payment_initial_funds : option Coin;
  sink : Addr;
}.

Record Customer := { payment : Addr; requested_beacons : u64 }.

Record Job := { source_id : string; channel : string; origin : Binary }.

Record RequestLogEntry := {
  logged_origin : Binary;
  logged_tx : u64 * option u32;
  logged_source_id : string;
  queued : bool;
}.

(** ** Storage *)

Record Storage := {
  contract_info : option ContractVersion;
  config : option Config;
  customers : gmap string Customer;
  jobs : gmap (u32 * u16) Job;
  last_job_id : gmap u32 u16;
  requests_log : gmap string (list RequestLogEntry);
  processed_drand_jobs : gmap u64 u32;
  archive : gmap (list u8) HexBinary;
}.

Definition CONTRACT_INFO : Item Storage ContractVersion := {|
  item_get := contract_info;
  item_set v s := Build_Storage v (config s) (customers s) (jobs s) (last_job_id s)
    (requests_log s) (processed_drand_jobs s) (archive s);
|}.
Definition CONFIG : Item Storage Config := {|
  item_get := config;
  item_set v s := Build_Storage (contract_info s) v (customers s) (jobs s) (last_job_id s)
    (requests_log s) (processed_drand_jobs s) (archive s);
|}.
Definition CUSTOMERS : Map Storage string Customer := {|
  map_get := customers;
  map_set v s := Build_Storage (contract_info s) (config s) v (jobs s) (last_job_id s)
    (requests_log s) (processed_drand_jobs s) (archive s);
|}.
Definition JOBS : Map Storage (u32 * u16) Job := {|
  map_get := jobs;
  map_set v s := Build_Storage (contract_info s) (config s) (customers s) v (last_job_id s)
    (requests_log s) (processed_drand_jobs s) (archive s);
|}.
Definition LAST_JOB_ID : Map Storage u32 u16 := {|
  map_get := last_job_id;
  map_set v s := Build_Storage (contract_info s) (config s) (customers s) (jobs s) v
    (requests_log s) (processed_drand_jobs s) (archive s);
|}.
(** The deques of the requests log by their namespace, each as the list of its
    elements from front to back. *)
Definition REQUESTS_LOG : Map Storage string (list RequestLogEntry) := {|
  map_get := requests_log;
  map_set v s := Build_Storage (contract_info s) (config s) (customers s) (jobs s)
    (last_job_id s) v (processed_drand_jobs s) (archive s);
|}.
Definition PROCESSED_DRAND_JOBS_COUNT : Map Storage u64 u32 := {|
  map_get := processed_drand_jobs;
  map_set v s := Build_Storage (contract_info s) (config s) (customers s) (jobs s)
    (last_job_id s) (requests_log s) v (archive s);
|}.
(** The raw keys written by the archive. *)
Definition ARCHIVE : Map Storage (list u8) HexBinary := {|
  map_get := archive;
  map_set v s := Build_Storage (contract_info s) (config s) (customers s) (jobs s)
    (last_job_id s) (requests_log s) (processed_drand_jobs s) v;
|}.

Definition empty_storage : Storage := Build_Storage None None ∅ ∅ ∅ ∅ ∅ ∅.

Ltac simpl_gateway :=
  cbn [map_get map_set item_get item_set CONTRACT_INFO CONFIG CUSTOMERS JOBS LAST_JOB_ID
    REQUESTS_LOG PROCESSED_DRAND_JOBS_COUNT ARCHIVE contract_info config customers jobs
    last_job_id requests_log processed_drand_jobs archive] in *.

Section operations.
Context {E : Type}.

(** ** The queue of unprocessed jobs (drand_jobs.rs) *)

Definition unprocessed_drand_jobs_enqueue (round : u64) (value : Job) : M Storage E unit :=
  round ← lift (try_into 32 round);
  last ← map_may_load LAST_JOB_ID round;
  new_id ← lift (uadd 16 (unwrap_or 0 last) 1);
  map_save JOBS (round, new_id) value ;;
  map_save LAST_JOB_ID round new_id ;;
  mret tt.

Definition unprocessed_drand_jobs_dequeue (round : u64) : M Storage E (option Job) :=
  round ← lift (try_into 32 round);
  first ← gets (λ s, head (prefix_entries round (map_get JOBS s)));
  match first with
  | None => mret None
  | Some (id, job) => map_remove JOBS (round, id) ;; mret (Some job)
  end.

Definition unprocessed_drand_jobs_len (round : u64) : M Storage E u32 :=
  round ← lift (try_into 32 round);
  count ← gets (λ s, N.of_nat (length (prefix_entries round (map_get JOBS s))));
  mret (count mod 2 ^ 32).

Definition all_unprocessed_drand_jobs (order : Order) (offset limit : N) :
    M Storage E (list Job) :=
  rows ← range JOBS None None order;
  mret (take (N.to_nat limit) (drop (N.to_nat offset) rows)).*2.

(** ** The requests log (requests_log.rs) *)

Definition requests_log_key (channel_id : string) : string := "rl_" +:+ channel_id.

Definition requests_log_add (channel_id : string) (request_log_entry : RequestLogEntry) :
    M Storage E unit :=
  let prefix := requests_log_key channel_id in
  log ← map_may_load REQUESTS_LOG prefix;
  map_save REQUESTS_LOG prefix (push_back (unwrap_or [] log) request_log_entry).

Definition requests_log_asc (channel_id : string) (offset limit : N) :
    M Storage E (list RequestLogEntry) :=
  let prefix := requests_log_key channel_id in
  log ← map_may_load REQUESTS_LOG prefix;
  mret (take (N.to_nat limit) (drop (N.to_nat offset) (unwrap_or [] log))).

Definition requests_log_desc (channel_id : string) (offset limit : N) :
    M Storage E (list RequestLogEntry) :=
  let prefix := requests_log_key channel_id in
  log ← map_may_load REQUESTS_LOG prefix;
  mret (take (N.to_nat limit) (drop (N.to_nat offset) (reverse (unwrap_or [] log)))).

(** ** Statistics (stats.rs) *)

Definition get_processed_drand_jobs (round : u64) : M Storage E u32 :=
  current ← map_may_load PROCESSED_DRAND_JOBS_COUNT round;
  mret (unwrap_or 0 current).

Definition increment_processed_drand_jobs (round : u64) : M Storage E unit :=
  current ← get_processed_drand_jobs round;
  new ← lift (uadd 32 current 1);
  map_save PROCESSED_DRAND_JOBS_COUNT round new ;;
  mret tt.

(** ** The archive of published randomness (drand_archive.rs) *)

Definition drand_mainnet_randomness_key (round : u64) : list u8 :=
  [7; 100; 109] ++ to_be_bytes 8 round.

Definition archive_lookup (round : u64) : M Storage E (option HexBinary) :=
  map_may_load ARCHIVE (drand_mainnet_randomness_key round).

Definition archive_store (round : u64) (randomness : HexBinary) : M Storage E unit :=
  raw_set ARCHIVE (drand_mainnet_randomness_key round) randomness.
End operations.

(** ** The abstract queues *)

(** The jobs that wait for a round, the oldest first. *)
Definition queue (s : Storage) (round : N) : list Job := (prefix_entries round (jobs s)).*2.

Definition last_id (s : Storage) (round : N) : N := unwrap_or 0 (last_job_id s !! round).

(** Every job has an id that was given out before. *)
Definition queue_wf (s : Storage) : Prop :=
  ∀ round id job, jobs s !! (round, id) = Some job → id ≤ last_id s round.

Definition enqueued (s : Storage) (round : N) (job : Job) : Storage :=
  map_set LAST_JOB_ID (<[round := last_id s round + 1]> (last_job_id s))
    (map_set JOBS (<[(round, last_id s round + 1) := job]> (jobs s)) s).

Definition dequeued (s : Storage) (round : N) : Storage :=
  match prefix_entries round (jobs s) with
  | [] => s
  | (id, _) :: _ => map_set JOBS (delete (round, id) (jobs s)) s
  end.

Definition count_processed (s : Storage) (round : N) : N :=
  unwrap_or 0 (processed_drand_jobs s !! round).

Definition incremented (s : Storage) (round : N) : Storage :=
  map_set PROCESSED_DRAND_JOBS_COUNT
    (<[round := count_processed s round + 1]> (processed_drand_jobs s)) s.

Section queue.
Context {E : Type}.
Implicit Types s : Storage.

Lemma enqueue_run s round job :
  (unprocessed_drand_jobs_enqueue round job : M Storage E unit) s =
  if (round <=? umax 32) && (last_id s round + 1 <=? umax 16)
  then (Ok tt, enqueued s round job) else (Panic, s).
Proof.
  unfold unprocessed_drand_jobs_enqueue. run_unfold. unfold try_into, uadd, checked.
  destruct (round <=? umax 32); [|done]. simpl. unfold last_id.
  by destruct (_ <=? umax 16).
Qed.

Lemma dequeue_run s round :
  (unprocessed_drand_jobs_dequeue round : M Storage E _) s =
  if round <=? umax 32 then (Ok (head (queue s round)), dequeued s round) else (Panic, s).
Proof.
  unfold unprocessed_drand_jobs_dequeue, queue, dequeued. run_unfold.
  unfold try_into, checked. destruct (round <=? umax 32); [|done]. simpl.
  by destruct (prefix_entries round (jobs s)) as [|[id job] l].
Qed.

Lemma len_run s round :
  (unprocessed_drand_jobs_len round : M Storage E _) s =
  if round <=? umax 32 then (Ok (N.of_nat (length (queue s round)) mod 2 ^ 32), s) else (Panic, s).
Proof.
  unfold unprocessed_drand_jobs_len, queue. run_unfold. unfold try_into, checked.
  destruct (round <=? umax 32); [|done]. simpl. by rewrite length_fmap.
Qed.

Lemma increment_run s round :
  (increment_processed_drand_jobs round : M Storage E unit) s =
  if count_processed s round + 1 <=? umax 32 then (Ok tt, incremented s round) else (Panic, s).
Proof.
  unfold increment_processed_drand_jobs, get_processed_drand_jobs. run_unfold.
  unfold uadd, checked. simpl. unfold count_processed. by destruct (_ <=? umax 32).
Qed.

Lemma enqueue_ok s round job u s' :
  (unprocessed_drand_jobs_enqueue round job : M Storage E unit) s = (Ok u, s') →
  s' = enqueued s round job ∧ round ≤ umax 32 ∧ last_id s round + 1 ≤ umax 16.
Proof.
  rewrite enqueue_run. destruct (N.leb_spec round (umax 32)), (N.leb_spec (last_id s round + 1) (umax 16));
    naive_solver.
Qed.

Lemma dequeue_ok s round j s' :
  (unprocessed_drand_jobs_dequeue round : M Storage E _) s = (Ok j, s') →
  j = head (queue s round) ∧ s' = dequeued s round ∧ round ≤ umax 32.
Proof. rewrite dequeue_run. destruct (N.leb_spec round (umax 32)); naive_solver. Qed.

Lemma increment_ok s round u s' :
  (increment_processed_drand_jobs round : M Storage E unit) s = (Ok u, s') →
  s' = incremented s round ∧ count_processed s round + 1 ≤ umax 32.
Proof.
  rewrite increment_run. destruct (N.leb_spec (count_processed s round + 1) (umax 32));
    naive_solver.
Qed.

Lemma last_id_enqueued s round job round' :
  last_id (enqueued s round job) round' =
  if decide (round = round') then last_id s round + 1 else last_id s round'.
Proof. unfold last_id at 1. simpl. case_decide; subst; by simplify_map_eq. Qed.

Lemma queue_enqueued s round job round' :
  queue_wf s →
  queue (enqueued s round job) round' =
  if decide (round = round') then queue s round ++ [job] else queue s round'.
Proof.
  intros Hwf. unfold queue. simpl. case_decide; subst.
  - rewrite prefix_entries_insert_last, fmap_app; [done|].
    intros id j Hj%Hwf. apply key_lt_N. lia.
  - f_equal. apply prefix_entries_ext. intros id. by rewrite lookup_insert_ne by naive_solver.
Qed.

Lemma enqueued_wf s round job : queue_wf s → queue_wf (enqueued s round job).
Proof.
  intros Hwf round' id j Hj. rewrite last_id_enqueued. simpl in Hj.
  apply lookup_insert_Some in Hj as [[[= <- <-] _]|[Hne Hj%Hwf]].
  - by rewrite decide_True.
  - case_decide; subst; lia.
Qed.

Lemma queue_dequeued s round round' :
  queue (dequeued s round) round' =
  if decide (round = round') then tail (queue s round) else queue s round'.
Proof.
  unfold queue, dequeued. destruct (prefix_entries round (jobs s)) as [|[id job] l] eqn:Hp.
  - case_decide; subst; [by rewrite Hp|done].
  - simpl. case_decide; subst.
    + by rewrite (prefix_entries_delete_first _ _ _ _ _ Hp).
    + f_equal. apply prefix_entries_ext. intros id'. by rewrite lookup_delete_ne by naive_solver.
Qed.

Lemma last_id_dequeued s round round' : last_id (dequeued s round) round' = last_id s round'.
Proof. unfold dequeued. by destruct (prefix_entries round (jobs s)) as [|[]]. Qed.

Lemma dequeued_wf s round : queue_wf s → queue_wf (dequeued s round).
Proof.
  intros Hwf round' id j Hj. rewrite last_id_dequeued. eapply Hwf. revert Hj. unfold dequeued.
  destruct (prefix_entries round (jobs s)) as [|[]]; [done|]. simpl.
  rewrite lookup_delete_Some. by intros [_ ?].
Qed.

Lemma key_inj round round' :
  round ≤ umax 64 → round' ≤ umax 64 →
  drand_mainnet_randomness_key round = drand_mainnet_randomness_key round' → round = round'.
Proof.
  unfold drand_mainnet_randomness_key. intros Hr Hr' [= Heq].
  assert (256 ^ N.of_nat 8 = umax 64 + 1) as Hmax by done.
  apply (to_be_bytes_inj 8); rewrite ?Hmax; [lia..|]. simpl. congruence.
Qed.
End queue.

(** The store of all jobs in key order, with the round of each. *)
Definition all_jobs (s : Storage) : list (N * Job) :=
  (λ e, (e.1.1, e.2)) <$> entries (jobs s).

Lemma all_jobs_sorted s : StronglySorted N.le (all_jobs s).*1.
Proof.
  unfold all_jobs. rewrite <-list_fmap_compose.
  induction (entries_ascending (jobs s)) as [|[[r i] j] l _ IH Hall]; simpl; constructor; [done|].
  apply Forall_fmap. eapply Forall_impl; [exact Hall|]. intros [[r' i'] j'] [Hle _].
  destruct Hle as [[Hlt _]|[Heq _]]; simpl in *; [done|lia].
Qed.

Lemma all_jobs_of_round s round :
  (filter (λ e, e.1 = round) (all_jobs s)).*2 = queue s round.
Proof.
  unfold all_jobs, queue, prefix_entries. induction (entries (jobs s)) as [|[[r i] j] l IH]; [done|].
  csimpl. rewrite filter_cons. csimpl. repeat case_decide; csimpl; try done. by rewrite IH.
Qed.

(** The queues together hold exactly the stored jobs. *)
Lemma all_jobs_enqueued s round job :
  queue_wf s → all_jobs (enqueued s round job) ≡ₚ (round, job) :: all_jobs s.
Proof.
  intros Hwf. unfold all_jobs, enqueued. simpl.
  rewrite !entries_Permutation, map_to_list_insert; [done|].
  destruct (jobs s !! _) as [j|] eqn:Hj; [|done]. apply Hwf in Hj. lia.
Qed.

Lemma all_jobs_dequeued s round :
  all_jobs s ≡ₚ (pair round <$> take 1 (queue s round)) ++ all_jobs (dequeued s round).
Proof.
  unfold all_jobs, queue, dequeued.
  destruct (prefix_entries round (jobs s)) as [|[id job] l] eqn:Hp; [done|]. simpl.
  assert (jobs s !! (round, id) = Some job) as Hj.
  { apply elem_of_prefix_entries. rewrite Hp. left. }
  rewrite !entries_Permutation.
  by rewrite <-(map_to_list_delete (jobs s) (round, id) job Hj).
Qed.

Lemma all_jobs_incremented s round : all_jobs (incremented s round) = all_jobs s.
Proof. done. Qed.

Lemma elem_of_all_jobs s round job : (round, job) ∈ all_jobs s ↔ job ∈ queue s round.
Proof.
  rewrite <-all_jobs_of_round, list_elem_of_fmap. split.
  - intros Hin. exists (round, job). by rewrite list_elem_of_filter.
  - intros ([r j] & -> & [Hr Hin]%list_elem_of_filter). simpl in *. by subst.
Qed.

(** ** Properties *)

(** C13. The storage maps of jobs implement one first-in first-out queue per
    round: [enqueue] appends to the queue of its round, [dequeue] returns and
    removes the oldest job, [len] counts, and the queues of other rounds keep
    their jobs. The only failures are panics that change nothing: a round beyond
    32 bits, or the 65536th job that is ever queued for one round. *)
Theorem job_queue_is_fifo (s : Storage) (round : u64) (job : Job) (Hwf : queue_wf s) :
  match (unprocessed_drand_jobs_enqueue round job : M Storage StdError unit) s with
  | (Ok _, s') => queue_wf s' ∧ last_id s' round = last_id s round + 1 ∧
      ∀ r, queue s' r = if decide (round = r) then queue s round ++ [job] else queue s r
  | (Err _, _) => False
  | (Panic, s') => s' = s ∧ (umax 32 < round ∨ umax 16 ≤ last_id s round)
  end ∧
  match (unprocessed_drand_jobs_dequeue round : M Storage StdError _) s with
  | (Ok first, s') => first = head (queue s round) ∧ queue_wf s' ∧
      ∀ r, queue s' r = if decide (round = r) then tail (queue s round) else queue s r
  | (Err _, _) => False
  | (Panic, s') => s' = s ∧ umax 32 < round
  end ∧
  match (unprocessed_drand_jobs_len round : M Storage StdError _) s with
  | (Ok n, s') => s' = s ∧
      (N.of_nat (length (queue s round)) ≤ umax 32 → n = N.of_nat (length (queue s round)))
  | (Err _, _) => False
  | (Panic, s') => s' = s ∧ umax 32 < round
  end.
Proof.
  rewrite enqueue_run, dequeue_run, len_run.
  destruct (N.leb_spec round (umax 32)), (N.leb_spec (last_id s round + 1) (umax 16));
    simpl; split_and!; auto using enqueued_wf, dequeued_wf, queue_enqueued, queue_dequeued.
  all: try (rewrite last_id_enqueued; by rewrite decide_True).
  all: try (intros Hlen; apply N.mod_small; unfold umax in Hlen; lia).
  right. lia.
Qed.

(** C34. [all_unprocessed_drand_jobs] lists the jobs of all queues by round
    first and then in enqueue order (or the reverse), cut to the page: the
    listing of a round is exactly its queue. *)
Theorem all_jobs_by_round_then_age (s : Storage) (order : Order) (offset limit : N) :
  (all_unprocessed_drand_jobs order offset limit : M Storage StdError _) s =
    (Ok (take (N.to_nat limit) (drop (N.to_nat offset)
      match order with
      | Order_Ascending => (all_jobs s).*2
      | Order_Descending => reverse (all_jobs s).*2
      end)), s) ∧
  StronglySorted N.le (all_jobs s).*1 ∧
  ∀ round, (filter (λ e, e.1 = round) (all_jobs s)).*2 = queue s round.
Proof.
  split_and!; [|apply all_jobs_sorted|apply all_jobs_of_round].
  unfold all_unprocessed_drand_jobs. run_unfold. simpl. do 2 f_equal.
  assert ((entries (jobs s)).*2 = (all_jobs s).*2) as <-.
  { unfold all_jobs. by rewrite <-list_fmap_compose. }
  rewrite fmap_take, fmap_drop. rewrite <-(range_of_all (jobs s)). unfold range_of.
  destruct order; [done|]. by rewrite fmap_reverse.
Qed.

(** The raw storage keys of the archive are collision free: looking up a
    round returns what was stored last for exactly that round. *)
Lemma archive_store_lookup (s : Storage) (round round' : u64) (randomness : HexBinary)
    (Hround : round ≤ umax 64) (Hround' : round' ≤ umax 64) (Hrandomness : randomness ≠ "") :
  ∃ s', (archive_store round randomness : M Storage StdError unit) s = (Ok tt, s') ∧
    ((archive_lookup round' : M Storage StdError _) s').1 =
      if decide (round = round') then Ok (Some randomness)
      else ((archive_lookup round' : M Storage StdError _) s).1.
Proof.
  eexists. split; [by apply raw_set_run|].
  unfold archive_lookup, map_may_load, gets. simpl. case_decide; subst.
  - by rewrite lookup_insert_eq.
  - rewrite lookup_insert_ne; [done|]. intros Heq. by apply key_inj in Heq.
Qed.

(** ** Witnesses *)

Definition test_job (n : string) : Job :=
  {| source_id := "drand:" +:+ n; channel := "chan-1"; origin := n |}.
Definition two_jobs : Storage := enqueued (enqueued empty_storage 3 (test_job "a")) 3 (test_job "b").

Lemma two_jobs_wf : queue_wf two_jobs.
Proof. do 2 apply enqueued_wf. intros ???. done. Qed.

Lemma job_queue_is_fifo_witness :
  queue two_jobs 3 = [test_job "a"; test_job "b"] ∧
  match (unprocessed_drand_jobs_dequeue 3 : M Storage StdError _) two_jobs with
  | (Ok first, s') => first = head (queue two_jobs 3) ∧ queue_wf s' ∧
      ∀ r, queue s' r = if decide (3 = r) then tail (queue two_jobs 3) else queue two_jobs r
  | (Err _, _) => False
  | (Panic, s') => s' = two_jobs ∧ umax 32 < 3
  end.
Proof.
  split; [by vm_compute|]. apply (job_queue_is_fifo two_jobs 3 (test_job "c") two_jobs_wf).
Defined.

Lemma archive_store_lookup_witness :
  ∃ s', (archive_store 300 "ab" : M Storage StdError unit) empty_storage = (Ok tt, s') ∧
    ((archive_lookup 300 : M Storage StdError _) s').1 = Ok (Some "ab").
Proof. apply (archive_store_lookup empty_storage 300 300 "ab"); by vm_compute. Defined.
