(* ===== verification/RequestRouter.v ===== *)
(** * The request router (contracts/nois-gateway/src/request_router.rs)

    Decides whether a request is answered from the archive or queued for its
    drand round, and turns a new drand round into deliveries for waiting jobs.
    The processing loop carries fuel; it never runs out, since the loop stops
    after the maximum number of jobs. *)
From stdpp Require Import prelude gmap strings list sorting pretty.
From Stdlib Require Import NArith Lia.
From S2P Require Import Prelude.
From S2P Require Import CosmWasm.
From S2P Require Import DrandCommon.
From S2P Require Import NoisProtocol.
From S2P Require Import Drand.
From S2P Require Import Fixtures.
From S2P Require Import GatewayState.

Definition MAX_JOBS_PER_SUBMISSION_WITH_VERIFICATION : u32 := 1.
Definition MAX_JOBS_PER_SUBMISSION_WITHOUT_VERIFICATION : u32 := 10.

Record RoutingReceipt := {
  receipt_queued : bool;
  receipt_source_id : string;
  receipt_acknowledgement : StdAck;
  receipt_msgs : list CosmosMsg;
}.

Record NewDrand := { new_msgs : list CosmosMsg; jobs_processed : u32 }.

(** Calculates the next round in the future, i.e. publish time > base time. *)
Definition commit_to_drand_round {E} (after : Timestamp) : outcome E (u64 * string) :=
  round ← round_after after;
  Ok (round, "drand:" +:+ DRAND_CHAIN_HASH +:+ ":" +:+ pretty round).

(** Takes the job and turns it into an IBC message with a [DeliverBeacon] packet. *)
Definition create_deliver_beacon_ibc_message `{Json OutPacket} (blocktime : Timestamp)
    (job : Job) (published : Timestamp) (randomness : HexBinary) : outcome StdError IbcMsg :=
  data ← to_json_binary
    (OutPacket_DeliverBeacon (source_id job) published randomness (origin job));
  timeout ← plus_seconds blocktime DELIVER_BEACON_PACKET_LIFETIME;
  Ok (IbcMsg_SendPacket (channel job) data timeout).

Section router.
Context `{Json OutPacket} `{Json InPacketAck} `{Json Drand.ExecuteMsg}.
Context {E : Type} `{FromStd E}.

Definition handle_drand_request (env : Env) (channel : string) (after : Timestamp)
    (origin : Binary) : M GatewayState.Storage E RoutingReceipt :=
  '(round, source_id) ← lift (commit_to_drand_round after);
  existing_randomness ← archive_lookup round;
  let job := {| source_id := source_id; GatewayState.channel := channel;
                GatewayState.origin := origin |} in
  '(queued, msgs) ←
    match existing_randomness with
    | Some randomness =>
        increment_processed_drand_jobs round ;;
        published ← lift (time_of_round round);
        msg ← std (create_deliver_beacon_ibc_message (block_time env) job published randomness);
        mret (false, [CosmosMsg_Ibc msg])
    | None =>
        unprocessed_drand_jobs_enqueue round job ;;
        config ← load GatewayState.CONFIG;
        msgs ←
          match drand config with
          | Some drand_addr =>
              b ← std (to_json_binary (Drand.ExecuteMsg_SetIncentivized round));
              mret [CosmosMsg_Wasm (WasmMsg_Execute drand_addr b [])]
          | None => mret []
          end;
        mret (true, msgs)
    end;
  acknowledgement ←
    (if (queued : bool) then b ← std (to_json_binary (InPacketAck_RequestQueued source_id));
                             mret (StdAck_Success b)
     else b ← std (to_json_binary (InPacketAck_RequestProcessed source_id));
          mret (StdAck_Success b));
  mret {| receipt_queued := queued; receipt_source_id := source_id;
          receipt_acknowledgement := acknowledgement; receipt_msgs := msgs |}.

(** There is currently only one backend. *)
Definition route (env : Env) (channel : string) (after : Timestamp) (origin : Binary) :
    M GatewayState.Storage E RoutingReceipt :=
  handle_drand_request env channel after origin.

(** The [while let] loop of [new_drand]. *)
Fixpoint new_drand_loop (fuel : nat) (env : Env) (round : u64) (randomness : HexBinary)
    (max_jobs_per_submission : u32) (msgs : list CosmosMsg) (jobs_processed : u32) :
    M GatewayState.Storage E (list CosmosMsg * u32) :=
  match fuel with
  | O => panic
  | S fuel =>
      job ← unprocessed_drand_jobs_dequeue round;
      match job with
      | None => mret (msgs, jobs_processed)
      | Some job =>
          increment_processed_drand_jobs round ;;
          published ← lift (time_of_round round);
          msg ← std (create_deliver_beacon_ibc_message (block_time env) job published randomness);
          let msgs := msgs ++ [CosmosMsg_Ibc msg] in
          jobs_processed ← lift (uadd 32 jobs_processed 1);
          if max_jobs_per_submission <=? jobs_processed then mret (msgs, jobs_processed)
          else new_drand_loop fuel env round randomness max_jobs_per_submission msgs jobs_processed
      end
  end.

Definition new_drand (env : Env) (round : u64) (randomness : HexBinary)
    (is_verifying_tx : bool) : M GatewayState.Storage E NewDrand :=
  archive_store round randomness ;;
  let max_jobs_per_submission :=
    if is_verifying_tx then MAX_JOBS_PER_SUBMISSION_WITH_VERIFICATION
    else MAX_JOBS_PER_SUBMISSION_WITHOUT_VERIFICATION in
  '(msgs, jobs_processed) ←
    new_drand_loop (N.to_nat max_jobs_per_submission) env round randomness
      max_jobs_per_submission [] 0;
  mret {| new_msgs := msgs; jobs_processed := jobs_processed |}.
End router.

(** ** Lemmas *)

(** The packet that answers a job, as the message that sends it. *)
Definition delivers `{Json OutPacket} (env : Env) (round : N) (randomness : HexBinary)
    (job : Job) (m : CosmosMsg) : Prop :=
  ∃ data, to_json_binary
      (OutPacket_DeliverBeacon (source_id job) (publish_time round) randomness (origin job))
        = Ok data ∧
    m = CosmosMsg_Ibc (IbcMsg_SendPacket (channel job) data
          (block_time env + DELIVER_BEACON_PACKET_LIFETIME * nanos_per_second)).

(** The state after [k] jobs of the round were taken from the queue. *)
Fixpoint drained (k : nat) (s : GatewayState.Storage) (round : N) : GatewayState.Storage :=
  match k with
  | O => s
  | S k => drained k (incremented (dequeued s round) round) round
  end.

Section lemmas.
Context `{Json OutPacket}.
Implicit Types s : GatewayState.Storage.

Lemma create_deliver_ok {E} env job round randomness m published :
  create_deliver_beacon_ibc_message (block_time env) job published randomness = Ok m →
  (time_of_round round : outcome E N) = Ok published →
  delivers env round randomness job (CosmosMsg_Ibc m).
Proof.
  unfold create_deliver_beacon_ibc_message, delivers. intros Hm Ht. inv_run.
  apply time_of_round_inv in Ht as (_ & -> & _). eauto.
Qed.

Lemma create_deliver_run env job published randomness :
  JsonLaws OutPacket →
  block_time env + DELIVER_BEACON_PACKET_LIFETIME * nanos_per_second ≤ umax 64 →
  ∃ m, create_deliver_beacon_ibc_message (block_time env) job published randomness = Ok m.
Proof.
  intros Hlaws Ht. unfold create_deliver_beacon_ibc_message, plus_seconds, uadd.
  destruct (json_roundtrip (OutPacket_DeliverBeacon (source_id job) published randomness
    (origin job))) as (b & -> & _).
  cbn [mbind outcome_bind]. rewrite checked_le by done. cbn [mbind outcome_bind]. eauto.
Qed.

Lemma queue_incremented s round r : queue (incremented s round) r = queue s r.
Proof. done. Qed.

Lemma incremented_wf s round : queue_wf s → queue_wf (incremented s round).
Proof. done. Qed.

Lemma drained_queue k s round r :
  queue (drained k s round) r = if decide (round = r) then drop k (queue s round) else queue s r.
Proof.
  revert s. induction k as [|k IH]; intros s; simpl; [case_decide; by subst|].
  rewrite IH, !queue_incremented, !queue_dequeued. rewrite (decide_True (P:=round = round)) by done.
  case_decide; [|done]. destruct (queue s round); simpl; by rewrite ?drop_nil.
Qed.

Lemma drained_wf k s round : queue_wf s → queue_wf (drained k s round).
Proof.
  revert s. induction k as [|k IH]; intros s Hs; simpl; [done|].
  apply IH, incremented_wf. by apply dequeued_wf.
Qed.

(** Draining changes the queue and the counter of the round only. *)
Lemma drained_frame k s round :
  contract_info (drained k s round) = contract_info s ∧
  config (drained k s round) = config s ∧ customers (drained k s round) = customers s ∧
  last_job_id (drained k s round) = last_job_id s ∧
  requests_log (drained k s round) = requests_log s ∧
  archive (drained k s round) = archive s.
Proof.
  revert s. induction k as [|k IH]; intros s; simpl; [done|].
  destruct (IH (incremented (dequeued s round) round)) as (-> & -> & -> & -> & -> & ->).
  unfold dequeued. simpl. by destruct (prefix_entries round (jobs s)) as [|[]].
Qed.

Lemma dequeued_nil s round : queue s round = [] → dequeued s round = s.
Proof.
  unfold queue, dequeued. by destruct (prefix_entries round (jobs s)) as [|[] ?].
Qed.

Lemma count_dequeued s round r : count_processed (dequeued s round) r = count_processed s r.
Proof. unfold dequeued. by destruct (prefix_entries round (jobs s)) as [|[]]. Qed.

Lemma count_incremented s round r :
  count_processed (incremented s round) r =
  if decide (round = r) then count_processed s round + 1 else count_processed s r.
Proof. unfold count_processed at 1. simpl. case_decide; subst; by simplify_map_eq. Qed.

Lemma drained_count k s round r :
  count_processed (drained k s round) r =
  if decide (round = r) then count_processed s round + N.of_nat k else count_processed s r.
Proof.
  revert s. induction k as [|k IH]; intros s; simpl; [case_decide; subst; lia|].
  rewrite IH, !count_incremented, !count_dequeued, (decide_True (P:=round = round)) by done.
  case_decide; lia.
Qed.
Lemma all_jobs_drained k s round :
  all_jobs s ≡ₚ (pair round <$> take k (queue s round)) ++ all_jobs (drained k s round).
Proof.
  revert s. induction k as [|k IH]; intros s; simpl; [done|].
  etrans; [apply all_jobs_dequeued|].
  rewrite <-(all_jobs_incremented (dequeued s round) round), IH.
  rewrite queue_incremented, queue_dequeued, decide_True by done.
  rewrite app_assoc, <-fmap_app. do 2 f_equiv.
  by destruct (queue s round); simpl; rewrite ?take_0, ?take_nil.
Qed.
End lemmas.

(** *** The loop *)

Section loop.
Context `{Json OutPacket} {E : Type} `{FromStd E}.
Implicit Types s : GatewayState.Storage.

(** The result of a run that succeeds: the oldest jobs, at most as many as the
    fuel allows, are answered and removed. *)
Lemma new_drand_loop_ok fuel env round randomness max_jobs msgs n s r s' :
  n + N.of_nat fuel = max_jobs →
  (new_drand_loop fuel env round randomness max_jobs msgs n
    : M GatewayState.Storage E _) s = (Ok r, s') →
  let k := (fuel `min` length (queue s round))%nat in
  ∃ ms, r = (msgs ++ ms, n + N.of_nat k) ∧ s' = drained k s round ∧
    Forall2 (delivers env round randomness) (take k (queue s round)) ms.
Proof.
  revert s n msgs r s'. induction fuel as [|fuel IH]; intros s n msgs r s' Hfuel Hrun; [done|].
  simpl in Hrun. inv_run.
  match goal with H : unprocessed_drand_jobs_dequeue _ _ = _ |- _ =>
    apply dequeue_ok in H as (-> & -> & _) end.
  destruct (queue s round) as [|job q] eqn:Hq; simpl in *; inv_run.
  { exists []. rewrite app_nil_r, N.add_0_r, dequeued_nil by done. simpl.
    split_and!; [done|done|constructor]. }
  match goal with H : increment_processed_drand_jobs _ _ = _ |- _ =>
    apply increment_ok in H as [-> _] end.
  set (s1 := incremented (dequeued s round) round) in *.
  assert (queue s1 round = q) as Hq1.
  { unfold s1. rewrite queue_incremented, queue_dequeued, decide_True, Hq by done. done. }
  match goal with H : create_deliver_beacon_ibc_message _ _ _ _ = Ok ?m |- _ =>
    eapply create_deliver_ok in H as Hdel; [|eassumption] end.
  destruct (N.leb_spec max_jobs (n + 1)); inv_run.
  - assert (fuel = 0%nat) as -> by lia. eexists [_]. simpl.
    split_and!; [f_equal; lia|done|]. by repeat constructor.
  - match goal with H : new_drand_loop _ _ _ _ _ _ _ _ = _ |- _ =>
      apply IH in H as (ms & -> & -> & Hms); [|lia] end.
    rewrite Hq1 in *. eexists (_ :: ms). split_and!; [|done|by constructor].
    rewrite <-app_assoc. f_equal. lia.
Qed.

(** The loop succeeds when no counter or timestamp overflows. *)
Lemma new_drand_loop_run fuel env round randomness max_jobs msgs n s :
  JsonLaws OutPacket →
  (0 < fuel)%nat → n + N.of_nat fuel = max_jobs → max_jobs ≤ umax 32 →
  1 ≤ round ≤ umax 32 → count_processed s round + N.of_nat fuel ≤ umax 32 →
  block_time env + DELIVER_BEACON_PACKET_LIFETIME * nanos_per_second ≤ umax 64 →
  is_ok ((new_drand_loop fuel env round randomness max_jobs msgs n
    : M GatewayState.Storage E _) s).1 = true.
Proof.
  intros Hlaws Hpos Hfuel Hmax Hround Hcount Htime. revert s n msgs Hpos Hfuel Hcount.
  induction fuel as [|fuel IH]; intros s n msgs Hpos Hfuel Hcount; [lia|].
  cbn [new_drand_loop]. erewrite M_bind_run.
  2: { rewrite dequeue_run. rewrite (proj2 (N.leb_le _ _)) by lia. done. }
  destruct (head (queue s round)) as [job|]; [|done].
  erewrite M_bind_run.
  2: { rewrite increment_run, count_dequeued. rewrite (proj2 (N.leb_le _ _)) by lia. done. }
  erewrite M_bind_run.
  2: { unfold lift. rewrite time_of_round_ok; [done|lia|]. apply publish_time_u32; lia. }
  destruct (create_deliver_run env job (publish_time round) randomness Hlaws Htime) as [m Hm].
  erewrite M_bind_run.
  2: { by apply std_run. }
  erewrite M_bind_run.
  2: { unfold lift, uadd. rewrite checked_le by lia. done. }
  destruct (N.leb_spec max_jobs (n + 1)); [done|].
  apply IH; [lia|lia|]. rewrite count_incremented, decide_True, count_dequeued by done. lia.
Qed.
End loop.

(** A round that is processed fits the queue keys, and its randomness is not empty. *)
Lemma new_drand_bound `{Json OutPacket} {E} `{FromStd E} env round randomness v s r s' :
  (new_drand env round randomness v : M GatewayState.Storage E _) s = (Ok r, s') →
  round ≤ umax 32 ∧ randomness ≠ "".
Proof.
  unfold new_drand, archive_store. intros Hrun. inv_run. split; [|done].
  match goal with H : new_drand_loop ?n _ _ _ _ _ _ _ = _ |- _ => destruct n; [done|] end.
  simpl in *. inv_run.
  match goal with H : unprocessed_drand_jobs_dequeue _ _ = _ |- _ =>
    by apply dequeue_ok in H as (_ & _ & ?) end.
Qed.

(** *** The two operations of the router *)

Definition source_of (round : N) : string := "drand:" +:+ DRAND_CHAIN_HASH +:+ ":" +:+ pretty round.

Definition max_jobs (is_verifying_tx : bool) : N :=
  if is_verifying_tx then MAX_JOBS_PER_SUBMISSION_WITH_VERIFICATION
  else MAX_JOBS_PER_SUBMISSION_WITHOUT_VERIFICATION.

Definition archived (s : GatewayState.Storage) (round : N) : option HexBinary :=
  archive s !! drand_mainnet_randomness_key round.

Definition stored (s : GatewayState.Storage) (round : N) (randomness : HexBinary) :
    GatewayState.Storage :=
  map_set ARCHIVE (<[drand_mainnet_randomness_key round := randomness]> (archive s)) s.

(** The job that a request is turned into. *)
Definition job_of (channel : string) (after : Timestamp) (origin : Binary) : Job :=
  {| source_id := source_of (next_round after); GatewayState.channel := channel;
     GatewayState.origin := origin |}.

(** The jobs answered by a submission, and what is left. *)
Definition delivered `{Json OutPacket} (env : Env) (s s' : GatewayState.Storage) (round : N)
    (randomness : HexBinary) (is_verifying_tx : bool) (msgs : list CosmosMsg) (n : N) : Prop :=
  let k := (N.to_nat (max_jobs is_verifying_tx) `min` length (queue s round))%nat in
  n = N.of_nat k ∧
  Forall2 (delivers env round randomness) (take k (queue s round)) msgs ∧
  s' = drained k (stored s round randomness) round.

(** What an accepted request does. *)
Definition routed `{Json OutPacket} `{Json InPacketAck} `{Json Drand.ExecuteMsg} (env : Env)
    (channel : string) (after : Timestamp) (origin : Binary) (s : GatewayState.Storage)
    (r : RoutingReceipt) (s' : GatewayState.Storage) : Prop :=
  let round := next_round after in
  let job := job_of channel after origin in
  receipt_source_id r = source_of round ∧
  match archived s round with
  | Some randomness =>
      receipt_queued r = false ∧ s' = incremented s round ∧ round ≤ umax 64 ∧
      (∃ m, receipt_msgs r = [m] ∧ delivers env round randomness job m) ∧
      (∃ b, to_json_binary (InPacketAck_RequestProcessed (source_of round)) = Ok b ∧
        receipt_acknowledgement r = StdAck_Success b)
  | None =>
      receipt_queued r = true ∧ s' = enqueued s round job ∧ round ≤ umax 32 ∧
      (∃ cfg, config s = Some cfg ∧
        match drand cfg with
        | Some drand_addr => ∃ b,
            to_json_binary (Drand.ExecuteMsg_SetIncentivized round) = Ok b ∧
            receipt_msgs r = [CosmosMsg_Wasm (WasmMsg_Execute drand_addr b [])]
        | None => receipt_msgs r = []
        end) ∧
      (∃ b, to_json_binary (InPacketAck_RequestQueued (source_of round)) = Ok b ∧
        receipt_acknowledgement r = StdAck_Success b)
  end.

Section router_lemmas.
Context `{Json OutPacket} `{Json InPacketAck} `{Json Drand.ExecuteMsg}.
Context {E : Type} `{FromStd E}.
Implicit Types s : GatewayState.Storage.

Lemma new_drand_ok env round randomness is_verifying_tx s r s' :
  (new_drand env round randomness is_verifying_tx : M GatewayState.Storage E _) s = (Ok r, s') →
  delivered env s s' round randomness is_verifying_tx (new_msgs r) (jobs_processed r).
Proof.
  unfold new_drand, archive_store, delivered. fold (max_jobs is_verifying_tx).
  generalize (max_jobs is_verifying_tx) as limit. intros limit Hrun. inv_run.
  match goal with H : new_drand_loop _ _ _ _ _ _ _ _ = _ |- _ =>
    apply new_drand_loop_ok in H as (ms & -> & -> & Hms); [|lia] end.
  inv_run. split_and!; done.
Qed.

Lemma new_drand_run env round randomness is_verifying_tx s :
  JsonLaws OutPacket → randomness ≠ "" → 1 ≤ round ≤ umax 32 →
  count_processed s round + max_jobs is_verifying_tx ≤ umax 32 →
  block_time env + DELIVER_BEACON_PACKET_LIFETIME * nanos_per_second ≤ umax 64 →
  is_ok ((new_drand env round randomness is_verifying_tx
    : M GatewayState.Storage E _) s).1 = true.
Proof.
  intros Hlaws Hrandomness Hround Hcount Htime. unfold new_drand. fold (max_jobs is_verifying_tx).
  unfold archive_store. erewrite M_bind_run; [|by apply raw_set_run]. simpl_gateway.
  edestruct (run_snd (new_drand_loop (N.to_nat (max_jobs is_verifying_tx)) env round randomness
    (max_jobs is_verifying_tx) [] 0 : M GatewayState.Storage E _)) as [[ms n] Hr].
  { apply (new_drand_loop_run _ _ _ _ _ _ _ (stored s round randomness)).
    all: rewrite ?N2Nat.id; try done; try (by destruct is_verifying_tx; vm_compute); destruct is_verifying_tx; vm_compute; lia. }
  unfold stored in Hr. simpl_gateway. erewrite M_bind_run by exact Hr. done.
Qed.

Lemma route_ok env channel after origin s r s' :
  (route env channel after origin : M GatewayState.Storage E _) s = (Ok r, s') →
  routed env channel after origin s r s'.
Proof.
  unfold route, handle_drand_request, commit_to_drand_round, archive_lookup, routed, archived.
  intros Hrun. inv_run. simpl_gateway.
  match goal with H : round_after _ = Ok _ |- _ => pose proof (round_after_bound _ _ H);
    apply round_after_inv in H as -> end.
  fold (source_of (next_round after)) in *.
  fold (job_of channel after origin) in *.
  destruct (archive s !! drand_mainnet_randomness_key (next_round after)) as [randomness|]; inv_run.
  - match goal with H : increment_processed_drand_jobs _ _ = _ |- _ =>
      apply increment_ok in H as [-> _] end.
    simpl. split_and!; try done; eauto. eexists. split; [done|].
    eapply create_deliver_ok; eassumption.
  - match goal with H : unprocessed_drand_jobs_enqueue _ _ _ = _ |- _ =>
      apply enqueue_ok in H as (-> & ? & _) end.
    simpl_gateway. match goal with H : match drand ?c with _ => _ end _ = _ |- _ =>
      destruct (drand c) eqn:Hd; inv_run end.
    all: simpl; split_and!; try done; eauto; eexists; split; [eassumption|]; rewrite Hd; eauto.
Qed.

Lemma ack_run `{JsonLaws A} (x : A) (k : StdAck → RoutingReceipt) s :
  is_ok ((ack ← (b ← std (to_json_binary x); mret (StdAck_Success b)); mret (k ack)
    : M GatewayState.Storage E _) s).1 = true.
Proof.
  edestruct @std_json_run as [b Hb]; [exact _|]. by run_step by exact Hb.
Qed.

(** Routing succeeds when the round fits the queue keys and no counter or
    timestamp overflows. *)
Lemma route_run `{!JsonLaws OutPacket} `{!JsonLaws InPacketAck} `{!JsonLaws Drand.ExecuteMsg}
    env channel after origin s :
  after ≤ umax 64 → next_round after ≤ umax 32 → is_Some (config s) →
  last_id s (next_round after) + 1 ≤ umax 16 →
  count_processed s (next_round after) + 1 ≤ umax 32 →
  block_time env + DELIVER_BEACON_PACKET_LIFETIME * nanos_per_second ≤ umax 64 →
  is_ok ((route env channel after origin : M GatewayState.Storage E _) s).1 = true.
Proof.
  intros Hafter Hround [cfg Hcfg] Hid Hcount Htime.
  unfold route, handle_drand_request, commit_to_drand_round, archive_lookup.
  rewrite round_after_ok by done. cbn [mbind outcome_bind].
  run_step by done. run_step by done. simpl_gateway.
  destruct (archive s !! drand_mainnet_randomness_key (next_round after)) as [randomness|].
  - run_step by (rewrite increment_run; by rewrite (proj2 (N.leb_le _ _)) by done).
    assert (publish_time (next_round after) ≤ umax 64) by by apply publish_time_u32.
    run_step by (unfold lift; by rewrite time_of_round_ok by (done || apply next_round_pos)).
    match goal with |- context [create_deliver_beacon_ibc_message _ ?job ?t ?r] =>
      destruct (create_deliver_run env job t r _ Htime) as [m Hm] end.
    run_step by (by apply std_run). run_step by done. by apply ack_run.
  - run_step by (rewrite enqueue_run; by rewrite !(proj2 (N.leb_le _ _)) by done).
    run_step by (by apply load_some).
    assert (∃ msgs, (match drand cfg with
      | Some drand_addr =>
          b ← std (to_json_binary (Drand.ExecuteMsg_SetIncentivized (next_round after)));
          mret [CosmosMsg_Wasm (WasmMsg_Execute drand_addr b [])]
      | None => mret []
      end : M GatewayState.Storage E _) (enqueued s (next_round after) (job_of channel after origin))
      = (Ok msgs, enqueued s (next_round after) (job_of channel after origin))) as [msgs Hmsgs].
    { destruct (drand cfg); [|by eexists]. edestruct @std_json_run as [b Hb]; [exact _|].
      eexists. by run_step by exact Hb. }
    run_step by exact Hmsgs. run_step by done. by apply ack_run.
Qed.

(** Routing panics or succeeds; it never returns an error. *)
Lemma unfailing_route `{!JsonLaws OutPacket} `{!JsonLaws InPacketAck} `{!JsonLaws Drand.ExecuteMsg}
    env channel after origin (P : GatewayState.Storage → Prop) :
  (∀ s, P s → is_Some (config s)) →
  (∀ s r, P s → P (incremented s r)) → (∀ s r job, P s → P (enqueued s r job)) →
  unfailing P (route env channel after origin : M GatewayState.Storage E _).
Proof.
  intros Hcfg Hinc Henq.
  assert (∀ round, unfailing P (increment_processed_drand_jobs round
    : M GatewayState.Storage E _)).
  { intros round s Hs. rewrite increment_run. destruct (_ <=? _); naive_solver. }
  assert (∀ round job, unfailing P (unprocessed_drand_jobs_enqueue round job
    : M GatewayState.Storage E _)).
  { intros round job s Hs. rewrite enqueue_run. destruct (_ && _); naive_solver. }
  assert (∀ t job published randomness e,
    create_deliver_beacon_ibc_message t job published randomness ≠ Err e).
  { intros. unfold create_deliver_beacon_ibc_message. eauto 10 with unfailing. }
  unfold route, handle_drand_request, commit_to_drand_round, archive_lookup.
  apply unfailing_bind; [eauto 10 with unfailing|]. intros [round source_id].
  apply unfailing_bind; [eauto with unfailing|]. intros existing.
  apply unfailing_bind.
  - destruct existing; [unfail|]. apply unfailing_bind; [done|]. intros _.
    apply unfailing_load_then; [done|]. intros cfg. unfail.
  - intros [queued msgs]. unfail.
Qed.
End router_lemmas.
