(* ===== verification/Gateway.v ===== *)
(** * nois-gateway: requests, payments and deliveries (contracts/nois-gateway)

    The entry points of the contract on the Nois chain that receives requests
    for randomness over IBC, charges the customer, and sends the randomness when
    nois-drand reports a round. The state is in [GatewayState], the queueing in
    [RequestRouter]. *)
From stdpp Require Import prelude gmap strings list sorting pretty.
From Stdlib Require Import NArith Lia.
From S2P Require Import Prelude.
From S2P Require Import CosmWasm.
From S2P Require Import DrandCommon.
From S2P Require Import NoisProtocol.
From S2P Require Import Payment.
From S2P Require Import Drand.
From S2P Require Import Fixtures.
From S2P Require Import GatewayState.
From S2P Require Import RequestRouter.

(** [cosmwasm_std::instantiate2_address]: checksum, creator, salt; the error is
    given in its printed form. *)
Class Instantiate2 := instantiate2_address : Binary → Binary → Binary → outcome string Binary.

(** ** Errors (error.rs) *)

Inductive ContractError :=
  | ContractError_Std (e : StdError)
  | ContractError_Unauthorized
  | ContractError_CodeIdDoesNotExist (code_id : u64)
  | ContractError_OriginTooLong
  | ContractError_UnauthorizedAddVerifiedRound
  | ContractError_MustBeChainB
  | ContractError_UnsupportedPacketType
  | ContractError_ChannelError (e : ChannelError)
  | ContractError_ChannelAlreadyRegistered.
#[global] Instance ContractError_from_std : FromStd ContractError := ContractError_Std.

Definition ContractError_display `{Display} (e : ContractError) : string :=
  match e with
  | ContractError_Std e => show_std_error e
  | ContractError_Unauthorized => "Unauthorized"
  | ContractError_CodeIdDoesNotExist code_id => "Code ID does not exist: " +:+ pretty code_id
  | ContractError_OriginTooLong => "Origin data exceeds length limit."
  | ContractError_UnauthorizedAddVerifiedRound =>
      "Sender is unauthorized to add verified round."
  | ContractError_MustBeChainB =>
      "The nois-gateway contract must be on chain B of the connection. Try swapping A and B in the channel creation."
  | ContractError_UnsupportedPacketType => "Unsupported packet type."
  | ContractError_ChannelError e => ChannelError_display e
  | ContractError_ChannelAlreadyRegistered => "Cannot register over an existing channel"
  end.

Definition ATTR_ACTION : string := "action".

(** ** Messages (msg.rs) *)

Record InstantiateMsg := {
  msg_price : Coin;
  msg_manager : string;
  msg_payment_code_id : u64;
  msg_payment_initial_funds : option Coin;
  msg_sink : string;
}.

Inductive ExecuteMsg :=
  | ExecuteMsg_AddVerifiedRound (round : u64) (randomness : HexBinary) (is_verifying_tx : bool)
  | ExecuteMsg_SetConfig (manager : option string) (price : option Coin)
      (drand_addr : option string) (payment_initial_funds : option Coin)
      (trusted_sources : option (list string)).

Inductive QueryMsg :=
  | QueryMsg_Config
  | QueryMsg_DrandJobStats (round : u64)
  | QueryMsg_Customer (channel_id : string)
  | QueryMsg_Customers (start_after : option string) (limit : option u32)
  | QueryMsg_JobsAsc (offset limit : option u32)
  | QueryMsg_JobsDesc (offset limit : option u32)
  | QueryMsg_RequestsLogAsc (channel_id : string) (offset limit : option u32)
  | QueryMsg_RequestsLogDesc (channel_id : string) (offset limit : option u32).

Abbreviation ConfigResponse := GatewayState.Config (only parsing).
Record DrandJobStatsResponse := {
  stats_round : u64;
  stats_unprocessed : u32;
  stats_processed : u32;
}.
Record QueriedCustomer := {
  queried_channel_id : string;
  queried_payment : Addr;
  queried_requested_beacons : u64;
}.
Definition QueriedCustomer_new (channel_id : string) (customer : Customer) : QueriedCustomer :=
  {| queried_channel_id := channel_id; queried_payment := payment customer;
     queried_requested_beacons := requested_beacons customer |}.
Record CustomerResponse := { response_customer : option QueriedCustomer }.
Record CustomersResponse := { response_customers : list QueriedCustomer }.
Record JobsResponse := { response_jobs : list Job }.
Record RequestsLogResponse := { response_requests : list RequestLogEntry }.

(** ** Origins (job_id.rs) *)

Definition MAX_ORIGIN_LEN : N := 512.

Definition validate_origin (origin : Binary) : outcome ContractError unit :=
  if MAX_ORIGIN_LEN <? len origin then Err ContractError_OriginTooLong else Ok tt.

(** ** The contract (contract.rs) *)

Definition CARGO_PKG_NAME : string := "nois-gateway".
Definition CARGO_PKG_VERSION : string := "0.15.4".

Abbreviation Storage := GatewayState.Storage (only parsing).
Abbreviation CONFIG := GatewayState.CONFIG (only parsing).

Section contract.
Context `{Display} `{Sha256} `{Instantiate2} `{Json OutPacket} `{Json OutPacketAck}
  `{Json InPacket} `{Json InPacketAck} `{Json StdAck} `{Json Drand.ExecuteMsg}
  `{Json Payment.InstantiateMsg} `{Json Payment.ExecuteMsg}.

Definition ensure_code_id_exists (deps : Deps) (code_id : u64) : M Storage ContractError unit :=
  match raw_query_code_info_ (querier deps) code_id with
  | None => mret tt
  | Some (SystemError_NoSuchCode code_id) => fail (ContractError_CodeIdDoesNotExist code_id)
  | Some system_err =>
      fail (ContractError_Std
        (StdError_GenericErr ("Querier system error: " +:+ show_system_error system_err)))
  end.

Definition hash_channel (channel_id : string) : Binary := sha256 channel_id.

Definition instantiate (deps : Deps) (env : Env) (info : MessageInfo) (msg : InstantiateMsg) :
    M Storage ContractError Response :=
  manager ← addr_validate deps (msg_manager msg);
  sink ← addr_validate deps (msg_sink msg);
  ensure_code_id_exists deps (msg_payment_code_id msg) ;;
  save CONFIG {|
    drand := None; trusted_sources := None; GatewayState.manager := manager;
    price := msg_price msg; payment_code_id := msg_payment_code_id msg;
    payment_initial_funds := msg_payment_initial_funds msg; GatewayState.sink := sink |} ;;
  set_contract_version GatewayState.CONTRACT_INFO CARGO_PKG_NAME CARGO_PKG_VERSION ;;
  mret Response_new.

Definition migrate (deps : Deps) (env : Env) : M Storage StdError Response :=
  config ← load CONFIG;
  let config :=
    if bool_decide (unwrap_or [] (trusted_sources config) = []) then
      match drand config with
      | Some dr => {|
          drand := drand config; trusted_sources := Some [dr];
          GatewayState.manager := GatewayState.manager config; price := price config;
          payment_code_id := payment_code_id config;
          payment_initial_funds := payment_initial_funds config;
          GatewayState.sink := GatewayState.sink config |}
      | None => config
      end
    else config in
  save CONFIG config ;;
  set_contract_version GatewayState.CONTRACT_INFO CARGO_PKG_NAME CARGO_PKG_VERSION ;;
  mret (Response_new |> add_attribute ATTR_ACTION "migrate").

Definition execute_add_verified_round (deps : Deps) (env : Env) (info : MessageInfo)
    (round : u64) (randomness : HexBinary) (is_verifying_tx : bool) :
    M Storage ContractError Response :=
  config ← load CONFIG;
  ensure (bool_decide (sender info ∈ unwrap_or [] (trusted_sources config)))
    ContractError_UnauthorizedAddVerifiedRound ;;
  d ← new_drand env round randomness is_verifying_tx;
  let attributes := [attr "jobs_processed" (pretty (jobs_processed d))] in
  mret (Response_new
    |> add_messages (new_msgs d)
    |> add_attributes attributes).

Definition execute_set_config (deps : Deps) (info : MessageInfo) (env : Env)
    (manager_ : option string) (price_ : option Coin) (drand_ : option string)
    (trusted_sources_ : option (list string)) (payment_initial_funds_ : option Coin) :
    M Storage ContractError Response :=
  config ← load CONFIG;
  ensure (bool_decide (sender info = GatewayState.manager config)) ContractError_Unauthorized ;;
  manager ←
    match manager_ with
    | Some ma => addr_validate deps ma
    | None => mret (GatewayState.manager config)
    end;
  drand ←
    match drand_ with
    | Some dr => a ← addr_validate deps dr; mret (Some a)
    | None => mret (drand config)
    end;
  trusted_sources ←
    match trusted_sources_ with
    | Some ts => map_m (addr_validate deps) ts
    | None => mret (unwrap_or [] (trusted_sources config))
    end;
  let price := unwrap_or (price config) price_ in
  let payment_initial_funds :=
    match payment_initial_funds_ with
    | Some pif => Some pif
    | None => payment_initial_funds config
    end in
  save CONFIG {|
    GatewayState.manager := manager; GatewayState.drand := drand; GatewayState.price := price;
    payment_code_id := payment_code_id config;
    GatewayState.payment_initial_funds := payment_initial_funds;
    GatewayState.sink := GatewayState.sink config;
    GatewayState.trusted_sources := Some trusted_sources |} ;;
  mret Response_new.

Definition execute (deps : Deps) (env : Env) (info : MessageInfo) (msg : ExecuteMsg) :
    M Storage ContractError Response :=
  match msg with
  | ExecuteMsg_AddVerifiedRound round randomness is_verifying_tx =>
      execute_add_verified_round deps env info round randomness is_verifying_tx
  | ExecuteMsg_SetConfig manager price drand_addr payment_initial_funds trusted_sources =>
      execute_set_config deps info env manager price drand_addr trusted_sources
        payment_initial_funds
  end.

(** *** IBC entry points *)

(** The version of the channel that the gateway proposes. *)
Definition ibc_channel_open (deps : Deps) (env : Env) (msg : IbcChannelOpenMsg) :
    M Storage ContractError (option string) :=
  match msg with
  | IbcChannelOpenMsg_OpenInit _ => fail ContractError_MustBeChainB
  | IbcChannelOpenMsg_OpenTry channel counterparty_version =>
      lift (map_err ContractError_ChannelError (check_order (order channel))) ;;
      lift (map_err ContractError_ChannelError (check_version counterparty_version)) ;;
      mret (Some IBC_APP_VERSION)
  end.

Definition ibc_channel_connect (deps : Deps) (env : Env) (msg : IbcChannelConnectMsg) :
    M Storage ContractError IbcBasicResponse :=
  channel ←
    match msg with
    | IbcChannelConnectMsg_OpenAck _ _ => fail ContractError_MustBeChainB
    | IbcChannelConnectMsg_OpenConfirm channel => mret channel
    end;
  let chan_id := endpoint_channel_id channel in
  config ← load CONFIG;
  creator ← std (addr_canonicalize_ (api deps) (contract_address env));
  checksum ← std (query_wasm_code_info_ (querier deps) (payment_code_id config));
  let salt := hash_channel chan_id in
  address ← lift (map_err (λ e, ContractError_Std
      (StdError_GenericErr ("Cound not generate address: " +:+ e)))
    (instantiate2_address checksum creator salt));
  address ← std (addr_humanize_ (api deps) address);
  let customer := {| payment := address; requested_beacons := 0 |} in
  map_save CUSTOMERS chan_id customer ;;
  let funds := match payment_initial_funds config with Some pif => [pif] | None => [] end in
  payment_msg ← std (to_json_binary {| Payment.msg_sink := GatewayState.sink config |});
  let instantiate_payment :=
    WasmMsg_Instantiate2 (Some (contract_address env)) (payment_code_id config)
      ("For " +:+ chan_id) payment_msg funds salt in
  welcome_data ← std (to_json_binary (OutPacket_Welcome (payment customer)));
  welcome_timeout ← lift (plus_seconds (block_time env) WELCOME_PACKET_LIFETIME);
  let welcome := IbcMsg_SendPacket chan_id welcome_data welcome_timeout in
  price_data ← std (to_json_binary (OutPacket_PushBeaconPrice (block_time env)
    (amount (price config)) (denom (price config))));
  price_timeout ← lift (plus_seconds (block_time env) BEACON_PRICE_PACKET_LIFETIME);
  let beacon_price := IbcMsg_SendPacket chan_id price_data price_timeout in
  mret (Response_new
    |> add_message (CosmosMsg_Wasm instantiate_payment)
    |> add_message (CosmosMsg_Ibc welcome)
    |> add_message (CosmosMsg_Ibc beacon_price)
    |> add_attribute "action" "ibc_connect"
    |> add_attribute "channel_id" chan_id
    |> add_event {| event_type := "ibc"; event_attributes := [attr "channel" "connect"] |}).

Definition ibc_channel_close (deps : Deps) (env : Env) (msg : IbcChannelCloseMsg) :
    M Storage StdError IbcBasicResponse :=
  let channel := close_channel msg in
  let channel_id := endpoint_channel_id channel in
  mret (Response_new
    |> add_attribute "action" "ibc_close"
    |> add_attribute "channel_id" channel_id).

Definition receive_request_beacon (env : Env) (channel_id : string) (relayer : Addr)
    (after : Timestamp) (origin : Binary) : M Storage ContractError IbcReceiveResponse :=
  lift (validate_origin origin) ;;
  receipt ← route env channel_id after origin;
  requests_log_add channel_id
    {| logged_origin := origin; logged_tx := (block_height env, transaction_index env);
       logged_source_id := receipt_source_id receipt; queued := receipt_queued receipt |} ;;
  customer ← map_load CUSTOMERS channel_id;
  requested ← lift (uadd 64 (requested_beacons customer) 1);
  map_save CUSTOMERS channel_id
    {| payment := payment customer; requested_beacons := requested |} ;;
  config ← load CONFIG;
  let amount := amount (price config) in
  let denom := denom (price config) in
  amount_burn ← lift (mul_floor amount 40 100);
  amount_relayer ← lift (mul_floor amount 20 100);
  rest ← lift (usub amount amount_burn);
  amount_rest ← lift (usub rest amount_relayer);
  pay ← std (to_json_binary (Payment.ExecuteMsg_Pay
    (coin amount_burn denom) (coin amount_rest denom) (relayer, coin amount_relayer denom)));
  let msgs := receipt_msgs receipt ++ [CosmosMsg_Wasm (WasmMsg_Execute (payment customer) pay [])] in
  mret {| acknowledgement := receipt_acknowledgement receipt;
          response := Response_new
            |> add_messages msgs
            |> add_attribute "action" "receive_request_beacon" |}.

Definition receive_pull_beacon_price (env : Env) : M Storage ContractError IbcReceiveResponse :=
  config ← load CONFIG;
  b ← std (to_json_binary (InPacketAck_PullBeaconPrice (block_time env)
    (amount (price config)) (denom (price config))));
  mret {| acknowledgement := StdAck_Success b;
          response := Response_new |> add_attribute "action" "receive_pull_beacon_price" |}.

Definition ibc_packet_receive (deps : Deps) (env : Env) (msg : IbcPacketReceiveMsg) :
    M Storage Never IbcReceiveResponse :=
  let channel_id := packet_dest_channel_id msg in
  or_else_ack ContractError_display (
    op ← std (from_json (packet_data msg));
    match op with
    | InPacket_RequestBeacon after origin =>
        receive_request_beacon env channel_id (relayer msg) after origin
    | InPacket_PullBeaconPrice => receive_pull_beacon_price env
    end).

Definition ibc_packet_ack (deps : Deps) (env : Env) (msg : IbcPacketAckMsg) :
    M Storage ContractError IbcBasicResponse :=
  let attributes := [attr "action" "ack"] in
  ack ← std (from_json (acknowledgement_data msg));
  '(is_error, attributes) ←
    match ack with
    | StdAck_Success data =>
        std (from_json data : outcome StdError OutPacketAck) ;;
        mret ("false", attributes)
    | StdAck_Error err => mret ("true", attributes ++ [attr "error" err])
    end;
  mret (Response_new |> add_attributes (attributes ++ [attr "is_error" is_error])).

Definition ibc_packet_timeout (deps : Deps) (env : Env) : M Storage StdError IbcBasicResponse :=
  mret (Response_new |> add_attribute "action" "ibc_packet_timeout").

(** *** Queries *)

Definition query_config (deps : Deps) : M Storage StdError ConfigResponse :=
  load CONFIG.

Definition query_drand_job_stats (deps : Deps) (round : u64) :
    M Storage StdError DrandJobStatsResponse :=
  unprocessed ← unprocessed_drand_jobs_len round;
  processed ← get_processed_drand_jobs round;
  mret {| stats_round := round; stats_unprocessed := unprocessed; stats_processed := processed |}.

Definition query_customer (deps : Deps) (channel_id : string) :
    M Storage StdError CustomerResponse :=
  customer ← map_may_load CUSTOMERS channel_id;
  mret {| response_customer := (λ c, QueriedCustomer_new channel_id c) <$> customer |}.

Definition query_customers (deps : Deps) (start_after : option string) (limit : option u32) :
    M Storage StdError CustomersResponse :=
  let limit := N.to_nat (unwrap_or 50 limit) in
  let low_bound := start_after in
  rows ← range CUSTOMERS low_bound None Order_Ascending;
  mret {| response_customers :=
            (λ '(channel_id, customer), QueriedCustomer_new channel_id customer)
              <$> take limit rows |}.

Definition query_jobs (deps : Deps) (order : Order) (offset limit : option u32) :
    M Storage StdError JobsResponse :=
  let offset := unwrap_or 0 offset in
  let limit := unwrap_or 50 limit in
  jobs ← all_unprocessed_drand_jobs order offset limit;
  mret {| response_jobs := jobs |}.

Definition query_requests_asc (deps : Deps) (channel_id : string) (offset limit : option u32) :
    M Storage StdError RequestsLogResponse :=
  let offset := unwrap_or 0 offset in
  let limit := unwrap_or 50 limit in
  requests ← requests_log_asc channel_id offset limit;
  mret {| response_requests := requests |}.

Definition query_requests_desc (deps : Deps) (channel_id : string) (offset limit : option u32) :
    M Storage StdError RequestsLogResponse :=
  let offset := unwrap_or 0 offset in
  let limit := unwrap_or 50 limit in
  requests ← requests_log_desc channel_id offset limit;
  mret {| response_requests := requests |}.

Definition query `{Json ConfigResponse} `{Json DrandJobStatsResponse} `{Json CustomerResponse}
    `{Json CustomersResponse} `{Json JobsResponse} `{Json RequestsLogResponse}
    (deps : Deps) (env : Env) (msg : QueryMsg) : M Storage StdError Binary :=
  match msg with
  | QueryMsg_Config => r ← query_config deps; std (to_json_binary r)
  | QueryMsg_DrandJobStats round => r ← query_drand_job_stats deps round; std (to_json_binary r)
  | QueryMsg_Customer channel_id => r ← query_customer deps channel_id; std (to_json_binary r)
  | QueryMsg_Customers start_after limit =>
      r ← query_customers deps start_after limit; std (to_json_binary r)
  | QueryMsg_JobsAsc offset limit =>
      r ← query_jobs deps Order_Ascending offset limit; std (to_json_binary r)
  | QueryMsg_JobsDesc offset limit =>
      r ← query_jobs deps Order_Descending offset limit; std (to_json_binary r)
  | QueryMsg_RequestsLogAsc channel_id offset limit =>
      r ← query_requests_asc deps channel_id offset limit; std (to_json_binary r)
  | QueryMsg_RequestsLogDesc channel_id offset limit =>
      r ← query_requests_desc deps channel_id offset limit; std (to_json_binary r)
  end.

(** *** The contract as a transition system *)

Inductive init : Storage → Prop :=
  | init_instantiate deps env info msg r s :
      instantiate deps env info msg GatewayState.empty_storage = (Ok r, s) → init s.

(** One transaction that is committed, with the messages it sends. The times
    of requests are 64 bit integers. *)
Inductive call (s : Storage) : list CosmosMsg → Storage → Prop :=
  | call_execute deps env info msg r s' :
      execute deps env info msg s = (Ok r, s') → call s (sub_msg <$> messages r) s'
  | call_migrate deps env r s' :
      migrate deps env s = (Ok r, s') → call s (sub_msg <$> messages r) s'
  | call_channel_connect deps env msg r s' :
      ibc_channel_connect deps env msg s = (Ok r, s') → call s (sub_msg <$> messages r) s'
  | call_channel_close deps env msg r s' :
      ibc_channel_close deps env msg s = (Ok r, s') → call s (sub_msg <$> messages r) s'
  | call_packet_receive deps env msg r s' :
      ibc_packet_receive deps env msg s = (Ok r, s') →
      call s (sub_msg <$> messages (response r)) s'
  | call_packet_ack deps env msg r s' :
      ibc_packet_ack deps env msg s = (Ok r, s') → call s (sub_msg <$> messages r) s'
  | call_packet_timeout deps env r s' :
      ibc_packet_timeout deps env s = (Ok r, s') → call s (sub_msg <$> messages r) s'.

Definition step (s s' : Storage) : Prop := ∃ msgs, call s msgs s'.
End contract.

(** ** Lemmas *)

(** The part of the state that concerns jobs and published randomness. *)
Definition core (s : Storage) := (jobs s, last_job_id s, archive s).

Section core.
Implicit Types s : Storage.

Lemma core_queue s s' round : core s' = core s → queue s' round = queue s round.
Proof. unfold core, queue. by intros [= -> _ _]. Qed.
Lemma core_wf s s' : core s' = core s → queue_wf s → queue_wf s'.
Proof. unfold core, queue_wf, last_id. by intros [= -> -> _]. Qed.
Lemma core_archived s s' round : core s' = core s → archived s' round = archived s round.
Proof. unfold core, archived. by intros [= _ _ ->]. Qed.

(** Writes to the other parts. *)
Lemma preserves_save_core {E} (v : option GatewayState.Config) c :
  preserves (λ s, core s = c) (modify (item_set CONFIG v) : M Storage E unit).
Proof. by apply preserves_modify. Qed.
Lemma preserves_version_core {E} n v c :
  preserves (λ s, core s = c)
    (set_contract_version GatewayState.CONTRACT_INFO n v : M Storage E unit).
Proof. by apply preserves_modify. Qed.
Lemma preserves_customers_core {E} k v c :
  preserves (λ s, core s = c) (map_save CUSTOMERS k v : M Storage E unit).
Proof. by apply preserves_modify. Qed.
Lemma preserves_log_core {E} chan e c :
  preserves (λ s, core s = c) (requests_log_add chan e : M Storage E unit).
Proof. by intros s. Qed.
Lemma preserves_increment_core {E} round c :
  preserves (λ s, core s = c) (increment_processed_drand_jobs round : M Storage E unit).
Proof.
  intros s Hs. rewrite increment_run. by destruct (_ <=? umax 32).
Qed.
End core.

#[export] Hint Resolve preserves_save_core preserves_version_core preserves_customers_core
  preserves_log_core preserves_increment_core : preserves.

Section spec.
Context `{Display} `{Sha256} `{Instantiate2} `{Json OutPacket} `{Json OutPacketAck}
  `{Json InPacket} `{Json InPacketAck} `{Json StdAck} `{Json Drand.ExecuteMsg}
  `{Json Payment.InstantiateMsg} `{Json Payment.ExecuteMsg}.
Implicit Types s : Storage.

(** A request either leaves the queues alone, or it appends one job to the
    queue of a round that is not archived yet. This is so even if the request
    is answered with an error. *)
Definition core_step (s s' : Storage) : Prop :=
  core s' = core s ∨
  ∃ channel after origin,
    archived s (next_round after) = None ∧ len origin ≤ MAX_ORIGIN_LEN ∧
    next_round after ≤ umax 32 ∧
    core s' = core (enqueued s (next_round after) (job_of channel after origin)).

Lemma route_core env channel after origin s o s' :
  len origin ≤ MAX_ORIGIN_LEN →
  (route env channel after origin : M Storage ContractError _) s = (o, s') → core_step s s'.
Proof.
  intros Hlen. unfold route, handle_drand_request.
  destruct (commit_to_drand_round after) as [[round source_id]|e|] eqn:Hc.
  2,3: unfold mbind at 1, M_bind at 1; simpl; intros [= _ <-]; by left.
  unfold commit_to_drand_round in Hc. inv_run.
  match goal with H : round_after _ = Ok _ |- _ => apply round_after_inv in H as -> end.
  fold (source_of (next_round after)).
  erewrite M_bind_run by done. unfold archive_lookup at 1. erewrite M_bind_run by done.
  cbn [map_get ARCHIVE]. fold (archived s (next_round after)).
  fold (job_of channel after origin).
  destruct (archived s (next_round after)) as [randomness|] eqn:Ha.
  { intros Hrun. left. eapply (preserves_run (λ s1, core s1 = core s)); [|exact Hrun|done].
    preserve. }
  intros Hrun.
  assert (core s' = core s ∨ next_round after ≤ umax 32 ∧
    core s' = core (enqueued s (next_round after) (job_of channel after origin))) as [?|[??]].
  2: by left.
  2: { right. by exists channel, after, origin. }
  rewrite M_bind_assoc in Hrun. unfold mbind at 1, M_bind at 1 in Hrun.
  rewrite enqueue_run in Hrun.
  destruct (N.leb_spec (next_round after) (umax 32)); simpl in Hrun; [|left; naive_solver].
  destruct (_ <=? umax 16); [|left; naive_solver]. right. split; [done|].
  eapply (preserves_run (λ s1, core s1 = core (enqueued s (next_round after) _)));
    [|exact Hrun|done].
  preserve.
Qed.

Lemma receive_request_beacon_core env channel_id relayer after origin s o s' :
  receive_request_beacon env channel_id relayer after origin s = (o, s') → core_step s s'.
Proof.
  unfold receive_request_beacon, validate_origin.
  destruct (N.ltb_spec MAX_ORIGIN_LEN (len origin)) as [|Hlen].
  { intros [= _ <-]. by left. }
  erewrite M_bind_run by done. intros Hrun.
  destruct ((route env channel_id after origin : M Storage ContractError _) s) as [or s1] eqn:Hr.
  pose proof (route_core _ _ _ _ _ _ _ Hlen Hr) as Hstep.
  assert (core s' = core s1) as Hcore.
  { unfold mbind at 1, M_bind at 1 in Hrun. rewrite Hr in Hrun.
    destruct or as [receipt|e|]; [|by injection Hrun as _ <-..].
    eapply (preserves_run (λ s', core s' = core s1)); [|exact Hrun|done]. preserve. }
  destruct Hstep as [Hc|(channel & a & origin' & ? & ? & ? & Hc)].
  - left. by rewrite Hcore.
  - right. exists channel, a, origin'. by rewrite Hcore.
Qed.

Lemma execute_add_verified_round_ok deps env info round randomness is_verifying_tx s r s' :
  execute_add_verified_round deps env info round randomness is_verifying_tx s = (Ok r, s') →
  (∃ cfg, config s = Some cfg ∧ sender info ∈ unwrap_or [] (trusted_sources cfg)) ∧
  ∃ n, delivered env s s' round randomness is_verifying_tx (sub_msg <$> messages r) n ∧
    attributes r = [("jobs_processed", pretty n)].
Proof.
  unfold execute_add_verified_round. intros Hrun. inv_run.
  match goal with H : new_drand _ _ _ _ _ = _ |- _ => apply new_drand_ok in H end.
  split; [by eauto|]. eexists. split; [|done].
  cbn [messages add_attributes add_messages Response_new app]. by rewrite sub_msg_new.
Qed.

Lemma execute_add_verified_round_round deps env info round randomness is_verifying_tx s r s' :
  execute deps env info (ExecuteMsg_AddVerifiedRound round randomness is_verifying_tx) s
    = (Ok r, s') → round ≤ umax 32 ∧ randomness ≠ "".
Proof.
  simpl. unfold execute_add_verified_round. intros Hrun. inv_run.
  match goal with H : new_drand _ _ _ _ _ = _ |- _ => by apply new_drand_bound in H end.
Qed.

Lemma ibc_packet_receive_core deps env msg s o s' :
  ibc_packet_receive deps env msg s = (o, s') → core_step s s'.
Proof.
  unfold ibc_packet_receive, or_else_ack. intros Hrun.
  match type of Hrun with match ?m s with _ => _ end = _ =>
    destruct (m s) as [o1 s1] eqn:Hm end.
  assert (s' = s1) as -> by (destruct o1; naive_solver). clear Hrun.
  unfold mbind at 1, M_bind at 1, std, lift in Hm.
  destruct (map_err _ _) as [[after origin|]|e|]; simpl in Hm.
  - by eapply receive_request_beacon_core.
  - left. eapply (preserves_run (λ s2, core s2 = core s)); [|exact Hm|done].
    unfold receive_pull_beacon_price. preserve.
  - injection Hm as _ <-. by left.
  - injection Hm as _ <-. by left.
Qed.

(** Every committed transaction either is a submission of a round or changes
    the queues like a request. *)
Lemma call_core s msgs s' :
  call s msgs s' →
  core_step s s' ∨
  ∃ deps env info round randomness is_verifying_tx r n,
    execute deps env info (ExecuteMsg_AddVerifiedRound round randomness is_verifying_tx) s
      = (Ok r, s') ∧
    delivered env s s' round randomness is_verifying_tx msgs n.
Proof.
  destruct 1 as [deps env info [round randomness v|] r s' Hrun|deps env r s' Hrun
    |deps env msg r s' Hrun|deps env msg r s' Hrun|deps env msg r s' Hrun
    |deps env msg r s' Hrun|deps env r s' Hrun].
  - right. pose proof (execute_add_verified_round_ok deps _ _ _ _ _ _ _ _ Hrun) as [_ [n [Hd _]]].
    by do 8 eexists.
  - left; left. eapply (preserves_run (λ s1, core s1 = core s)); [|exact Hrun|done].
    simpl. unfold execute_set_config, save. preserve.
  - left; left. eapply (preserves_run (λ s1, core s1 = core s)); [|exact Hrun|done].
    unfold migrate, save. preserve.
  - left; left. eapply (preserves_run (λ s1, core s1 = core s)); [|exact Hrun|done].
    unfold ibc_channel_connect. preserve.
  - left; left. eapply (preserves_run (λ s1, core s1 = core s)); [|exact Hrun|done].
    unfold ibc_channel_close. preserve.
  - left. by eapply ibc_packet_receive_core.
  - left; left. eapply (preserves_run (λ s1, core s1 = core s)); [|exact Hrun|done].
    unfold ibc_packet_ack. preserve.
  - left; left. eapply (preserves_run (λ s1, core s1 = core s)); [|exact Hrun|done].
    unfold ibc_packet_timeout. preserve.
Qed.
(** *** Invariants of the queues *)

(** Every waiting job was admitted under the source of its round. *)
Definition well_formed (s : Storage) : Prop :=
  queue_wf s ∧
  ∀ round job, job ∈ queue s round →
    source_id job = source_of round ∧ len (origin job) ≤ MAX_ORIGIN_LEN ∧ 1 ≤ round ≤ umax 32.

(** What a transaction that sends [msgs] may do to the queue of one round:
    append, or take the oldest jobs and send their deliveries. *)
Definition conserves (s s' : Storage) (msgs : list CosmosMsg) (round : N) : Prop :=
  (∃ new, queue s' round = queue s round ++ new) ∨
  ∃ env randomness k, archived s' round = Some randomness ∧
    queue s' round = drop k (queue s round) ∧
    Forall2 (delivers env round randomness) (take k (queue s round)) msgs.

Lemma archived_drained k s round r : archived (drained k s round) r = archived s r.
Proof. unfold archived. by destruct (drained_frame k s round) as (_ & _ & _ & _ & _ & ->). Qed.

Lemma archived_stored s round randomness :
  archived (stored s round randomness) round = Some randomness.
Proof. unfold archived, stored. simpl. by rewrite lookup_insert_eq. Qed.

Lemma archived_stored_is_Some s round randomness r :
  is_Some (archived s r) → is_Some (archived (stored s round randomness) r).
Proof. unfold archived, stored. simpl. rewrite lookup_insert_is_Some'. by right. Qed.

Lemma queue_stored s round randomness r : queue (stored s round randomness) r = queue s r.
Proof. done. Qed.

Lemma call_conserves s msgs s' round :
  queue_wf s → call s msgs s' → conserves s s' msgs round.
Proof.
  intros Hwf [[Hc|(channel & after & origin & _ & _ & _ & Hc)]|
    (? & env & ? & r & randomness & v & ? & n & _ & _ & Hdel & ->)]%call_core.
  - left. exists []. by rewrite app_nil_r, (core_queue s s').
  - left. rewrite (core_queue _ _ _ Hc), queue_enqueued by done. case_decide; subst.
    + by eexists.
    + exists []. by rewrite app_nil_r.
  - unfold conserves. rewrite drained_queue, !queue_stored. case_decide; subst.
    + right. exists env, randomness. eexists. split_and!; [|done|exact Hdel].
      by rewrite archived_drained, archived_stored.
    + left. exists []. by rewrite app_nil_r.
Qed.

Lemma call_archived s msgs s' round :
  queue_wf s → call s msgs s' → is_Some (archived s round) →
  is_Some (archived s' round) ∧ ∃ k, queue s' round = drop k (queue s round).
Proof.
  intros Hwf [[Hc|(channel & after & origin & Hnone & _ & _ & Hc)]|
    (? & env & ? & r & randomness & v & ? & n & _ & _ & _ & ->)]%call_core Ha.
  - rewrite (core_archived _ _ _ Hc), (core_queue _ _ _ Hc).
    split; [done|]. by exists 0%nat.
  - rewrite (core_archived _ _ _ Hc), (core_queue _ _ _ Hc), queue_enqueued by done.
    split; [exact Ha|]. exists 0%nat. rewrite decide_False; [done|].
    intros <-. rewrite Hnone in Ha. by destruct Ha.
  - rewrite archived_drained, drained_queue, !queue_stored.
    split; [by apply archived_stored_is_Some|]. case_decide; [subst; eauto|by exists 0%nat].
Qed.

Lemma call_well_formed s msgs s' : well_formed s → call s msgs s' → well_formed s'.
Proof.
  intros [Hwf Hjobs] [[Hc|(channel & after & origin & Hnone & Hlen & Hr & Hc)]|
    (? & env & ? & r & randomness & v & ? & n & _ & _ & _ & ->)]%call_core.
  - split; [by eapply core_wf|]. intros round job. rewrite (core_queue _ _ _ Hc). apply Hjobs.
  - split; [eapply core_wf; [exact Hc|by apply enqueued_wf]|].
    intros round job. rewrite (core_queue _ _ _ Hc), queue_enqueued by done.
    case_decide; subst; [|apply Hjobs].
    rewrite elem_of_app, list_elem_of_singleton. intros [Hin| ->]; [by apply Hjobs|].
    split_and!; [done..|apply next_round_pos|done].
  - split; [by apply drained_wf|]. intros round job. rewrite drained_queue, !queue_stored.
    case_decide; subst; [|apply Hjobs]. intros Hin%(subseteq_drop). by apply Hjobs.
Qed.

Lemma init_core s : init s →
  core s = core GatewayState.empty_storage ∧
  ∃ cfg, config s = Some cfg ∧ trusted_sources cfg = None.
Proof.
  intros [deps env info msg r s0 Hrun]. split.
  - eapply (preserves_run (λ s1, core s1 = core GatewayState.empty_storage)); [|exact Hrun|done].
    unfold instantiate, ensure_code_id_exists, save. preserve.
  - unfold instantiate, ensure_code_id_exists in Hrun. inv_run. repeat case_match; inv_run.
    simpl_gateway. by eexists.
Qed.

Lemma reachable_gateway_well_formed s : reachable init step s → well_formed s.
Proof.
  apply reachable_invariant; [|by intros ? ? ? [msgs ?]; eapply call_well_formed].
  intros s0 [Hc _]%init_core.
  split; [by eapply core_wf; [exact Hc|]; intros ???|].
  intros round job. rewrite (core_queue _ _ _ Hc). by rewrite elem_of_nil.
Qed.
(** *** Reported rounds *)

Lemma add_verified_round_run `{!JsonLaws OutPacket} deps env info round randomness
    is_verifying_tx s cfg :
  config s = Some cfg → sender info ∈ unwrap_or [] (trusted_sources cfg) →
  randomness ≠ "" → 1 ≤ round ≤ umax 32 → count_processed s round + max_jobs is_verifying_tx ≤ umax 32 →
  block_time env + DELIVER_BEACON_PACKET_LIFETIME * nanos_per_second ≤ umax 64 →
  ∃ r s' n,
    execute deps env info (ExecuteMsg_AddVerifiedRound round randomness is_verifying_tx) s
      = (Ok r, s') ∧
    delivered env s s' round randomness is_verifying_tx (sub_msg <$> messages r) n ∧
    n = N.min (max_jobs is_verifying_tx) (N.of_nat (length (queue s round))) ∧
    archived s' round = Some randomness ∧
    queue s' round = drop (N.to_nat n) (queue s round).
Proof.
  intros Hcfg Htrusted Hrandomness Hround Hcount Htime.
  edestruct (run_snd (execute deps env info
    (ExecuteMsg_AddVerifiedRound round randomness is_verifying_tx)) s) as [r Hr].
  { simpl. unfold execute_add_verified_round. erewrite M_bind_run; [|by apply load_some].
    rewrite bool_decide_true by done. erewrite M_bind_run by done.
    edestruct (run_snd (new_drand env round randomness is_verifying_tx
      : M Storage ContractError _) s) as [d Hd]; [by apply new_drand_run|].
    by erewrite M_bind_run by exact Hd. }
  pose proof (execute_add_verified_round_ok deps _ _ _ _ _ _ _ _ Hr) as [_ (n & Hdel & _)].
  exists r. eexists. exists n. split; [exact Hr|]. split; [exact Hdel|].
  destruct Hdel as (-> & _ & ->). split; [lia|].
  rewrite archived_drained, archived_stored, drained_queue, decide_True, queue_stored by done.
  by rewrite Nat2N.id.
Qed.

Lemma untrusted_round_rejected deps env info round randomness is_verifying_tx s cfg :
  config s = Some cfg → sender info ∉ unwrap_or [] (trusted_sources cfg) →
  execute deps env info (ExecuteMsg_AddVerifiedRound round randomness is_verifying_tx) s =
    (Err ContractError_UnauthorizedAddVerifiedRound, s).
Proof.
  intros Hcfg Huntrusted.
  simpl. unfold execute_add_verified_round. erewrite M_bind_run; [|by apply load_some].
  rewrite bool_decide_false by done. by apply M_bind_err.
Qed.

(** *** Requests *)

(** The three parts of the price: 40% to burn, 20% to the relayer, the rest. *)
Definition burn_part (p : N) : N := p * 40 / 100.
Definition relayer_part (p : N) : N := p * 20 / 100.
Definition rest_part (p : N) : N := p - burn_part p - relayer_part p.

Lemma parts_sum p : burn_part p + relayer_part p + rest_part p = p.
Proof.
  unfold rest_part. assert (burn_part p + relayer_part p ≤ p); [|lia].
  unfold burn_part, relayer_part.
  pose proof (N.Div0.mul_div_le (p * 40) 100). pose proof (N.Div0.mul_div_le (p * 20) 100). lia.
Qed.

Definition logged (s : Storage) (channel_id : string) : list RequestLogEntry :=
  unwrap_or [] (requests_log s !! requests_log_key channel_id).

(** Everything an accepted request does. *)
Definition request_accepted (env : Env) (channel_id : string) (relayer : Addr)
    (after : Timestamp) (origin : Binary) (s : Storage) (r : IbcReceiveResponse)
    (s' : Storage) : Prop :=
  ∃ receipt s1 cfg customer pay,
    len origin ≤ MAX_ORIGIN_LEN ∧ routed env channel_id after origin s receipt s1 ∧
    config s = Some cfg ∧ customers s !! channel_id = Some customer ∧
    acknowledgement r = receipt_acknowledgement receipt ∧
    (let p := price cfg in
     to_json_binary (Payment.ExecuteMsg_Pay
       (coin (burn_part (amount p)) (denom p)) (coin (rest_part (amount p)) (denom p))
       (relayer, coin (relayer_part (amount p)) (denom p))) = Ok pay) ∧
    sub_msg <$> messages (response r) =
      receipt_msgs receipt ++ [CosmosMsg_Wasm (WasmMsg_Execute (payment customer) pay [])] ∧
    s' = map_set CUSTOMERS
        (<[channel_id := {| payment := payment customer;
                            requested_beacons := requested_beacons customer + 1 |}]> (customers s))
      (map_set REQUESTS_LOG
        (<[requests_log_key channel_id := push_back (logged s channel_id)
            {| logged_origin := origin;
               logged_tx := (block_height env, transaction_index env);
               logged_source_id := source_of (next_round after);
               queued := receipt_queued receipt |}]> (requests_log s)) s1).

Lemma routed_frame env channel after origin s r s1 :
  routed env channel after origin s r s1 →
  config s1 = config s ∧ customers s1 = customers s ∧ requests_log s1 = requests_log s.
Proof.
  unfold routed. intros [_ Hr]. destruct (archived s _).
  - destruct Hr as (_ & -> & _). done.
  - destruct Hr as (_ & -> & _). done.
Qed.

Lemma receive_request_beacon_ok env channel_id relayer after origin s r s' :
  receive_request_beacon env channel_id relayer after origin s = (Ok r, s') →
  request_accepted env channel_id relayer after origin s r s'.
Proof.
  unfold receive_request_beacon, validate_origin, requests_log_add. intros Hrun.
  destruct (N.ltb_spec MAX_ORIGIN_LEN (len origin)) as [|Hlen]; inv_run.
  match goal with H : route _ _ _ _ _ = (Ok ?rc, ?s1) |- _ =>
    apply route_ok in H as Hr; clear H; exists rc, s1;
    pose proof (routed_frame _ _ _ _ _ _ _ Hr) as (Hcfg & Hcust & Hlog);
    pose proof (proj1 Hr) as Hsrc end.
  simpl_gateway. rewrite Hcfg, Hcust, Hlog, Hsrc in *. do 3 eexists.
  split_and!; try done; try eassumption.
  apply sub_msg_new.
Qed.

(** The circumstances in which a request cannot fail: the channel is registered,
    the origin is short, the round fits the queue keys, and no counter, id or
    timestamp is at its limit. *)
Record request_fits (env : Env) (channel_id : string) (after : Timestamp) (origin : Binary)
    (s : Storage) : Prop := {
  fits_origin : len origin ≤ MAX_ORIGIN_LEN;
  fits_after : after < DRAND_GENESIS + (umax 32 - 1) * DRAND_ROUND_LENGTH;
  fits_config : ∃ cfg, config s = Some cfg ∧ amount (price cfg) ≤ umax 128;
  fits_customer : ∃ customer, customers s !! channel_id = Some customer ∧
    requested_beacons customer + 1 ≤ umax 64;
  fits_id : last_id s (next_round after) + 1 ≤ umax 16;
  fits_count : count_processed s (next_round after) + 1 ≤ umax 32;
  fits_time : block_time env + DELIVER_BEACON_PACKET_LIFETIME * nanos_per_second ≤ umax 64;
}.

Lemma mul_floor_run {E} x n : x ≤ umax 128 → n ≤ 100 →
  (mul_floor x n 100 : outcome E N) = Ok (x * n / 100).
Proof.
  intros Hx Hn. unfold mul_floor. apply checked_le. transitivity x; [|done].
  apply N.Div0.div_le_upper_bound. rewrite (N.mul_comm 100). by apply N.mul_le_mono_l.
Qed.

Lemma receive_request_beacon_run `{!JsonLaws OutPacket} `{!JsonLaws InPacketAck}
    `{!JsonLaws Drand.ExecuteMsg} `{!JsonLaws Payment.ExecuteMsg} env channel_id relayer after
    origin s :
  request_fits env channel_id after origin s →
  is_ok (receive_request_beacon env channel_id relayer after origin s).1 = true.
Proof.
  intros [Hlen Hafter (cfg & Hcfg & Hprice) (customer & Hcust & Hreq) Hid Hcount Htime].
  assert (after ≤ umax 64).
  { transitivity (DRAND_GENESIS + (umax 32 - 1) * DRAND_ROUND_LENGTH); [lia|by vm_compute]. }
  unfold receive_request_beacon, validate_origin.
  rewrite (proj2 (N.ltb_ge _ _)) by done. run_step by done.
  edestruct (run_snd (route env channel_id after origin : M Storage ContractError _) s)
    as [receipt Hr]; [apply route_run; try done; by apply next_round_u32|].
  run_step by exact Hr. revert Hr. generalize (route env channel_id after origin s).2.
  intros s1 Hr%route_ok. apply routed_frame in Hr as (Hcfg1 & Hcust1 & _).
  unfold requests_log_add. run_step by done. run_step by done.
  run_step by (apply map_load_some; simpl_gateway; by rewrite Hcust1).
  run_step by (unfold lift, uadd; by rewrite checked_le by done).
  run_step by done. run_step by (apply load_some; simpl_gateway; by rewrite Hcfg1).
  run_step by (unfold lift; by rewrite mul_floor_run by done).
  run_step by (unfold lift; by rewrite mul_floor_run by done).
  pose proof (parts_sum (amount (price cfg))) as Hsum.
  unfold rest_part, burn_part, relayer_part in Hsum.
  pose proof (N.Div0.mul_div_le (amount (price cfg) * 40) 100).
  pose proof (N.Div0.mul_div_le (amount (price cfg) * 20) 100).
  run_step by (unfold lift, usub; by rewrite (proj2 (N.leb_le _ _)) by lia).
  run_step by (unfold lift, usub; by rewrite (proj2 (N.leb_le _ _)) by lia).
  edestruct @std_json_run as [b Hb]; [exact _|]. by run_step by exact Hb.
Qed.

(** An acknowledgement of success means the request was accepted. *)
Lemma ibc_packet_receive_request_ok deps env msg after origin s r s' b :
  from_json (packet_data msg) = Ok (InPacket_RequestBeacon after origin) →
  ibc_packet_receive deps env msg s = (Ok r, s') → acknowledgement r = StdAck_Success b →
  request_accepted env (packet_dest_channel_id msg) (relayer msg) after origin s r s'.
Proof.
  intros Hjson Hrun Hack. apply receive_request_beacon_ok. revert Hrun.
  unfold ibc_packet_receive, or_else_ack. erewrite M_bind_run by by apply std_run.
  cbv iota beta. destruct (receive_request_beacon _ _ _ _ _ s) as [[r1|e|] s1];
    intros Hr; by simplify_eq/=.
Qed.

(** A request that fits is accepted. *)
Lemma ibc_packet_receive_request_run `{!JsonLaws OutPacket} `{!JsonLaws InPacketAck}
    `{!JsonLaws Drand.ExecuteMsg} `{!JsonLaws Payment.ExecuteMsg} deps env msg after origin s :
  from_json (packet_data msg) = Ok (InPacket_RequestBeacon after origin) →
  request_fits env (packet_dest_channel_id msg) after origin s →
  ∃ r s' b, ibc_packet_receive deps env msg s = (Ok r, s') ∧
    acknowledgement r = StdAck_Success b ∧
    request_accepted env (packet_dest_channel_id msg) (relayer msg) after origin s r s'.
Proof.
  intros Hpacket Hfits.
  destruct (run_snd (receive_request_beacon env (packet_dest_channel_id msg) (relayer msg) after
    origin) s) as [r Hr]; [by apply receive_request_beacon_run|].
  pose proof (receive_request_beacon_ok _ _ _ _ _ _ _ _ Hr) as Hacc.
  assert (∃ b, acknowledgement r = StdAck_Success b) as [b Hb].
  { destruct Hacc as (receipt & s1 & cfg & customer & pay & _ & [_ Hrouted] & _ & _ & -> & _).
    destruct (archived s _); naive_solver. }
  do 3 eexists. split; [|by split].
  unfold ibc_packet_receive, or_else_ack. run_step by by apply std_run.
  by rewrite Hr.
Qed.

(** On a registered channel an error acknowledgement means that nothing happened:
    the only errors are those of a packet that cannot be parsed and of an origin
    that is too long, and both are found before anything is written. *)
Lemma receive_request_beacon_err `{!JsonLaws OutPacket} `{!JsonLaws InPacketAck}
    `{!JsonLaws Drand.ExecuteMsg} `{!JsonLaws Payment.ExecuteMsg} env channel_id relayer after
    origin s e s' :
  is_Some (config s) → is_Some (customers s !! channel_id) →
  receive_request_beacon env channel_id relayer after origin s = (Err e, s') →
  s' = s ∧ MAX_ORIGIN_LEN < len origin.
Proof.
  intros Hcfg Hcust. unfold receive_request_beacon, validate_origin.
  destruct (N.ltb_spec MAX_ORIGIN_LEN (len origin)); [by intros [= <- <-]|].
  set (P := λ s, is_Some (config s) ∧ is_Some (customers s !! channel_id)).
  run_step by done. intros Hrun. exfalso.
  match type of Hrun with ?m s = _ => assert (unfailing P m) as Hm end.
  { apply unfailing_bind; [apply unfailing_route; [by intros ? []|done..]|]. intros receipt.
    apply unfailing_bind; [by intros ?|]. intros _.
    apply unfailing_map_load_then; [by intros ? []|]. intros customer.
    apply unfailing_bind; [eauto with unfailing|]. intros requested.
    apply unfailing_bind.
    { apply unfailing_modify. intros s1 [? ?]. split; [done|]. simpl. by rewrite lookup_insert_eq. }
    intros _. apply unfailing_load_then; [by intros ? []|]. intros cfg. unfail. }
  destruct (Hm s (conj Hcfg Hcust)) as [_ Hne]. rewrite Hrun in Hne. by destruct (Hne e).
Qed.

(** What an error acknowledgement says about the packet. *)
Definition unacceptable (msg : IbcPacketReceiveMsg) : Prop :=
  (∃ e, (from_json (packet_data msg) : outcome StdError InPacket) = Err e) ∨
  ∃ after origin, from_json (packet_data msg) = Ok (InPacket_RequestBeacon after origin) ∧
    MAX_ORIGIN_LEN < len origin.

Lemma ibc_packet_receive_err `{!JsonLaws OutPacket} `{!JsonLaws InPacketAck}
    `{!JsonLaws Drand.ExecuteMsg} `{!JsonLaws Payment.ExecuteMsg} deps env msg s r s' err :
  is_Some (config s) → is_Some (customers s !! packet_dest_channel_id msg) →
  ibc_packet_receive deps env msg s = (Ok r, s') → acknowledgement r = StdAck_Error err →
  s' = s ∧ messages (response r) = [] ∧ unacceptable msg.
Proof.
  intros Hcfg Hcust. unfold ibc_packet_receive, or_else_ack, unacceptable.
  destruct (from_json (packet_data msg)) as [[after origin|]|e|] eqn:Hmsg.
  - run_step by (by apply std_run).
    destruct (receive_request_beacon _ _ _ _ _ s) as [[r1|e|] s1] eqn:Hrun.
    + intros [= <- <-]. pose proof (receive_request_beacon_ok _ _ _ _ _ _ _ _ Hrun)
        as (receipt & s2 & cfg & cust & pay & _ & [_ Hr] & _ & _ & -> & _).
      destruct (archived s _); by destruct Hr as (_ & _ & _ & _ & b & _ & ->).
    + intros [= <- <-] _. pose proof (receive_request_beacon_err _ _ _ _ _ _ _ _ Hcfg Hcust Hrun)
        as [-> ?].
      split_and!; [done..|]. right. by do 2 eexists.
    + done.
  - destruct Hcfg as [cfg Hcfg]. run_step by (by apply std_run).
    unfold receive_pull_beacon_price. run_step by (by apply load_some).
    destruct (std_json_run (E:=ContractError) (InPacketAck_PullBeaconPrice (block_time env)
      (amount (price cfg)) (denom (price cfg))) s) as [b Hb].
    run_step by exact Hb. by intros [= <- <-].
  - intros [= <- <-] _. split_and!; [done..|]. left. by eexists.
  - done.
Qed.

(** A packet that is not a request changes nothing and sends nothing. *)
Lemma ibc_packet_receive_other deps env msg s r s' :
  (∀ after origin, (from_json (packet_data msg) : outcome StdError InPacket)
    ≠ Ok (InPacket_RequestBeacon after origin)) →
  ibc_packet_receive deps env msg s = (Ok r, s') → s' = s ∧ messages (response r) = [].
Proof.
  intros Hother. unfold ibc_packet_receive, or_else_ack.
  match goal with |- match ?m s with _ => _ end = _ → _ =>
    destruct (m s) as [o s1] eqn:Hm end.
  destruct (from_json (packet_data msg)) as [[after origin|]|e|] eqn:Hmsg.
  - by destruct (Hother after origin).
  - unfold mbind at 1, M_bind at 1 in Hm. unfold std, lift in Hm. simpl in Hm.
    unfold receive_pull_beacon_price in Hm. destruct o; intros ?; simplify_eq/=.
    + by inv_run.
    + split; [|done].
      eapply (preserves_run (λ s1, s1 = s)); [|exact Hm|done]. preserve.
  - injection Hm as <- <-. intros ?. by simplify_eq/=.
  - by injection Hm as <- <-.
Qed.

(** *** The handshake *)

(** What opening a channel sets up: the customer with the predicted address of
    its payment contract, the instantiation of that contract, the welcome and
    the price. *)
Definition connected (deps : Deps) (env : Env) (chan_id : string) (s : Storage) (r : Response)
    (s' : Storage) : Prop :=
  ∃ cfg creator checksum canonical address m w p,
    config s = Some cfg ∧
    addr_canonicalize_ (api deps) (contract_address env) = Ok creator ∧
    query_wasm_code_info_ (querier deps) (payment_code_id cfg) = Ok checksum ∧
    instantiate2_address checksum creator (hash_channel chan_id) = Ok canonical ∧
    addr_humanize_ (api deps) canonical = Ok address ∧
    s' = map_set CUSTOMERS (<[chan_id := {| payment := address; requested_beacons := 0 |}]>
           (customers s)) s ∧
    to_json_binary {| Payment.msg_sink := GatewayState.sink cfg |} = Ok m ∧
    to_json_binary (OutPacket_Welcome address) = Ok w ∧
    to_json_binary (OutPacket_PushBeaconPrice (block_time env)
      (amount (price cfg)) (denom (price cfg))) = Ok p ∧
    sub_msg <$> messages r = [
      CosmosMsg_Wasm (WasmMsg_Instantiate2 (Some (contract_address env)) (payment_code_id cfg)
        ("For " +:+ chan_id) m (match payment_initial_funds cfg with Some c => [c] | None => [] end)
        (hash_channel chan_id));
      CosmosMsg_Ibc (IbcMsg_SendPacket chan_id w
        (block_time env + WELCOME_PACKET_LIFETIME * nanos_per_second));
      CosmosMsg_Ibc (IbcMsg_SendPacket chan_id p
        (block_time env + BEACON_PRICE_PACKET_LIFETIME * nanos_per_second))].

Lemma ibc_channel_connect_ok deps env msg s r s' :
  ibc_channel_connect deps env msg s = (Ok r, s') →
  ∃ channel, msg = IbcChannelConnectMsg_OpenConfirm channel ∧
    connected deps env (endpoint_channel_id channel) s r s'.
Proof.
  unfold ibc_channel_connect. intros Hrun. inv_run. destruct msg as [|channel]; inv_run.
  eexists. split; [done|]. simpl_gateway. do 8 eexists. by split_and!.
Qed.

(** *** Configuration *)

Lemma map_m_addr_validate_ok deps l s ys s' :
  (map_m (addr_validate deps) l : M Storage ContractError _) s = (Ok ys, s') →
  s' = s ∧ Forall2 (λ x a, addr_validate_ (api deps) x = Ok a) l ys.
Proof.
  revert s ys. induction l as [|x l IH]; intros s ys Hrun; simpl in Hrun; inv_run.
  - split; [done|constructor].
  - match goal with H : map_m _ _ _ = _ |- _ => apply IH in H as [-> ?] end.
    split; [done|by constructor].
Qed.

(** The configuration after [SetConfig]: a given field replaces the stored one,
    addresses are validated first. *)
Definition reconfigured (deps : Deps) (ma : option string) (p : option Coin)
    (dr : option string) (pif : option Coin) (ts : option (list string))
    (cfg cfg' : GatewayState.Config) : Prop :=
  match ma with
  | Some a => addr_validate_ (api deps) a = Ok (GatewayState.manager cfg')
  | None => GatewayState.manager cfg' = GatewayState.manager cfg
  end ∧
  match dr with
  | Some a => ∃ d, addr_validate_ (api deps) a = Ok d ∧ drand cfg' = Some d
  | None => drand cfg' = drand cfg
  end ∧
  match ts with
  | Some l => ∃ l', Forall2 (λ x a, addr_validate_ (api deps) x = Ok a) l l' ∧
      trusted_sources cfg' = Some l'
  | None => trusted_sources cfg' = Some (unwrap_or [] (trusted_sources cfg))
  end ∧
  price cfg' = unwrap_or (price cfg) p ∧
  payment_initial_funds cfg' = match pif with Some c => Some c | None => payment_initial_funds cfg end ∧
  payment_code_id cfg' = payment_code_id cfg ∧ GatewayState.sink cfg' = GatewayState.sink cfg.

Lemma execute_set_config_ok deps info env ma p dr ts pif s r s' :
  execute_set_config deps info env ma p dr ts pif s = (Ok r, s') →
  ∃ cfg cfg', config s = Some cfg ∧ sender info = GatewayState.manager cfg ∧
    s' = item_set CONFIG (Some cfg') s ∧ messages r = [] ∧
    reconfigured deps ma p dr pif ts cfg cfg'.
Proof.
  unfold execute_set_config, reconfigured. intros Hrun. inv_run.
  repeat match goal with
  | H : match ?x with _ => _ end _ = (Ok _, _) |- _ => destruct x; inv_run
  end.
  all: repeat match goal with
    | H : map_m _ _ _ = _ |- _ => apply map_m_addr_validate_ok in H as [-> ?] end.
  all: eexists _, _; split_and!; try done; eauto.
Qed.

(** *** Registered customers *)

(** The contract is configured and the customers of these channels are registered. *)
Definition registered (channels : gset string) (s : Storage) : Prop :=
  is_Some (config s) ∧ ∀ c, c ∈ channels → is_Some (customers s !! c).

Lemma registered_frame cs s s' :
  config s' = config s → customers s' = customers s → registered cs s → registered cs s'.
Proof. unfold registered. by intros -> ->. Qed.

Lemma registered_insert cs s chan cust :
  registered cs s → registered cs (map_set CUSTOMERS (<[chan := cust]> (customers s)) s).
Proof.
  intros [Hcfg Hcust]. split; [done|]. intros c Hc. simpl. rewrite lookup_insert_is_Some'.
  right. by apply Hcust.
Qed.

(** What the writes of a packet's receipt preserve, its receipt preserves. *)
Lemma preserves_receive (P : Storage → Prop) deps env msg :
  (∀ s k c, requested_beacons c ≤ umax 64 → P s →
    P (map_set CUSTOMERS (<[k := c]> (customers s)) s)) →
  (∀ s l, P s → P (map_set REQUESTS_LOG l s)) →
  (∀ s round, round ≤ umax 64 → count_processed s round + 1 ≤ umax 32 → P s →
    P (incremented s round)) →
  (∀ s round job, round ≤ umax 32 → last_id s round + 1 ≤ umax 16 → P s →
    P (enqueued s round job)) →
  preserves P (ibc_packet_receive deps env msg).
Proof.
  intros Hcust Hlog Hinc Henq.
  assert (∀ chan e, preserves P (requests_log_add chan e : M Storage ContractError unit)).
  { intros chan e s Hs. by apply Hlog. }
  assert (∀ round, round ≤ umax 64 → preserves P (increment_processed_drand_jobs round
    : M Storage ContractError unit)).
  { intros round Hround s Hs. rewrite increment_run.
    destruct (N.leb_spec (count_processed s round + 1) (umax 32)); [by apply Hinc|done]. }
  assert (∀ round job, preserves P (unprocessed_drand_jobs_enqueue round job
    : M Storage ContractError unit)).
  { intros round job s Hs. rewrite enqueue_run.
    destruct (N.leb_spec round (umax 32)); [|done].
    destruct (N.leb_spec (last_id s round + 1) (umax 16)); [by apply Henq|done]. }
  intros s Hs. unfold ibc_packet_receive, or_else_ack.
  match goal with |- context [match ?m s with _ => _ end] =>
    assert (preserves P m) as Hm end.
  { apply preserves_bind; [auto with preserves|]. intros [after origin|].
    2: { unfold receive_pull_beacon_price. preserve. }
    unfold receive_request_beacon.
    apply preserves_bind; [auto with preserves|]. intros _.
    apply preserves_bind.
    { unfold route, handle_drand_request, commit_to_drand_round, archive_lookup.
      apply preserves_lift_then. intros [round src] Hcommit. inv_run.
      match goal with H : round_after _ = Ok _ |- _ => apply round_after_bound in H end.
      preserve; auto. }
    intros receipt. apply preserves_bind; [done|]. intros _.
    apply preserves_bind; [auto with preserves|]. intros customer.
    apply preserves_lift_then. intros requested [-> Hle]%checked_ok.
    apply preserves_bind; [|intros _; preserve].
    apply preserves_modify. intros s1. by apply Hcust. }
  specialize (Hm s Hs). by case_match; case_match.
Qed.

Lemma preserves_receive_registered cs deps env msg :
  preserves (registered cs) (ibc_packet_receive deps env msg).
Proof. apply preserves_receive; [|done..]. intros. by apply registered_insert. Qed.

(** Receiving a packet keeps the configuration. *)
Lemma receive_config deps env msg s o s' :
  ibc_packet_receive deps env msg s = (o, s') → config s' = config s.
Proof.
  intros Hrun. by apply (preserves_run _ _ _ _ _
    (preserves_receive (λ s1, config s1 = config s) deps env msg
      (λ _ _ _ _ H, H) (λ _ _ H, H) (λ _ _ _ _ H, H) (λ _ _ _ _ _ H, H)) Hrun).
Qed.

(** No transaction removes a customer. *)
Lemma call_registered cs s msgs s' : call s msgs s' → registered cs s → registered cs s'.
Proof.
  destruct 1 as [deps env info [round randomness v|] r s' Hrun|deps env r s' Hrun
    |deps env msg r s' Hrun|deps env msg r s' Hrun|deps env msg r s' Hrun
    |deps env msg r s' Hrun|deps env r s' Hrun].
  - pose proof (execute_add_verified_round_ok deps _ _ _ _ _ _ _ _ Hrun)
      as [_ (n & (_ & _ & ->) & _)].
    match goal with |- context [drained ?k ?s1 ?q] =>
      destruct (drained_frame k s1 q) as (_ & Hc & Hs & _) end.
    by apply registered_frame.
  - simpl in Hrun. apply execute_set_config_ok in Hrun as (cfg & cfg' & _ & _ & -> & _).
    intros [_ ?]. by split.
  - unfold migrate in Hrun. inv_run. intros [_ ?]. by split.
  - apply ibc_channel_connect_ok in Hrun as (chan & _ & Hcon).
    destruct Hcon as (cfg & ? & ? & ? & ? & ? & ? & ? & _ & _ & _ & _ & _ & -> & _).
    by apply registered_insert.
  - unfold ibc_channel_close in Hrun. by inv_run.
  - by apply (preserves_run _ _ _ _ _ (preserves_receive_registered _ _ _ _) Hrun).
  - assert (s' = s) as ->; [|done]. unfold ibc_packet_ack in Hrun. inv_run.
    repeat case_match; by inv_run.
  - unfold ibc_packet_timeout in Hrun. by inv_run.
Qed.
End spec.

(** ** Properties *)

Section properties.
Context `{Display} `{Sha256} `{Instantiate2} `{Json OutPacket} `{Json OutPacketAck}
  `{Json InPacket} `{Json InPacketAck} `{Json StdAck} `{Json Drand.ExecuteMsg}
  `{Json Payment.InstantiateMsg} `{Json Payment.ExecuteMsg}.

(** C8. No job is lost. In every reachable state, whatever transaction is
    committed next, the queue of each round either grows at its end, or loses
    its oldest jobs while the round is archived and exactly the deliveries of
    those jobs are sent, in their order. *)
Theorem no_job_is_lost (s s' : Storage) (msgs : list CosmosMsg) (round : u64)
    (Hs : reachable init step s) (Hcall : call s msgs s') :
  conserves s s' msgs round.
Proof.
  apply call_conserves; [|done]. by destruct (reachable_gateway_well_formed s Hs).
Qed.

(** C26. Once a round is archived it stays archived and its queue can only
    shrink: later requests for the round are never queued behind the jobs that
    are still waiting. *)
Theorem archived_queue_only_shrinks (s s' : Storage) (round : u64)
    (Hs : reachable init step s) (Hround : is_Some (archived s round)) (Hsteps : rtc step s s') :
  is_Some (archived s' round) ∧ ∃ k, queue s' round = drop k (queue s round).
Proof.
  pose proof (reachable_gateway_well_formed s Hs) as [Hwf Hjobs].
  assert (well_formed s' ∧ is_Some (archived s' round) ∧
    ∃ k, queue s' round = drop k (queue s round)) as (_ & ? & ?); [|done].
  eapply (rtc_preserved step (λ s', well_formed s' ∧ is_Some (archived s' round) ∧
    ∃ k, queue s' round = drop k (queue s round)) s); [|split_and!; [done..|by exists 0%nat]|done].
  intros s1 s2 (Hwf1 & Ha & k & Hk) [msgs Hcall].
  destruct (call_archived _ _ _ round (proj1 Hwf1) Hcall Ha) as [Ha2 [k2 Hk2]].
  split_and!; [by eapply call_well_formed|done|]. exists (k + k2)%nat.
  by rewrite Hk2, Hk, drop_drop.
Qed.

(** C21. What an accepted request does. When a [RequestBeacon] packet is
    acknowledged with success, the committed round is the next one after the
    requested time; an archived round is delivered at once, any other is queued
    (and announced to nois-drand); the request is appended to the log of the
    channel ([push_back], a deque with [u32] indices), the customer is charged
    one beacon and its payment contract is told to pay the price in three parts
    that add up to it exactly. *)
Theorem request_beacon_effects (deps : Deps) (env : Env) (msg : IbcPacketReceiveMsg)
    (after : Timestamp) (origin : Binary) (s s' : Storage) (r : IbcReceiveResponse) (b : Binary)
    (Hpacket : from_json (packet_data msg) = Ok (InPacket_RequestBeacon after origin))
    (Hrun : ibc_packet_receive deps env msg s = (Ok r, s'))
    (Hack : acknowledgement r = StdAck_Success b) :
  request_accepted env (packet_dest_channel_id msg) (relayer msg) after origin s r s' ∧
  ∀ p, burn_part p + relayer_part p + rest_part p = p.
Proof. split; [by eapply ibc_packet_receive_request_ok|apply parts_sum]. Qed.

(** C15. A request that fits is always accepted: on a registered channel, with a
    short origin, a round of 32 bits and no counter at its limit, the gateway
    answers with success and does what an accepted request does. *)
Theorem request_is_acknowledged `{!JsonLaws OutPacket} `{!JsonLaws InPacketAck}
    `{!JsonLaws Drand.ExecuteMsg} `{!JsonLaws Payment.ExecuteMsg} (deps : Deps) (env : Env)
    (msg : IbcPacketReceiveMsg) (after : Timestamp) (origin : Binary) (s : Storage)
    (Hpacket : from_json (packet_data msg) = Ok (InPacket_RequestBeacon after origin))
    (Hfits : request_fits env (packet_dest_channel_id msg) after origin s) :
  ∃ r s' b, ibc_packet_receive deps env msg s = (Ok r, s') ∧
    acknowledgement r = StdAck_Success b ∧
    request_accepted env (packet_dest_channel_id msg) (relayer msg) after origin s r s'.
Proof. by eapply ibc_packet_receive_request_run. Qed.

(** C16. An error acknowledgement has no effect. On a registered channel the
    gateway refuses a packet only if it cannot be parsed or its origin is too
    long; nothing is queued, counted, charged or sent. (The writes before an
    error are not rolled back in general: [or_else_ack] commits them.) *)
Theorem error_ack_has_no_effect `{!JsonLaws OutPacket} `{!JsonLaws InPacketAck}
    `{!JsonLaws Drand.ExecuteMsg} `{!JsonLaws Payment.ExecuteMsg} (deps : Deps) (env : Env)
    (msg : IbcPacketReceiveMsg) (s s' : Storage) (r : IbcReceiveResponse) (err : string)
    (Hcfg : is_Some (config s)) (Hregistered : is_Some (customers s !! packet_dest_channel_id msg))
    (Hrun : ibc_packet_receive deps env msg s = (Ok r, s'))
    (Hack : acknowledgement r = StdAck_Error err) :
  s' = s ∧ messages (response r) = [] ∧ unacceptable msg.
Proof. by eapply ibc_packet_receive_err. Qed.

(** C14. A round reported by a trusted source is processed: if the randomness is
    not empty (the storage panics on an empty value), the round fits 32 bits and
    no counter or timestamp overflows, [AddVerifiedRound] succeeds, archives the
    randomness, and answers the oldest waiting jobs, one in a verifying
    transaction and up to ten otherwise. *)
Theorem add_verified_round_delivers `{!JsonLaws OutPacket} (deps : Deps) (env : Env)
    (info : MessageInfo) (round : u64) (randomness : HexBinary) (is_verifying_tx : bool)
    (s : Storage) (cfg : GatewayState.Config) (Hcfg : config s = Some cfg)
    (Htrusted : sender info ∈ unwrap_or [] (trusted_sources cfg))
    (Hrandomness : randomness ≠ "") (Hround : 1 ≤ round ≤ umax 32)
    (Hcount : count_processed s round + max_jobs is_verifying_tx ≤ umax 32)
    (Htime : block_time env + DELIVER_BEACON_PACKET_LIFETIME * nanos_per_second ≤ umax 64) :
  ∃ r s' n,
    execute deps env info (ExecuteMsg_AddVerifiedRound round randomness is_verifying_tx) s
      = (Ok r, s') ∧
    delivered env s s' round randomness is_verifying_tx (sub_msg <$> messages r) n ∧
    n = N.min (max_jobs is_verifying_tx) (N.of_nat (length (queue s round))) ∧
    archived s' round = Some randomness ∧
    queue s' round = drop (N.to_nat n) (queue s round).
Proof.
  by eapply add_verified_round_run.
Qed.

(** C33. Only trusted sources feed the archive. Whatever transaction is committed,
    if it changes the archive it is a report of a round by an account that the
    configuration lists, and it writes the entry of this round only. A report by
    anybody else is rejected without a change of the state. *)
Theorem archive_fed_by_trusted_sources (s s' : Storage) (msgs : list CosmosMsg)
    (Hcall : call s msgs s') (Hchange : archive s' ≠ archive s) :
  ∃ deps env info cfg round randomness is_verifying_tx r,
    config s = Some cfg ∧ sender info ∈ unwrap_or [] (trusted_sources cfg) ∧
    execute deps env info (ExecuteMsg_AddVerifiedRound round randomness is_verifying_tx) s
      = (Ok r, s') ∧
    archive s' = <[drand_mainnet_randomness_key round := randomness]> (archive s) ∧
    ∀ info', sender info' ∉ unwrap_or [] (trusted_sources cfg) →
      execute deps env info' (ExecuteMsg_AddVerifiedRound round randomness is_verifying_tx) s
        = (Err ContractError_UnauthorizedAddVerifiedRound, s).
Proof.
  apply call_core in Hcall as [[Hc|(channel & after & origin & _ & _ & _ & Hc)]|
    (deps & env & info & round & randomness & v & r & n & Hrun & Hdel)].
  - by injection Hc.
  - by injection Hc.
  - pose proof (execute_add_verified_round_ok deps _ _ _ _ _ _ _ _ Hrun)
      as [(cfg & Hcfg & Hin) _].
    do 8 eexists. split_and!; [done|done|exact Hrun| |].
    + destruct Hdel as (_ & _ & ->).
      match goal with |- context [drained ?k ?s1 ?q] =>
        by destruct (drained_frame k s1 q) as (_ & _ & _ & _ & _ & ->) end.
    + intros info' Hout. by eapply untrusted_round_rejected.
Qed.

(** A channel is only connected from the side of the proxy; the gateway
    then registers a fresh customer under the predicted payment address,
    instantiates the payment contract with the sink of the configuration and
    sends the welcome and the current price over the new channel. *)
Lemma channel_connect_registers_customer (deps : Deps) (env : Env)
    (msg : IbcChannelConnectMsg) (s s' : Storage) (r : Response)
    (Hrun : ibc_channel_connect deps env msg s = (Ok r, s')) :
  ∃ channel, msg = IbcChannelConnectMsg_OpenConfirm channel ∧
    connected deps env (endpoint_channel_id channel) s r s'.
Proof. by apply ibc_channel_connect_ok. Qed.

(** [SetConfig] is for the manager only, it sends no messages and changes
    nothing but the configuration: each given field replaces the stored one,
    after the validation of addresses, and everything else keeps its value; the
    code ID of the payment contract and the sink cannot be changed. *)
Lemma set_config_spec (deps : Deps) (env : Env) (info : MessageInfo) (ma : option string)
    (p : option Coin) (dr : option string) (pif : option Coin) (ts : option (list string))
    (s s' : Storage) (r : Response)
    (Hrun : execute deps env info (ExecuteMsg_SetConfig ma p dr pif ts) s = (Ok r, s')) :
  ∃ cfg cfg', config s = Some cfg ∧ sender info = GatewayState.manager cfg ∧
    s' = item_set CONFIG (Some cfg') s ∧ messages r = [] ∧
    reconfigured deps ma p dr pif ts cfg cfg'.
Proof. exact (execute_set_config_ok deps info env ma p dr ts pif s r s' Hrun). Qed.
End properties.

(** ** Witnesses *)

#[global] Instance test_instantiate2 : Instantiate2 :=
  λ checksum creator salt, Ok ("payment for " +:+ salt).

Definition sample_info (who : Addr) : MessageInfo := {| sender := who; funds := [] |}.
Definition sample_channel : IbcChannel :=
  {| endpoint_channel_id := "chan-1"; order := IbcOrder_Unordered; version := "nois-v7" |}.
Definition sample_packet (after : Timestamp) (origin : Binary) : IbcPacketReceiveMsg := {|
  packet_data := positive_to_string (encode (InPacket_RequestBeacon after origin));
  packet_dest_channel_id := "chan-1";
  relayer := "relayer";
|}.

Definition sample_init : Storage :=
  (instantiate (test_deps 0) (test_env 1 10) (sample_info "creator")
    {| msg_price := coin 101 "unois"; msg_manager := "boss"; msg_payment_code_id := 33;
       msg_payment_initial_funds := None; msg_sink := "sink" |} GatewayState.empty_storage).2.
Definition sample_config : Storage :=
  (execute (test_deps 0) (test_env 2 20) (sample_info "boss")
    (ExecuteMsg_SetConfig None None (Some "drand") None (Some ["drand"])) sample_init).2.
(** The configuration in the states below. *)
Definition sample_gateway_config : GatewayState.Config := {|
  drand := Some "drand"; trusted_sources := Some ["drand"]; GatewayState.manager := "boss";
  price := coin 101 "unois"; payment_code_id := 33; payment_initial_funds := None;
  GatewayState.sink := "sink" |}.
Definition sample_connected : Storage :=
  (ibc_channel_connect (test_deps 0) (test_env 3 30)
    (IbcChannelConnectMsg_OpenConfirm sample_channel) sample_config).2.
(** Two requests for the round 3 of the drand network. *)
Definition sample_request (s : Storage) (origin : Binary) : Storage :=
  (ibc_packet_receive (test_deps 0) (test_env 4 40)
    (sample_packet (DRAND_GENESIS + DRAND_ROUND_LENGTH) origin) s).2.
Definition sample_one : Storage := sample_request sample_connected "a".
Definition sample_two : Storage := sample_request sample_one "b".
Definition sample_report (who : Addr) (is_verifying_tx : bool) (s : Storage) :=
  execute (test_deps 0) (test_env 5 50) (sample_info who)
    (ExecuteMsg_AddVerifiedRound 3 "cafe" is_verifying_tx) s.

Lemma packet_step s origin :
  is_ok (ibc_packet_receive (test_deps 0) (test_env 4 40)
    (sample_packet (DRAND_GENESIS + DRAND_ROUND_LENGTH) origin) s).1 = true →
  step s (sample_request s origin).
Proof. intros [r Hr]%run_snd. eexists. by eapply call_packet_receive. Qed.

Lemma gateway_sample_reachable : reachable init step sample_two.
Proof.
  eapply reachable_step; [|by apply packet_step; vm_compute].
  eapply reachable_step; [|by apply packet_step; vm_compute].
  eapply (reachable_step _ _ sample_config).
  - eapply (reachable_step _ _ sample_init).
    + apply reachable_init.
      by apply (init_instantiate (test_deps 0) (test_env 1 10) (sample_info "creator")
        {| msg_price := coin 101 "unois"; msg_manager := "boss"; msg_payment_code_id := 33;
           msg_payment_initial_funds := None; msg_sink := "sink" |} Response_new).
    + eexists. by apply (call_execute sample_init (test_deps 0) (test_env 2 20)
        (sample_info "boss")
        (ExecuteMsg_SetConfig None None (Some "drand") None (Some ["drand"])) Response_new).
  - destruct (run_snd (ibc_channel_connect (test_deps 0) (test_env 3 30)
      (IbcChannelConnectMsg_OpenConfirm sample_channel)) sample_config) as [r Hr];
      [by vm_compute|].
    eexists. by eapply call_channel_connect.
Qed.

Lemma sample_report_call s :
  is_ok (sample_report "drand" true s).1 = true →
  call s (sub_msg <$> messages (response_of (sample_report "drand" true s).1))
    (sample_report "drand" true s).2.
Proof.
  intros Hok%run_response. by apply (call_execute s (test_deps 0) (test_env 5 50)
    (sample_info "drand") (ExecuteMsg_AddVerifiedRound 3 "cafe" true)).
Qed.

Lemma no_job_is_lost_witness :
  origin <$> queue sample_two 3 = ["a"; "b"] ∧
  conserves sample_two (sample_report "drand" true sample_two).2
    (sub_msg <$> messages (response_of (sample_report "drand" true sample_two).1)) 3.
Proof.
  split; [by vm_compute|].
  apply (no_job_is_lost sample_two (sample_report "drand" true sample_two).2
    (sub_msg <$> messages (response_of (sample_report "drand" true sample_two).1)) 3
    gateway_sample_reachable).
  apply sample_report_call. by vm_compute.
Defined.

Lemma archived_queue_only_shrinks_witness :
  let s := (sample_report "drand" true sample_two).2 in
  origin <$> queue s 3 = ["b"] ∧
  is_Some (archived (sample_request s "c") 3) ∧
  ∃ k, queue (sample_request s "c") 3 = drop k (queue s 3).
Proof.
  split; [by vm_compute|].
  apply (archived_queue_only_shrinks (sample_report "drand" true sample_two).2).
  - eapply reachable_step; [exact gateway_sample_reachable|].
    eexists. apply sample_report_call. by vm_compute.
  - exists "cafe". by vm_compute.
  - apply rtc_once, packet_step. by vm_compute.
Defined.

Lemma request_beacon_effects_witness :
  ∃ r b, acknowledgement r = StdAck_Success b ∧
  request_accepted (test_env 4 40) "chan-1" "relayer" (DRAND_GENESIS + DRAND_ROUND_LENGTH) "b"
    sample_one r sample_two ∧
  ∀ p, burn_part p + relayer_part p + rest_part p = p.
Proof.
  destruct (run_snd (ibc_packet_receive (test_deps 0) (test_env 4 40)
    (sample_packet (DRAND_GENESIS + DRAND_ROUND_LENGTH) "b")) sample_one) as [r Hr];
    [by vm_compute|].
  assert (∃ b, acknowledgement r = StdAck_Success b) as [b Hb].
  { revert Hr. vm_compute. intros [= <-]. eauto. }
  exists r, b. split; [done|].
  apply (request_beacon_effects (test_deps 0) (test_env 4 40)
    (sample_packet (DRAND_GENESIS + DRAND_ROUND_LENGTH) "b") _ "b" sample_one sample_two r b);
    [by vm_compute|done|done].
Defined.

Lemma request_is_acknowledged_witness :
  ∃ r s' b, ibc_packet_receive (test_deps 0) (test_env 4 40)
      (sample_packet (DRAND_GENESIS + DRAND_ROUND_LENGTH) "b") sample_one = (Ok r, s') ∧
    acknowledgement r = StdAck_Success b ∧
    request_accepted (test_env 4 40) "chan-1" "relayer" (DRAND_GENESIS + DRAND_ROUND_LENGTH) "b"
      sample_one r s'.
Proof.
  apply (request_is_acknowledged (test_deps 0) (test_env 4 40)
    (sample_packet (DRAND_GENESIS + DRAND_ROUND_LENGTH) "b")); [by vm_compute|].
  constructor.
  - by vm_compute.
  - by vm_compute.
  - exists sample_gateway_config. split; by vm_compute.
  - exists {| payment := "payment for chan-1"; requested_beacons := 1 |}. split; by vm_compute.
  - by vm_compute.
  - by vm_compute.
  - by vm_compute.
Defined.

(** A packet that is not JSON is answered with an error. *)
Definition sample_garbage : IbcPacketReceiveMsg :=
  {| packet_data := "?"; packet_dest_channel_id := "chan-1"; relayer := "relayer" |}.

Lemma error_ack_has_no_effect_witness : ∃ r,
  ibc_packet_receive (test_deps 0) (test_env 4 40) sample_garbage sample_one = (Ok r, sample_one) ∧
  sample_one = sample_one ∧ messages (response r) = [] ∧ unacceptable sample_garbage.
Proof.
  destruct (run_snd (ibc_packet_receive (test_deps 0) (test_env 4 40) sample_garbage) sample_one)
    as [r Hr]; [by vm_compute|].
  assert ((ibc_packet_receive (test_deps 0) (test_env 4 40) sample_garbage sample_one).2 =
    sample_one) as Hs by by vm_compute.
  rewrite Hs in Hr. exists r. split; [exact Hr|].
  apply (error_ack_has_no_effect (test_deps 0) (test_env 4 40) sample_garbage sample_one sample_one
    r "Error processing packet: std error");
    [eexists; vm_compute; reflexivity|eexists; vm_compute; reflexivity|exact Hr|].
  revert Hr. vm_compute. by intros [= <-].
Defined.

Lemma add_verified_round_delivers_witness :
  ∃ r s' n,
    sample_report "drand" false sample_two = (Ok r, s') ∧
    delivered (test_env 5 50) sample_two s' 3 "cafe" false (sub_msg <$> messages r) n ∧
    n = 2 ∧ archived s' 3 = Some "cafe" ∧ queue s' 3 = drop (N.to_nat n) (queue sample_two 3).
Proof.
  apply (add_verified_round_delivers (test_deps 0) (test_env 5 50) (sample_info "drand") 3 "cafe"
    false sample_two sample_gateway_config).
  - by vm_compute.
  - vm_compute. left.
  - done.
  - by split; vm_compute.
  - by vm_compute.
  - by vm_compute.
Defined.

Lemma archive_fed_by_trusted_sources_witness :
  let s' := (sample_report "drand" true sample_two).2 in
  archive s' ≠ archive sample_two ∧
  ∃ deps env info cfg round randomness is_verifying_tx r,
    config sample_two = Some cfg ∧ sender info ∈ unwrap_or [] (trusted_sources cfg) ∧
    execute deps env info (ExecuteMsg_AddVerifiedRound round randomness is_verifying_tx) sample_two
      = (Ok r, s') ∧
    archive s' = <[drand_mainnet_randomness_key round := randomness]> (archive sample_two) ∧
    ∀ info', sender info' ∉ unwrap_or [] (trusted_sources cfg) →
      execute deps env info' (ExecuteMsg_AddVerifiedRound round randomness is_verifying_tx)
        sample_two = (Err ContractError_UnauthorizedAddVerifiedRound, sample_two).
Proof.
  assert (archive (sample_report "drand" true sample_two).2 ≠ archive sample_two) as Hne.
  { intros Heq. assert (archived (sample_report "drand" true sample_two).2 3 = None) as Hn.
    - unfold archived. rewrite Heq. by vm_compute.
    - by vm_compute in Hn. }
  split; [exact Hne|].
  apply (archive_fed_by_trusted_sources sample_two (sample_report "drand" true sample_two).2
    (sub_msg <$> messages (response_of (sample_report "drand" true sample_two).1))); [|exact Hne].
  apply sample_report_call. by vm_compute.
Defined.

Lemma channel_connect_registers_customer_witness : ∃ r channel,
  IbcChannelConnectMsg_OpenConfirm sample_channel = IbcChannelConnectMsg_OpenConfirm channel ∧
  connected (test_deps 0) (test_env 3 30) (endpoint_channel_id channel) sample_config r
    sample_connected.
Proof.
  destruct (run_snd (ibc_channel_connect (test_deps 0) (test_env 3 30)
    (IbcChannelConnectMsg_OpenConfirm sample_channel)) sample_config) as [r Hr]; [by vm_compute|].
  exists r. apply (channel_connect_registers_customer (test_deps 0) (test_env 3 30)
    (IbcChannelConnectMsg_OpenConfirm sample_channel) sample_config sample_connected r Hr).
Defined.

Lemma set_config_spec_witness : ∃ cfg cfg',
  config sample_init = Some cfg ∧ "boss" = GatewayState.manager cfg ∧
  sample_config = item_set CONFIG (Some cfg') sample_init ∧ messages Response_new = [] ∧
  reconfigured (test_deps 0) None None (Some "drand") None (Some ["drand"]) cfg cfg'.
Proof.
  apply (set_config_spec (test_deps 0) (test_env 2 20) (sample_info "boss") None None
    (Some "drand") None (Some ["drand"]) sample_init sample_config Response_new).
  by vm_compute.
Defined.
