(* ===== verification/GatewayTyped.v ===== *)
(** * The types of what nois-gateway stores

    Integers of the source are unbounded [N] in the records of [GatewayState];
    this file shows that what a reachable storage holds fits the widths that the
    source declares, so that serializing it never truncates. *)
From stdpp Require Import prelude gmap strings list sorting pretty.
From Stdlib Require Import NArith Lia.
From S2P Require Import Prelude.
From S2P Require Import CosmWasm.
From S2P Require Import DrandCommon.
From S2P Require Import NoisProtocol.
From S2P Require Import Fixtures.
From S2P Require Import Payment.
From S2P Require Import Drand.
From S2P Require Import GatewayState.
From S2P Require Import RequestRouter.
From S2P Require Import Gateway.

(** [JOBS: Map<(u32, u16), Job>], [LAST_JOB_ID: Map<u32, u16>],
    [PROCESSED_DRAND_JOBS_COUNT: Map<u64, u32>], [requested_beacons: u64], and
    the raw keys of the archive are those of a [u64] round, with a value that is
    not empty. *)
Record typed (s : Storage) : Prop := {
  typed_jobs round id job :
    jobs s !! (round, id) = Some job → round ≤ umax 32 ∧ id ≤ umax 16;
  typed_ids round id : last_job_id s !! round = Some id → round ≤ umax 32 ∧ id ≤ umax 16;
  typed_counts round n : processed_drand_jobs s !! round = Some n → round ≤ umax 64 ∧ n ≤ umax 32;
  typed_customers c customer :
    customers s !! c = Some customer → requested_beacons customer ≤ umax 64;
  typed_archive k x : archive s !! k = Some x →
    x ≠ "" ∧ ∃ round, round ≤ umax 64 ∧ k = drand_mainnet_randomness_key round;
}.

Section typed.
Implicit Types s : Storage.

Lemma typed_config s c : typed s → typed (item_set GatewayState.CONFIG c s).
Proof. by intros []. Qed.
Lemma typed_info s c : typed s → typed (item_set GatewayState.CONTRACT_INFO c s).
Proof. by intros []. Qed.
Lemma typed_log s l : typed s → typed (map_set REQUESTS_LOG l s).
Proof. by intros []. Qed.

Lemma typed_customer s k c :
  requested_beacons c ≤ umax 64 → typed s → typed (map_set CUSTOMERS (<[k := c]> (customers s)) s).
Proof.
  intros Hc []. split; try done. simpl. intros k' c'.
  rewrite lookup_insert_Some. intros [[_ <-]|[_ ?]]; eauto.
Qed.

Lemma typed_incremented s round :
  round ≤ umax 64 → count_processed s round + 1 ≤ umax 32 → typed s → typed (incremented s round).
Proof.
  intros Hr Hc []. split; try done. intros r n. unfold incremented. simpl.
  rewrite lookup_insert_Some. intros [[<- <-]|[_ ?]]; eauto.
Qed.

Lemma typed_enqueued s round job :
  round ≤ umax 32 → last_id s round + 1 ≤ umax 16 → typed s → typed (enqueued s round job).
Proof.
  intros Hr Hid []. split; try done; unfold enqueued; simpl.
  - intros r id j. rewrite lookup_insert_Some. intros [[[= <- <-] _]|[_ ?]]; eauto.
  - intros r id. rewrite lookup_insert_Some. intros [[<- <-]|[_ ?]]; eauto.
Qed.

Lemma typed_dequeued s round : typed s → typed (dequeued s round).
Proof.
  intros Hs. unfold dequeued. destruct (prefix_entries round (jobs s)) as [|[id job] ?]; [done|].
  destruct Hs. split; try done. simpl. intros r i j. rewrite lookup_delete_Some.
  intros [_ ?]. eauto.
Qed.

Lemma typed_stored s round randomness :
  round ≤ umax 64 → randomness ≠ "" → typed s → typed (stored s round randomness).
Proof.
  intros Hr Hx []. split; try done. unfold stored. simpl. intros k x.
  rewrite lookup_insert_Some. intros [[<- <-]|[_ ?]]; eauto.
Qed.
End typed.

Section preserved.
Context `{Display} `{Sha256} `{Instantiate2} `{Json OutPacket} `{Json OutPacketAck}
  `{Json InPacket} `{Json InPacketAck} `{Json StdAck} `{Json Drand.ExecuteMsg}
  `{Json Payment.InstantiateMsg} `{Json Payment.ExecuteMsg}.

Lemma preserves_typed_config {E} c :
  preserves typed (modify (item_set GatewayState.CONFIG c) : M Storage E unit).
Proof. apply preserves_modify. intros s. apply typed_config. Qed.
Lemma preserves_typed_version {E} n v :
  preserves typed (set_contract_version GatewayState.CONTRACT_INFO n v : M Storage E unit).
Proof. apply preserves_modify. intros s. apply typed_info. Qed.
Lemma preserves_typed_dequeue {E} round :
  preserves typed (unprocessed_drand_jobs_dequeue round : M Storage E _).
Proof. intros s Hs. rewrite dequeue_run. case_match; [by apply typed_dequeued|done]. Qed.
Lemma preserves_typed_increment {E} round :
  round ≤ umax 64 → preserves typed (increment_processed_drand_jobs round : M Storage E _).
Proof.
  intros Hround s Hs. rewrite increment_run.
  destruct (N.leb_spec (count_processed s round + 1) (umax 32)); [by apply typed_incremented|done].
Qed.
Lemma preserves_typed_store {E} round randomness :
  round ≤ umax 64 → preserves typed (archive_store round randomness : M Storage E _).
Proof.
  intros Hround s Hs. unfold archive_store, raw_set. case_bool_decide; [done|].
  by apply typed_stored.
Qed.
Hint Resolve preserves_typed_config preserves_typed_version preserves_typed_dequeue
  preserves_typed_increment preserves_typed_store : preserves.

Lemma preserves_typed_loop fuel env round randomness max_jobs msgs n :
  round ≤ umax 64 →
  preserves typed (new_drand_loop fuel env round randomness max_jobs msgs n
    : M Storage ContractError _).
Proof.
  intros Hround. revert msgs n. induction fuel as [|fuel IH]; intros msgs n; simpl; preserve.
Qed.
Hint Resolve preserves_typed_loop : preserves.

Lemma preserves_typed_new_drand env round randomness is_verifying_tx :
  round ≤ umax 64 →
  preserves typed (new_drand env round randomness is_verifying_tx : M Storage ContractError _).
Proof. intros Hround. unfold new_drand. preserve. Qed.
Hint Resolve preserves_typed_new_drand : preserves.

Lemma call_typed s msgs s' : call s msgs s' → typed s → typed s'.
Proof.
  destruct 1 as [deps env info [round randomness v|] r s' Hrun|deps env r s' Hrun
    |deps env msg r s' Hrun|deps env msg r s' Hrun|deps env msg r s' Hrun
    |deps env msg r s' Hrun|deps env r s' Hrun].
  - apply (preserves_run _ _ _ _ _) with (2 := Hrun).
    apply execute_add_verified_round_round in Hrun as [Hround _].
    assert (round ≤ umax 64) by (transitivity (umax 32); [done|by vm_compute]).
    simpl. unfold execute_add_verified_round. preserve.
  - simpl in Hrun. apply execute_set_config_ok in Hrun as (? & ? & _ & _ & -> & _).
    apply typed_config.
  - apply (preserves_run _ _ _ _ _) with (2 := Hrun). unfold migrate, save. preserve.
  - apply ibc_channel_connect_ok in Hrun as (chan & _ & Hcon).
    destruct Hcon as (? & ? & ? & ? & ? & ? & ? & ? & _ & _ & _ & _ & _ & -> & _).
    apply typed_customer. by vm_compute.
  - unfold ibc_channel_close in Hrun. by inv_run.
  - apply (preserves_run _ _ _ _ _) with (2 := Hrun).
    apply preserves_receive; [apply typed_customer|apply typed_log|apply typed_incremented|
      apply typed_enqueued].
  - apply (preserves_run _ _ _ _ _) with (2 := Hrun). unfold ibc_packet_ack. preserve.
  - unfold ibc_packet_timeout in Hrun. by inv_run.
Qed.

Lemma init_typed s : init s → typed s.
Proof.
  intros [deps env info msg r s0 Hrun].
  apply (preserves_run typed _ _ _ _) with (2 := Hrun).
  - unfold instantiate, ensure_code_id_exists, save. preserve.
  - by split.
Qed.
End preserved.

(** ** Properties *)

Section properties.
Context `{Display} `{Sha256} `{Instantiate2} `{Json OutPacket} `{Json OutPacketAck}
  `{Json InPacket} `{Json InPacketAck} `{Json StdAck} `{Json Drand.ExecuteMsg}
  `{Json Payment.InstantiateMsg} `{Json Payment.ExecuteMsg}.

(** C17. What is stored has its type. In every reachable state the keys and
    counters of the gateway's storage fit the widths of the source: 32 bits for
    the round and 16 for the id of a job, 64 for the round and 32 for the count
    of the processed jobs, 64 for the count of a customer, and a key of the
    archive is that of a round of 64 bits, with a value that is not empty. Every
    waiting job is well formed: it waits in the queue of the round its source
    names, which is a real round whose number fits the 32 bits of the key, and
    its origin is at most 512 bytes long. *)
Theorem stored_data_typed (s : Storage) (Hs : reachable init step s) :
  typed s ∧
  ∀ round job, job ∈ queue s round →
    source_id job = source_of round ∧ len (origin job) ≤ MAX_ORIGIN_LEN ∧ 1 ≤ round ≤ umax 32.
Proof.
  split; [|apply (reachable_gateway_well_formed s Hs)].
  revert Hs. apply reachable_invariant; [apply init_typed|].
  intros s1 s2 Hs1 [msgs Hcall]. by eapply call_typed.
Qed.
End properties.

(** ** Witnesses *)

Lemma stored_data_typed_witness :
  jobs Gateway.sample_two !! (3, 1) = Some (job_of "chan-1" (DRAND_GENESIS + DRAND_ROUND_LENGTH) "a") ∧
  typed Gateway.sample_two ∧
  ∀ round job, job ∈ queue Gateway.sample_two round →
    source_id job = source_of round ∧ len (origin job) ≤ MAX_ORIGIN_LEN ∧ 1 ≤ round ≤ umax 32.
Proof.
  split; [vm_compute; reflexivity|].
  apply (stored_data_typed Gateway.sample_two gateway_sample_reachable).
Defined.
