(* ===== verification/GatewayDrain.v ===== *)
(** * The gateway answers every waiting job

    A submission answers one or ten jobs of its round ([RequestRouter]), so the
    jobs of a round may take several submissions. This file follows a sequence
    of reports of the same round until the queue is empty. *)
From stdpp Require Import prelude gmap strings list sorting pretty.
From Stdlib Require Import NArith Lia.
From S2P Require Import Prelude.
From S2P Require Import CosmWasm.
From S2P Require Import DrandCommon.
From S2P Require Import NoisProtocol.
From S2P Require Import Fixtures.
From S2P Require Import Payment.
From S2P Require Import Drand.
From S2P Require Import GatewayState.
From S2P Require Import RequestRouter.
From S2P Require Import Gateway.

(** One report of a round to the gateway. *)
Record Report := {
  report_deps : Deps; report_env : Env; report_info : MessageInfo; report_verifying : bool }.

(** The number of jobs a sequence of reports can answer. *)
Definition capacity (reports : list Report) : N :=
  foldr (λ rp n, max_jobs (report_verifying rp) + n) 0 reports.

Section drain.
Context `{Display} `{Sha256} `{Instantiate2} `{JsonLaws OutPacket} `{Json OutPacketAck}
  `{Json InPacket} `{Json InPacketAck} `{Json StdAck} `{Json Drand.ExecuteMsg}
  `{Json Payment.InstantiateMsg} `{Json Payment.ExecuteMsg}.
Implicit Types s : Storage.

(** The reports one after the other, with all messages they send. *)
Fixpoint run_reports (round : u64) (randomness : HexBinary) (reports : list Report) :
    M Storage ContractError (list CosmosMsg) :=
  match reports with
  | [] => mret []
  | rp :: reports =>
      r ← execute (report_deps rp) (report_env rp) (report_info rp)
        (ExecuteMsg_AddVerifiedRound round randomness (report_verifying rp));
      msgs ← run_reports round randomness reports;
      mret ((sub_msg <$> messages r) ++ msgs)
  end.

(** The report comes from a trusted sender, at a time that leaves room for the
    timeout of the packets. *)
Definition acceptable (cfg : GatewayState.Config) (rp : Report) : Prop :=
  sender (report_info rp) ∈ unwrap_or [] (trusted_sources cfg) ∧
  block_time (report_env rp) + DELIVER_BEACON_PACKET_LIFETIME * nanos_per_second ≤ umax 64.

(** The delivery is sent by one of the reports. *)
Definition sent_by (reports : list Report) (round : N) (randomness : HexBinary) (job : Job)
    (m : CosmosMsg) : Prop :=
  ∃ rp, rp ∈ reports ∧ delivers (report_env rp) round randomness job m.

Lemma sent_by_cons rp reports round randomness jobs msgs :
  Forall2 (sent_by reports round randomness) jobs msgs →
  Forall2 (sent_by (rp :: reports) round randomness) jobs msgs.
Proof.
  intros Hf. eapply Forall2_impl; [exact Hf|]. intros job m (rp' & ? & ?).
  exists rp'. split; [by right|done].
Qed.

Lemma run_reports_run round randomness reports cfg s :
  config s = Some cfg → Forall (acceptable cfg) reports → randomness ≠ "" →
  1 ≤ round ≤ umax 32 →
  count_processed s round + capacity reports ≤ umax 32 →
  let k := N.to_nat (capacity reports) in
  ∃ msgs s', run_reports round randomness reports s = (Ok msgs, s') ∧
    queue s' round = drop k (queue s round) ∧
    Forall2 (sent_by reports round randomness) (take k (queue s round)) msgs.
Proof.
  intros Hcfg Hacc Hrandomness Hround. revert s Hcfg.
  induction Hacc as [|rp reports [Htrust Htime] _ IH]; intros s Hcfg Hcount; cbn zeta.
  { exists [], s. by split_and!. }
  change (capacity (rp :: reports)) with (max_jobs (report_verifying rp) + capacity reports) in *.
  edestruct (add_verified_round_run (report_deps rp) (report_env rp) (report_info rp) round
    randomness (report_verifying rp) s cfg) as (r & s1 & n & Hr & Hdel & Hn & _ & Hq1); try done.
  { lia. }
  assert (config s1 = Some cfg ∧ count_processed s1 round = count_processed s round + n)
    as [Hcfg1 Hcount1].
  { destruct Hdel as (-> & _ & ->). rewrite drained_count, decide_True by done.
    match goal with |- context [drained ?k ?s2 ?q] =>
      destruct (drained_frame k s2 q) as (_ & -> & _) end. done. }
  destruct (IH s1 Hcfg1) as (msgs & s' & Hrun & Hq & Hmsgs); [lia|].
  set (q := queue s round) in *. set (m := N.to_nat (max_jobs (report_verifying rp))).
  assert (drop (N.to_nat n) q = drop m q) as Hdrop.
  { destruct (decide (m ≤ length q)%nat); [f_equal; lia|]. rewrite !drop_ge by lia. done. }
  assert (take (m `min` length q) q = take m q) as Htake.
  { destruct (decide (m ≤ length q)%nat); [f_equal; lia|]. rewrite !take_ge by lia. done. }
  rewrite Hq1, Hdrop in Hq, Hmsgs.
  exists ((sub_msg <$> messages r) ++ msgs), s'. split_and!.
  - cbn [run_reports]. erewrite M_bind_run by exact Hr. by erewrite M_bind_run by exact Hrun.
  - by rewrite Hq, drop_drop, N2Nat.inj_add.
  - rewrite N2Nat.inj_add, <-take_take_drop. apply Forall2_app; [|by apply sent_by_cons].
    destruct Hdel as (_ & Hdel & _). fold q m in Hdel. rewrite Htake in Hdel.
    eapply Forall2_impl; [exact Hdel|]. intros job x Hx. exists rp. split; [by left|done].
Qed.

(** ** Properties *)

(** C9. Every waiting job is answered. When a round whose number fits 32 bits is
    reported to the gateway by trusted senders with some randomness that is not
    empty, no counter or timestamp overflows, and the reports, which answer one
    job per verifying and ten per other submission, cover the queue together,
    then all reports are accepted, the queue of the round is empty at the end,
    and the messages sent are exactly one delivery per job that waited, in the
    order of the requests. *)
Theorem reports_answer_every_job (s : Storage) (cfg : GatewayState.Config) (round : u64)
    (randomness : HexBinary) (reports : list Report)
    (Hcfg : config s = Some cfg) (Hacc : Forall (acceptable cfg) reports)
    (Hrandomness : randomness ≠ "") (Hround : 1 ≤ round ≤ umax 32)
    (Hcount : count_processed s round + capacity reports ≤ umax 32)
    (Hcap : N.of_nat (length (queue s round)) ≤ capacity reports) :
  ∃ msgs s', run_reports round randomness reports s = (Ok msgs, s') ∧ queue s' round = [] ∧
    Forall2 (sent_by reports round randomness) (queue s round) msgs.
Proof.
  destruct (run_reports_run round randomness reports cfg s Hcfg Hacc Hrandomness
    Hround Hcount)
    as (msgs & s' & Hrun & Hq & Hmsgs).
  rewrite drop_ge in Hq by lia. rewrite take_ge in Hmsgs by lia. by exists msgs, s'.
Qed.
End drain.

(** ** Witnesses *)

(** Two jobs wait; each verifying submission answers one. *)
Definition sample_report (time : N) : Report := {|
  report_deps := test_deps 0; report_env := test_env 5 time;
  report_info := Gateway.sample_info "drand"; report_verifying := true |}.

Lemma reports_answer_every_job_witness :
  length (queue Gateway.sample_two 3) = 2%nat ∧
  ∃ msgs s', run_reports 3 "cafe" [sample_report 50; sample_report 60] Gateway.sample_two
      = (Ok msgs, s') ∧ queue s' 3 = [] ∧
    Forall2 (sent_by [sample_report 50; sample_report 60] 3 "cafe")
      (queue Gateway.sample_two 3) msgs.
Proof.
  split; [by vm_compute|].
  apply (reports_answer_every_job Gateway.sample_two Gateway.sample_gateway_config 3 "cafe"
    [sample_report 50; sample_report 60]).
  - by vm_compute.
  - repeat constructor; by vm_compute.
  - done.
  - by vm_compute.
  - by vm_compute.
  - by vm_compute.
Defined.
