(* ===== verification/Nois.v ===== *)
(** * The messages between dapps and the proxy

    The data the contracts exchange through the [nois] crate: the callback, the
    message that carries it to a dapp, and the messages a dapp sends to the
    proxy, with the constructors and fields the contracts use. The limit on job
    IDs and the randomness helpers of the crate are parameters. *)
From stdpp Require Import prelude gmap strings list sorting pretty.
From Stdlib Require Import NArith Lia.
From S2P Require Import Prelude.
From S2P Require Import CosmWasm.
From S2P Require Import Fixtures.

Record NoisCallback := {
  callback_job_id : string;
  callback_published : Timestamp;
  callback_randomness : HexBinary;
}.

Inductive ReceiverExecuteMsg :=
  | ReceiverExecuteMsg_NoisReceive (callback : NoisCallback).

Inductive ProxyExecuteMsg :=
  | ProxyExecuteMsg_GetNextRandomness (job_id : string)
  | ProxyExecuteMsg_GetRandomnessAfter (after : Timestamp) (job_id : string).

(** Arrays of 32 bytes are strings of length 32. [sub_randomness r n] is what the
    [n]-th call of [provide] returns; decimals are given in units of 10^-18. *)
Class Nois := {
  MAX_JOB_ID_LEN : N;
  roll_dice : Binary → u8;
  sub_randomness : Binary → nat → Binary;
  random_decimal : Binary → N;
}.

(** [HexBinary::to_array::<32>()] *)
Definition to_array_32 (b : HexBinary) : option Binary :=
  if len b =? 32 then Some b else None.

#[global] Instance NoisCallback_eq_dec : EqDecision NoisCallback.
Proof. solve_decision. Defined.
#[global] Program Instance NoisCallback_countable : Countable NoisCallback :=
  inj_countable' (λ c, (callback_job_id c, callback_published c, callback_randomness c))
    (λ '(j, p, r), {| callback_job_id := j; callback_published := p; callback_randomness := r |}) _.
Next Obligation. by intros []. Qed.
#[global] Instance ReceiverExecuteMsg_eq_dec : EqDecision ReceiverExecuteMsg.
Proof. solve_decision. Defined.
#[global] Program Instance ReceiverExecuteMsg_countable : Countable ReceiverExecuteMsg :=
  inj_countable' (λ '(ReceiverExecuteMsg_NoisReceive c), c) ReceiverExecuteMsg_NoisReceive _.
Next Obligation. by intros []. Qed.
#[global] Instance ProxyExecuteMsg_eq_dec : EqDecision ProxyExecuteMsg.
Proof. solve_decision. Defined.
#[global] Program Instance ProxyExecuteMsg_countable : Countable ProxyExecuteMsg :=
  inj_countable'
    (λ m, match m with
          | ProxyExecuteMsg_GetNextRandomness j => inl j
          | ProxyExecuteMsg_GetRandomnessAfter a j => inr (a, j)
          end)
    (λ x, match x with
          | inl j => ProxyExecuteMsg_GetNextRandomness j
          | inr (a, j) => ProxyExecuteMsg_GetRandomnessAfter a j
          end) _.
Next Obligation. by intros []. Qed.

(** A concrete instance: a die with constant outcome, points on the diagonal. *)
#[global] Instance test_nois : Nois := {|
  MAX_JOB_ID_LEN := 64;
  roll_dice r := 4;
  sub_randomness r n := r;
  random_decimal r := 500000000000000000;
|}.
