(* ===== verification/Proxy.v ===== *)
(** * nois-proxy: requests of dapps and their callbacks (contracts/nois-proxy)

    The contract on the consumer chain. Dapps ask it for randomness, it forwards
    the request to the gateway over IBC and calls the dapp back when the beacon
    arrives. [SudoMsg] and [sudo] are those of the [governance_owned] feature
    (contracts/nois-proxy-governance-owned re-exports the contract with it). *)
From stdpp Require Import prelude gmap strings list sorting pretty.
From Stdlib Require Import NArith Lia.
From S2P Require Import Prelude.
From S2P Require Import CosmWasm.
From S2P Require Import DrandCommon.
From S2P Require Import NoisProtocol.
From S2P Require Import Fixtures.
From S2P Require Import Nois.

(** ** Errors (error.rs) *)

Inductive ContractError :=
  | ContractError_Std (e : StdError)
  | ContractError_Unauthorized
  | ContractError_JobIdTooLong
  | ContractError_AfterTooLow (min_after after : Timestamp)
  | ContractError_AfterTooHigh (max_after after : Timestamp)
  | ContractError_NoPaymentOption
  | ContractError_InsufficientPayment
  | ContractError_SenderNotAllowed
  | ContractError_UnknownReplyId (id : u64)
  | ContractError_MustBeChainA
  | ContractError_UnsupportedPacketType
  | ContractError_UnsetChannel
  | ContractError_ChannelAlreadySet
  | ContractError_ChannelMustNotBeClosed
  | ContractError_ChannelError (e : ChannelError).
#[global] Instance ContractError_from_std : FromStd ContractError := ContractError_Std.

Definition ContractError_display `{Display} (e : ContractError) : string :=
  match e with
  | ContractError_Std e => show_std_error e
  | ContractError_Unauthorized => "Unauthorized"
  | ContractError_JobIdTooLong => "Job ID exceeds length limit."
  | ContractError_AfterTooLow min_after after =>
      "The after value is too low (min_after: " +:+ show_timestamp min_after +:+ ", after: " +:+
        show_timestamp after +:+ ")."
  | ContractError_AfterTooHigh max_after after =>
      "The after value is too high (max_after: " +:+ show_timestamp max_after +:+ ", after: " +:+
        show_timestamp after +:+ ")."
  | ContractError_NoPaymentOption => "No payment option is configured in this proxy."
  | ContractError_InsufficientPayment => "Insufficient payment."
  | ContractError_SenderNotAllowed => "Sender address is not allowed to perform this action"
  | ContractError_UnknownReplyId id => "Unknown reply ID " +:+ pretty id
  | ContractError_MustBeChainA =>
      "The nois-proxy contract must be on chain A of the connection. Try swapping A and B in the channel creation."
  | ContractError_UnsupportedPacketType => "Unsupported packet type."
  | ContractError_UnsetChannel =>
      "Channel is not stored. Channel not yet established or closed."
  | ContractError_ChannelAlreadySet =>
      "Channel was already created. Channel is immutable and cannot be overriden"
  | ContractError_ChannelMustNotBeClosed => "Channel must not be closed."
  | ContractError_ChannelError e => ChannelError_display e
  end.

(** ** Event attributes (attributes.rs) *)

Definition ATTR_ACTION : string := "action".
Definition EVENT_TYPE_CALLBACK : string := "nois-callback".
Definition ATTR_CALLBACK_SUCCESS : string := "success".
Definition ATTR_CALLBACK_ERROR_MSG : string := "error_msg".

(** ** State (state.rs) *)

Record IbcDenom := { ics20_channel : string; ibc_denom : string }.

Inductive OperationalMode :=
  | OperationalMode_Funded
  | OperationalMode_IbcPay (unois_denom : IbcDenom).

Record Config := {
  prices : list Coin;
  manager : option Addr;
  test_mode : bool;
  callback_gas_limit : u64;
  payment : option string;
  nois_beacon_price : Uint128;
  nois_beacon_price_updated : Timestamp;
  mode : OperationalMode;
  allowlist_enabled : option bool;
  min_after : option Timestamp;
  max_after : option Timestamp;
}.

Record Storage := {
  contract_info : option ContractVersion;
  config : option Config;
  allowlist : gmap Addr u8;
  gateway_channel : option string;
  test_mode_next_after : option Timestamp;
}.

Definition CONTRACT_INFO : Item Storage ContractVersion := {|
  item_get := contract_info;
  item_set v s := Build_Storage v (config s) (allowlist s) (gateway_channel s)
    (test_mode_next_after s);
|}.
Definition CONFIG : Item Storage Config := {|
  item_get := config;
  item_set v s := Build_Storage (contract_info s) v (allowlist s) (gateway_channel s)
    (test_mode_next_after s);
|}.
Definition ALLOWLIST : Map Storage Addr u8 := {|
  map_get := allowlist;
  map_set v s := Build_Storage (contract_info s) (config s) v (gateway_channel s)
    (test_mode_next_after s);
|}.
Definition ALLOWLIST_MARKER : u8 := 1.
Definition GATEWAY_CHANNEL : Item Storage string := {|
  item_get := gateway_channel;
  item_set v s := Build_Storage (contract_info s) (config s) (allowlist s) v
    (test_mode_next_after s);
|}.
Definition TEST_MODE_NEXT_AFTER : Item Storage Timestamp := {|
  item_get := test_mode_next_after;
  item_set v s := Build_Storage (contract_info s) (config s) (allowlist s) (gateway_channel s) v;
|}.
Definition TEST_MODE_NEXT_AFTER_INIT : Timestamp := from_nanos (1677687597000000000 - 1).
Definition TEST_MODE_NEXT_AFTER_INCREMENT_SECONDS : u64 := 30.

(** ** Messages (msg.rs) *)

Record InstantiateMsg := {
  msg_prices : list Coin;
  msg_manager : option string;
  msg_test_mode : option bool;
  msg_callback_gas_limit : u64;
  msg_mode : OperationalMode;
  msg_allowlist_enabled : option bool;
  msg_allowlist : option (list string);
}.

Inductive ExecuteMsg :=
  | ExecuteMsg_GetNextRandomness (job_id : string)
  | ExecuteMsg_GetRandomnessAfter (after : Timestamp) (job_id : string)
  | ExecuteMsg_SetConfig (manager : option string) (prices : option (list Coin))
      (payment : option string) (nois_beacon_price : option Uint128)
      (callback_gas_limit : option u64) (mode : option OperationalMode)
      (allowlist_enabled : option bool) (min_after max_after : option Timestamp)
  | ExecuteMsg_Withdraw (denom : string) (amount : option Uint128) (address : string)
  | ExecuteMsg_UpdateAllowlist (add remove : list string).

(** [From<ProxyExecuteMsg> for ExecuteMsg] *)
Definition ExecuteMsg_from (source : ProxyExecuteMsg) : ExecuteMsg :=
  match source with
  | ProxyExecuteMsg_GetNextRandomness job_id => ExecuteMsg_GetNextRandomness job_id
  | ProxyExecuteMsg_GetRandomnessAfter after job_id => ExecuteMsg_GetRandomnessAfter after job_id
  end.

Inductive SudoMsg :=
  | SudoMsg_Withdraw (denom : string) (amount : option Uint128) (address : string)
  | SudoMsg_WithdrawToCommunityPool (denom : string) (amount : option Uint128)
  | SudoMsg_SetConfig (manager : option string) (prices : option (list Coin))
      (payment : option string) (nois_beacon_price : option Uint128)
      (callback_gas_limit : option u64) (mode : option OperationalMode)
      (allowlist_enabled : option bool) (min_after max_after : option Timestamp).

Inductive QueryMsg :=
  | QueryMsg_Config
  | QueryMsg_Prices
  | QueryMsg_Price (denom : string)
  | QueryMsg_GatewayChannel
  | QueryMsg_Allowlist
  | QueryMsg_IsAllowlisted (address : string).

Record ConfigResponse := { response_config : Config }.
Record PricesResponse := { response_prices : list Coin }.
Record PriceResponse := { response_price : option Uint128 }.
Record GatewayChannelResponse := { response_channel : option string }.
Record AllowlistResponse := { allowed : list string }.
Record IsAllowlistedResponse := { listed : bool }.

(** Where the answer has to go; the gateway passes it along unread. *)
Record RequestBeaconOrigin := { origin_sender : string; origin_job_id : string }.

(** ** Checks of a request (jobs.rs, publish_time.rs) *)

Definition validate_job_id `{Nois} (job_id : string) : outcome ContractError unit :=
  if MAX_JOB_ID_LEN <? len job_id then Err ContractError_JobIdTooLong else Ok tt.

(** [BTreeMap::from_iter]: a later entry replaces an earlier one. *)
Definition price_map (prices : list Coin) : gmap string Uint128 :=
  foldl (λ m c, <[denom c := amount c]> m) ∅ prices.

Definition validate_payment (prices funds : list Coin) : outcome ContractError unit :=
  match prices with
  | [] => Err ContractError_NoPaymentOption
  | _ =>
      let prices := price_map prices in
      if existsb (λ fund,
           match prices !! denom fund with
           | Some price => price <=? amount fund
           | None => false
           end) funds
      then Ok tt else Err ContractError_InsufficientPayment
  end.

Definition SAFETY_MARGIN : u64 := 5000000000.

Inductive AfterMode := AfterMode_Test | AfterMode_BlockTime (bt : Timestamp).

Definition calculate_after {E} (mode : AfterMode) : M Storage E Timestamp :=
  match mode with
  | AfterMode_Test =>
      stored ← may_load TEST_MODE_NEXT_AFTER;
      let after := unwrap_or TEST_MODE_NEXT_AFTER_INIT stored in
      next ← lift (plus_seconds after TEST_MODE_NEXT_AFTER_INCREMENT_SECONDS);
      save TEST_MODE_NEXT_AFTER next ;;
      mret after
  | AfterMode_BlockTime bt => lift (plus_nanos bt SAFETY_MARGIN)
  end.

(** ** The contract (contract.rs) *)

Definition REPLAY_ID_CALLBACK : u64 := 456.
Definition TEN_YEARS_S : u64 := 10 * 3600 * 24 * 365.
Definition MIN_AFTER_FALLBACK : Timestamp := from_seconds 1680015600.
Definition MAX_AFTER_FALLBACK : Timestamp := MIN_AFTER_FALLBACK + TEN_YEARS_S * nanos_per_second.
Definition CARGO_PKG_NAME : string := "nois-proxy".
Definition CARGO_PKG_VERSION : string := "0.15.4".

Definition bool_to_string (b : bool) : string := if b then "true" else "false".

Section contract.
Context `{Display} `{Anybuf} `{Nois} `{Json InPacket} `{Json InPacketAck} `{Json OutPacket}
  `{Json OutPacketAck} `{Json StdAck} `{Json RequestBeaconOrigin}
  `{Json ReceiverExecuteMsg}.

Definition instantiate (deps : Deps) (env : Env) (info : MessageInfo) (msg : InstantiateMsg) :
    M Storage StdError Response :=
  manager ←
    match msg_manager msg with
    | Some ma => a ← addr_validate deps ma; mret (Some a)
    | None => mret None
    end;
  let test_mode := unwrap_or false (msg_test_mode msg) in
  let allowlist_enabled := unwrap_or false (msg_allowlist_enabled msg) in
  let allowlist := unwrap_or [] (msg_allowlist msg) in
  max_after ← lift (plus_seconds (block_time env) TEN_YEARS_S);
  save CONFIG {|
    prices := msg_prices msg; Proxy.manager := manager; Proxy.test_mode := test_mode;
    callback_gas_limit := msg_callback_gas_limit msg; payment := None;
    nois_beacon_price := 0; nois_beacon_price_updated := from_seconds 0;
    mode := msg_mode msg; Proxy.allowlist_enabled := Some allowlist_enabled;
    min_after := Some (block_time env); Proxy.max_after := Some max_after |} ;;
  for_each (λ addr, a ← addr_validate deps addr; map_save ALLOWLIST a ALLOWLIST_MARKER)
    allowlist ;;
  set_contract_version CONTRACT_INFO CARGO_PKG_NAME CARGO_PKG_VERSION ;;
  mret (Response_new
    |> add_attribute ATTR_ACTION "instantiate"
    |> add_attribute "test_mode" (bool_to_string test_mode)).

Definition migrate (deps : Deps) (env : Env) : M Storage StdError Response :=
  config ← load CONFIG;
  let min_after :=
    match min_after config with Some t => Some t | None => Some (block_time env) end in
  max_after ←
    match max_after config with
    | Some t => mret (Some t)
    | None => t ← lift (plus_seconds (block_time env) TEN_YEARS_S); mret (Some t)
    end;
  let allowlist_enabled :=
    match allowlist_enabled config with Some b => Some b | None => Some false end in
  save CONFIG {|
    prices := prices config; manager := manager config; test_mode := test_mode config;
    callback_gas_limit := callback_gas_limit config; payment := payment config;
    nois_beacon_price := nois_beacon_price config;
    nois_beacon_price_updated := nois_beacon_price_updated config; mode := mode config;
    Proxy.allowlist_enabled := allowlist_enabled; Proxy.min_after := min_after;
    Proxy.max_after := max_after |} ;;
  set_contract_version CONTRACT_INFO CARGO_PKG_NAME CARGO_PKG_VERSION ;;
  mret (Response_new |> add_attribute ATTR_ACTION "migrate").

Definition get_gateway_channel : M Storage ContractError string :=
  data ← may_load GATEWAY_CHANNEL;
  match data with
  | Some d => mret d
  | None => fail ContractError_UnsetChannel
  end.

Definition execute_get_randomness_impl (deps : Deps) (env : Env) (info : MessageInfo)
    (action : string) (config : Config) (after : Timestamp) (job_id : string) :
    M Storage ContractError Response :=
  lift (validate_job_id job_id) ;;
  lift (validate_payment (prices config) (funds info)) ;;
  let allowlist_enabled := unwrap_or false (allowlist_enabled config) in
  listed ← map_has ALLOWLIST (sender info);
  ensure (negb (allowlist_enabled && negb listed)) ContractError_SenderNotAllowed ;;
  let min_after := unwrap_or MIN_AFTER_FALLBACK (min_after config) in
  ensure (negb (after <? min_after)) (ContractError_AfterTooLow min_after after) ;;
  let max_after := unwrap_or MAX_AFTER_FALLBACK (max_after config) in
  ensure (negb (max_after <? after)) (ContractError_AfterTooHigh max_after after) ;;
  origin ← std (to_json_binary {| origin_sender := sender info; origin_job_id := job_id |});
  let packet := InPacket_RequestBeacon after origin in
  channel_id ← get_gateway_channel;
  msgs ←
    match mode config, payment config with
    | OperationalMode_IbcPay unois_denom, Some payment_contract =>
        if negb (nois_beacon_price config =? 0) then
          timeout ← lift (plus_seconds (block_time env) TRANSFER_PACKET_LIFETIME);
          mret [CosmosMsg_Ibc (IbcMsg_Transfer (ics20_channel unois_denom) payment_contract
            (coin (nois_beacon_price config) (ibc_denom unois_denom)) timeout None)]
        else mret []
    | _, _ => mret []
    end;
  data ← std (to_json_binary packet);
  timeout ← lift (plus_seconds (block_time env) REQUEST_BEACON_PACKET_LIFETIME);
  let msgs := msgs ++ [CosmosMsg_Ibc (IbcMsg_SendPacket channel_id data timeout)] in
  mret (Response_new
    |> add_messages msgs
    |> add_attribute ATTR_ACTION action).

Definition execute_get_next_randomness (deps : Deps) (env : Env) (info : MessageInfo)
    (job_id : string) : M Storage ContractError Response :=
  config ← load CONFIG;
  let mode := if test_mode config then AfterMode_Test else AfterMode_BlockTime (block_time env) in
  after ← calculate_after mode;
  execute_get_randomness_impl deps env info "execute_get_next_randomness" config after job_id.

Definition execute_get_randomness_after (deps : Deps) (env : Env) (info : MessageInfo)
    (after : Timestamp) (job_id : string) : M Storage ContractError Response :=
  config ← load CONFIG;
  execute_get_randomness_impl deps env info "execute_get_randomness_after" config after job_id.

(** The check shared by the operations of the manager. *)
Definition ensure_manager (info : MessageInfo) : M Storage ContractError unit :=
  config ← load CONFIG;
  required_sender ← lift (ok_or (manager config) ContractError_Unauthorized);
  ensure (bool_decide (sender info = required_sender)) ContractError_Unauthorized.

Definition set_config_unchecked (deps : Deps) (env : Env) (action : string)
    (manager_ : option string) (prices_ : option (list Coin)) (payment_ : option string)
    (nois_beacon_price_ : option Uint128) (callback_gas_limit_ : option u64)
    (mode_ : option OperationalMode) (allowlist_enabled_ : option bool)
    (min_after_ max_after_ : option Timestamp) : M Storage ContractError Response :=
  config ← load CONFIG;
  manager ←
    match manager_ with
    | Some ma => a ← addr_validate deps ma; mret (Some a)
    | None => mret (manager config)
    end;
  let payment := match payment_ with Some pa => Some pa | None => payment config end in
  let '(beacon_price, beacon_price_updated) :=
    match nois_beacon_price_ with
    | Some bp => (bp, block_time env)
    | None => (nois_beacon_price config, nois_beacon_price_updated config)
    end in
  let current_allowlist_enabled := unwrap_or false (allowlist_enabled config) in
  let allowlist_enabled := unwrap_or current_allowlist_enabled allowlist_enabled_ in
  let min_after := match min_after_ with Some t => Some t | None => min_after config end in
  let max_after := match max_after_ with Some t => Some t | None => max_after config end in
  save CONFIG {|
    prices := unwrap_or (prices config) prices_; Proxy.manager := manager;
    test_mode := test_mode config;
    callback_gas_limit := unwrap_or (callback_gas_limit config) callback_gas_limit_;
    Proxy.payment := payment; nois_beacon_price := beacon_price;
    nois_beacon_price_updated := beacon_price_updated; mode := unwrap_or (mode config) mode_;
    Proxy.allowlist_enabled := Some allowlist_enabled; Proxy.min_after := min_after;
    Proxy.max_after := max_after |} ;;
  mret (Response_new |> add_attribute ATTR_ACTION action).

Definition execute_set_config (deps : Deps) (info : MessageInfo) (env : Env)
    (manager : option string) (prices : option (list Coin)) (payment : option string)
    (nois_beacon_price : option Uint128) (callback_gas_limit : option u64)
    (mode : option OperationalMode) (allowlist_enabled : option bool)
    (min_after max_after : option Timestamp) : M Storage ContractError Response :=
  ensure_manager info ;;
  set_config_unchecked deps env "execute_set_config" manager prices payment nois_beacon_price
    callback_gas_limit mode allowlist_enabled min_after max_after.

Definition withdraw_unchecked (deps : Deps) (env : Env) (action denom : string)
    (amount_ : option Uint128) (address : string) : M Storage ContractError Response :=
  address ← addr_validate deps address;
  amount ←
    match amount_ with
    | Some amount => mret (coin amount denom)
    | None => query_balance deps (contract_address env) denom
    end;
  mret (Response_new
    |> add_message (CosmosMsg_Bank (BankMsg_Send address [amount]))
    |> add_attribute ATTR_ACTION action
    |> add_attribute "amount" (show_coin amount)).

Definition execute_withdraw (deps : Deps) (env : Env) (info : MessageInfo) (denom : string)
    (amount : option Uint128) (address : string) : M Storage ContractError Response :=
  ensure_manager info ;;
  withdraw_unchecked deps env "execute_withdraw" denom amount address.

Definition encode_msg_fund_community_pool (amt : Coin) (depositor : Addr) : Binary :=
  let coin := Anybuf_new
    |> append_string 1 (denom amt)
    |> append_string 2 (pretty (amount amt)) in
  Anybuf_new
    |> append_message 1 coin
    |> append_string 2 depositor.

Definition withdraw_to_community_pool_unchecked (deps : Deps) (env : Env)
    (action denom : string) (amount_ : option Uint128) : M Storage ContractError Response :=
  amount ←
    match amount_ with
    | Some amount => mret (coin amount denom)
    | None => query_balance deps (contract_address env) denom
    end;
  mret (Response_new
    |> add_message (CosmosMsg_Stargate "/cosmos.distribution.v1beta1.MsgFundCommunityPool"
         (encode_msg_fund_community_pool amount (contract_address env)))
    |> add_attribute ATTR_ACTION action
    |> add_attribute "amount" (show_coin amount)).

Definition update_allowlist_unchecked (deps : Deps) (add_addresses remove_addresses : list string) :
    M Storage ContractError unit :=
  for_each (λ addr, a ← addr_validate deps addr; map_save ALLOWLIST a ALLOWLIST_MARKER)
    add_addresses ;;
  for_each (λ addr, a ← addr_validate deps addr; map_remove ALLOWLIST a) remove_addresses.

Definition execute_update_allowlist (deps : Deps) (env : Env) (info : MessageInfo)
    (add_addresses remove_addresses : list string) : M Storage ContractError Response :=
  ensure_manager info ;;
  update_allowlist_unchecked deps add_addresses remove_addresses ;;
  mret (Response_new |> add_attribute ATTR_ACTION "execute_update_allowlist").

Definition execute (deps : Deps) (env : Env) (info : MessageInfo) (msg : ExecuteMsg) :
    M Storage ContractError Response :=
  match msg with
  | ExecuteMsg_GetNextRandomness job_id => execute_get_next_randomness deps env info job_id
  | ExecuteMsg_SetConfig manager prices payment nois_beacon_price callback_gas_limit mode
      allowlist_enabled min_after max_after =>
      execute_set_config deps info env manager prices payment nois_beacon_price
        callback_gas_limit mode allowlist_enabled min_after max_after
  | ExecuteMsg_GetRandomnessAfter after job_id =>
      execute_get_randomness_after deps env info after job_id
  | ExecuteMsg_Withdraw denom amount address =>
      execute_withdraw deps env info denom amount address
  | ExecuteMsg_UpdateAllowlist add remove => execute_update_allowlist deps env info add remove
  end.

(** *** Governance *)

Definition sudo_withdraw (deps : Deps) (env : Env) (denom : string) (amount : option Uint128)
    (address : string) : M Storage ContractError Response :=
  withdraw_unchecked deps env "sudo_withdraw" denom amount address.

Definition sudo_withdraw_to_community_pool (deps : Deps) (env : Env) (denom : string)
    (amount : option Uint128) : M Storage ContractError Response :=
  withdraw_to_community_pool_unchecked deps env "sudo_withdraw_to_community_pool" denom amount.

Definition sudo_set_config (deps : Deps) (env : Env)
    (manager : option string) (prices : option (list Coin)) (payment : option string)
    (nois_beacon_price : option Uint128) (callback_gas_limit : option u64)
    (mode : option OperationalMode) (allowlist_enabled : option bool)
    (min_after max_after : option Timestamp) : M Storage ContractError Response :=
  set_config_unchecked deps env "sudo_set_config" manager prices payment nois_beacon_price
    callback_gas_limit mode allowlist_enabled min_after max_after.

Definition sudo (deps : Deps) (env : Env) (msg : SudoMsg) : M Storage ContractError Response :=
  match msg with
  | SudoMsg_Withdraw denom amount address => sudo_withdraw deps env denom amount address
  | SudoMsg_WithdrawToCommunityPool denom amount =>
      sudo_withdraw_to_community_pool deps env denom amount
  | SudoMsg_SetConfig manager prices payment nois_beacon_price callback_gas_limit mode
      allowlist_enabled min_after max_after =>
      sudo_set_config deps env manager prices payment nois_beacon_price callback_gas_limit
        mode allowlist_enabled min_after max_after
  end.

(** *** Callbacks *)

Definition reply (deps : Deps) (env : Env) (reply : Reply) : M Storage ContractError Response :=
  if reply_id reply =? REPLAY_ID_CALLBACK then
    let attributes :=
      match reply_result reply with
      | SubMsgResult_Ok => [attr ATTR_CALLBACK_SUCCESS "true"]
      | SubMsgResult_Err err_msg =>
          [attr ATTR_CALLBACK_SUCCESS "false"; attr ATTR_CALLBACK_ERROR_MSG err_msg]
      end in
    mret (Response_new
      |> add_event {| event_type := EVENT_TYPE_CALLBACK; event_attributes := attributes |})
  else fail (ContractError_UnknownReplyId (reply_id reply)).

(** *** Queries *)

Definition query_config (deps : Deps) : M Storage StdError ConfigResponse :=
  config ← load CONFIG;
  mret {| response_config := config |}.

Definition query_prices (deps : Deps) : M Storage StdError PricesResponse :=
  config ← load CONFIG;
  mret {| response_prices := prices config |}.

Definition query_price (deps : Deps) (denom : string) : M Storage StdError PriceResponse :=
  config ← load CONFIG;
  let price :=
    amount <$> List.find (λ price, bool_decide (CosmWasm.denom price = denom)) (prices config) in
  mret {| response_price := price |}.

Definition query_gateway_channel (deps : Deps) : M Storage StdError GatewayChannelResponse :=
  channel ← may_load GATEWAY_CHANNEL;
  mret {| response_channel := channel |}.

Definition query_allowlist (deps : Deps) : M Storage StdError AllowlistResponse :=
  rows ← range ALLOWLIST None None Order_Ascending;
  mret {| allowed := rows.*1 |}.

Definition query_is_allowlisted (deps : Deps) (addr : string) :
    M Storage StdError IsAllowlistedResponse :=
  addr ← addr_validate deps addr;
  listed ← map_has ALLOWLIST addr;
  mret {| listed := listed |}.

Definition query `{Json ConfigResponse} `{Json PricesResponse} `{Json PriceResponse}
    `{Json GatewayChannelResponse} `{Json AllowlistResponse} `{Json IsAllowlistedResponse}
    (deps : Deps) (env : Env) (msg : QueryMsg) : M Storage StdError Binary :=
  match msg with
  | QueryMsg_Config => r ← query_config deps; std (to_json_binary r)
  | QueryMsg_Prices => r ← query_prices deps; std (to_json_binary r)
  | QueryMsg_Price denom => r ← query_price deps denom; std (to_json_binary r)
  | QueryMsg_GatewayChannel => r ← query_gateway_channel deps; std (to_json_binary r)
  | QueryMsg_Allowlist => r ← query_allowlist deps; std (to_json_binary r)
  | QueryMsg_IsAllowlisted address => r ← query_is_allowlisted deps address; std (to_json_binary r)
  end.

(** *** IBC entry points *)

(** [None]: the proxy proposes no version of its own. *)
Definition ibc_channel_open (deps : Deps) (env : Env) (msg : IbcChannelOpenMsg) :
    M Storage ContractError (option string) :=
  channel ←
    match msg with
    | IbcChannelOpenMsg_OpenInit channel => mret channel
    | IbcChannelOpenMsg_OpenTry _ _ => fail ContractError_MustBeChainA
    end;
  lift (map_err ContractError_ChannelError (check_order (order channel))) ;;
  lift (map_err ContractError_ChannelError (check_version (version channel))) ;;
  mret None.

Definition ibc_channel_connect (deps : Deps) (env : Env) (msg : IbcChannelConnectMsg) :
    M Storage ContractError IbcBasicResponse :=
  channel ←
    match msg with
    | IbcChannelConnectMsg_OpenAck channel _ => mret channel
    | IbcChannelConnectMsg_OpenConfirm _ => fail ContractError_MustBeChainA
    end;
  let channel_id := endpoint_channel_id channel in
  exists_already ← is_set GATEWAY_CHANNEL;
  ensure (negb exists_already) ContractError_ChannelAlreadySet ;;
  save GATEWAY_CHANNEL channel_id ;;
  mret (Response_new
    |> add_attribute ATTR_ACTION "ibc_channel_connect"
    |> add_attribute "channel_id" channel_id).

Definition ibc_channel_close (deps : Deps) (env : Env) (msg : IbcChannelCloseMsg) :
    M Storage ContractError IbcBasicResponse :=
  match msg with
  | IbcChannelCloseMsg_CloseInit _ => fail ContractError_ChannelMustNotBeClosed
  | IbcChannelCloseMsg_CloseConfirm channel =>
      remove GATEWAY_CHANNEL ;;
      mret (Response_new
        |> add_attribute ATTR_ACTION "ibc_channel_close"
        |> add_attribute "channel_id" (endpoint_channel_id channel))
  end.

Definition receive_deliver_beacon (published : Timestamp) (randomness : HexBinary)
    (origin : Binary) : M Storage ContractError IbcReceiveResponse :=
  config ← load CONFIG;
  o ← std (from_json origin);
  callback ← std (to_json_binary (ReceiverExecuteMsg_NoisReceive {|
    callback_job_id := origin_job_id o; callback_published := published;
    callback_randomness := randomness |}));
  let msg :=
    SubMsg_reply_on_error (CosmosMsg_Wasm (WasmMsg_Execute (origin_sender o) callback []))
      REPLAY_ID_CALLBACK
    |> with_gas_limit (callback_gas_limit config) in
  ack ← std (to_json_binary OutPacketAck_DeliverBeacon);
  mret {| acknowledgement := StdAck_Success ack;
          response := Response_new
            |> add_attribute ATTR_ACTION "receive_deliver_beacon"
            |> add_attribute "job_id" (origin_job_id o)
            |> add_submessage msg |}.

Definition receive_welcome (env : Env) (payment : string) :
    M Storage ContractError IbcReceiveResponse :=
  config ← load CONFIG;
  save CONFIG {|
    prices := prices config; manager := manager config; test_mode := test_mode config;
    callback_gas_limit := callback_gas_limit config; Proxy.payment := Some payment;
    nois_beacon_price := nois_beacon_price config;
    nois_beacon_price_updated := nois_beacon_price_updated config; mode := mode config;
    allowlist_enabled := allowlist_enabled config; min_after := min_after config;
    max_after := max_after config |} ;;
  ack ← std (to_json_binary OutPacketAck_Welcome);
  mret {| acknowledgement := StdAck_Success ack;
          response := Response_new |> add_attribute ATTR_ACTION "receive_welcome" |}.

Definition update_nois_beacon_price (timestamp : Timestamp) (new_price : Uint128)
    (denom : string) : M Storage ContractError unit :=
  if bool_decide (denom ≠ "unois") then mret tt
  else
    config ← load CONFIG;
    if timestamp <? nois_beacon_price_updated config then mret tt
    else
      save CONFIG {|
        prices := prices config; manager := manager config; test_mode := test_mode config;
        callback_gas_limit := callback_gas_limit config; payment := payment config;
        nois_beacon_price := new_price; nois_beacon_price_updated := timestamp;
        mode := mode config; allowlist_enabled := allowlist_enabled config;
        min_after := min_after config; max_after := max_after config |}.

Definition receive_push_beacon_price (env : Env) (timestamp : Timestamp) (amount : Uint128)
    (denom : string) : M Storage ContractError IbcReceiveResponse :=
  update_nois_beacon_price timestamp amount denom ;;
  ack ← std (to_json_binary OutPacketAck_PushBeaconPrice);
  mret {| acknowledgement := StdAck_Success ack;
          response := Response_new |> add_attribute ATTR_ACTION "receive_push_beacon_price" |}.

Definition ibc_packet_receive (deps : Deps) (env : Env) (msg : IbcPacketReceiveMsg) :
    M Storage Never IbcReceiveResponse :=
  or_else_ack ContractError_display (
    op ← std (from_json (packet_data msg));
    match op with
    | OutPacket_DeliverBeacon _ published randomness origin =>
        receive_deliver_beacon published randomness origin
    | OutPacket_Welcome payment => receive_welcome env payment
    | OutPacket_PushBeaconPrice timestamp amount denom =>
        receive_push_beacon_price env timestamp amount denom
    end).

Definition ibc_packet_ack (deps : Deps) (env : Env) (msg : IbcPacketAckMsg) :
    M Storage ContractError IbcBasicResponse :=
  let attributes := [attr ATTR_ACTION "ibc_packet_ack"] in
  ack ← std (from_json (acknowledgement_data msg));
  '(is_error, attributes) ←
    match ack with
    | StdAck_Success data =>
        response ← std (from_json data);
        ack_type ←
          match response with
          | InPacketAck_RequestProcessed _ => mret "request_processed"
          | InPacketAck_RequestQueued _ => mret "request_queued"
          | InPacketAck_PullBeaconPrice timestamp amount denom =>
              update_nois_beacon_price timestamp amount denom ;;
              mret "beacon_price"
          end;
        mret ("false", attributes ++ [attr "ack_type" ack_type])
    | StdAck_Error err => mret ("true", attributes ++ [attr "error" err])
    end;
  mret (Response_new |> add_attributes (attributes ++ [attr "is_error" is_error])).

Definition ibc_packet_timeout (deps : Deps) (env : Env) : M Storage StdError IbcBasicResponse :=
  mret (Response_new |> add_attribute ATTR_ACTION "ibc_packet_timeout").

(** *** The contract as a transition system *)

Definition empty_storage : Storage := Build_Storage None None ∅ None None.

Inductive init : Storage → Prop :=
  | init_instantiate deps env info msg r s :
      instantiate deps env info msg empty_storage = (Ok r, s) → init s.

(** The entry points, with who triggers a transaction. *)
Inductive trigger :=
  | By_account (sender : Addr)
  | By_governance
  | By_migration
  | By_relayer.

Inductive call (s : Storage) : trigger → list SubMsg → Storage → Prop :=
  | call_execute deps env info msg r s' :
      execute deps env info msg s = (Ok r, s') →
      call s (By_account (CosmWasm.sender info)) (messages r) s'
  | call_sudo deps env msg r s' :
      sudo deps env msg s = (Ok r, s') → call s By_governance (messages r) s'
  | call_migrate deps env r s' :
      migrate deps env s = (Ok r, s') → call s By_migration (messages r) s'
  | call_reply deps env rp r s' :
      reply deps env rp s = (Ok r, s') → call s By_relayer (messages r) s'
  | call_channel_connect deps env msg r s' :
      ibc_channel_connect deps env msg s = (Ok r, s') → call s By_relayer (messages r) s'
  | call_channel_close deps env msg r s' :
      ibc_channel_close deps env msg s = (Ok r, s') → call s By_relayer (messages r) s'
  | call_packet_receive deps env msg r s' :
      ibc_packet_receive deps env msg s = (Ok r, s') →
      call s By_relayer (messages (response r)) s'
  | call_packet_ack deps env msg r s' :
      ibc_packet_ack deps env msg s = (Ok r, s') → call s By_relayer (messages r) s'
  | call_packet_timeout deps env r s' :
      ibc_packet_timeout deps env s = (Ok r, s') → call s By_relayer (messages r) s'.

Definition step (s s' : Storage) : Prop := ∃ who msgs, call s who msgs s'.
End contract.

(** ** Lemmas *)

Ltac simpl_proxy :=
  cbn [map_get map_set item_get item_set CONTRACT_INFO CONFIG ALLOWLIST GATEWAY_CHANNEL
    TEST_MODE_NEXT_AFTER contract_info config allowlist gateway_channel
    test_mode_next_after] in *.

(** One of the coins sent covers the price in its denom. *)
Definition paid (prices funds : list Coin) : Prop :=
  ∃ fund price, fund ∈ funds ∧ price_map prices !! denom fund = Some price ∧ price ≤ amount fund.

Lemma validate_payment_ok prices funds r : validate_payment prices funds = Ok r → paid prices funds.
Proof.
  unfold validate_payment, paid. destruct prices as [|p ps]; [done|].
  set (m := price_map (p :: ps)). destruct (existsb _ funds) eqn:He; [|done]. intros _.
  apply existsb_exists in He as (fund & Hin & Hp). apply list_elem_of_In in Hin.
  destruct (m !! denom fund) as [price|] eqn:Hm; [|done].
  exists fund, price. by split_and!; [| |apply N.leb_le].
Qed.

Lemma validate_payment_run prices funds :
  validate_payment prices funds =
  match prices with
  | [] => Err ContractError_NoPaymentOption
  | _ => if existsb (λ fund, match price_map prices !! denom fund with
                             | Some price => price <=? amount fund
                             | None => false end) funds
         then Ok tt else Err ContractError_InsufficientPayment
  end.
Proof. by destruct prices. Qed.

Section requests.
Context `{Display} `{Anybuf} `{Nois} `{Json InPacket} `{Json InPacketAck} `{Json OutPacket}
  `{Json OutPacketAck} `{Json StdAck} `{Json RequestBeaconOrigin}
  `{Json ReceiverExecuteMsg}.
Implicit Types s : Storage.

(** The transfer that pays the beacon on the Nois chain, if there is one. *)
Definition transfer_part (env : Env) (cfg : Config) : list CosmosMsg :=
  match mode cfg, payment cfg with
  | OperationalMode_IbcPay d, Some p =>
      if nois_beacon_price cfg =? 0 then []
      else [CosmosMsg_Ibc (IbcMsg_Transfer (ics20_channel d) p
              (coin (nois_beacon_price cfg) (ibc_denom d))
              (block_time env + TRANSFER_PACKET_LIFETIME * nanos_per_second) None)]
  | _, _ => []
  end.

(** The checks a request has to pass. *)
Definition request_allowed (info : MessageInfo) (cfg : Config) (after : Timestamp)
    (job_id : string) (s : Storage) : Prop :=
  len job_id ≤ MAX_JOB_ID_LEN ∧ paid (prices cfg) (funds info) ∧
  (allowlist_enabled cfg = Some true → is_Some (allowlist s !! sender info)) ∧
  unwrap_or MIN_AFTER_FALLBACK (min_after cfg) ≤ after ≤
    unwrap_or MAX_AFTER_FALLBACK (max_after cfg).

(** The messages of a request: the transfer and the packet for the gateway. *)
Definition request_sent (env : Env) (info : MessageInfo) (cfg : Config) (after : Timestamp)
    (job_id : string) (s : Storage) (msgs : list SubMsg) : Prop :=
  ∃ channel_id origin data, gateway_channel s = Some channel_id ∧
    to_json_binary {| origin_sender := sender info; origin_job_id := job_id |} = Ok origin ∧
    to_json_binary (InPacket_RequestBeacon after origin) = Ok data ∧
    msgs = SubMsg_new <$> transfer_part env cfg ++
      [CosmosMsg_Ibc (IbcMsg_SendPacket channel_id data
        (block_time env + REQUEST_BEACON_PACKET_LIFETIME * nanos_per_second))].

Lemma transfer_ok {E} env cfg s x s1 :
  (match mode cfg, payment cfg with
   | OperationalMode_IbcPay unois_denom, Some payment_contract =>
       if negb (nois_beacon_price cfg =? 0) then
         timeout ← lift (plus_seconds (block_time env) TRANSFER_PACKET_LIFETIME);
         mret [CosmosMsg_Ibc (IbcMsg_Transfer (ics20_channel unois_denom) payment_contract
           (coin (nois_beacon_price cfg) (ibc_denom unois_denom)) timeout None)]
       else mret []
   | _, _ => mret []
   end : M Storage E (list CosmosMsg)) s = (Ok x, s1) →
  s1 = s ∧ x = transfer_part env cfg.
Proof.
  unfold transfer_part. destruct (mode cfg), (payment cfg); intros Hrun; inv_run; try done.
  destruct (_ =? _); simpl in *; by inv_run.
Qed.

Lemma get_gateway_channel_ok s x s1 :
  get_gateway_channel s = (Ok x, s1) → s1 = s ∧ gateway_channel s = Some x.
Proof.
  unfold get_gateway_channel. intros Hrun. inv_run. simpl_proxy.
  destruct (gateway_channel s); by inv_run.
Qed.

Lemma get_randomness_impl_ok deps env info action cfg after job_id s r s' :
  execute_get_randomness_impl deps env info action cfg after job_id s = (Ok r, s') →
  s' = s ∧ request_allowed info cfg after job_id s ∧
  request_sent env info cfg after job_id s (messages r).
Proof.
  unfold execute_get_randomness_impl, validate_job_id. intros Hrun. inv_run.
  match goal with H : (if _ then _ else _) = Ok _ |- _ =>
    destruct (N.ltb_spec MAX_JOB_ID_LEN (len job_id)); [done|clear H] end.
  match goal with H : validate_payment _ _ = _ |- _ => apply validate_payment_ok in H end.
  match goal with H : get_gateway_channel _ = _ |- _ =>
    apply get_gateway_channel_ok in H as (-> & Hchan) end.
  match goal with H : match mode cfg with _ => _ end _ = _ |- _ =>
    apply transfer_ok in H as (-> & ->) end.
  simpl_proxy. split_and!; [done| |].
  - unfold request_allowed. split_and!; try done.
    intros Hen. rewrite Hen in *. simpl in *.
    match goal with H : negb (bool_decide _) = _ |- _ => inv_run end. done.
  - do 3 eexists. split_and!; try done; eassumption.
Qed.
End requests.

(** *** Test mode *)

Definition test_after (k : N) : N := TEST_MODE_NEXT_AFTER_INIT + k * 30000000000.

Lemma test_after_round k : next_round (test_after k) = 800 + 10 * k.
Proof.
  unfold next_round, test_after, TEST_MODE_NEXT_AFTER_INIT, from_nanos.
  change DRAND_GENESIS with 1677685200000000000. change DRAND_ROUND_LENGTH with 3000000000.
  destruct (N.ltb_spec (1677687597000000000 - 1 + k * 30000000000) 1677685200000000000); [lia|].
  replace (1677687597000000000 - 1 + k * 30000000000 - 1677685200000000000)
    with ((798 + 10 * k) * 3000000000 + 2999999999) by lia.
  rewrite N.div_add_l, N.div_small by lia. lia.
Qed.

(** The after values of [n] consecutive requests in test mode. *)
Fixpoint test_requests {E} (n : nat) : M Storage E (list Timestamp) :=
  match n with
  | O => mret []
  | S n => t ← calculate_after AfterMode_Test; ts ← test_requests n; mret (t :: ts)
  end.

Lemma test_requests_run {E} n k s :
  unwrap_or TEST_MODE_NEXT_AFTER_INIT (test_mode_next_after s) = test_after k →
  test_after (k + N.of_nat n) ≤ umax 64 →
  ((test_requests n : M Storage E _) s).1 = Ok (test_after <$> seqN k n).
Proof.
  revert k s. induction n as [|n IH]; intros k s Hs Hmax; [done|].
  assert (test_after k + 30000000000 = test_after (k + 1)) as Hnext by (unfold test_after; lia).
  assert (test_after (k + 1) ≤ umax 64) as Hle.
  { etrans; [|exact Hmax]. unfold test_after. lia. }
  specialize (IH (k + 1) (item_set TEST_MODE_NEXT_AFTER (Some (test_after (k + 1))) s)).
  cbn [test_requests]. unfold calculate_after. rewrite !M_bind_assoc.
  erewrite M_bind_run by done. rewrite M_bind_assoc.
  erewrite M_bind_run.
  2: { unfold lift, plus_seconds, uadd. simpl_proxy. rewrite Hs. rewrite checked_le; [done|].
       change (TEST_MODE_NEXT_AFTER_INCREMENT_SECONDS * nanos_per_second) with 30000000000. lia. }
  change (TEST_MODE_NEXT_AFTER_INCREMENT_SECONDS * nanos_per_second) with 30000000000.
  rewrite Hnext, M_bind_assoc. erewrite M_bind_run by done. erewrite M_bind_run by done.
  simpl_proxy. rewrite Hs.
  unfold mbind, M_bind. destruct (test_requests n _) as [o s2]. simpl in IH. rewrite IH.
  - done.
  - done.
  - etrans; [|exact Hmax]. unfold test_after. lia.
Qed.

(** *** Prices of beacons *)

(** The configuration after a price message. *)
Definition price_updated (timestamp : Timestamp) (price : Uint128) (cfg : Config) : Config :=
  if timestamp <? nois_beacon_price_updated cfg then cfg
  else {|
    prices := prices cfg; manager := manager cfg; test_mode := test_mode cfg;
    callback_gas_limit := callback_gas_limit cfg; payment := payment cfg;
    nois_beacon_price := price; nois_beacon_price_updated := timestamp;
    mode := mode cfg; allowlist_enabled := allowlist_enabled cfg;
    min_after := min_after cfg; max_after := max_after cfg |}.

Lemma update_price_run timestamp price denom s cfg :
  config s = Some cfg →
  update_nois_beacon_price timestamp price denom s =
    (Ok tt, if bool_decide (denom = "unois")
            then item_set CONFIG (Some (price_updated timestamp price cfg)) s else s).
Proof.
  intros Hcfg. unfold update_nois_beacon_price, price_updated. rewrite bool_decide_not.
  case_bool_decide; [|done]. simpl. erewrite M_bind_run; [|by apply load_some].
  destruct (timestamp <? nois_beacon_price_updated cfg); [|done].
  destruct s. simpl in *. by subst.
Qed.

Lemma price_updated_commute t1 p1 t2 p2 cfg :
  t1 ≠ t2 →
  price_updated t1 p1 (price_updated t2 p2 cfg) = price_updated t2 p2 (price_updated t1 p1 cfg).
Proof.
  intros Hne. unfold price_updated.
  repeat match goal with
  | |- context [if ?a <? nois_beacon_price_updated (if ?b <? ?c then _ else _) then _ else _] =>
      destruct (N.ltb_spec b c)
  | |- context [if ?a <? ?b then _ else _] => destruct (N.ltb_spec a b); simpl in *
  end; try done; lia.
Qed.

(** *** Who controls what *)

(** The part of the state that belongs to the owner: everything in the
    configuration but the payment address and the beacon price, which the
    gateway sets, and the allowlist. *)
Definition owned (s : Storage) :=
  (allowlist s,
   (λ cfg, (prices cfg, manager cfg, test_mode cfg, callback_gas_limit cfg, mode cfg,
            allowlist_enabled cfg, min_after cfg, max_after cfg)) <$> config s).

(** Messages that can move funds of the proxy: all but calls of a contract with
    no funds attached and IBC packets. *)
Definition spends (m : CosmosMsg) : bool :=
  match m with
  | CosmosMsg_Wasm (WasmMsg_Execute _ _ []) | CosmosMsg_Ibc (IbcMsg_SendPacket _ _ _) => false
  | _ => true
  end.
Definition spent (msgs : list SubMsg) : list CosmosMsg := filter spends (sub_msg <$> msgs).

(** The payment of a beacon by a request: an ICS-20 transfer of exactly the price
    over the configured channel to the payment contract. *)
Definition pays_beacon (cfg : Config) (m : CosmosMsg) : Prop :=
  ∃ d p timeout, mode cfg = OperationalMode_IbcPay d ∧ payment cfg = Some p ∧
    m = CosmosMsg_Ibc (IbcMsg_Transfer (ics20_channel d) p
      (coin (nois_beacon_price cfg) (ibc_denom d)) timeout None).

(** Accounts other than the manager, and relayers, are not authorized. *)
Definition authorized (s : Storage) (who : trigger) : Prop :=
  match who with
  | By_account a => ∃ cfg, config s = Some cfg ∧ manager cfg = Some a
  | By_governance | By_migration => True
  | By_relayer => False
  end.

Section control.
Context `{Display} `{Anybuf} `{Nois} `{Json InPacket} `{Json InPacketAck} `{Json OutPacket}
  `{Json OutPacketAck} `{Json StdAck} `{Json RequestBeaconOrigin}
  `{Json ReceiverExecuteMsg}.
Implicit Types s : Storage.

Lemma ensure_manager_ok info s r s' :
  ensure_manager info s = (Ok r, s') → s' = s ∧ authorized s (By_account (sender info)).
Proof.
  unfold ensure_manager. intros Hrun. inv_run. simpl_proxy. split; [done|].
  eexists. split; [done|]. by match goal with H : sender info = _ |- _ => rewrite H end.
Qed.

Lemma preserves_update_price c t p d :
  preserves (λ s, owned s = c) (update_nois_beacon_price t p d).
Proof.
  intros s Hs. destruct (config s) as [cfg|] eqn:Hcfg.
  - rewrite (update_price_run _ _ _ _ _ Hcfg). simpl. case_bool_decide; [|done].
    rewrite <-Hs. unfold owned. simpl. rewrite Hcfg. simpl. unfold price_updated.
    by destruct (_ <? _).
  - unfold update_nois_beacon_price, load. case_bool_decide; [done|].
    unfold mbind, M_bind. simpl. by rewrite Hcfg.
Qed.

Lemma preserves_receive_welcome c env p :
  preserves (λ s, owned s = c) (receive_welcome env p).
Proof.
  apply preserves_load_then. intros cfg s Hs Hcfg.
  apply (preserves_after_write (λ s, owned s = c)).
  - rewrite <-Hs. unfold owned. simpl_proxy. by rewrite Hcfg.
  - preserve.
Qed.

Lemma preserves_ibc_packet_receive c deps env msg :
  preserves (λ s, owned s = c) (ibc_packet_receive deps env msg).
Proof.
  intros s Hs. unfold ibc_packet_receive, or_else_ack.
  match goal with |- context [match ?m s with _ => _ end] =>
    assert (preserves (λ s, owned s = c) m) as Hm end.
  { apply preserves_bind; [auto with preserves|]. intros [? ? ? ?|?|? ? ?].
    - unfold receive_deliver_beacon. preserve.
    - apply preserves_receive_welcome.
    - unfold receive_push_beacon_price.
      apply preserves_bind; [apply preserves_update_price|]. intros _. preserve. }
  specialize (Hm s Hs). by case_match; case_match.
Qed.

Lemma preserves_ibc_packet_ack c deps env msg :
  preserves (λ s, owned s = c) (ibc_packet_ack deps env msg).
Proof.
  unfold ibc_packet_ack. preserve. apply preserves_update_price.
Qed.

Lemma calculate_after_ok mode s after s' :
  (calculate_after mode : M Storage ContractError _) s = (Ok after, s') →
  owned s' = owned s ∧ gateway_channel s' = gateway_channel s ∧
  config s' = config s ∧ allowlist s' = allowlist s ∧
  match mode with
  | AfterMode_Test => after = unwrap_or TEST_MODE_NEXT_AFTER_INIT (test_mode_next_after s)
  | AfterMode_BlockTime bt =>
      after = bt + SAFETY_MARGIN ∧ s' = s ∧ bt + SAFETY_MARGIN ≤ umax 64
  end.
Proof.
  unfold calculate_after. destruct mode; intros Hrun; inv_run; [done|].
  unfold plus_nanos in *. by inv_run.
Qed.

Lemma get_next_randomness_ok deps env info job_id s r s' :
  execute_get_next_randomness deps env info job_id s = (Ok r, s') →
  ∃ cfg after, config s = Some cfg ∧
    after = (if test_mode cfg then unwrap_or TEST_MODE_NEXT_AFTER_INIT (test_mode_next_after s)
             else block_time env + SAFETY_MARGIN) ∧
    (test_mode cfg = false → s' = s ∧ block_time env + SAFETY_MARGIN ≤ umax 64) ∧
    owned s' = owned s ∧
    gateway_channel s' = gateway_channel s ∧
    request_allowed info cfg after job_id s ∧
    request_sent env info cfg after job_id s (messages r).
Proof.
  unfold execute_get_next_randomness. intros Hrun. inv_run. simpl_proxy.
  match goal with H : calculate_after _ _ = (Ok ?a, ?s1), H2 : config s = Some ?c |- _ =>
    exists c, a; apply calculate_after_ok in H as (Ho & Hg & Hc & Hal & Ha) end.
  match goal with H : execute_get_randomness_impl _ _ _ _ _ _ _ _ = _ |- _ =>
    apply get_randomness_impl_ok in H as (-> & Hallow & Hsent) end.
  unfold request_allowed, request_sent in *. rewrite Hal in Hallow. rewrite Hg in Hsent.
  split_and!; try done; try tauto.
  - destruct (test_mode _); tauto.
  - intros Hmode. rewrite Hmode in Ha. tauto.
Qed.

Lemma request_spends env info cfg after job_id s msgs :
  request_sent env info cfg after job_id s msgs →
  spent msgs = [] ∨ ∃ m, spent msgs = [m] ∧ pays_beacon cfg m.
Proof.
  intros (? & ? & ? & _ & _ & _ & ->). unfold spent, transfer_part, pays_beacon.
  rewrite sub_msg_new. destruct (mode cfg) as [|d], (payment cfg) as [p|]; try (by left).
  destruct (_ =? _); [by left|]. right. eexists. split; [done|]. by eexists _, _, _.
Qed.

Lemma ibc_packet_receive_spends_nothing deps env msg s r s' :
  ibc_packet_receive deps env msg s = (Ok r, s') → spent (messages (response r)) = [].
Proof.
  unfold ibc_packet_receive, or_else_ack.
  match goal with |- match ?m s with _ => _ end = _ → _ =>
    destruct (m s) as [[r1|e|] s1] eqn:Hm end; intros Hr; simplify_eq/=; [|done].
  inv_run. match goal with H : match ?p with _ => _ end s = _ |- _ => destruct p end.
  - unfold receive_deliver_beacon in *. by inv_run.
  - unfold receive_welcome in *. by inv_run.
  - unfold receive_push_beacon_price in *. by inv_run.
Qed.

Lemma call_control s who msgs s' :
  call s who msgs s' →
  authorized s who ∨ owned s' = owned s ∧
    (spent msgs = [] ∨
     ∃ a cfg m, who = By_account a ∧ config s = Some cfg ∧ spent msgs = [m] ∧ pays_beacon cfg m).
Proof.
  destruct 1 as [deps env info msg r s' Hrun| | |deps env rp r s' Hrun|deps env msg r s' Hrun
    |deps env msg r s' Hrun|deps env msg r s' Hrun|deps env msg r s' Hrun|deps env r s' Hrun].
  2,3: by left.
  - destruct msg; simpl in Hrun.
    + right. apply get_next_randomness_ok in Hrun as (? & ? & ? & _ & _ & ? & _ & _ & Hsent).
      split; [done|]. apply request_spends in Hsent as [|(? & ? & ?)]; [by left|]. right. eauto 8.
    + right. unfold execute_get_randomness_after in Hrun. inv_run. simpl_proxy.
      match goal with H : execute_get_randomness_impl _ _ _ _ _ _ _ _ = _ |- _ =>
        apply get_randomness_impl_ok in H as (-> & _ & Hsent) end.
      split; [done|]. apply request_spends in Hsent as [|(? & ? & ?)]; [by left|]. right. eauto 8.
    + left. unfold execute_set_config in Hrun. inv_run.
      match goal with H : ensure_manager _ _ = _ |- _ => by apply ensure_manager_ok in H as [_ ?] end.
    + left. unfold execute_withdraw in Hrun. inv_run.
      match goal with H : ensure_manager _ _ = _ |- _ => by apply ensure_manager_ok in H as [_ ?] end.
    + left. unfold execute_update_allowlist in Hrun. inv_run.
      match goal with H : ensure_manager _ _ = _ |- _ => by apply ensure_manager_ok in H as [_ ?] end.
  - right. unfold reply in Hrun. destruct (_ =? _); inv_run. split; [done|by left].
  - right. unfold ibc_channel_connect in Hrun. inv_run. destruct msg; inv_run. split; [done|by left].
  - right. unfold ibc_channel_close in Hrun. destruct msg; inv_run. split; [done|by left].
  - right. split; [|left; by eapply ibc_packet_receive_spends_nothing].
    by eapply (preserves_run (λ s1, owned s1 = owned s)); [|exact Hrun|];
      [apply preserves_ibc_packet_receive|].
  - right. split.
    + by eapply (preserves_run (λ s1, owned s1 = owned s)); [|exact Hrun|];
        [apply preserves_ibc_packet_ack|].
    + left. unfold ibc_packet_ack in Hrun. inv_run. destruct x1; by inv_run.
  - right. unfold ibc_packet_timeout in Hrun. inv_run. split; [done|by left].
Qed.
End control.

(** *** The channel to the gateway *)

Section channel.
Context `{Display} `{Anybuf} `{Nois} `{Json InPacket} `{Json InPacketAck} `{Json OutPacket}
  `{Json OutPacketAck} `{Json StdAck} `{Json RequestBeaconOrigin}
  `{Json ReceiverExecuteMsg}.
Implicit Types s : Storage.

Let chan c := λ s, gateway_channel s = c.

Lemma preserves_config_chan {E} c v :
  preserves (chan c) (modify (item_set CONFIG v) : M Storage E unit).
Proof. by apply preserves_modify. Qed.
Lemma preserves_version_chan {E} c n v :
  preserves (chan c) (set_contract_version CONTRACT_INFO n v : M Storage E unit).
Proof. by apply preserves_modify. Qed.
Lemma preserves_next_after_chan {E} c v :
  preserves (chan c) (modify (item_set TEST_MODE_NEXT_AFTER v) : M Storage E unit).
Proof. by apply preserves_modify. Qed.
Lemma preserves_allow_chan {E} c k v :
  preserves (chan c) (map_save ALLOWLIST k v : M Storage E unit).
Proof. by apply preserves_modify. Qed.
Lemma preserves_disallow_chan {E} c k :
  preserves (chan c) (map_remove ALLOWLIST k : M Storage E unit).
Proof. by apply preserves_modify. Qed.
Hint Resolve preserves_config_chan preserves_version_chan preserves_next_after_chan
  preserves_allow_chan preserves_disallow_chan : preserves.

(** Executing, governance and migration leave the channel alone. *)
Lemma preserves_execute_chan c deps env info msg : preserves (chan c) (execute deps env info msg).
Proof.
  destruct msg; simpl; unfold execute_get_next_randomness, execute_get_randomness_after,
    execute_get_randomness_impl, execute_set_config, execute_withdraw, execute_update_allowlist,
    ensure_manager, calculate_after, get_gateway_channel, set_config_unchecked,
    withdraw_unchecked, update_allowlist_unchecked, save; preserve.
Qed.
Lemma preserves_sudo_chan c deps env msg : preserves (chan c) (sudo deps env msg).
Proof.
  destruct msg; simpl; unfold sudo_withdraw, sudo_withdraw_to_community_pool, sudo_set_config,
    set_config_unchecked, withdraw_unchecked, withdraw_to_community_pool_unchecked, save; preserve.
Qed.
Lemma preserves_migrate_chan c deps env : preserves (chan c) (migrate deps env).
Proof. unfold migrate, save. preserve. Qed.
Lemma preserves_update_price_chan c t p d : preserves (chan c) (update_nois_beacon_price t p d).
Proof. unfold update_nois_beacon_price, save. preserve. Qed.
Lemma preserves_receive_chan c deps env msg : preserves (chan c) (ibc_packet_receive deps env msg).
Proof.
  intros s Hs. unfold ibc_packet_receive, or_else_ack.
  match goal with |- context [match ?m s with _ => _ end] =>
    assert (preserves (chan c) m) as Hm end.
  { unfold receive_deliver_beacon, receive_welcome, receive_push_beacon_price, save.
    preserve. apply preserves_update_price_chan. }
  specialize (Hm s Hs). by case_match; case_match.
Qed.
Lemma preserves_ack_chan c deps env msg : preserves (chan c) (ibc_packet_ack deps env msg).
Proof. unfold ibc_packet_ack. preserve. apply preserves_update_price_chan. Qed.

(** The transitions of the channel: unset to set by [OpenAck], set to unset by
    [CloseConfirm], and nothing else. *)
Definition channel_step (before after : option string) : Prop :=
  after = before ∨ (before = None ∧ is_Some after) ∨ after = None.

Lemma call_channel s who msgs s' :
  call s who msgs s' →
  channel_step (gateway_channel s) (gateway_channel s') ∧
  (who ≠ By_relayer → gateway_channel s' = gateway_channel s).
Proof.
  unfold channel_step.
  destruct 1 as [deps env info msg r s' Hrun|deps env msg r s' Hrun|deps env r s' Hrun
    |deps env rp r s' Hrun|deps env msg r s' Hrun
    |deps env msg r s' Hrun|deps env msg r s' Hrun|deps env msg r s' Hrun|deps env r s' Hrun].
  - pose proof (preserves_run _ _ _ _ _ (preserves_execute_chan _ deps env info msg) Hrun eq_refl).
    unfold chan in *; cbv beta in *; auto.
  - pose proof (preserves_run _ _ _ _ _ (preserves_sudo_chan _ deps env msg) Hrun eq_refl).
    unfold chan in *; cbv beta in *; auto.
  - pose proof (preserves_run _ _ _ _ _ (preserves_migrate_chan _ deps env) Hrun eq_refl).
    unfold chan in *; cbv beta in *; auto.
  - unfold reply in Hrun. destruct (_ =? _); inv_run. auto.
  - unfold ibc_channel_connect in Hrun. inv_run. destruct msg; inv_run. simpl_proxy.
    split; [|done]. right; left. destruct (gateway_channel s); [done|eauto].
  - unfold ibc_channel_close in Hrun. destruct msg; inv_run. simpl_proxy. split; [auto|done].
  - pose proof (preserves_run _ _ _ _ _ (preserves_receive_chan _ deps env msg) Hrun eq_refl).
    unfold chan in *; cbv beta in *; auto.
  - pose proof (preserves_run _ _ _ _ _ (preserves_ack_chan _ deps env msg) Hrun eq_refl).
    unfold chan in *; cbv beta in *; auto.
  - unfold ibc_packet_timeout in Hrun. inv_run. auto.
Qed.

(** *** Callbacks *)

(** The callback that answers a request of [sender]. *)
Definition callback (cfg : Config) (o : RequestBeaconOrigin) (data : Binary) : SubMsg := {|
  sub_id := REPLAY_ID_CALLBACK;
  sub_msg := CosmosMsg_Wasm (WasmMsg_Execute (origin_sender o) data []);
  sub_gas_limit := Some (callback_gas_limit cfg);
  sub_reply_on := ReplyOn_Error;
|}.

Lemma deliver_beacon_run deps env msg source_id published randomness origin o data ack s cfg :
  from_json (packet_data msg) = Ok (OutPacket_DeliverBeacon source_id published randomness origin) →
  from_json origin = Ok o → config s = Some cfg →
  to_json_binary (ReceiverExecuteMsg_NoisReceive {|
    callback_job_id := origin_job_id o; callback_published := published;
    callback_randomness := randomness |}) = Ok data →
  to_json_binary OutPacketAck_DeliverBeacon = Ok ack →
  ∃ r, ibc_packet_receive deps env msg s = (Ok r, s) ∧
    acknowledgement r = StdAck_Success ack ∧ messages (response r) = [callback cfg o data].
Proof.
  intros Hp Ho Hcfg Hd Hack. unfold ibc_packet_receive, or_else_ack, receive_deliver_beacon.
  erewrite M_bind_run; [|by apply std_run]. cbv iota beta.
  erewrite M_bind_run; [|by apply load_some]. erewrite M_bind_run; [|by apply std_run].
  erewrite M_bind_run; [|by apply std_run]. erewrite M_bind_run; [|by apply std_run].
  eexists. split; [done|]. by split.
Qed.
End channel.

(** *** The proxy stays configured *)

Section configured.
Context `{Display} `{Anybuf} `{Nois} `{Json InPacket} `{Json InPacketAck} `{Json OutPacket}
  `{Json OutPacketAck} `{Json StdAck} `{Json RequestBeaconOrigin}
  `{Json ReceiverExecuteMsg}.

Definition configured (s : Storage) : Prop := is_Some (config s).

Lemma preserves_config_configured {E} c :
  preserves configured (modify (item_set CONFIG (Some c)) : M Storage E unit).
Proof. apply preserves_modify. by eexists. Qed.
Lemma preserves_version_configured {E} n v :
  preserves configured (set_contract_version CONTRACT_INFO n v : M Storage E unit).
Proof. by apply preserves_modify. Qed.
Lemma preserves_channel_configured {E} c :
  preserves configured (modify (item_set GATEWAY_CHANNEL c) : M Storage E unit).
Proof. by apply preserves_modify. Qed.
Lemma preserves_next_after_configured {E} v :
  preserves configured (modify (item_set TEST_MODE_NEXT_AFTER v) : M Storage E unit).
Proof. by apply preserves_modify. Qed.
Lemma preserves_allow_configured {E} k v :
  preserves configured (map_save ALLOWLIST k v : M Storage E unit).
Proof. by apply preserves_modify. Qed.
Lemma preserves_disallow_configured {E} k :
  preserves configured (map_remove ALLOWLIST k : M Storage E unit).
Proof. by apply preserves_modify. Qed.
Hint Resolve preserves_config_configured preserves_version_configured
  preserves_channel_configured preserves_next_after_configured preserves_allow_configured
  preserves_disallow_configured : preserves.

Lemma call_configured s who msgs s' : call s who msgs s' → configured s → configured s'.
Proof.
  destruct 1 as [deps env info msg r s' Hrun|deps env msg r s' Hrun|deps env r s' Hrun
    |deps env rp r s' Hrun|deps env msg r s' Hrun
    |deps env msg r s' Hrun|deps env msg r s' Hrun|deps env msg r s' Hrun|deps env r s' Hrun];
    (eapply preserves_run; [|exact Hrun]).
  - destruct msg; simpl; unfold execute_get_next_randomness, execute_get_randomness_after,
      execute_get_randomness_impl, execute_set_config, execute_withdraw,
      execute_update_allowlist, ensure_manager, calculate_after, get_gateway_channel,
      set_config_unchecked, withdraw_unchecked, update_allowlist_unchecked, save; preserve.
  - destruct msg; simpl; unfold sudo_withdraw, sudo_withdraw_to_community_pool,
      sudo_set_config, set_config_unchecked, withdraw_unchecked,
      withdraw_to_community_pool_unchecked, save; preserve.
  - unfold migrate, save. preserve.
  - unfold reply. preserve.
  - unfold ibc_channel_connect, save. preserve.
  - unfold ibc_channel_close, remove. preserve.
  - intros s1 Hs. unfold ibc_packet_receive, or_else_ack.
    match goal with |- context [match ?m s1 with _ => _ end] =>
      assert (preserves configured m) as Hm end.
    { unfold receive_deliver_beacon, receive_welcome, receive_push_beacon_price,
        update_nois_beacon_price, save. preserve. }
    specialize (Hm s1 Hs). by case_match; case_match.
  - unfold ibc_packet_ack, update_nois_beacon_price, save. preserve.
  - unfold ibc_packet_timeout. preserve.
Qed.

Lemma instantiate_configured deps env info msg s r s' :
  instantiate deps env info msg s = (Ok r, s') → configured s'.
Proof.
  unfold instantiate. intros Hrun. inv_run.
  match goal with H : for_each _ _ _ = _ |- _ =>
    eapply (preserves_run configured) in H; [done|preserve|by eexists] end.
Qed.
End configured.

(** *** Quoted prices *)

Definition quoted (prices : list Coin) (d : string) : option N :=
  amount <$> List.find (λ price, bool_decide (denom price = d)) prices.

(** The prices listed for a denom, in their order. *)
Definition listed_prices (prices : list Coin) (d : string) : list N :=
  amount <$> filter (λ price, denom price = d) prices.

Lemma quoted_head prices d : quoted prices d = head (listed_prices prices d).
Proof.
  unfold quoted, listed_prices. induction prices as [|c l IH]; [done|].
  cbn [List.find]. rewrite filter_cons.
  destruct (decide (denom c = d)); [by rewrite bool_decide_true|by rewrite bool_decide_false].
Qed.

Lemma price_map_last prices d : price_map prices !! d = last (listed_prices prices d).
Proof.
  unfold price_map. assert (∀ m : gmap string N,
    foldl (λ m c, <[denom c := amount c]> m) m prices !! d =
    match last (listed_prices prices d) with Some p => Some p | None => m !! d end) as ->.
  2: { by destruct (last _). }
  unfold listed_prices. induction prices as [|c l IH]; intros m; [done|].
  cbn [foldl]. rewrite IH, filter_cons. case_decide as Hd.
  - rewrite fmap_cons, last_cons. destruct (last (amount <$> filter _ l)); [done|].
    by rewrite Hd, lookup_insert_eq.
  - by rewrite lookup_insert_ne by done.
Qed.

Lemma listed_once prices d :
  NoDup (denom <$> prices) → (length (listed_prices prices d) ≤ 1)%nat.
Proof.
  intros Hnd. unfold listed_prices. rewrite length_fmap.
  induction prices as [|c l IH]; [simpl; lia|].
  rewrite fmap_cons, NoDup_cons in Hnd. destruct Hnd as [Hc Hnd].
  rewrite filter_cons. destruct (decide (denom c = d)) as [Hd|]; [|by apply IH].
  destruct (filter (λ price, denom price = d) l) as [|c' l'] eqn:Hl; [simpl; lia|]. exfalso.
  assert (c' ∈ filter (λ price, denom price = d) l) as Hin by (rewrite Hl; by left).
  apply list_elem_of_filter in Hin as [Heq Hin]. apply Hc. rewrite Hd, <-Heq.
  by apply list_elem_of_fmap_2.
Qed.

Lemma price_map_quoted prices d :
  NoDup (denom <$> prices) → price_map prices !! d = quoted prices d.
Proof.
  intros Hnd%(listed_once _ d). rewrite price_map_last, quoted_head.
  destruct (listed_prices prices d) as [|p [|]]; simpl in *; [done..|lia].
Qed.

Lemma query_price_run deps d s cfg :
  config s = Some cfg →
  query_price deps d s = (Ok {| response_price := quoted (prices cfg) d |}, s).
Proof. intros Hcfg. unfold query_price. by erewrite M_bind_run by by apply load_some. Qed.

(** ** Properties *)

Section properties.
Context `{Display} `{Anybuf} `{Nois} `{Json InPacket} `{Json InPacketAck} `{Json OutPacket}
  `{Json OutPacketAck} `{Json StdAck} `{Json RequestBeaconOrigin}
  `{Json ReceiverExecuteMsg}.

(** C22. What an accepted request sends. [GetRandomnessAfter] succeeds only if
    the job ID is short enough, one of the coins sent covers the price in its
    denom, the sender is listed when the allowlist is enabled, and the time is
    within the configured range; it then sends one packet over the gateway
    channel that carries the time and the sender's address and job ID, preceded
    by the ICS-20 payment when the proxy pays per request, and it changes no
    state. *)
Theorem randomness_request_effects (deps : Deps) (env : Env) (info : MessageInfo)
    (after : Timestamp) (job_id : string) (s s' : Storage) (r : Response)
    (Hrun : execute deps env info (ExecuteMsg_GetRandomnessAfter after job_id) s = (Ok r, s')) :
  s' = s ∧ ∃ cfg, config s = Some cfg ∧ request_allowed info cfg after job_id s ∧
    request_sent env info cfg after job_id s (messages r).
Proof.
  simpl in Hrun. unfold execute_get_randomness_after in Hrun. inv_run.
  match goal with H : execute_get_randomness_impl _ _ _ _ _ _ _ _ = _ |- _ =>
    apply get_randomness_impl_ok in H as (-> & ? & ?) end.
  split; [done|]. by eexists.
Qed.

(** C18. Nobody can know the answer to [GetNextRandomness] when the request is
    made: outside of test mode the request that is sent commits to a drand round
    that is published more than the safety margin of five seconds after the
    block in which the request is made. *)
Theorem next_randomness_commits_to_future (deps : Deps) (env : Env) (info : MessageInfo)
    (job_id : string) (s s' : Storage) (r : Response) (cfg : Config)
    (Hcfg : config s = Some cfg) (Hmode : test_mode cfg = false)
    (Hrun : execute deps env info (ExecuteMsg_GetNextRandomness job_id) s = (Ok r, s')) :
  s' = s ∧ ∃ after round, request_sent env info cfg after job_id s (messages r) ∧
    (round_after after : outcome StdError u64) = Ok round ∧
    block_time env + SAFETY_MARGIN < publish_time round.
Proof.
  apply get_next_randomness_ok in Hrun as
    (cfg' & after & Hcfg' & Hafter & Hs & _ & _ & [_ [_ [_ Hrange]]] & Hsent). simplify_eq.
  destruct (Hs Hmode) as [-> Hmax]. split; [done|]. rewrite Hmode in *.
  exists (block_time env + SAFETY_MARGIN), (next_round (block_time env + SAFETY_MARGIN)).
  split; [done|]. split; [|apply publish_time_next_round_gt].
  by apply round_after_ok.
Qed.

(** In test mode consecutive requests commit to the drand rounds 800, 810,
    820, ...: from a fresh state, the [after] values of any number of requests
    that fits 64 bits are those whose next rounds are ten apart. *)
Lemma test_mode_rounds (s : Storage) (n : nat)
    (Hfresh : test_mode_next_after s = None)
    (Hmax : TEST_MODE_NEXT_AFTER_INIT + N.of_nat n * 30000000000 ≤ umax 64) :
  ∃ ts, ((test_requests n : M Storage StdError _) s).1 = Ok ts ∧
    (λ t, (round_after t : outcome StdError u64)) <$> ts =
      (λ k, Ok (800 + 10 * k)) <$> seqN 0 n.
Proof.
  exists (test_after <$> seqN 0 n). split.
  - apply test_requests_run; [|exact Hmax]. rewrite Hfresh. by vm_compute.
  - rewrite <-list_fmap_compose. apply list_fmap_ext. intros i k Hk. simpl.
    rewrite round_after_ok, test_after_round; [done|].
    apply list_elem_of_lookup_2, elem_of_seqN in Hk.
    etrans; [|exact Hmax]. unfold test_after. lia.
Qed.

(** C25. Price messages from the gateway commute: two updates with different
    timestamps leave the same state in whichever order the relayer delivers
    them, so the proxy converges to the latest price. *)
Theorem price_messages_commute (t1 t2 : Timestamp) (p1 p2 : Uint128) (d1 d2 : string)
    (s : Storage) (Hne : t1 ≠ t2) :
  (update_nois_beacon_price t1 p1 d1 ;; update_nois_beacon_price t2 p2 d2) s =
  (update_nois_beacon_price t2 p2 d2 ;; update_nois_beacon_price t1 p1 d1) s.
Proof.
  destruct (config s) as [cfg|] eqn:Hcfg.
  - rewrite (M_bind_run _ _ _ _ _ (update_price_run t1 p1 d1 s cfg Hcfg)).
    rewrite (M_bind_run _ _ _ _ _ (update_price_run t2 p2 d2 s cfg Hcfg)).
    destruct (decide (d1 = "unois")), (decide (d2 = "unois"));
      repeat first [rewrite (bool_decide_true (_ = _)) by done
                   |rewrite (bool_decide_false (_ = _)) by done].
    all: erewrite !update_price_run by (simpl_proxy; done).
    all: repeat first [rewrite (bool_decide_true (_ = _)) by done
                      |rewrite (bool_decide_false (_ = _)) by done]; try done.
    simpl_proxy. by rewrite price_updated_commute.
  - unfold update_nois_beacon_price, mbind, M_bind, load. repeat case_bool_decide;
      simpl; by rewrite ?Hcfg.
Qed.

(** C24. Only the owner controls the proxy: a transaction that is not sent by the
    manager, by governance or by a migration leaves the prices, the manager, the
    gas limit, the mode, the accepted times, the allowlist and its switch as they
    are. The messages it sends are IBC packets and contract calls with no funds
    attached, with at most one exception: when an account makes a request in the
    mode [IbcPay], an ICS-20 transfer of exactly the beacon price, over the
    configured channel to the configured payment contract. *)
Theorem only_owner_controls (s s' : Storage) (who : trigger) (msgs : list SubMsg)
    (Hcall : call s who msgs s') (Hwho : authorized s who → False) :
  owned s' = owned s ∧
  (spent msgs = [] ∨
   ∃ a cfg m, who = By_account a ∧ config s = Some cfg ∧ spent msgs = [m] ∧ pays_beacon cfg m).
Proof. by destruct (call_control s who msgs s' Hcall). Qed.

(** C30. The channel to the gateway is a state machine that only relayers drive:
    it is set when it is unset, it can be cleared, and it is never overwritten;
    dapps, the manager, governance and migrations cannot touch it. *)
Theorem gateway_channel_transitions (s s' : Storage) (who : trigger) (msgs : list SubMsg)
    (Hcall : call s who msgs s') :
  channel_step (gateway_channel s) (gateway_channel s') ∧
  (who ≠ By_relayer → gateway_channel s' = gateway_channel s).
Proof. by eapply call_channel. Qed.

(** The answer reaches the dapp that asked. When the gateway delivers a
    beacon with the origin of a request, the proxy acknowledges it and sends
    exactly one message: the callback with the job ID, the publish time and the
    randomness of the packet, to the sender of the request, limited in gas and
    such that its failure is only reported. *)
Lemma callback_reaches_requester `{!JsonLaws OutPacketAck} `{!JsonLaws RequestBeaconOrigin}
    `{!JsonLaws ReceiverExecuteMsg} (deps : Deps) (env : Env) (msg : IbcPacketReceiveMsg) (source_id : string)
    (published : Timestamp) (randomness : HexBinary) (origin : Binary)
    (o : RequestBeaconOrigin) (s : Storage) (cfg : Config) (Hcfg : config s = Some cfg)
    (Hpacket : from_json (packet_data msg) =
      Ok (OutPacket_DeliverBeacon source_id published randomness origin))
    (Horigin : to_json_binary o = Ok origin) :
  ∃ r ack data, ibc_packet_receive deps env msg s = (Ok r, s) ∧
    from_json data = Ok (ReceiverExecuteMsg_NoisReceive {|
      callback_job_id := origin_job_id o; callback_published := published;
      callback_randomness := randomness |}) ∧
    acknowledgement r = StdAck_Success ack ∧ messages (response r) = [callback cfg o data].
Proof.
  destruct (json_roundtrip OutPacketAck_DeliverBeacon) as (ack & Hack & _).
  destruct (json_roundtrip o) as (b & Hb & Ho). rewrite Horigin in Hb. injection Hb as <-.
  destruct (json_roundtrip (ReceiverExecuteMsg_NoisReceive {|
    callback_job_id := origin_job_id o; callback_published := published;
    callback_randomness := randomness |})) as (data & Hdata & ?).
  destruct (deliver_beacon_run deps env msg source_id published randomness origin o data ack s cfg)
    as (r & ? & ? & ?); try done. by exists r, ack, data.
Qed.

(** C35. The price that [query_price] quotes is the price a dapp has to pay,
    provided no denom is listed twice: then exactly the amounts from the quoted
    one upwards are accepted, and a denom without a quote is not accepted. *)
Theorem quoted_price_accepted (deps : Deps) (s : Storage) (cfg : Config) (d : string) (a : Uint128)
    (Hcfg : config s = Some cfg) (Hunique : NoDup (denom <$> prices cfg)) :
  ∃ q, query_price deps d s = (Ok {| response_price := q |}, s) ∧
    (validate_payment (prices cfg) [coin a d] = Ok tt ↔ ∃ p, q = Some p ∧ p ≤ a).
Proof.
  exists (quoted (prices cfg) d). split.
  - by apply query_price_run.
  - rewrite validate_payment_run. cbn [existsb coin denom amount].
    rewrite price_map_quoted by done.
    destruct (prices cfg) as [|c l]; [by split; [|intros (? & ? & _)]|].
    destruct (quoted (c :: l) d) as [p|]; rewrite ?orb_false_r.
    + destruct (N.leb_spec p a); naive_solver lia.
    + naive_solver.
Qed.

(** C36. With a denom listed twice the quote and the check disagree. Whatever
    the prices are, [query_price] quotes the first price listed for a denom and
    the payment check asks for the last one. So when the last price is the higher
    one, a [GetRandomnessAfter] of a dapp that pays exactly the quote, with a job
    ID of legal length, is rejected as an insufficient payment. *)
Theorem duplicate_price_misquoted (deps : Deps) (s : Storage) (cfg : Config) (d : string)
    (quote charge : Uint128) (Hcfg : config s = Some cfg)
    (Hquote : head (listed_prices (prices cfg) d) = Some quote)
    (Hcharge : last (listed_prices (prices cfg) d) = Some charge) :
  query_price deps d s = (Ok {| response_price := Some quote |}, s) ∧
  (∀ a, validate_payment (prices cfg) [coin a d] =
    if charge <=? a then Ok tt else Err ContractError_InsufficientPayment) ∧
  (quote < charge → ∀ env info after job_id,
    funds info = [coin quote d] → len job_id ≤ MAX_JOB_ID_LEN →
    execute deps env info (ExecuteMsg_GetRandomnessAfter after job_id) s =
      (Err ContractError_InsufficientPayment, s)).
Proof.
  assert (∀ a, validate_payment (prices cfg) [coin a d] =
    if charge <=? a then Ok tt else Err ContractError_InsufficientPayment) as Hpay.
  { intros a. rewrite validate_payment_run. cbn [existsb coin denom amount].
    rewrite price_map_last, Hcharge, orb_false_r. by destruct (prices cfg). }
  split_and!; [by rewrite (query_price_run _ _ _ cfg), quoted_head, Hquote by done|done|].
  intros Hlt env info after job_id Hfunds Hjob. simpl. unfold execute_get_randomness_after.
  run_step by by apply load_some. unfold execute_get_randomness_impl, validate_job_id.
  rewrite (proj2 (N.ltb_ge MAX_JOB_ID_LEN (len job_id))) by done. run_step by done.
  rewrite Hfunds, Hpay, (proj2 (N.leb_gt _ _)) by done. by apply M_bind_err.
Qed.
End properties.

(** ** Witnesses *)

#[global] Instance RequestBeaconOrigin_eq_dec : EqDecision RequestBeaconOrigin.
Proof. solve_decision. Defined.
#[global] Program Instance RequestBeaconOrigin_countable : Countable RequestBeaconOrigin :=
  inj_countable' (λ o, (origin_sender o, origin_job_id o))
    (λ '(s, j), {| origin_sender := s; origin_job_id := j |}) _.
Next Obligation. by intros []. Qed.

Definition sample_info (who : Addr) (coins : list Coin) : MessageInfo :=
  {| sender := who; funds := coins |}.
Definition sample_config : Config := {|
  prices := [coin 10 "u"; coin 5 "v"]; manager := Some "boss"; test_mode := false;
  callback_gas_limit := 500; payment := Some "payment"; nois_beacon_price := 7;
  nois_beacon_price_updated := 40;
  mode := OperationalMode_IbcPay {| ics20_channel := "channel-5"; ibc_denom := "ibc/nois" |};
  allowlist_enabled := Some false; min_after := Some 0; max_after := Some (umax 64) |}.
Definition sample : Storage :=
  Build_Storage None (Some sample_config) ∅ (Some "channel-12") None.
Definition sample_env : Env := test_env 1 1700000000000000000.
Definition sample_next : M Storage ContractError Response :=
  execute (test_deps 0) sample_env (sample_info "dapp" [coin 10 "u"])
    (ExecuteMsg_GetNextRandomness "job").
Definition sample_request : M Storage ContractError Response :=
  execute (test_deps 0) sample_env (sample_info "dapp" [coin 10 "u"])
    (ExecuteMsg_GetRandomnessAfter 1700000000000000000 "job").

Lemma randomness_request_effects_witness : ∃ r,
  sample = sample ∧ ∃ cfg, config sample = Some cfg ∧
    request_allowed (sample_info "dapp" [coin 10 "u"]) cfg 1700000000000000000 "job" sample ∧
    request_sent sample_env (sample_info "dapp" [coin 10 "u"]) cfg 1700000000000000000 "job"
      sample (messages r).
Proof.
  exists (response_of (sample_request sample).1).
  apply (randomness_request_effects (test_deps 0) sample_env (sample_info "dapp" [coin 10 "u"])
    1700000000000000000 "job").
  by vm_compute.
Defined.

Lemma next_randomness_commits_to_future_witness : ∃ r,
  sample = sample ∧ ∃ after round,
    request_sent sample_env (sample_info "dapp" [coin 10 "u"]) sample_config after "job" sample
      (messages r) ∧
    (round_after after : outcome StdError u64) = Ok round ∧
    block_time sample_env + SAFETY_MARGIN < publish_time round.
Proof.
  exists (response_of (sample_next sample).1).
  apply (next_randomness_commits_to_future (test_deps 0) sample_env
    (sample_info "dapp" [coin 10 "u"]) "job"); by vm_compute.
Defined.

Lemma test_mode_rounds_witness :
  ∃ ts, ((test_requests 3 : M Storage StdError _) sample).1 = Ok ts ∧
    (λ t, (round_after t : outcome StdError u64)) <$> ts = [Ok 800; Ok 810; Ok 820].
Proof. apply (test_mode_rounds sample 3); [done|by vm_compute]. Defined.

Lemma price_messages_commute_witness :
  (update_nois_beacon_price 50 3 "unois" ;; update_nois_beacon_price 45 9 "unois") sample =
  (update_nois_beacon_price 45 9 "unois" ;; update_nois_beacon_price 50 3 "unois") sample ∧
  nois_beacon_price <$> config (update_nois_beacon_price 50 3 "unois" sample).2 = Some 3.
Proof.
  split; [|by vm_compute].
  apply (price_messages_commute 50 45 3 9 "unois" "unois" sample). lia.
Defined.

Lemma only_owner_controls_witness : ∃ r s',
  owned s' = owned sample ∧
  (spent (messages r) = [] ∨
   ∃ a cfg m, By_account "dapp" = By_account a ∧ config sample = Some cfg ∧
     spent (messages r) = [m] ∧ pays_beacon cfg m).
Proof.
  exists (response_of (sample_next sample).1), (sample_next sample).2.
  apply (only_owner_controls sample _ (By_account "dapp")).
  - apply (call_execute sample (test_deps 0) sample_env (sample_info "dapp" [coin 10 "u"])
      (ExecuteMsg_GetNextRandomness "job")). by apply run_response.
  - intros (cfg & [= <-] & Hm). discriminate Hm.
Defined.

Lemma gateway_channel_transitions_witness : ∃ s',
  gateway_channel s' = None ∧ channel_step (gateway_channel sample) (gateway_channel s') ∧
  (By_relayer ≠ By_relayer → gateway_channel s' = gateway_channel sample).
Proof.
  set (close := ibc_channel_close (test_deps 0) sample_env (IbcChannelCloseMsg_CloseConfirm
    {| endpoint_channel_id := "channel-12"; order := APP_ORDER; version := IBC_APP_VERSION |})).
  exists (close sample).2. split; [by vm_compute|].
  apply (gateway_channel_transitions sample (close sample).2 By_relayer
    (messages (response_of (close sample).1))).
  eapply call_channel_close. by apply run_response.
Defined.

Lemma callback_reaches_requester_witness :
  let origin := positive_to_string (encode
    {| origin_sender := "dapp"; origin_job_id := "job" |}) in
  let packet := positive_to_string (encode
    (OutPacket_DeliverBeacon "drand" 5 "cafe" origin)) in
  ∃ r ack data, ibc_packet_receive (test_deps 0) sample_env
      {| packet_data := packet; packet_dest_channel_id := "channel-12"; relayer := "rel" |} sample
      = (Ok r, sample) ∧
    from_json data = Ok (ReceiverExecuteMsg_NoisReceive {|
      callback_job_id := "job"; callback_published := 5; callback_randomness := "cafe" |}) ∧
    acknowledgement r = StdAck_Success ack ∧
    messages (response r) = [callback sample_config
      {| origin_sender := "dapp"; origin_job_id := "job" |} data].
Proof.
  apply (callback_reaches_requester (test_deps 0) sample_env
    {| packet_data := positive_to_string (encode (OutPacket_DeliverBeacon "drand" 5 "cafe"
         (positive_to_string (encode {| origin_sender := "dapp"; origin_job_id := "job" |}))));
       packet_dest_channel_id := "channel-12"; relayer := "rel" |} "drand" 5 "cafe"
    (positive_to_string (encode {| origin_sender := "dapp"; origin_job_id := "job" |}))
    {| origin_sender := "dapp"; origin_job_id := "job" |} sample sample_config);
    by vm_compute.
Defined.

Lemma quoted_price_accepted_witness :
  ∃ q, query_price (test_deps 0) "u" sample = (Ok {| response_price := q |}, sample) ∧
    (validate_payment (prices sample_config) [coin 12 "u"] = Ok tt ↔ ∃ p, q = Some p ∧ p ≤ 12).
Proof.
  apply (quoted_price_accepted (test_deps 0) sample sample_config "u" 12); [done|].
  by repeat (constructor; [set_solver|]); constructor.
Defined.

(** A price list that was extended by an entry for the same denom. *)
Definition sample_doubled : Config := {|
  prices := [coin 10 "u"; coin 20 "u"]; manager := manager sample_config;
  test_mode := test_mode sample_config; callback_gas_limit := callback_gas_limit sample_config;
  payment := payment sample_config; nois_beacon_price := nois_beacon_price sample_config;
  nois_beacon_price_updated := nois_beacon_price_updated sample_config;
  mode := mode sample_config; allowlist_enabled := allowlist_enabled sample_config;
  min_after := min_after sample_config; max_after := max_after sample_config |}.

Lemma duplicate_price_misquoted_witness :
  let s := item_set CONFIG (Some sample_doubled) sample in
  query_price (test_deps 0) "u" s = (Ok {| response_price := Some 10 |}, s) ∧
  execute (test_deps 0) sample_env (sample_info "dapp" [coin 10 "u"])
    (ExecuteMsg_GetRandomnessAfter (block_time sample_env) "job") s =
    (Err ContractError_InsufficientPayment, s).
Proof.
  destruct (duplicate_price_misquoted (test_deps 0)
    (item_set CONFIG (Some sample_doubled) sample) sample_doubled "u" 10 20)
    as (Hquote & _ & Hreject); [done..|].
  split; [exact Hquote|]. apply Hreject; by vm_compute.
Defined.
