(* ===== verification/Monitoring.v ===== *)
(** * nois-monitoring: dice rolls of a dapp (contracts/nois-monitoring)

    A dapp that requests randomness from a nois-proxy and records the outcome,
    the request and the delivery of each job. *)
From stdpp Require Import prelude gmap strings list sorting pretty.
From Stdlib Require Import NArith Lia.
From S2P Require Import Prelude.
From S2P Require Import CosmWasm.
From S2P Require Import DrandCommon.
From S2P Require Import Fixtures.
From S2P Require Import Nois.

(** ** Errors, state and messages (error.rs, state.rs, msg.rs) *)

Inductive ContractError :=
  | ContractError_Std (e : StdError)
  | ContractError_Unauthorized
  | ContractError_InvalidProxyAddress
  | ContractError_JobIdTooLong
  | ContractError_JobIdAlreadyPresent
  | ContractError_UnauthorizedReceive
  | ContractError_InvalidRandomness.
#[global] Instance ContractError_from_std : FromStd ContractError := ContractError_Std.

Record JobLifecycleRequest := {
  request_height : u64;
  request_tx_index : option u32;
  safety_margin : u64;
  after : Timestamp;
}.
Record JobLifecycleDelivery := {
  published : Timestamp;
  delivery_height : u64;
  delivery_tx_index : option u32;
}.

Record Storage := {
  nois_proxy : option Addr;
  job_outcomes : gmap string u8;
  job_requests : gmap string JobLifecycleRequest;
  job_deliveries : gmap string JobLifecycleDelivery;
}.

Definition NOIS_PROXY : Item Storage Addr := {|
  item_get := nois_proxy;
  item_set v s := Build_Storage v (job_outcomes s) (job_requests s) (job_deliveries s);
|}.
Definition JOB_OUTCOMES : Map Storage string u8 := {|
  map_get := job_outcomes;
  map_set v s := Build_Storage (nois_proxy s) v (job_requests s) (job_deliveries s);
|}.
Definition JOB_REQUESTS : Map Storage string JobLifecycleRequest := {|
  map_get := job_requests;
  map_set v s := Build_Storage (nois_proxy s) (job_outcomes s) v (job_deliveries s);
|}.
Definition JOB_DELIVERIES : Map Storage string JobLifecycleDelivery := {|
  map_get := job_deliveries;
  map_set v s := Build_Storage (nois_proxy s) (job_outcomes s) (job_requests s) v;
|}.

Record InstantiateMsg := { msg_nois_proxy : string }.
Inductive ExecuteMsg :=
  | ExecuteMsg_RollDice (job_id : string)
  | ExecuteMsg_NoisReceive (callback : NoisCallback).
Inductive QueryMsg :=
  | QueryMsg_Outcome (job_id : string)
  | QueryMsg_GetHistoryOfRounds
  | QueryMsg_GetRequest (job_id : string)
  | QueryMsg_GetDelivery (job_id : string).

(** ** The contract (contract.rs) *)

Definition SAFETY_MARGIN : u64 := 5000000000.

Section contract.
Context `{Nois} `{Json ProxyExecuteMsg}.

Definition instantiate (deps : Deps) (env : Env) (info : MessageInfo) (msg : InstantiateMsg) :
    M Storage ContractError Response :=
  nois_proxy_addr ← lift (map_err (λ _, ContractError_InvalidProxyAddress)
    (addr_validate_ (api deps) (msg_nois_proxy msg)));
  save NOIS_PROXY nois_proxy_addr ;;
  mret (Response_new
    |> add_attribute "method" "instantiate"
    |> add_attribute "owner" (sender info)).

Definition validate_job_id (job_id : string) : outcome ContractError unit :=
  if MAX_JOB_ID_LEN <? len job_id then Err ContractError_JobIdTooLong else Ok tt.

Definition execute_roll_dice (deps : Deps) (env : Env) (info : MessageInfo) (job_id : string) :
    M Storage ContractError Response :=
  nois_proxy ← load NOIS_PROXY;
  outcome ← map_may_load JOB_OUTCOMES job_id;
  ensure (negb (bool_decide (is_Some outcome))) ContractError_JobIdAlreadyPresent ;;
  lift (validate_job_id job_id) ;;
  let safety_margin := SAFETY_MARGIN in
  after ← lift (plus_nanos (block_time env) safety_margin);
  map_save JOB_REQUESTS job_id
    {| request_height := block_height env; request_tx_index := transaction_index env;
       Monitoring.safety_margin := safety_margin; Monitoring.after := after |} ;;
  msg ← std (to_json_binary (ProxyExecuteMsg_GetRandomnessAfter after job_id));
  mret (Response_new
    |> add_message (CosmosMsg_Wasm (WasmMsg_Execute nois_proxy msg (funds info)))).

Definition execute_receive (deps : Deps) (env : Env) (info : MessageInfo)
    (callback : NoisCallback) : M Storage ContractError Response :=
  proxy ← load NOIS_PROXY;
  ensure (bool_decide (sender info = proxy)) ContractError_UnauthorizedReceive ;;
  let job_id := callback_job_id callback in
  randomness ← lift (ok_or (to_array_32 (callback_randomness callback))
    ContractError_InvalidRandomness);
  let dice_outcome := roll_dice randomness in
  outcome ← map_may_load JOB_OUTCOMES job_id;
  ensure (negb (bool_decide (is_Some outcome))) ContractError_JobIdAlreadyPresent ;;
  map_save JOB_OUTCOMES job_id dice_outcome ;;
  map_save JOB_DELIVERIES job_id
    {| published := callback_published callback; delivery_height := block_height env;
       delivery_tx_index := transaction_index env |} ;;
  mret Response_new.

Definition execute (deps : Deps) (env : Env) (info : MessageInfo) (msg : ExecuteMsg) :
    M Storage ContractError Response :=
  match msg with
  | ExecuteMsg_RollDice job_id => execute_roll_dice deps env info job_id
  | ExecuteMsg_NoisReceive callback => execute_receive deps env info callback
  end.

(** *** Queries *)

Definition query_outcome (deps : Deps) (job_id : string) : M Storage StdError (option u8) :=
  map_may_load JOB_OUTCOMES job_id.

Definition query_get_request (deps : Deps) (job_id : string) :
    M Storage StdError (option JobLifecycleRequest) :=
  map_may_load JOB_REQUESTS job_id.

Definition query_get_delivery (deps : Deps) (job_id : string) :
    M Storage StdError (option JobLifecycleDelivery) :=
  map_may_load JOB_DELIVERIES job_id.

Definition query_history (deps : Deps) : M Storage StdError (list string) :=
  rows ← range JOB_OUTCOMES None None Order_Ascending;
  mret ((λ '(id, value), id +:+ ":" +:+ pretty value) <$> rows).

Definition query `{Json (option u8)} `{Json (list string)} `{Json (option JobLifecycleRequest)}
    `{Json (option JobLifecycleDelivery)} (deps : Deps) (env : Env) (msg : QueryMsg) :
    M Storage StdError Binary :=
  match msg with
  | QueryMsg_GetHistoryOfRounds => r ← query_history deps; std (to_json_binary r)
  | QueryMsg_Outcome job_id => r ← query_outcome deps job_id; std (to_json_binary r)
  | QueryMsg_GetRequest job_id => r ← query_get_request deps job_id; std (to_json_binary r)
  | QueryMsg_GetDelivery job_id => r ← query_get_delivery deps job_id; std (to_json_binary r)
  end.

Definition empty_storage : Storage := Build_Storage None ∅ ∅ ∅.


Inductive step : Storage → Storage → Prop :=
  | step_execute deps env info msg r s s' :
      execute deps env info msg s = (Ok r, s') → step s s'.
End contract.

(** ** Lemmas *)

Ltac simpl_monitoring :=
  cbn [map_get map_set item_get item_set NOIS_PROXY JOB_OUTCOMES JOB_REQUESTS JOB_DELIVERIES
    nois_proxy job_outcomes job_requests job_deliveries] in *.

Section lemmas.
Context `{Nois} `{Json ProxyExecuteMsg}.


(** A step either only records requests, or it is a callback of the proxy that
    records the outcome and the delivery of one new job. *)
Definition callback_recorded (env : Env) (who : Addr) (c : NoisCallback) (s s' : Storage) : Prop :=
  nois_proxy s = Some who ∧ job_outcomes s !! callback_job_id c = None ∧
  len (callback_randomness c) = 32 ∧
  s' = {| nois_proxy := nois_proxy s;
          job_outcomes :=
            <[callback_job_id c := roll_dice (callback_randomness c)]> (job_outcomes s);
          job_requests := job_requests s;
          job_deliveries := <[callback_job_id c := {|
            published := callback_published c; delivery_height := block_height env;
            delivery_tx_index := transaction_index env |}]> (job_deliveries s) |}.

Lemma execute_receive_ok deps env info c s r s' :
  execute_receive deps env info c s = (Ok r, s') →
  r = Response_new ∧ callback_recorded env (sender info) c s s'.
Proof.
  unfold execute_receive, callback_recorded, to_array_32. intros Hrun. inv_run. simpl_monitoring.
  match goal with H : (if ?b then _ else _) = Some _ |- _ => destruct b eqn:Hl; simplify_eq end.
  split_and!; try done; [by apply eq_None_not_Some|by apply N.eqb_eq].
Qed.

(** The request that a roll of the dice in this block records. *)
Definition roll_request (env : Env) : JobLifecycleRequest := {|
  request_height := block_height env; request_tx_index := transaction_index env;
  safety_margin := SAFETY_MARGIN; after := block_time env + SAFETY_MARGIN |}.

Lemma execute_roll_dice_ok deps env info job s r s' :
  execute_roll_dice deps env info job s = (Ok r, s') →
  job_outcomes s !! job = None ∧
  s' = map_set JOB_REQUESTS (<[job := roll_request env]> (job_requests s)) s ∧
  ∃ proxy msg, nois_proxy s = Some proxy ∧
    to_json_binary (ProxyExecuteMsg_GetRandomnessAfter (after (roll_request env)) job) = Ok msg ∧
    sub_msg <$> messages r = [CosmosMsg_Wasm (WasmMsg_Execute proxy msg (funds info))].
Proof.
  unfold execute_roll_dice, plus_nanos. intros Hrun. inv_run. simpl_monitoring.
  split; [by apply eq_None_not_Some|]. split; [done|]. by do 2 eexists.
Qed.

(** A job with an outcome is settled: nothing about it changes any more. *)
Definition settled (job : string) (v : u8) (req : option JobLifecycleRequest)
    (d : JobLifecycleDelivery) (s : Storage) : Prop :=
  job_outcomes s !! job = Some v ∧ job_requests s !! job = req ∧
  job_deliveries s !! job = Some d.

Lemma step_settled job v req d s s' : settled job v req d s → step s s' → settled job v req d s'.
Proof.
  unfold settled. intros Hset Hstep. revert Hset.
  destruct Hstep as [deps env info [job'|c] r s s' Hrun]; intros (Hv & Hr & Hd); simpl in Hrun.
  - apply (execute_roll_dice_ok deps) in Hrun as (Hnone & -> & _). simpl.
    assert (job' ≠ job) by congruence. by rewrite lookup_insert_ne.
  - apply (execute_receive_ok deps) in Hrun as [_ (_ & Hnone & _ & ->)]. simpl.
    assert (callback_job_id c ≠ job) by congruence. by rewrite !lookup_insert_ne.
Qed.

Lemma monitoring_step_cases s s' :
  step s s' →
  (nois_proxy s' = nois_proxy s ∧ job_outcomes s' = job_outcomes s ∧
    job_deliveries s' = job_deliveries s) ∨
  ∃ env who c, callback_recorded env who c s s'.
Proof.
  destruct 1 as [deps env info [job|c] r s s' Hrun]; simpl in Hrun.
  - left. unfold execute_roll_dice in Hrun. by inv_run.
  - right. apply execute_receive_ok in Hrun as [_ ?]. by do 3 eexists.
Qed.

End lemmas.

(** ** Properties *)

Section properties.
Context `{Nois} `{Json ProxyExecuteMsg}.

(** C31. History cannot be changed: an outcome and its delivery, once recorded,
    keep their values over any sequence of messages from anybody. *)
Theorem outcomes_immutable (s s' : Storage) (job : string) (v : u8) (d : JobLifecycleDelivery)
    (Hsteps : rtc step s s') (Hv : job_outcomes s !! job = Some v)
    (Hd : job_deliveries s !! job = Some d) :
  job_outcomes s' !! job = Some v ∧ job_deliveries s' !! job = Some d.
Proof.
  eapply (rtc_preserved step (λ s, job_outcomes s !! job = Some v ∧
    job_deliveries s !! job = Some d) s); [|done..].
  intros s1 s2 [Hv1 Hd1] [(_ & -> & ->)|(env & who & c & _ & Hnew & _ & ->)]%monitoring_step_cases;
    [done|].
  simpl. assert (callback_job_id c ≠ job) by congruence. by rewrite !lookup_insert_ne.
Qed.

(** C39. A job that is rolled again before its first answer arrives keeps the
    request of the second roll and the delivery of the first. Whatever happens
    between the two rolls, let the callback with the first beacon after the time
    of the first roll be accepted after the second roll, where this beacon was
    published no later than the time the second roll asked for. Then the contract
    records the delivery next to the request of the second roll, its publish time
    is not after the recorded [after], and this never changes again. *)
Theorem rolled_twice_delivery_too_early (deps1 deps2 deps3 : Deps) (env1 env2 env3 : Env)
    (info1 info2 info3 : MessageInfo) (job : string) (c : NoisCallback) (r1 r2 r3 : Response)
    (s s1 s2 s3 s4 : Storage)
    (Hroll1 : execute deps1 env1 info1 (ExecuteMsg_RollDice job) s = (Ok r1, s1))
    (Hsteps : rtc step s1 s2)
    (Hroll2 : execute deps2 env2 info2 (ExecuteMsg_RollDice job) s2 = (Ok r2, s3))
    (Hcallback : execute deps3 env3 info3 (ExecuteMsg_NoisReceive c) s3 = (Ok r3, s4))
    (Hjob : callback_job_id c = job)
    (Hfirst : callback_published c = publish_time (next_round (block_time env1 + SAFETY_MARGIN)))
    (Hearly : callback_published c ≤ block_time env2 + SAFETY_MARGIN) :
  job_requests s1 !! job = Some (roll_request env1) ∧
  after (roll_request env1) < callback_published c ≤ after (roll_request env2) ∧
  ∀ s5, rtc step s4 s5 →
    job_requests s5 !! job = Some (roll_request env2) ∧
    published <$> job_deliveries s5 !! job = Some (callback_published c).
Proof.
  apply (execute_roll_dice_ok deps1) in Hroll1 as (_ & -> & _).
  apply (execute_roll_dice_ok deps2) in Hroll2 as (_ & -> & _).
  apply (execute_receive_ok deps3) in Hcallback as [_ (_ & _ & _ & ->)].
  split; [by apply lookup_insert_eq|]. split.
  { split; [|done]. rewrite Hfirst. apply publish_time_next_round_gt. }
  intros s5 H5. match type of H5 with rtc _ ?s4 _ =>
    assert (settled job (roll_dice (callback_randomness c)) (Some (roll_request env2)) {|
      published := callback_published c; delivery_height := block_height env3;
      delivery_tx_index := transaction_index env3 |} s4) as H4 end.
  { unfold settled. simpl. by rewrite Hjob, !lookup_insert_eq. }
  pose proof (rtc_preserved step _ _ _ (step_settled _ _ _ _) H4 H5) as (_ & -> & ->). done.
Qed.
End properties.

(** ** Requesting a job twice *)

Definition sample_info (who : Addr) : MessageInfo := {| sender := who; funds := [] |}.
Definition sample_init : Storage :=
  (instantiate (test_deps 0) (test_env 1 10) (sample_info "creator")
    {| msg_nois_proxy := "proxy" |} empty_storage).2.
Definition sample_roll (time : N) (s : Storage) : Storage :=
  (execute (test_deps 0) (test_env 2 time) (sample_info "player")
    (ExecuteMsg_RollDice "job") s).2.
Definition sample_callback (published : Timestamp) : NoisCallback := {|
  callback_job_id := "job"; callback_published := published;
  callback_randomness := "0123456789abcdef0123456789abcdef" |}.
Definition sample_receive (published time : N) (s : Storage) : Storage :=
  (execute (test_deps 0) (test_env 3 time) (sample_info "proxy")
    (ExecuteMsg_NoisReceive (sample_callback published)) s).2.
(** Two rolls four seconds apart; the beacon of the first roll arrives. *)
Definition sample_rolled : Storage := sample_roll DRAND_GENESIS sample_init.
Definition sample_rolled_twice : Storage :=
  sample_roll (DRAND_GENESIS + 4000000000) sample_rolled.
Definition sample_published : Timestamp := DRAND_GENESIS + 6000000000.
Definition sample : Storage :=
  sample_receive sample_published (DRAND_GENESIS + 7000000000) sample_rolled_twice.

(** ** Witnesses *)




Lemma outcomes_immutable_witness :
  job_outcomes (sample_receive 7 8 sample) !! "job" = Some 4 ∧
  job_deliveries (sample_receive 7 8 sample) !! "job" =
    Some {| published := sample_published; delivery_height := 3; delivery_tx_index := Some 3 |}.
Proof.
  apply (outcomes_immutable sample).
  - assert (sample_receive 7 8 sample = sample) as -> by by vm_compute. apply rtc_refl.
  - by vm_compute.
  - by vm_compute.
Defined.


Lemma rolled_twice_delivery_too_early_witness :
  job_requests sample_rolled !! "job" = Some (roll_request (test_env 2 DRAND_GENESIS)) ∧
  DRAND_GENESIS + SAFETY_MARGIN < sample_published ≤ DRAND_GENESIS + 4000000000 + SAFETY_MARGIN ∧
  ∀ s5, rtc step sample s5 →
    job_requests s5 !! "job" = Some (roll_request (test_env 2 (DRAND_GENESIS + 4000000000))) ∧
    published <$> job_deliveries s5 !! "job" = Some sample_published.
Proof.
  apply (rolled_twice_delivery_too_early (test_deps 0) (test_deps 0) (test_deps 0)
    (test_env 2 DRAND_GENESIS) (test_env 2 (DRAND_GENESIS + 4000000000))
    (test_env 3 (DRAND_GENESIS + 7000000000)) (sample_info "player") (sample_info "player")
    (sample_info "proxy") "job" (sample_callback sample_published)
    (response_of (execute (test_deps 0) (test_env 2 DRAND_GENESIS) (sample_info "player")
      (ExecuteMsg_RollDice "job") sample_init).1)
    (response_of (execute (test_deps 0) (test_env 2 (DRAND_GENESIS + 4000000000))
      (sample_info "player") (ExecuteMsg_RollDice "job") sample_rolled).1)
    Response_new sample_init sample_rolled sample_rolled sample_rolled_twice sample);
    try (by vm_compute).
Defined.
