(* ===== verification/Demo.v ===== *)
(** * nois-demo: estimating pi (contracts/nois-demo)

    A dapp that requests randomness from a nois-proxy and estimates pi with ten
    thousand points derived from the answer. *)
From stdpp Require Import prelude gmap strings list sorting pretty.
From Stdlib Require Import NArith Lia.
From S2P Require Import Prelude.
From S2P Require Import CosmWasm.
From S2P Require Import Fixtures.
From S2P Require Import Nois.

(** ** Decimals

    [cosmwasm_std::Decimal]: 128 bit multiples of 10^-18; the operators panic
    when the result does not fit. *)

Abbreviation Decimal := N (only parsing).
Definition decimal_one : Decimal := 1000000000000000000.
Definition decimal_mul {E} (a b : Decimal) : outcome E Decimal := checked 128 (a * b / decimal_one).
Definition decimal_add {E} (a b : Decimal) : outcome E Decimal := uadd 128 a b.

Class ShowDecimal := show_decimal : Decimal → string.

(** ** Errors, state and messages (error.rs, state.rs, msg.rs) *)

Inductive ContractError :=
  | ContractError_Std (e : StdError)
  | ContractError_InvalidProxyAddress
  | ContractError_UnauthorizedReceive
  | ContractError_InvalidRandomness.
#[global] Instance ContractError_from_std : FromStd ContractError := ContractError_Std.

Record Storage := { nois_proxy : option Addr; results : gmap string Decimal }.

Definition NOIS_PROXY : Item Storage Addr := {|
  item_get := nois_proxy;
  item_set v s := {| nois_proxy := v; results := results s |};
|}.
Definition RESULTS : Map Storage string Decimal := {|
  map_get := results;
  map_set v s := {| nois_proxy := nois_proxy s; results := v |};
|}.

Record InstantiateMsg := { msg_nois_proxy : string }.
Inductive ExecuteMsg :=
  | ExecuteMsg_EstimatePi (job_id : string)
  | ExecuteMsg_NoisReceive (callback : NoisCallback).
Inductive QueryMsg :=
  | QueryMsg_Results
  | QueryMsg_Result (job_id : string).

(** ** The contract (contract.rs) *)

Section contract.
Context `{Nois} `{Json ProxyExecuteMsg} `{ShowDecimal}.

Definition instantiate (deps : Deps) (env : Env) (info : MessageInfo) (msg : InstantiateMsg) :
    M Storage ContractError Response :=
  nois_proxy_addr ← lift (map_err (λ _, ContractError_InvalidProxyAddress)
    (addr_validate_ (api deps) (msg_nois_proxy msg)));
  save NOIS_PROXY nois_proxy_addr ;;
  mret (Response_new
    |> add_attribute "action" "instantiate"
    |> add_attribute "nois_proxy" (msg_nois_proxy msg)).

Definition execute_estimate_pi (deps : Deps) (env : Env) (info : MessageInfo) (job_id : string) :
    M Storage ContractError Response :=
  nois_proxy ← load NOIS_PROXY;
  msg ← std (to_json_binary (ProxyExecuteMsg_GetNextRandomness job_id));
  mret (Response_new
    |> add_message (CosmosMsg_Wasm (WasmMsg_Execute nois_proxy msg (funds info)))).

Definition ROUNDS : u32 := 10000.

(** The [for] loop over the rounds; [n] values were provided before. *)
Fixpoint estimate_loop {E} (rounds : nat) (randomness : Binary) (n : nat) (inside : u32) :
    outcome E u32 :=
  match rounds with
  | O => Ok inside
  | S rounds =>
      let x := random_decimal (sub_randomness randomness n) in
      let y := random_decimal (sub_randomness randomness (S n)) in
      xx ← decimal_mul x x;
      yy ← decimal_mul y y;
      sum ← decimal_add xx yy;
      inside ← (if sum <? decimal_one then uadd 32 inside 1 else Ok inside);
      estimate_loop rounds randomness (S (S n)) inside
  end.

Definition execute_receive (deps : Deps) (env : Env) (info : MessageInfo)
    (callback : NoisCallback) : M Storage ContractError Response :=
  proxy ← load NOIS_PROXY;
  ensure (bool_decide (sender info = proxy)) ContractError_UnauthorizedReceive ;;
  randomness ← lift (ok_or (to_array_32 (callback_randomness callback))
    ContractError_InvalidRandomness);
  inside ← lift (estimate_loop (N.to_nat ROUNDS) randomness 0 0);
  in_circle_ratio ←
    (if ROUNDS =? 0 then panic else lift (checked 128 (inside * decimal_one / ROUNDS)));
  let four := 4 * decimal_one in
  estimated_pi ← lift (decimal_mul in_circle_ratio four);
  map_save RESULTS (callback_job_id callback) estimated_pi ;;
  mret Response_new.

Definition execute (deps : Deps) (env : Env) (info : MessageInfo) (msg : ExecuteMsg) :
    M Storage ContractError Response :=
  match msg with
  | ExecuteMsg_EstimatePi job_id => execute_estimate_pi deps env info job_id
  | ExecuteMsg_NoisReceive callback => execute_receive deps env info callback
  end.

Definition query_results (deps : Deps) : M Storage StdError (list string) :=
  rows ← range RESULTS None None Order_Ascending;
  mret ((λ '(id, value), id +:+ ":" +:+ show_decimal value) <$> rows).

Definition query_result (deps : Deps) (job_id : string) : M Storage StdError (option Decimal) :=
  map_may_load RESULTS job_id.

Definition query `{Json (list string)} `{Json (option Decimal)} (deps : Deps) (env : Env)
    (msg : QueryMsg) : M Storage StdError Binary :=
  match msg with
  | QueryMsg_Results => r ← query_results deps; std (to_json_binary r)
  | QueryMsg_Result job_id => r ← query_result deps job_id; std (to_json_binary r)
  end.
End contract.

(** ** Lemmas *)

Section lemmas.
Context `{Nois} `{Json ProxyExecuteMsg}.

(** Whether the point of one round lies in the quarter circle. *)
Definition hit (randomness : Binary) (n : nat) : bool :=
  let x := random_decimal (sub_randomness randomness n) in
  let y := random_decimal (sub_randomness randomness (S n)) in
  x * x / decimal_one + y * y / decimal_one <? decimal_one.

Fixpoint hits (rounds : nat) (randomness : Binary) (n : nat) : N :=
  match rounds with
  | O => 0
  | S rounds => (if hit randomness n then 1 else 0) + hits rounds randomness (S (S n))
  end.

Lemma hits_le rounds randomness n : hits rounds randomness n ≤ N.of_nat rounds.
Proof.
  revert n. induction rounds as [|rounds IH]; intros n; simpl; [lia|].
  specialize (IH (S (S n))). destruct (hit randomness n); lia.
Qed.

Lemma square_lt x : x < decimal_one → x * x / decimal_one ≤ decimal_one.
Proof.
  intros Hx. apply N.Div0.div_le_upper_bound. apply N.mul_le_mono; lia.
Qed.

Lemma estimate_loop_run {E} rounds randomness n inside :
  (∀ r, random_decimal r < decimal_one) → inside + N.of_nat rounds ≤ umax 32 →
  (estimate_loop rounds randomness n inside : outcome E N) =
    Ok (inside + hits rounds randomness n).
Proof.
  intros Hrand. revert n inside. induction rounds as [|rounds IH]; intros n inside Hmax.
  { simpl. by rewrite N.add_0_r. }
  assert (decimal_one + decimal_one ≤ umax 128) as Hone by by vm_compute.
  pose proof (square_lt _ (Hrand (sub_randomness randomness n))) as Hx.
  pose proof (square_lt _ (Hrand (sub_randomness randomness (S n)))) as Hy.
  cbn [estimate_loop hits]. unfold decimal_mul, decimal_add, uadd, hit.
  cbv zeta. generalize dependent (random_decimal (sub_randomness randomness n)). intros x Hx.
  generalize dependent (random_decimal (sub_randomness randomness (S n))). intros y Hy.
  repeat (rewrite checked_le by lia; cbn [mbind outcome_bind]).
  destruct (_ <? decimal_one); cbn [mbind outcome_bind]; rewrite IH by lia; f_equal; lia.
Qed.
End lemmas.

(** ** Properties *)

(** C40. The estimate is total and in range: for randomness helpers that return
    decimals below one, every callback of the configured proxy with 32 bytes of
    randomness succeeds, no arithmetic overflows, and the stored result is four
    times the share of points in the quarter circle, a number between 0 and 4. *)
Theorem estimate_in_range `{Nois} `{Json ProxyExecuteMsg} (deps : Deps) (env : Env)
    (info : MessageInfo) (c : NoisCallback) (s : Storage)
    (Hrand : ∀ r, random_decimal r < decimal_one) (Hproxy : nois_proxy s = Some (sender info))
    (Hlen : len (callback_randomness c) = 32) :
  ∃ pi, execute deps env info (ExecuteMsg_NoisReceive c) s =
      (Ok Response_new, map_set RESULTS (<[callback_job_id c := pi]> (results s)) s) ∧
    pi = hits (N.to_nat ROUNDS) (callback_randomness c) 0 * decimal_one / ROUNDS * 4 ∧
    pi ≤ 4 * decimal_one.
Proof.
  set (h := hits (N.to_nat ROUNDS) (callback_randomness c) 0).
  assert (h ≤ ROUNDS) as Hh.
  { pose proof (hits_le (N.to_nat ROUNDS) (callback_randomness c) 0). lia. }
  assert (h * decimal_one / ROUNDS ≤ decimal_one) as Hratio.
  { apply N.Div0.div_le_upper_bound. by apply N.mul_le_mono_r. }
  assert (4 * decimal_one ≤ umax 128) as Hmax by by vm_compute.
  exists (h * decimal_one / ROUNDS * 4).
  assert (h * decimal_one / ROUNDS * (4 * decimal_one) / decimal_one =
    h * decimal_one / ROUNDS * 4) as Hpi by (rewrite N.mul_assoc; by apply N.div_mul).
  split; [|split; [done|lia]].
  cbn [execute]. unfold execute_receive, to_array_32.
  erewrite M_bind_run; [|by apply load_some].
  rewrite bool_decide_true by done. erewrite M_bind_run by done.
  rewrite Hlen. erewrite M_bind_run by done.
  erewrite M_bind_run; [|unfold lift; rewrite estimate_loop_run; [done|done|by vm_compute]].
  rewrite N.add_0_l. fold h. clearbody h. change (ROUNDS =? 0) with false. cbv iota.
  rewrite checked_le by lia. erewrite M_bind_run by done.
  unfold decimal_mul. rewrite Hpi, checked_le by lia. by erewrite M_bind_run by done.
Qed.

(** ** Witness *)

Lemma estimate_in_range_witness : ∃ pi,
  execute (test_deps 0) (test_env 1 1) {| sender := "proxy"; funds := [] |}
    (ExecuteMsg_NoisReceive {| callback_job_id := "job"; callback_published := 5;
       callback_randomness := "0123456789abcdef0123456789abcdef" |})
    {| nois_proxy := Some "proxy"; results := ∅ |} =
  (Ok Response_new, {| nois_proxy := Some "proxy"; results := <["job" := pi]> ∅ |}) ∧
  pi = hits (N.to_nat ROUNDS) "0123456789abcdef0123456789abcdef" 0 * decimal_one / ROUNDS * 4 ∧
  pi ≤ 4 * decimal_one.
Proof.
  apply (estimate_in_range (test_deps 0) (test_env 1 1) {| sender := "proxy"; funds := [] |}
    {| callback_job_id := "job"; callback_published := 5;
       callback_randomness := "0123456789abcdef0123456789abcdef" |}
    {| nois_proxy := Some "proxy"; results := ∅ |}); [|done|done].
  intros r. by vm_compute.
Defined.
