(* ===== verification/System.v ===== *)
(** * The system: proxy, gateway, drand and payment together

    The contracts only interact through messages and packets whose serialized
    form one contract writes and another one parses. The theorems of this file
    follow a request through all of them: from the dapp to the gateway, from the
    drand network to the gateway, and from the gateway back to the dapp. *)
From stdpp Require Import prelude gmap strings list sorting pretty.
From Stdlib Require Import NArith Lia.
From S2P Require Import Prelude.
From S2P Require Import CosmWasm.
From S2P Require Import DrandCommon.
From S2P Require Import NoisProtocol.
From S2P Require Import Fixtures.
From S2P Require Import Sink.
From S2P Require Import Payment.
From S2P Require Import Drand.
From S2P Require Import GatewayState.
From S2P Require Import RequestRouter.
From S2P Require Import Gateway.
From S2P Require Import Nois.
From S2P Require Import Proxy.

(** What one contract writes the other one parses. *)
Lemma json_decode {A} `{JsonLaws A} (x : A) b : to_json_binary x = Ok b → from_json b = Ok x.
Proof. destruct (json_roundtrip x) as (b' & Hb & ?). rewrite Hb. by intros [= <-]. Qed.

Section round_trip.
Context `{Display} `{Anybuf} `{Sha256} `{Instantiate2} `{Nois} `{JsonLaws InPacket}
  `{JsonLaws InPacketAck} `{JsonLaws OutPacket} `{JsonLaws OutPacketAck} `{Json StdAck}
  `{JsonLaws RequestBeaconOrigin} `{JsonLaws ReceiverExecuteMsg} `{Json Drand.ExecuteMsg}
  `{Json Payment.InstantiateMsg} `{Json Payment.ExecuteMsg}.

(** The packet among the messages of a request. *)
Lemma request_packet env info cfg after job_id s msgs ch data t :
  Proxy.request_sent env info cfg after job_id s msgs →
  CosmosMsg_Ibc (IbcMsg_SendPacket ch data t) ∈ sub_msg <$> msgs →
  ∃ origin, to_json_binary {| origin_sender := sender info; origin_job_id := job_id |} = Ok origin ∧
    from_json data = Ok (InPacket_RequestBeacon after origin).
Proof.
  intros (chan & origin & data' & _ & Horigin & Hdata & ->). rewrite sub_msg_new.
  rewrite elem_of_app, list_elem_of_singleton. intros [Hin|Heq].
  - exfalso. revert Hin. unfold transfer_part.
    destruct (mode cfg), (Proxy.payment cfg); try destruct (_ =? _);
      rewrite ?list_elem_of_singleton, ?elem_of_nil; done.
  - injection Heq as -> -> ->. exists origin. split; [done|]. by apply json_decode.
Qed.

(** The proxy answers the delivery of a job that came from it. *)
Lemma delivery_answered deps env msg env2 round randomness job m o chan data t s cfg :
  to_json_binary o = Ok (origin job) →
  delivers env2 round randomness job m →
  m = CosmosMsg_Ibc (IbcMsg_SendPacket chan data t) → packet_data msg = data →
  Proxy.config s = Some cfg →
  ∃ r ack cb, Proxy.ibc_packet_receive deps env msg s = (Ok r, s) ∧
    acknowledgement r = StdAck_Success ack ∧
    messages (response r) = [callback cfg o cb] ∧
    from_json cb = Ok (ReceiverExecuteMsg_NoisReceive {|
      callback_job_id := origin_job_id o; callback_published := publish_time round;
      callback_randomness := randomness |}).
Proof.
  intros Ho (data' & Hdata & ->) Heq Hmsg Hcfg.
  injection Heq as _ Heq _; subst data'.
  destruct (json_roundtrip OutPacketAck_DeliverBeacon) as (ack & Hack & _).
  destruct (json_roundtrip (ReceiverExecuteMsg_NoisReceive {|
    callback_job_id := origin_job_id o; callback_published := publish_time round;
    callback_randomness := randomness |})) as (cb & Hcb & Hcb').
  destruct (deliver_beacon_run deps env msg (source_id job) (publish_time round) randomness
    (origin job) o cb ack s cfg) as (r & ? & ? & ?).
  - rewrite Hmsg. by apply json_decode.
  - by apply json_decode.
  - done.
  - done.
  - done.
  - by exists r, ack, cb.
Qed.

(** What the dapp gets for a job: whatever randomness the gateway delivers for
    it, the proxy acknowledges the packet and calls back the very sender of the
    request, with its job ID, the publish time of the round and the randomness. *)
Definition comes_back (info : MessageInfo) (job_id : string) (round : u64) (job : Job) : Prop :=
  ∀ env randomness m, delivers env round randomness job m →
  ∃ data t, m = CosmosMsg_Ibc (IbcMsg_SendPacket (channel job) data t) ∧
  ∀ deps env answer s cfg, packet_data answer = data → Proxy.config s = Some cfg →
  ∃ r ack cb, Proxy.ibc_packet_receive deps env answer s = (Ok r, s) ∧
    acknowledgement r = StdAck_Success ack ∧
    messages (response r) =
      [callback cfg {| origin_sender := sender info; origin_job_id := job_id |} cb] ∧
    from_json cb = Ok (ReceiverExecuteMsg_NoisReceive {|
      callback_job_id := job_id; callback_published := publish_time round;
      callback_randomness := randomness |}).

(** C6. The round trip of a request. Suppose a dapp's request is accepted by the
    proxy, its packet reaches the gateway and is acknowledged with success while
    the committed round is not available yet. Then one job is added at the end
    of the queue of that round, the round is published after the requested time,
    and whenever the gateway later sends the delivery of that job, the proxy
    acknowledges it and calls back the very dapp that asked, with its job ID, the
    publish time of the round and the randomness that the gateway sent. *)
Theorem request_round_trip
    (pdeps : Deps) (penv : Env) (info : MessageInfo) (after : Timestamp) (job_id : string)
    (sp sp' : Proxy.Storage) (rp : Response) (ch data : string) (t : Timestamp)
    (gdeps : Deps) (genv : Env) (msg : IbcPacketReceiveMsg)
    (sg sg' : GatewayState.Storage) (rg : IbcReceiveResponse) (b : Binary)
    (Hproxy : Proxy.execute pdeps penv info (Proxy.ExecuteMsg_GetRandomnessAfter after job_id) sp
      = (Ok rp, sp'))
    (Hpacket : CosmosMsg_Ibc (IbcMsg_SendPacket ch data t) ∈ sub_msg <$> messages rp)
    (Hrelay : packet_data msg = data)
    (Hreach : reachable Gateway.init Gateway.step sg)
    (Hgateway : Gateway.ibc_packet_receive gdeps genv msg sg = (Ok rg, sg'))
    (Hack : acknowledgement rg = StdAck_Success b)
    (Hnew : archived sg (next_round after) = None) :
  ∃ job, queue sg' (next_round after) = queue sg (next_round after) ++ [job] ∧
    channel job = packet_dest_channel_id msg ∧ after < publish_time (next_round after) ∧
    comes_back info job_id (next_round after) job.
Proof.
  simpl in Hproxy. unfold execute_get_randomness_after in Hproxy. inv_run.
  match goal with H : execute_get_randomness_impl _ _ _ _ _ _ _ _ = _ |- _ =>
    apply get_randomness_impl_ok in H as (-> & _ & Hsent) end.
  destruct (request_packet _ _ _ _ _ _ _ _ _ _ Hsent Hpacket) as (origin & Horigin & Hdata).
  rewrite <-Hrelay in Hdata.
  pose proof (ibc_packet_receive_request_ok _ _ _ _ _ _ _ _ _ Hdata Hgateway Hack)
    as (receipt & s1 & cfg & customer & pay & _ & [_ Hrouted] & _ & _ & _ & _ & _ & Hsg').
  rewrite Hnew in Hrouted. destruct Hrouted as (_ & -> & _).
  exists (job_of (packet_dest_channel_id msg) after origin).
  split; [|split; [done|split; [apply publish_time_next_round_gt|]]].
  - rewrite Hsg'.
    change (queue (map_set GatewayState.CUSTOMERS _ (map_set REQUESTS_LOG _ ?s1)) ?r)
      with (queue s1 r).
    destruct (reachable_gateway_well_formed sg Hreach) as [Hwf _].
    rewrite queue_enqueued by done. by rewrite decide_True.
  - intros env2 randomness m Hdel. pose proof Hdel as (data2 & _ & Hm).
    eexists data2, _. split; [exact Hm|].
    intros deps env answer s cfg' Hans Hcfg'.
    by eapply (delivery_answered deps env answer env2 (next_round after) randomness _ m
      {| origin_sender := sender info; origin_job_id := job_id |}); [|exact Hdel|exact Hm|..].
Qed.
End round_trip.

(** ** The way of the price *)

(** One contract writes a message of type [A] and another one parses it as [f x]. *)
Class Understands {A B} `{Json A, Json B} (f : A → B) :=
  understands x b : to_json_binary x = Ok b → from_json b = Ok (f x).

Section charge.
Context `{Display} `{Anybuf} `{Sha256} `{Instantiate2} `{Json OutPacket}
  `{Json OutPacketAck} `{Json InPacket} `{Json InPacketAck} `{Json StdAck}
  `{Json Drand.ExecuteMsg} `{Json Payment.InstantiateMsg} `{JsonLaws Payment.ExecuteMsg}
  `{JsonLaws NoisSinkExecuteMsg} `{Json Sink.ExecuteMsg}
  `{!Understands (λ _ : NoisSinkExecuteMsg, Sink.ExecuteMsg_Burn)}.

(** The burn among the messages of a payment. *)
Lemma pay_burn_message cfg bin env (burn pool : Coin) (rew : string * Coin) m coins :
  CosmosMsg_Wasm (WasmMsg_Execute (Payment.sink cfg) m coins)
    ∈ sub_msg <$> (SubMsg_new <$> pay_messages cfg bin env burn pool rew) →
  m = bin ∧ coins = [burn].
Proof.
  rewrite sub_msg_new. unfold pay_messages.
  destruct (amount burn =? 0), (amount rew.2 =? 0), (amount pool =? 0); set_solver.
Qed.

(** What a payment contract does with a message of the gateway, and the sink
    with a message of the payment contract. *)
Definition collects (pay : Binary) (p : Coin) (reward_to : Addr) : Prop :=
  ∃ burn rest reward,
    from_json pay = Ok (Payment.ExecuteMsg_Pay burn rest (reward_to, reward)) ∧
    amount burn + amount rest + amount reward = amount p ∧
    denom burn = denom p ∧ denom rest = denom p ∧ denom reward = denom p ∧
    ∀ deps env info s cfg a, Payment.config s = Some cfg → sender info = Payment.gateway cfg →
      funds info = [] → addr_validate_ (api deps) reward_to = Ok a →
    ∃ b r, Payment.execute deps env info (Payment.ExecuteMsg_Pay burn rest (reward_to, reward)) s
        = (Ok r, s) ∧
      messages r = SubMsg_new <$> pay_messages cfg b env burn rest (reward_to, reward) ∧
      ∀ m coins,
        CosmosMsg_Wasm (WasmMsg_Execute (Payment.sink cfg) m coins) ∈ sub_msg <$> messages r →
        from_json m = Ok Sink.ExecuteMsg_Burn ∧ coins = [burn] ∧
      ∀ sdeps senv sinfo ss, funds sinfo = coins → denom p = Sink.BURN_DENOM →
        Sink.last_id ss + 1 ≤ umax 32 →
      ∃ sr ss', Sink.execute sdeps senv sinfo Sink.ExecuteMsg_Burn ss = (Ok sr, ss') ∧
        Sink.recorded {| Sink.burner := Some (sender sinfo); Sink.ash_amount := burn;
                         Sink.time := block_time senv |} ss ss'.

(** The price of a request is collected. When the gateway acknowledges a
    request with success it sends the payment contract of the customer a message
    that this contract parses, accepts from the gateway without changing its
    state and splits into parts that add up to the price in the denom of the
    price; the part to burn arrives at the sink as a burn of exactly this coin,
    which the sink accepts and records while it has ids left. *)
Lemma charge_is_collected (deps : Deps) (env : Env) (msg : IbcPacketReceiveMsg)
    (after : Timestamp) (origin : Binary) (s s' : GatewayState.Storage)
    (r : IbcReceiveResponse) (b : Binary)
    (Hpacket : from_json (packet_data msg) = Ok (InPacket_RequestBeacon after origin))
    (Hrun : Gateway.ibc_packet_receive deps env msg s = (Ok r, s'))
    (Hack : acknowledgement r = StdAck_Success b) :
  ∃ cfg customer pay, GatewayState.config s = Some cfg ∧
    GatewayState.customers s !! packet_dest_channel_id msg = Some customer ∧
    CosmosMsg_Wasm (WasmMsg_Execute (GatewayState.payment customer) pay []) ∈ sub_msg <$> messages (response r) ∧
    collects pay (GatewayState.price cfg) (relayer msg).
Proof.
  pose proof (ibc_packet_receive_request_ok _ _ _ _ _ _ _ _ _ Hpacket Hrun Hack)
    as (receipt & s1 & cfg & customer & pay & _ & _ & Hcfg & Hcust & _ & Hpay & Hmsgs & _).
  exists cfg, customer, pay. split; [done|]. split; [done|].
  split; [rewrite Hmsgs; set_solver|].
  apply json_decode in Hpay. do 3 eexists. split; [exact Hpay|]. simpl.
  split; [rewrite <-(parts_sum (amount (GatewayState.price cfg))) at 4; lia|]. split_and!; [done..|].
  intros pdeps penv info ps pcfg a Hpcfg Hsender Hfunds Haddr.
  destruct (json_roundtrip NoisSinkExecuteMsg_Burn) as (bin & Hbin & _).
  pose proof (λ burn rest rew, execute_pay_run pdeps penv info burn rest (relayer msg, rew)
    ps pcfg bin a Hpcfg Hbin Hsender Hfunds Haddr) as Hpays.
  edestruct Hpays as (rp & Hrp & Hm). clear Hpays.
  exists bin, rp. split; [exact Hrp|]. split; [exact Hm|].
  intros m coins Hin. rewrite Hm in Hin. apply pay_burn_message in Hin as [-> ->].
  split; [exact (understands (f:=λ _, Sink.ExecuteMsg_Burn) _ _ Hbin)|]. split; [done|].
  intros sdeps senv sinfo ss Hsf Hd Hid. by apply execute_burn_run.
Qed.
End charge.

(** ** The way of a beacon *)

Section beacon.
Context `{Display} `{Sha256} `{Instantiate2} `{DrandVerify} `{Json NoisGatewayExecuteMsg}
  `{JsonLaws OutPacket} `{Json OutPacketAck} `{Json InPacket} `{Json InPacketAck}
  `{Json StdAck} `{Json Drand.ExecuteMsg} `{Json Payment.InstantiateMsg}
  `{Json Payment.ExecuteMsg} `{Json Gateway.ExecuteMsg}
  `{!Understands (λ '(NoisGatewayExecuteMsg_AddVerifiedRound r x v),
      Gateway.ExecuteMsg_AddVerifiedRound r x v)}.

Lemma accepted_signature_verified s round signature env :
  Drand.well_formed s → signature_accepted s round signature →
  verified_beacon round {| verified := block_time env; randomness := derive_randomness signature |}.
Proof.
  intros Hwf Hsig. unfold signature_accepted in Hsig. destruct (_ <? _).
  - destruct Hsig as (pk & ? & ?). by exists pk, signature.
  - destruct Hsig as (b & Hb & Heq).
    destruct (wf_verified s Hwf round b Hb) as (pk & sig & ? & ? & ?).
    exists pk, sig. simpl. by rewrite <-Heq.
Qed.

(** What the gateway does with a beacon of a sender it trusts. *)
Definition answers_jobs (who : Addr) (round : u64) (rnd : HexBinary) (v : bool) : Prop :=
  ∀ deps env info s cfg, sender info = who → GatewayState.config s = Some cfg →
    who ∈ unwrap_or [] (trusted_sources cfg) → 1 ≤ round ≤ umax 32 →
    count_processed s round + max_jobs v ≤ umax 32 →
    block_time env + DELIVER_BEACON_PACKET_LIFETIME * nanos_per_second ≤ umax 64 →
  ∃ r s' n,
    Gateway.execute deps env info (Gateway.ExecuteMsg_AddVerifiedRound round rnd v) s = (Ok r, s') ∧
    archived s' round = Some rnd ∧
    n = N.min (max_jobs v) (N.of_nat (length (queue s round))) ∧
    Forall2 (delivers env round rnd) (take (N.to_nat n) (queue s round))
      (sub_msg <$> messages r).

(** C7. Only verified randomness reaches the dapps. Every message that nois-drand
    sends to a contract when it accepts a submission is a report that the
    gateway parses; its randomness is derived from a signature of the round that
    verifies under the key of the drand network, and a gateway that trusts
    nois-drand archives it and answers its oldest waiting jobs with it. *)
Theorem verified_randomness_is_delivered (deps : Deps) (env : Env) (info : MessageInfo)
    (round : u64) (signature : HexBinary) (s s' : Drand.Storage) (r : Response)
    (gw : Addr) (m : Binary) (coins : list Coin)
    (Hreach : reachable Drand.init Drand.step s)
    (Hrun : Drand.execute deps env info (Drand.ExecuteMsg_AddRound round signature) s = (Ok r, s'))
    (Hsent : CosmosMsg_Wasm (WasmMsg_Execute gw m coins) ∈ sub_msg <$> messages r) :
  Drand.gateway <$> Drand.config s = Some (Some gw) ∧ coins = [] ∧
  ∃ rnd v, from_json m = Ok (Gateway.ExecuteMsg_AddVerifiedRound round rnd v) ∧
    verified_beacon round {| verified := block_time env; randomness := rnd |} ∧
    answers_jobs (contract_address env) round rnd v.
Proof.
  apply execute_add_round_ok in Hrun
    as (cfg & c & to_gw & Hcfg & _ & _ & Hsig & _ & _ & _ & _ & Hmsgs & Hgw & _).
  rewrite Hmsgs, sub_msg_new, elem_of_app in Hsent.
  destruct Hsent as [Hsent|Hsent]; [|exfalso; destruct (amount c =? 0); set_solver].
  rewrite Hcfg. simpl. destruct (Drand.gateway cfg) as [gw'|]; [|subst; set_solver].
  destruct Hgw as (b & Hb & ->). apply list_elem_of_singleton in Hsent.
  injection Hsent as -> -> ->. split; [done|]. split; [done|].
  exists (derive_randomness signature),
    (Drand.count_of s round <? NUMBER_OF_SUBMISSION_VERIFICATION_PER_ROUND).
  split; [exact (understands (f:=λ '(NoisGatewayExecuteMsg_AddVerifiedRound r x v),
    Gateway.ExecuteMsg_AddVerifiedRound r x v) _ _ Hb)|].
  split; [apply (accepted_signature_verified s); [by apply reachable_well_formed|done]|].
  intros gdeps genv ginfo sg gcfg <- Hgcfg Htrusted Hround Hcount Htime.
  destruct (add_verified_round_run gdeps genv ginfo round (derive_randomness signature)
    (Drand.count_of s round <? NUMBER_OF_SUBMISSION_VERIFICATION_PER_ROUND) sg gcfg)
    as (rg & sg' & n & Hg & Hdel & Hn & Ha & _);
    try first [done|apply derive_randomness_nonempty].
  exists rg, sg', n. split; [exact Hg|]. split; [exact Ha|]. split; [exact Hn|].
  destruct Hdel as (-> & Hdel & _). by rewrite Nat2N.id.
Qed.
End beacon.

(** ** Witnesses *)

Definition sample_after : Timestamp := DRAND_GENESIS + DRAND_ROUND_LENGTH.
Definition dapp_request : Response :=
  response_of (Proxy.execute (test_deps 0) Proxy.sample_env
    (Proxy.sample_info "dapp" [coin 10 "u"])
    (Proxy.ExecuteMsg_GetRandomnessAfter sample_after "job") Proxy.sample).1.
(** The payment transfer precedes the packet. *)
Definition dapp_packet : IbcPacketReceiveMsg :=
  match sub_msg <$> messages dapp_request with
  | [_; CosmosMsg_Ibc (IbcMsg_SendPacket _ data _)] =>
      {| packet_data := data; packet_dest_channel_id := "chan-1"; relayer := "relayer" |}
  | _ => {| packet_data := ""; packet_dest_channel_id := ""; relayer := "" |}
  end.

Lemma request_round_trip_witness :
  ∃ job sg', queue sg' 3 = queue Gateway.sample_two 3 ++ [job] ∧
    channel job = "chan-1" ∧ sample_after < publish_time 3 ∧
    comes_back (Proxy.sample_info "dapp" [coin 10 "u"]) "job" 3 job.
Proof.
  destruct (run_snd (Gateway.ibc_packet_receive (test_deps 0) (test_env 6 60) dapp_packet)
    Gateway.sample_two) as [rg Hrg]; [by vm_compute|].
  assert (∃ b, acknowledgement rg = StdAck_Success b) as [b Hb].
  { revert Hrg. vm_compute. intros [= <-]. eauto. }
  edestruct (request_round_trip (test_deps 0) Proxy.sample_env
    (Proxy.sample_info "dapp" [coin 10 "u"]) sample_after "job" Proxy.sample Proxy.sample
    dapp_request "channel-12" (packet_data dapp_packet)
    (block_time Proxy.sample_env + REQUEST_BEACON_PACKET_LIFETIME * nanos_per_second)
    (test_deps 0) (test_env 6 60) dapp_packet Gateway.sample_two (Gateway.ibc_packet_receive (test_deps 0) (test_env 6 60)
      dapp_packet Gateway.sample_two).2 rg b)
    as (job & ? & ? & ? & ?).
  - by vm_compute.
  - vm_compute. right. left.
  - done.
  - exact Gateway.gateway_sample_reachable.
  - exact Hrg.
  - done.
  - by vm_compute.
  - exists job. eexists. by split_and!.
Defined.

#[local] Instance sink_msg_json : Json Sink.ExecuteMsg := {|
  to_json_binary m := Ok "";
  from_json b :=
    match (from_json b : outcome StdError NoisSinkExecuteMsg) with
    | Ok NoisSinkExecuteMsg_Burn => Ok Sink.ExecuteMsg_Burn
    | Err e => Err e
    | Panic => Panic
    end;
|}.
#[local] Instance sink_understands : Understands (λ _ : NoisSinkExecuteMsg, Sink.ExecuteMsg_Burn).
Proof.
  intros x b Hb%json_decode. unfold from_json, sink_msg_json. by rewrite Hb; destruct x.
Qed.

Lemma charge_is_collected_witness :
  ∃ r cfg customer pay, GatewayState.config Gateway.sample_one = Some cfg ∧
    GatewayState.customers Gateway.sample_one !! "chan-1" = Some customer ∧
    CosmosMsg_Wasm (WasmMsg_Execute (GatewayState.payment customer) pay [])
      ∈ sub_msg <$> messages (response r) ∧
    collects pay (GatewayState.price cfg) "relayer".
Proof.
  destruct (run_snd (Gateway.ibc_packet_receive (test_deps 0) (test_env 4 40)
    (Gateway.sample_packet sample_after "b")) Gateway.sample_one) as [r Hr]; [by vm_compute|].
  assert (∃ b, acknowledgement r = StdAck_Success b) as [b Hb].
  { revert Hr. vm_compute. intros [= <-]. eauto. }
  exists r. apply (charge_is_collected (test_deps 0) (test_env 4 40)
    (Gateway.sample_packet sample_after "b") sample_after "b" Gateway.sample_one
    (Gateway.ibc_packet_receive (test_deps 0) (test_env 4 40)
      (Gateway.sample_packet sample_after "b") Gateway.sample_one).2 r b);
    [by vm_compute|exact Hr|exact Hb].
Defined.

#[export] Instance gateway_msg_json : Json Gateway.ExecuteMsg := {|
  to_json_binary m := Ok "";
  from_json b :=
    match (from_json b : outcome StdError NoisGatewayExecuteMsg) with
    | Ok (NoisGatewayExecuteMsg_AddVerifiedRound r x v) =>
        Ok (Gateway.ExecuteMsg_AddVerifiedRound r x v)
    | Err e => Err e
    | Panic => Panic
    end;
|}.
#[export] Instance gateway_understands :
  Understands (λ '(NoisGatewayExecuteMsg_AddVerifiedRound r x v),
    Gateway.ExecuteMsg_AddVerifiedRound r x v).
Proof.
  intros x b Hb%json_decode. unfold from_json, gateway_msg_json. by rewrite Hb; destruct x.
Qed.

(** The gateway address is configured before the first submission. *)
Definition drand_ready : Drand.Storage :=
  Drand.sample_run (Drand.sample_after 3)
    ("boss", Drand.ExecuteMsg_SetConfig None (Some "gateway") None None None).
Definition drand_submission : M Drand.Storage Drand.ContractError Response :=
  Drand.execute (test_deps 1000) (test_env 2 20) (Drand.sample_info "joe")
    (Drand.ExecuteMsg_AddRound 50 "50").

Lemma drand_ready_reachable : reachable Drand.init Drand.step drand_ready.
Proof.
  eapply reachable_step; [apply (Drand.drand_sample_reachable 3); lia|].
  apply Drand.sample_run_step. by vm_compute.
Qed.

Lemma verified_randomness_is_delivered_witness : ∃ m,
  CosmosMsg_Wasm (WasmMsg_Execute "gateway" m [])
    ∈ sub_msg <$> messages (response_of (drand_submission drand_ready).1) ∧
  Drand.gateway <$> Drand.config drand_ready = Some (Some "gateway") ∧ @nil Coin = [] ∧
  ∃ rnd v, from_json m = Ok (Gateway.ExecuteMsg_AddVerifiedRound 50 rnd v) ∧
    verified_beacon 50 {| verified := 20; randomness := rnd |} ∧
    answers_jobs "contract" 50 rnd v.
Proof.
  assert (∃ m, CosmosMsg_Wasm (WasmMsg_Execute "gateway" m [])
    ∈ sub_msg <$> messages (response_of (drand_submission drand_ready).1)) as [m Hm].
  { eexists. vm_compute. left. }
  exists m. split; [exact Hm|].
  apply (verified_randomness_is_delivered (test_deps 1000) (test_env 2 20)
    (Drand.sample_info "joe") 50 "50" drand_ready (drand_submission drand_ready).2
    (response_of (drand_submission drand_ready).1) "gateway" m []).
  - exact drand_ready_reachable.
  - apply run_response. by vm_compute.
  - exact Hm.
Defined.
