(* ===== verification/Handshake.v ===== *)
(** * The handshake of a channel

    When the channel between a proxy and the gateway opens, the gateway sends
    two packets: the address of the payment contract it set up for the channel,
    and the current price of a beacon. This file follows them to the proxy. *)
From stdpp Require Import prelude gmap strings list sorting pretty.
From Stdlib Require Import NArith Lia.
From S2P Require Import Prelude.
From S2P Require Import CosmWasm.
From S2P Require Import DrandCommon.
From S2P Require Import NoisProtocol.
From S2P Require Import Fixtures.
From S2P Require Import Payment.
From S2P Require Import Drand.
From S2P Require Import GatewayState.
From S2P Require Import Gateway.
From S2P Require Import Nois.
From S2P Require Import Proxy.
From S2P Require Import System.

(** The configuration of a proxy that has a payment contract. *)
Definition with_payment (address : string) (cfg : Proxy.Config) : Proxy.Config := {|
  prices := prices cfg; manager := manager cfg; test_mode := test_mode cfg;
  callback_gas_limit := callback_gas_limit cfg; payment := Some address;
  nois_beacon_price := nois_beacon_price cfg;
  nois_beacon_price_updated := nois_beacon_price_updated cfg; mode := mode cfg;
  allowlist_enabled := allowlist_enabled cfg; min_after := min_after cfg;
  max_after := max_after cfg |}.

(** A price message in the denom of beacons. *)
Definition with_price (time : Timestamp) (price : Coin) (cfg : Proxy.Config) : Proxy.Config :=
  if bool_decide (denom price = "unois") then price_updated time (amount price) cfg else cfg.

Lemma with_payment_price address time price cfg :
  with_payment address (with_price time price cfg) =
  with_price time price (with_payment address cfg).
Proof.
  unfold with_price, price_updated, with_payment. case_bool_decide; [|done]. simpl.
  by destruct (time <? nois_beacon_price_updated cfg).
Qed.

Section handshake.
Context `{Display} `{Anybuf} `{Sha256} `{Instantiate2} `{Nois} `{Json InPacket}
  `{Json InPacketAck} `{JsonLaws OutPacket} `{JsonLaws OutPacketAck} `{Json StdAck}
  `{Json RequestBeaconOrigin} `{Json ReceiverExecuteMsg} `{Json Drand.ExecuteMsg}
  `{Json Payment.InstantiateMsg} `{Json Payment.ExecuteMsg}.

(** The proxy acknowledges the packet with success and changes its
    configuration by [f], whatever its state. *)
Definition reconfigures (data : Binary) (f : Proxy.Config → Proxy.Config) : Prop :=
  ∀ deps env chan relayer s cfg, Proxy.config s = Some cfg →
  ∃ r ack, Proxy.ibc_packet_receive deps env
      {| packet_data := data; packet_dest_channel_id := chan; CosmWasm.relayer := relayer |} s
      = (Ok r, item_set Proxy.CONFIG (Some (f cfg)) s) ∧
    acknowledgement r = StdAck_Success ack ∧ messages (response r) = [].

Lemma welcome_reconfigures data address :
  from_json data = Ok (OutPacket_Welcome address) → reconfigures data (with_payment address).
Proof.
  intros Hdata deps env chan relayer s cfg Hcfg.
  destruct (json_roundtrip OutPacketAck_Welcome) as (ack & Hack & _).
  unfold Proxy.ibc_packet_receive, or_else_ack, receive_welcome.
  erewrite M_bind_run; [|by apply std_run]. cbv iota beta.
  erewrite M_bind_run; [|by apply load_some]. erewrite M_bind_run; [|done].
  erewrite M_bind_run; [|by apply std_run]. do 2 eexists. by split_and!.
Qed.

Lemma price_reconfigures data time price :
  from_json data = Ok (OutPacket_PushBeaconPrice time (amount price) (denom price)) →
  reconfigures data (with_price time price).
Proof.
  intros Hdata deps env chan relayer s cfg Hcfg.
  destruct (json_roundtrip OutPacketAck_PushBeaconPrice) as (ack & Hack & _).
  unfold Proxy.ibc_packet_receive, or_else_ack, receive_push_beacon_price, with_price.
  erewrite M_bind_run; [|by apply std_run]. cbv iota beta.
  erewrite M_bind_run; [|by apply update_price_run].
  erewrite M_bind_run; [|by apply std_run]. eexists _, ack. split_and!.
  - case_bool_decide; [reflexivity|]. destruct s. simpl in *. by subst.
  - done.
  - done.
Qed.

(** ** Properties *)

(** C20. The handshake informs the proxy. When the gateway confirms a channel it
    registers a customer and sends two packets over the channel. Whenever and in
    whichever order the proxy receives them, it acknowledges both, and in the
    end its configuration differs only in that the payment address is that of
    the customer and, unless a newer price was known or the price is in another
    denom, the beacon price is the one of the gateway at that time. *)
Theorem handshake_informs_proxy (deps : Deps) (env : Env) (msg : IbcChannelConnectMsg)
    (s s' : GatewayState.Storage) (r : IbcBasicResponse)
    (Hrun : Gateway.ibc_channel_connect deps env msg s = (Ok r, s')) :
  ∃ channel cfg customer welcome price t1 t2,
    msg = IbcChannelConnectMsg_OpenConfirm channel ∧
    GatewayState.config s' = Some cfg ∧
    customers s' !! endpoint_channel_id channel = Some customer ∧
    [CosmosMsg_Ibc (IbcMsg_SendPacket (endpoint_channel_id channel) welcome t1);
     CosmosMsg_Ibc (IbcMsg_SendPacket (endpoint_channel_id channel) price t2)]
      `sublist_of` (sub_msg <$> messages r) ∧
  let informed c :=
    with_price (block_time env) (GatewayState.price cfg)
      (with_payment (GatewayState.payment customer) c) in
  ∀ first second, (first, second) ∈ [(welcome, price); (price, welcome)] →
  ∀ deps1 env1 chan1 relayer1 deps2 env2 chan2 relayer2 sp c, Proxy.config sp = Some c →
  ∃ r1 s1 r2, Proxy.ibc_packet_receive deps1 env1 {| packet_data := first;
      packet_dest_channel_id := chan1; CosmWasm.relayer := relayer1 |} sp = (Ok r1, s1) ∧
    Proxy.ibc_packet_receive deps2 env2 {| packet_data := second;
      packet_dest_channel_id := chan2; CosmWasm.relayer := relayer2 |} s1
      = (Ok r2, item_set Proxy.CONFIG (Some (informed c)) sp) ∧
    (∃ a1 a2, acknowledgement r1 = StdAck_Success a1 ∧ acknowledgement r2 = StdAck_Success a2) ∧
    messages (response r1) = [] ∧ messages (response r2) = [].
Proof.
  apply ibc_channel_connect_ok in Hrun as (channel & -> & Hcon).
  destruct Hcon as (cfg & ? & ? & ? & address & m & w & p & Hcfg & _ & _ & _ & _ & -> & _ & Hw
    & Hp & Hm).
  apply json_decode in Hw, Hp. apply welcome_reconfigures in Hw. apply price_reconfigures in Hp.
  exists channel, cfg, {| GatewayState.payment := address; requested_beacons := 0 |}, w, p.
  do 2 eexists. split_and!; [done|exact Hcfg|..].
  { simpl. by rewrite lookup_insert_eq. }
  { rewrite Hm. apply sublist_cons. done. }
  cbn zeta. simpl. intros first second Horder deps1 env1 chan1 relayer1 deps2 env2 chan2 relayer2 sp c Hc.
  assert (∃ f g, reconfigures first f ∧ reconfigures second g ∧
    g (f c) =
    with_price (block_time env) (GatewayState.price cfg) (with_payment address c))
    as (f & g & Hf & Hg & Hfg).
  { rewrite elem_of_cons, list_elem_of_singleton in Horder.
    destruct Horder as [[= -> ->]|[= -> ->]]; do 2 eexists; (split; [eassumption|]);
      (split; [eassumption|]); [done|apply with_payment_price]. }
  destruct (Hf deps1 env1 chan1 relayer1 sp c Hc) as (r1 & a1 & Hrun1 & Ha1 & Hm1).
  destruct (Hg deps2 env2 chan2 relayer2 (item_set Proxy.CONFIG (Some (f c)) sp) (f c) eq_refl)
    as (r2 & a2 & Hrun2 & Ha2 & Hm2).
  rewrite Hfg in Hrun2. exists r1, (item_set Proxy.CONFIG (Some (f c)) sp), r2.
  split; [exact Hrun1|]. split; [exact Hrun2|]. split_and!; [|done..].
  by exists a1, a2.
Qed.
End handshake.

(** ** Witnesses *)

Lemma handshake_informs_proxy_witness :
  let connect := Gateway.ibc_channel_connect (test_deps 0) (test_env 3 30)
    (IbcChannelConnectMsg_OpenConfirm Gateway.sample_channel) Gateway.sample_config in
  ∃ r channel cfg customer welcome price t1 t2,
    IbcChannelConnectMsg_OpenConfirm Gateway.sample_channel =
      IbcChannelConnectMsg_OpenConfirm channel ∧
    GatewayState.config connect.2 = Some cfg ∧
    customers connect.2 !! endpoint_channel_id channel = Some customer ∧
    [CosmosMsg_Ibc (IbcMsg_SendPacket (endpoint_channel_id channel) welcome t1);
     CosmosMsg_Ibc (IbcMsg_SendPacket (endpoint_channel_id channel) price t2)]
      `sublist_of` (sub_msg <$> messages r).
Proof.
  intros connect. exists (response_of connect.1).
  assert (Gateway.ibc_channel_connect (test_deps 0) (test_env 3 30)
      (IbcChannelConnectMsg_OpenConfirm Gateway.sample_channel) Gateway.sample_config
    = (Ok (response_of connect.1), connect.2)) as Hrun.
  { apply run_response. vm_compute. reflexivity. }
  destruct (handshake_informs_proxy (test_deps 0) (test_env 3 30)
    (IbcChannelConnectMsg_OpenConfirm Gateway.sample_channel) Gateway.sample_config connect.2
    (response_of connect.1) Hrun)
    as (channel & cfg & customer & welcome & price & t1 & t2 & Hc & Hcfg & Hcust & Hm & _).
  exists channel, cfg, customer, welcome, price, t1, t2.
  split; [exact Hc|]. split; [exact Hcfg|]. split; [exact Hcust|exact Hm].
Defined.
