(* ===== verification/Network.v ===== *)
(** * The network: contracts, channels and packets in flight

    The contracts of this library run on several chains: nois-drand and
    nois-gateway on the Nois chain, one nois-proxy per consumer chain, with one
    IBC channel per connection. [World] is the state of all of them, with the
    packets and messages that are under way and a history of what was asked and
    answered; [wstep] executes one event on it, by running the entry points of
    the contracts.

    What is assumed of the chains is what IBC and CosmWasm guarantee. A packet is
    received at most once, on the other end of the channel it was sent over, only
    if it was sent, before its timeout, and while the receiving end is open; it
    times out only when its timeout has passed on the receiving chain or the
    receiving end is closed. Packets are sent over open ends only: a transaction
    with a packet for another channel fails. An end of a proxy opens once, before
    the gateway's end of the same channel, and closes only after that one. The
    sender of a message is the contract that sent it. Packets can be delayed and
    reordered. The clocks of the chains are not modelled: each event brings its
    own block. Messages between contracts of one chain are executed by events of
    their own; the atomic transactions of a chain are special cases of such
    sequences of events.

    The scope of the model: both ends of a channel that carries packets are
    contracts of this library. [ibc_channel_connect] of the proxy accepts any
    counterparty, so whoever sets up a proxy has to let it connect to the gateway
    (its address and channel are public); a proxy that was connected to another
    contract would believe its deliveries. An event can still connect a proxy to
    a channel that is not one of [links], but no packet flows over it. *)
From stdpp Require Import prelude gmap strings list sorting pretty.
From Stdlib Require Import NArith Lia.
From S2P Require Import Prelude.
From S2P Require Import CosmWasm.
From S2P Require Import DrandCommon.
From S2P Require Import NoisProtocol.
From S2P Require Import Fixtures.
From S2P Require Import Payment.
From S2P Require Import Drand.
From S2P Require Import GatewayState.
From S2P Require Import RequestRouter.
From S2P Require Import Gateway.
From S2P Require Import Nois.
From S2P Require Import Proxy.
From S2P Require Import System.

(** ** Packets, mail and history *)

(** A packet under way, by the channel ID of the gateway's end. *)
Record Packet := { pkt_channel : string; pkt_data : Binary; pkt_timeout : Timestamp }.

(** A message to a contract of the Nois chain. *)
Record Mail := { mail_from : Addr; mail_to : Addr; mail_msg : Binary; mail_funds : list Coin }.

Definition packets_of (msgs : list CosmosMsg) : list Packet :=
  omap (λ m, match m with
    | CosmosMsg_Ibc (IbcMsg_SendPacket channel data timeout) =>
        Some {| pkt_channel := channel; pkt_data := data; pkt_timeout := timeout |}
    | _ => None
    end) msgs.

Definition mail_of (from : Addr) (msgs : list CosmosMsg) : list Mail :=
  omap (λ m, match m with
    | CosmosMsg_Wasm (WasmMsg_Execute to msg funds) =>
        Some {| mail_from := from; mail_to := to; mail_msg := msg; mail_funds := funds |}
    | _ => None
    end) msgs.

(** A request that a proxy accepted, with the packet it sent. *)
Record Request := {
  req_chain : string; req_sender : Addr; req_job : string; req_packet : Packet }.

(** A callback that a proxy sent. *)
Record Callback := { cb_chain : string; cb_to : Addr; cb_call : NoisCallback }.

(** What identifies a request on its way: the channel, the publish time of the
    round it is committed to, and the origin. *)
Definition Token : Type := string * Timestamp * Binary.

Record World := {
  drand_state : Drand.Storage;
  gateway_state : GatewayState.Storage;
  proxies : gmap string Proxy.Storage;
  (* the gateway's channels: the chain and the channel ID of the other end *)
  links : gmap string (string * string);
  (* the channels on which the gateway completed the handshake *)
  open_channels : gset string;
  (* those on which the proxy completed it, by the gateway's channel ID *)
  far_channels : gset string;
  (* those closed on the side of the gateway, and of the proxy *)
  near_closed : gset string;
  far_closed : gset string;
  mail : list Mail;
  to_gateway : list Packet;
  to_proxy : list Packet;
  requested : list Request;
  refused : list Token;
  expired : list Token;
  received : list Token;
  callbacks : list Callback;
}.

(** The ends that packets can be sent from and received on. *)
Definition near_open (w : World) : gset string := open_channels w ∖ near_closed w.
Definition far_open (w : World) : gset string := far_channels w ∖ far_closed w.

(** The transactions of a proxy other than the receipt of a packet. *)
Inductive ProxyTx :=
  | Tx_execute (deps : Deps) (env : Env) (info : MessageInfo) (msg : Proxy.ExecuteMsg)
  | Tx_sudo (deps : Deps) (env : Env) (msg : Proxy.SudoMsg)
  | Tx_migrate (deps : Deps) (env : Env)
  | Tx_reply (deps : Deps) (env : Env) (rp : Reply)
  | Tx_channel_connect (deps : Deps) (env : Env) (msg : IbcChannelConnectMsg)
  | Tx_channel_close (deps : Deps) (env : Env) (msg : IbcChannelCloseMsg)
  | Tx_packet_ack (deps : Deps) (env : Env) (msg : IbcPacketAckMsg)
  | Tx_packet_timeout (deps : Deps) (env : Env).

Inductive Event :=
  (* consumer chains *)
  | Proxy_new (chain : string) (deps : Deps) (env : Env) (info : MessageInfo)
      (msg : Proxy.InstantiateMsg)
  | Proxy_tx (chain : string) (tx : ProxyTx)
  | Proxy_receive (n : nat) (deps : Deps) (env : Env) (relayer : Addr)
  (* the time of the block of the consumer chain that proves the timeout *)
  | Delivery_timeout (n : nat) (now : Timestamp)
  (* channels *)
  | Channel_open (chain : string) (deps : Deps) (env : Env) (near far : IbcChannel)
  | Channel_confirm (deps : Deps) (env : Env) (near : IbcChannel)
  (* the gateway *)
  | Gateway_receive (n : nat) (deps : Deps) (env : Env) (relayer : Addr)
  (* the time of the block of the Nois chain that proves the timeout *)
  | Request_timeout (n : nat) (now : Timestamp)
  | Gateway_account (deps : Deps) (env : Env) (info : MessageInfo) (msg : Gateway.ExecuteMsg)
  | Gateway_mail (n : nat) (deps : Deps) (env : Env)
  | Gateway_migrate (deps : Deps) (env : Env)
  | Gateway_close (deps : Deps) (env : Env) (msg : IbcChannelCloseMsg)
  | Gateway_ack (deps : Deps) (env : Env) (msg : IbcPacketAckMsg)
  | Gateway_timeout (deps : Deps) (env : Env)
  (* the drand contract *)
  | Drand_account (deps : Deps) (env : Env) (info : MessageInfo) (msg : Drand.ExecuteMsg)
  | Drand_mail (n : nat) (deps : Deps) (env : Env)
  | Drand_migrate (deps : Deps) (env : Env).

(** ** Effects of transactions on the world *)

Definition gateway_did (gateway_addr : Addr) (s : GatewayState.Storage) (msgs : list CosmosMsg)
    (w : World) : World := {|
  drand_state := drand_state w; gateway_state := s; proxies := proxies w; links := links w;
  open_channels := open_channels w;
  far_channels := far_channels w; near_closed := near_closed w; far_closed := far_closed w; mail := mail w ++ mail_of gateway_addr msgs;
  to_gateway := to_gateway w; to_proxy := to_proxy w ++ packets_of msgs;
  requested := requested w; refused := refused w; expired := expired w;
  received := received w; callbacks := callbacks w |}.

Definition drand_did (drand_addr : Addr) (s : Drand.Storage) (msgs : list CosmosMsg)
    (w : World) : World := {|
  drand_state := s; gateway_state := gateway_state w; proxies := proxies w; links := links w;
  open_channels := open_channels w;
  far_channels := far_channels w; near_closed := near_closed w; far_closed := far_closed w; mail := mail w ++ mail_of drand_addr msgs;
  to_gateway := to_gateway w; to_proxy := to_proxy w; requested := requested w;
  refused := refused w; expired := expired w; received := received w;
  callbacks := callbacks w |}.

Definition proxy_did (chain : string) (s : Proxy.Storage) (ps : list Packet)
    (reqs : list Request) (w : World) : World := {|
  drand_state := drand_state w; gateway_state := gateway_state w;
  proxies := <[chain := s]> (proxies w); links := links w; open_channels := open_channels w;
  far_channels := far_channels w; near_closed := near_closed w; far_closed := far_closed w;
  mail := mail w; to_gateway := to_gateway w ++ ps; to_proxy := to_proxy w;
  requested := requested w ++ reqs; refused := refused w; expired := expired w;
  received := received w; callbacks := callbacks w |}.

(** The removal of packets and mail, with what the history records of it. *)
Definition take_request (n : nat) (refusal timeout : list Token) (w : World) : World := {|
  drand_state := drand_state w; gateway_state := gateway_state w; proxies := proxies w;
  links := links w; open_channels := open_channels w;
  far_channels := far_channels w; near_closed := near_closed w; far_closed := far_closed w; mail := mail w;
  to_gateway := delete n (to_gateway w); to_proxy := to_proxy w; requested := requested w;
  refused := refused w ++ refusal; expired := expired w ++ timeout; received := received w;
  callbacks := callbacks w |}.

Definition take_delivery (n : nat) (receipt timeout : list Token) (cbs : list Callback)
    (w : World) : World := {|
  drand_state := drand_state w; gateway_state := gateway_state w; proxies := proxies w;
  links := links w; open_channels := open_channels w;
  far_channels := far_channels w; near_closed := near_closed w; far_closed := far_closed w; mail := mail w;
  to_gateway := to_gateway w; to_proxy := delete n (to_proxy w); requested := requested w;
  refused := refused w; expired := expired w ++ timeout; received := received w ++ receipt;
  callbacks := callbacks w ++ cbs |}.

Definition take_mail (n : nat) (w : World) : World := {|
  drand_state := drand_state w; gateway_state := gateway_state w; proxies := proxies w;
  links := links w; open_channels := open_channels w;
  far_channels := far_channels w; near_closed := near_closed w; far_closed := far_closed w; mail := delete n (mail w);
  to_gateway := to_gateway w; to_proxy := to_proxy w; requested := requested w;
  refused := refused w; expired := expired w; received := received w;
  callbacks := callbacks w |}.

Definition with_links (l : gmap string (string * string)) (o : gset string) (w : World) : World := {|
  drand_state := drand_state w; gateway_state := gateway_state w; proxies := proxies w;
  links := l; open_channels := o; far_channels := far_channels w; near_closed := near_closed w;
  far_closed := far_closed w; mail := mail w; to_gateway := to_gateway w;
  to_proxy := to_proxy w; requested := requested w; refused := refused w;
  expired := expired w; received := received w; callbacks := callbacks w |}.

(** The ends of proxies that open, and the ends that close. *)
Definition with_ends (opens near_closes far_closes : gset string) (w : World) : World := {|
  drand_state := drand_state w; gateway_state := gateway_state w; proxies := proxies w;
  links := links w; open_channels := open_channels w; far_channels := opens ∪ far_channels w;
  near_closed := near_closes ∪ near_closed w; far_closed := far_closes ∪ far_closed w;
  mail := mail w; to_gateway := to_gateway w; to_proxy := to_proxy w;
  requested := requested w; refused := refused w; expired := expired w;
  received := received w; callbacks := callbacks w |}.

(** ** Events *)

(** The dapp and the job ID of a request, when the transaction is one. *)
Definition asked (tx : ProxyTx) : list (Addr * string) :=
  match tx with
  | Tx_execute _ _ info (Proxy.ExecuteMsg_GetNextRandomness job_id) => [(sender info, job_id)]
  | Tx_execute _ _ info (Proxy.ExecuteMsg_GetRandomnessAfter _ job_id) => [(sender info, job_id)]
  | _ => []
  end.

(** The gateway's end of a channel of a chain. *)
Definition far_end (l : gmap string (string * string)) (chain channel : string) : option string :=
  fst <$> List.find (λ e, bool_decide (e.2 = (chain, channel))) (map_to_list l).

(** The packet of a proxy on its way to the gateway, when its end is open. *)
Definition route_packet (w : World) (chain : string) (p : Packet) : option Packet :=
  channel ← far_end (links w) chain (pkt_channel p);
  guard (channel ∈ far_open w);;
  Some {| pkt_channel := channel; pkt_data := pkt_data p; pkt_timeout := pkt_timeout p |}.

(** The end of a channel of the gateway that a transaction of a proxy opens, and
    the one that it closes. *)
Definition tx_opens (l : gmap string (string * string)) (chain : string) (tx : ProxyTx) :
    gset string :=
  match tx with
  | Tx_channel_connect _ _ (IbcChannelConnectMsg_OpenAck channel _) =>
      option_to_set (far_end l chain (endpoint_channel_id channel))
  | _ => ∅
  end.
Definition tx_closes (l : gmap string (string * string)) (chain : string) (tx : ProxyTx) :
    gset string :=
  match tx with
  | Tx_channel_close _ _ (IbcChannelCloseMsg_CloseConfirm channel) =>
      option_to_set (far_end l chain (endpoint_channel_id channel))
  | _ => ∅
  end.

(** The message that closes an end of the gateway is a confirmation only when the
    end of the proxy is closed. *)
Definition close_allowed (w : World) (msg : IbcChannelCloseMsg) : Prop :=
  match msg with
  | IbcChannelCloseMsg_CloseInit channel => endpoint_channel_id channel ∈ near_open w
  | IbcChannelCloseMsg_CloseConfirm channel =>
      endpoint_channel_id channel ∈ near_open w ∩ far_closed w
  end.
#[global] Instance close_allowed_dec w msg : Decision (close_allowed w msg).
Proof. unfold close_allowed. destruct msg; apply _. Defined.

(** The packet can be received at this time, or timed out at this time. *)
Definition can_arrive (ends : gset string) (env : Env) (p : Packet) : Prop :=
  pkt_channel p ∈ ends ∧ block_time env < pkt_timeout p.
#[global] Instance can_arrive_dec ends env p : Decision (can_arrive ends env p).
Proof. unfold can_arrive. apply _. Defined.
Definition timed_out (closed : gset string) (now : Timestamp) (p : Packet) : Prop :=
  pkt_timeout p ≤ now ∨ pkt_channel p ∈ closed.
#[global] Instance timed_out_dec closed now p : Decision (timed_out closed now p).
Proof. unfold timed_out. apply _. Defined.

Section network.
Context `{Display} `{Anybuf} `{Sha256} `{Instantiate2} `{Nois} `{DrandVerify} `{Json InPacket}
  `{Json InPacketAck} `{Json OutPacket} `{Json OutPacketAck} `{Json StdAck}
  `{Json RequestBeaconOrigin} `{Json ReceiverExecuteMsg} `{Json NoisGatewayExecuteMsg}
  `{Json Drand.ExecuteMsg} `{Json Gateway.ExecuteMsg} `{Json Payment.InstantiateMsg}
  `{Json Payment.ExecuteMsg}.
Variables (drand_addr gateway_addr : Addr).

(** The token of a request packet, and of a delivery. *)
Definition token_req (p : Packet) : list Token :=
  match (from_json (pkt_data p) : outcome StdError InPacket) with
  | Ok (InPacket_RequestBeacon after origin) =>
      [(pkt_channel p, publish_time (next_round after), origin)]
  | _ => []
  end.
Definition token_del (p : Packet) : list Token :=
  match (from_json (pkt_data p) : outcome StdError OutPacket) with
  | Ok (OutPacket_DeliverBeacon _ published _ origin) => [(pkt_channel p, published, origin)]
  | _ => []
  end.
(** The tokens of the jobs that wait in the queues of the gateway. *)
Definition waiting (s : GatewayState.Storage) : list Token :=
  (λ '(round, job), (channel job, publish_time round, origin job)) <$> all_jobs s.

Definition callbacks_of (chain : string) (msgs : list CosmosMsg) : list Callback :=
  omap (λ m, match m with
    | CosmosMsg_Wasm (WasmMsg_Execute to msg _) =>
        match (from_json msg : outcome StdError ReceiverExecuteMsg) with
        | Ok (ReceiverExecuteMsg_NoisReceive call) =>
            Some {| cb_chain := chain; cb_to := to; cb_call := call |}
        | _ => None
        end
    | _ => None
    end) msgs.

Definition run_tx (tx : ProxyTx) (s : Proxy.Storage) : option (Response * Proxy.Storage) :=
  match tx with
  | Tx_execute deps env info msg => committed (Proxy.execute deps env info msg) s
  | Tx_sudo deps env msg => committed (Proxy.sudo deps env msg) s
  | Tx_migrate deps env => committed (Proxy.migrate deps env) s
  | Tx_reply deps env rp => committed (Proxy.reply deps env rp) s
  | Tx_channel_connect deps env msg => committed (Proxy.ibc_channel_connect deps env msg) s
  | Tx_channel_close deps env msg => committed (Proxy.ibc_channel_close deps env msg) s
  | Tx_packet_ack deps env msg => committed (Proxy.ibc_packet_ack deps env msg) s
  | Tx_packet_timeout deps env => committed (Proxy.ibc_packet_timeout deps env) s
  end.

(** The manager of the gateway lists no source but nois-drand. *)
Definition trusts_drand (s : GatewayState.Storage) : Prop :=
  unwrap_or [] (GatewayState.config s ≫= trusted_sources) ⊆ [drand_addr].

(** All packets are for channels whose end at the gateway is one of [ends]. *)
Definition sent_over (ends : gset string) (msgs : list CosmosMsg) : Prop :=
  Forall (λ p, pkt_channel p ∈ ends) (packets_of msgs).

Definition gateway_runs {E} (ends : gset string) (m : M GatewayState.Storage E Response)
    (w : World) : option World :=
  '(r, s) ← committed m (gateway_state w);
  guard (trusts_drand s);;
  guard (sent_over ends (sub_msg <$> messages r));;
  Some (gateway_did gateway_addr s (sub_msg <$> messages r) w).

Definition drand_runs {E} (m : M Drand.Storage E Response) (w : World) : option World :=
  '(r, s) ← committed m (drand_state w);
  Some (drand_did drand_addr s (sub_msg <$> messages r) w).

(** The sender and the funds of a message between contracts. *)
Definition mail_info (m : Mail) : MessageInfo :=
  {| sender := mail_from m; funds := mail_funds m |}.

Definition wstep (e : Event) (w : World) : option World :=
  match e with
  | Proxy_new chain deps env info msg =>
      guard (proxies w !! chain = None);;
      '(_, s) ← committed (Proxy.instantiate deps env info msg) Proxy.empty_storage;
      Some (proxy_did chain s [] [] w)
  | Proxy_tx chain tx =>
      s ← proxies w !! chain;
      let opens := tx_opens (links w) chain tx in
      let closes := tx_closes (links w) chain tx in
      guard (opens ## far_channels w);;
      guard (closes ⊆ near_closed w ∩ far_open w);;
      '(r, s') ← run_tx tx s;
      ps ← mapM (route_packet w chain) (packets_of (sub_msg <$> messages r));
      Some (with_ends opens ∅ closes (proxy_did chain s' ps
        (zip_with (λ '(a, job_id) p, {| req_chain := chain; req_sender := a;
           req_job := job_id; req_packet := p |}) (asked tx) ps) w))
  | Proxy_receive n deps env relayer =>
      p ← to_proxy w !! n;
      guard (can_arrive (far_open w) env p);;
      '(chain, local) ← links w !! pkt_channel p;
      s ← proxies w !! chain;
      '(r, s') ← committed (Proxy.ibc_packet_receive deps env
        {| packet_data := pkt_data p; packet_dest_channel_id := local;
           CosmWasm.relayer := relayer |}) s;
      let msgs := sub_msg <$> messages (response r) in
      ps ← mapM (route_packet w chain) (packets_of msgs);
      Some (proxy_did chain s' ps []
        (take_delivery n (token_del p) [] (callbacks_of chain msgs) w))
  | Delivery_timeout n now =>
      p ← to_proxy w !! n;
      guard (timed_out (far_closed w) now p);;
      Some (take_delivery n [] (token_del p) [] w)
  | Channel_open chain deps env near far =>
      s ← proxies w !! chain;
      _ ← committed (Proxy.ibc_channel_open deps env (IbcChannelOpenMsg_OpenInit far)) s;
      _ ← committed (Gateway.ibc_channel_open deps env
        (IbcChannelOpenMsg_OpenTry near (version far))) (gateway_state w);
      guard (links w !! endpoint_channel_id near = None);;
      guard (far_end (links w) chain (endpoint_channel_id far) = None);;
      Some (with_links
        (<[endpoint_channel_id near := (chain, endpoint_channel_id far)]> (links w))
        (open_channels w) w)
  | Channel_confirm deps env near =>
      guard (is_Some (links w !! endpoint_channel_id near));;
      guard (endpoint_channel_id near ∉ open_channels w);;
      guard (endpoint_channel_id near ∈ far_channels w);;
      w' ← gateway_runs ({[endpoint_channel_id near]} ∪ near_open w) (Gateway.ibc_channel_connect deps env
        (IbcChannelConnectMsg_OpenConfirm near)) w;
      Some (with_links (links w) ({[endpoint_channel_id near]} ∪ open_channels w) w')
  | Gateway_receive n deps env relayer =>
      p ← to_gateway w !! n;
      guard (can_arrive (near_open w) env p);;
      '(r, s) ← committed (Gateway.ibc_packet_receive deps env
        {| packet_data := pkt_data p; packet_dest_channel_id := pkt_channel p;
           CosmWasm.relayer := relayer |}) (gateway_state w);
      guard (sent_over (near_open w) (sub_msg <$> messages (response r)));;
      let refusal :=
        match acknowledgement r with StdAck_Error _ => token_req p | StdAck_Success _ => [] end in
      Some (gateway_did gateway_addr s (sub_msg <$> messages (response r))
        (take_request n refusal [] w))
  | Request_timeout n now =>
      p ← to_gateway w !! n;
      guard (timed_out (near_closed w) now p);;
      Some (take_request n [] (token_req p) w)
  | Gateway_account deps env info msg =>
      guard (sender info ≠ drand_addr ∧ sender info ≠ gateway_addr);;
      gateway_runs (near_open w) (Gateway.execute deps env info msg) w
  | Gateway_mail n deps env =>
      m ← mail w !! n;
      guard (mail_to m = gateway_addr);;
      msg ← parse (mail_msg m);
      gateway_runs (near_open w) (Gateway.execute deps env (mail_info m) msg) (take_mail n w)
  | Gateway_migrate deps env => gateway_runs (near_open w) (Gateway.migrate deps env) w
  | Gateway_close deps env msg =>
      guard (close_allowed w msg);;
      w' ← gateway_runs (near_open w) (Gateway.ibc_channel_close deps env msg) w;
      Some (with_ends ∅ {[endpoint_channel_id (close_channel msg)]} ∅ w')
  | Gateway_ack deps env msg => gateway_runs (near_open w) (Gateway.ibc_packet_ack deps env msg) w
  | Gateway_timeout deps env => gateway_runs (near_open w) (Gateway.ibc_packet_timeout deps env) w
  | Drand_account deps env info msg => drand_runs (Drand.execute deps env info msg) w
  | Drand_mail n deps env =>
      m ← mail w !! n;
      guard (mail_to m = drand_addr);;
      msg ← parse (mail_msg m);
      drand_runs (Drand.execute deps env (mail_info m) msg) (take_mail n w)
  | Drand_migrate deps env => drand_runs (Drand.migrate deps env) w
  end.

Definition empty_world (d : Drand.Storage) (g : GatewayState.Storage) : World := {|
  drand_state := d; gateway_state := g; proxies := ∅; links := ∅; open_channels := ∅;
  far_channels := ∅; near_closed := ∅; far_closed := ∅;
  mail := []; to_gateway := []; to_proxy := []; requested := []; refused := [];
  expired := []; received := []; callbacks := [] |}.

Definition winit (w : World) : Prop :=
  ∃ d g, Drand.init d ∧ Gateway.init g ∧ w = empty_world d g.

Definition wreachable : World → Prop :=
  reachable winit (λ w w', ∃ e, wstep e w = Some w').
End network.
