(* ===== verification/NetworkSafety.v ===== *)
(** * Safety of the network

    Invariants of every reachable state of the network of [Network]: what is
    delivered to the dapps is authentic, and every request is accounted for. *)
From stdpp Require Import prelude gmap strings list sorting pretty.
From Stdlib Require Import NArith Lia.
From S2P Require Import Prelude.
From S2P Require Import CosmWasm.
From S2P Require Import DrandCommon.
From S2P Require Import NoisProtocol.
From S2P Require Import Fixtures.
From S2P Require Import Payment.
From S2P Require Import Drand.
From S2P Require Import GatewayState.
From S2P Require Import RequestRouter.
From S2P Require Import Gateway.
From S2P Require Import Nois.
From S2P Require Import Proxy.
From S2P Require Import System.
From S2P Require Import Network.

(** ** Messages *)

Lemma packets_of_app l l' : packets_of (l ++ l') = packets_of l ++ packets_of l'.
Proof. apply omap_app. Qed.
Lemma mail_of_app a l l' : mail_of a (l ++ l') = mail_of a l ++ mail_of a l'.
Proof. apply omap_app. Qed.

Lemma mail_of_from a msgs : Forall (λ m, mail_from m = a) (mail_of a msgs).
Proof.
  apply Forall_forall. intros m (x & _ & Hx)%list_elem_of_omap. repeat case_match; naive_solver.
Qed.

Lemma far_end_link l chain channel g :
  far_end l chain channel = Some g → l !! g = Some (chain, channel).
Proof.
  unfold far_end. intros ([g' e] & Hf & ->)%fmap_Some.
  apply find_some in Hf as [Hin Heq]. apply bool_decide_eq_true in Heq. simpl in Heq. subst e.
  by apply elem_of_map_to_list, list_elem_of_In.
Qed.

(** ** Transactions of the proxy *)

Section proxy_transactions.
Context `{Display} `{Anybuf} `{Nois} `{JsonLaws InPacket} `{Json InPacketAck} `{Json OutPacket}
  `{Json OutPacketAck} `{Json StdAck} `{JsonLaws RequestBeaconOrigin} `{Json ReceiverExecuteMsg}.

Lemma request_sent_packet env info cfg after job_id s msgs :
  Proxy.request_sent env info cfg after job_id s msgs →
  ∃ p origin, packets_of (sub_msg <$> msgs) = [p] ∧
    from_json (pkt_data p) = Ok (InPacket_RequestBeacon after origin) ∧
    from_json origin = Ok {| origin_sender := sender info; origin_job_id := job_id |}.
Proof.
  intros (channel_id & origin & data & _ & Ho%json_decode & Hd%json_decode & ->).
  rewrite sub_msg_new, packets_of_app. exists {| pkt_channel := channel_id; pkt_data := data;
    pkt_timeout := block_time env + REQUEST_BEACON_PACKET_LIFETIME * nanos_per_second |}, origin.
  split_and!; [|done..].
  unfold transfer_part. destruct (mode cfg), (Proxy.payment cfg); try destruct (_ =? _); done.
Qed.

(** A transaction sends a packet if it is a request, and then exactly one. *)
Lemma run_tx_packets tx s r s' :
  run_tx tx s = Some (r, s') →
  (asked tx = [] ∧ packets_of (sub_msg <$> messages r) = []) ∨
  ∃ a job_id p after origin, asked tx = [(a, job_id)] ∧
    packets_of (sub_msg <$> messages r) = [p] ∧
    from_json (pkt_data p) = Ok (InPacket_RequestBeacon after origin) ∧
    from_json origin = Ok {| origin_sender := a; origin_job_id := job_id |}.
Proof.
  destruct tx; intros Hrun%committed_Some.
  - destruct msg as [job_id|after job_id| | |]; simpl in Hrun.
    + right. apply get_next_randomness_ok in Hrun as (? & ? & _ & _ & _ & _ & _ & _ & Hsent).
      apply request_sent_packet in Hsent as (p & origin & ? & ? & ?). by do 5 eexists.
    + right. unfold execute_get_randomness_after in Hrun. inv_run.
      match goal with H : execute_get_randomness_impl _ _ _ _ _ _ _ _ = _ |- _ =>
        apply get_randomness_impl_ok in H as (-> & _ & Hsent) end.
      apply request_sent_packet in Hsent as (p & origin & ? & ? & ?). by do 5 eexists.
    + left. unfold execute_set_config, set_config_unchecked in Hrun. inv_run.
      repeat case_match; by inv_run.
    + left. unfold execute_withdraw, withdraw_unchecked in Hrun. inv_run.
      repeat case_match; by inv_run.
    + left. unfold execute_update_allowlist in Hrun. by inv_run.
  - left. destruct msg; simpl in Hrun; unfold sudo_withdraw, sudo_withdraw_to_community_pool,
      sudo_set_config, withdraw_unchecked, withdraw_to_community_pool_unchecked,
      set_config_unchecked in Hrun; inv_run; repeat case_match; by inv_run.
  - left. unfold Proxy.migrate in Hrun. inv_run. repeat case_match; by inv_run.
  - left. unfold Proxy.reply in Hrun. case_match; by inv_run.
  - left. unfold Proxy.ibc_channel_connect in Hrun. inv_run. repeat case_match; by inv_run.
  - left. unfold Proxy.ibc_channel_close in Hrun. case_match; by inv_run.
  - left. unfold Proxy.ibc_packet_ack in Hrun. inv_run. repeat case_match; by inv_run.
  - left. unfold Proxy.ibc_packet_timeout in Hrun. by inv_run.
Qed.

Lemma run_tx_call tx s r s' :
  run_tx tx s = Some (r, s') → ∃ who, Proxy.call s who (messages r) s'.
Proof.
  destruct tx; intros Hrun%committed_Some; eexists.
  - by eapply Proxy.call_execute.
  - by eapply Proxy.call_sudo.
  - by eapply Proxy.call_migrate.
  - by eapply Proxy.call_reply.
  - by eapply Proxy.call_channel_connect.
  - by eapply Proxy.call_channel_close.
  - by eapply Proxy.call_packet_ack.
  - by eapply Proxy.call_packet_timeout.
Qed.

(** A packet that is not a delivery is answered without a message. *)
Lemma other_packet_silent deps env msg s r s' :
  (∀ src published rnd origin,
    from_json (packet_data msg) ≠ Ok (OutPacket_DeliverBeacon src published rnd origin)) →
  Proxy.ibc_packet_receive deps env msg s = (Ok r, s') → messages (response r) = [].
Proof.
  intros Hother. unfold Proxy.ibc_packet_receive, or_else_ack.
  match goal with |- match ?m s with _ => _ end = _ → _ =>
    destruct (m s) as [[r1|e|] s1] eqn:Hm end; intros Hr; simplify_eq/=; [|done].
  inv_run. match goal with H : match ?p with _ => _ end s = _ |- _ => destruct p end.
  - exfalso. by eapply Hother.
  - unfold receive_welcome in *. by inv_run.
  - unfold receive_push_beacon_price in *. by inv_run.
Qed.

End proxy_transactions.

(** ** The invariant *)

Section safety.
Context `{Display} `{Anybuf} `{Sha256} `{Instantiate2} `{Nois} `{DrandVerify}
  `{JsonLaws InPacket} `{JsonLaws InPacketAck} `{JsonLaws OutPacket} `{JsonLaws OutPacketAck}
  `{Json StdAck} `{JsonLaws RequestBeaconOrigin} `{JsonLaws ReceiverExecuteMsg}
  `{Json NoisGatewayExecuteMsg} `{JsonLaws Drand.ExecuteMsg} `{Json Gateway.ExecuteMsg}
  `{Json Payment.InstantiateMsg} `{JsonLaws Payment.ExecuteMsg}
  `{!Understands (λ '(NoisGatewayExecuteMsg_AddVerifiedRound r x v),
      Gateway.ExecuteMsg_AddVerifiedRound r x v)}.
Context (drand_addr gateway_addr : Addr) (Hdistinct : drand_addr ≠ gateway_addr).

(** The randomness is derived from a signature of the round that verifies under
    the key of the drand network. *)
Definition authentic (round : N) (rnd : HexBinary) : Prop :=
  ∃ pk signature, from_fixed_unchecked DRAND_MAINNET2_PUBKEY = Some pk ∧
    verify pk round "" signature = Some true ∧ rnd = derive_randomness signature.

Definition good_delivery (p : Packet) : Prop :=
  ∀ src published rnd origin,
    from_json (pkt_data p) = Ok (OutPacket_DeliverBeacon src published rnd origin) →
  ∃ round, 1 ≤ round ∧ published = publish_time round ∧ authentic round rnd.

Definition good_mail (m : Mail) : Prop :=
  mail_from m = drand_addr →
  ∃ round rnd v, from_json (mail_msg m) = Ok (Gateway.ExecuteMsg_AddVerifiedRound round rnd v) ∧
    authentic round rnd.

Definition good_request (l : gmap string (string * string)) (r : Request) : Prop :=
  ∃ local after origin,
    l !! pkt_channel (req_packet r) = Some (req_chain r, local) ∧
    from_json (pkt_data (req_packet r)) = Ok (InPacket_RequestBeacon after origin) ∧
    from_json origin = Ok {| origin_sender := req_sender r; origin_job_id := req_job r |}.

Definition good_callback (cb : Callback) : Prop :=
  ∃ round, 1 ≤ round ∧ callback_published (cb_call cb) = publish_time round ∧
    authentic round (callback_randomness (cb_call cb)).

(** The callback answers the delivery with this token. *)
Definition answers (l : gmap string (string * string)) (t : Token) (cb : Callback) : Prop :=
  ∃ local o, l !! t.1.1 = Some (cb_chain cb, local) ∧ from_json t.2 = Ok o ∧
    cb_to cb = origin_sender o ∧ callback_job_id (cb_call cb) = origin_job_id o ∧
    callback_published (cb_call cb) = t.1.2.

Definition authentic_archive (s : GatewayState.Storage) : Prop :=
  ∀ round rnd, round ≤ umax 64 → archived s round = Some rnd → authentic round rnd.

(** Everything but the account of the requests. *)
Record sane (w : World) : Prop := {
  sane_drand : Drand.well_formed (drand_state w);
  sane_gateway : Gateway.well_formed (gateway_state w);
  sane_registered : registered (open_channels w) (gateway_state w);
  sane_trust : trusts_drand drand_addr (gateway_state w);
  sane_archive : authentic_archive (gateway_state w);
  sane_proxies : map_Forall (λ _ s, configured s) (proxies w);
  sane_mail : Forall good_mail (mail w);
  sane_deliveries : Forall good_delivery (to_proxy w);
  sane_ends : open_channels w ⊆ far_channels w;
  sane_routes : Forall (λ p, pkt_channel p ∈ far_channels w) (to_proxy w);
  sane_requests : Forall (good_request (links w)) (requested w);
  sane_requesters : Forall (λ r, is_Some (proxies w !! req_chain r)) (requested w);
  sane_callbacks : Forall good_callback (callbacks w);
  sane_answers : Forall2 (answers (links w)) (received w) (callbacks w);
}.

(** Every request is in one place. *)
Definition conserved (w : World) : Prop :=
  (requested w ≫= λ r, token_req (req_packet r)) ≡ₚ
    (to_gateway w ≫= token_req) ++ waiting (gateway_state w) ++ (to_proxy w ≫= token_del) ++
    received w ++ refused w ++ expired w.

Record inv (w : World) : Prop := { inv_sane : sane w; inv_conserved : conserved w }.

(** ** Deliveries *)

Definition job_token (round : N) (job : Job) : Token := (channel job, publish_time round, origin job).

Lemma waiting_tokens s : waiting s = (λ x, job_token x.1 x.2) <$> all_jobs s.
Proof. unfold waiting. by apply list_fmap_ext; intros ? [] ?. Qed.

Lemma delivers_packet env round rnd job m :
  1 ≤ round → authentic round rnd → delivers env round rnd job m →
  mail_of gateway_addr [m] = [] ∧ Forall good_delivery (packets_of [m]) ∧
  packets_of [m] ≫= token_del = [job_token round job].
Proof.
  intros Hpos Hauth (data & Hdata%json_decode & ->). unfold token_del. simpl. rewrite Hdata.
  split_and!; [done| |done]. constructor; [|done]. intros src published rnd' origin'. simpl.
  rewrite Hdata. intros [= <- <- <- <-]. by exists round.
Qed.

Lemma delivers_packets env round rnd jobs msgs :
  1 ≤ round → authentic round rnd → Forall2 (delivers env round rnd) jobs msgs →
  mail_of gateway_addr msgs = [] ∧ Forall good_delivery (packets_of msgs) ∧
  packets_of msgs ≫= token_del = job_token round <$> jobs.
Proof.
  intros Hpos Hauth. induction 1 as [|job m jobs msgs Hm _ (IH1 & IH2 & IH3)]; [done|].
  destruct (delivers_packet _ _ _ _ _ Hpos Hauth Hm) as (? & ? & Htok).
  change (m :: msgs) with ([m] ++ msgs).
  rewrite packets_of_app, bind_app, IH3, mail_of_app, IH1.
  split_and!; [by rewrite app_nil_r|by apply Forall_app|by rewrite Htok].
Qed.

(** ** Transactions of the gateway *)

(** A transaction of the gateway that sends [msgs] and takes in the requests
    [new] accounts for all requests, and sends only authentic randomness. *)
Record sound (s : GatewayState.Storage) (msgs : list CosmosMsg) (s' : GatewayState.Storage)
    (new : list Token) : Prop := {
  sound_archive : authentic_archive s';
  sound_deliveries : Forall good_delivery (packets_of msgs);
  sound_tokens : new ++ waiting s ≡ₚ waiting s' ++ (packets_of msgs ≫= token_del);
}.

Lemma core_all_jobs s s' : core s' = core s → all_jobs s' = all_jobs s.
Proof. unfold core, all_jobs. by intros [= -> _ _]. Qed.

Lemma no_token_good p : token_del p = [] → good_delivery p.
Proof. unfold token_del, good_delivery. intros Ht src published rnd origin Hp. by rewrite Hp in Ht. Qed.

Lemma quiet_sound s msgs s' :
  core s' = core s → Forall (λ p, token_del p = []) (packets_of msgs) →
  authentic_archive s → sound s msgs s' [].
Proof.
  intros Hcore Hquiet Harch. split.
  - intros round rnd Hr. rewrite (core_archived _ _ _ Hcore). by apply Harch.
  - eapply Forall_impl; [exact Hquiet|]. apply no_token_good.
  - assert (packets_of msgs ≫= token_del = []) as ->.
    { induction Hquiet as [|p ps Hp _ IH]; [done|]. by rewrite bind_cons, Hp, IH. }
    by rewrite app_nil_r, !waiting_tokens, (core_all_jobs _ _ Hcore).
Qed.

Lemma delivered_sound env s s' round rnd v msgs n :
  Gateway.well_formed s → authentic_archive s → authentic round rnd → round ≤ umax 32 →
  delivered env s s' round rnd v msgs n → sound s msgs s' [].
Proof.
  intros [_ Hjobs] Harch Hauth Hround (_ & Hdel & ->).
  set (k := (N.to_nat (max_jobs v) `min` length (queue s round))%nat) in *.
  assert (Forall good_delivery (packets_of msgs) ∧
    packets_of msgs ≫= token_del = job_token round <$> take k (queue s round)) as [Hgood Htok].
  { destruct (queue s round) as [|job q] eqn:Hq.
    - rewrite take_nil in *. by inversion Hdel.
    - eapply delivers_packets; [|done|exact Hdel].
      apply (Hjobs round job). rewrite Hq. by left. }
  split; [|done|].
  - intros r x Hr. rewrite archived_drained. unfold archived, stored. simpl.
    destruct (decide (round = r)) as [->|Hne].
    + rewrite lookup_insert_eq. by intros [= <-].
    + rewrite lookup_insert_ne; [by apply Harch|]. intros Heq. apply Hne.
      apply key_inj; [|done|done]. transitivity (umax 32); [done|by vm_compute].
  - rewrite Htok, !waiting_tokens. change (all_jobs s) with (all_jobs (stored s round rnd)).
    rewrite (all_jobs_drained k (stored s round rnd) round), queue_stored, fmap_app.
    rewrite app_nil_l, <-(list_fmap_compose (pair round)). apply Permutation_app_comm.
Qed.

Lemma report_sound deps env info round rnd v s r s' :
  Gateway.well_formed s → authentic_archive s → authentic round rnd →
  Gateway.execute deps env info (Gateway.ExecuteMsg_AddVerifiedRound round rnd v) s = (Ok r, s') →
  sound s (sub_msg <$> messages r) s' [].
Proof.
  intros Hwf Harch Hauth Hrun. simpl in Hrun.
  pose proof (execute_add_verified_round_ok deps _ _ _ _ _ _ _ _ Hrun) as [_ (n & Hdel & _)].
  eapply delivered_sound; [done..| |exact Hdel].
  by apply (execute_add_verified_round_round deps) in Hrun as [? _].
Qed.

Lemma silent_sound {E} (m : M GatewayState.Storage E Response) s r s' :
  preserves (λ s1, core s1 = core s) m → m s = (Ok r, s') → messages r = [] →
  authentic_archive s → sound s (sub_msg <$> messages r) s' [].
Proof.
  intros Hm Hrun Hr Harch. apply quiet_sound; [|by rewrite Hr|done].
  by apply (preserves_run _ _ _ _ _ Hm Hrun).
Qed.

(** The welcome and the price are no deliveries. *)
Lemma connect_sound deps env msg s r s' :
  Gateway.ibc_channel_connect deps env msg s = (Ok r, s') → authentic_archive s →
  sound s (sub_msg <$> messages r) s' [].
Proof.
  intros Hrun%ibc_channel_connect_ok Harch.
  destruct Hrun as (chan & _ & cfg & ? & ? & ? & ? & ? & w & p & _ & _ & _ & _ & _ & -> & _ & Hw & Hp & Hm).
  apply json_decode in Hw, Hp. rewrite Hm. apply quiet_sound; [done| |done].
  unfold token_del. repeat constructor; simpl; by rewrite ?Hw, ?Hp.
Qed.

(** A request is taken in exactly if it is acknowledged with success. *)
Lemma receive_sound deps env p relayer cs s r s' :
  registered cs s → pkt_channel p ∈ cs → authentic_archive s → queue_wf s →
  Gateway.ibc_packet_receive deps env
    {| packet_data := pkt_data p; packet_dest_channel_id := pkt_channel p;
       CosmWasm.relayer := relayer |} s = (Ok r, s') →
  sound s (sub_msg <$> messages (response r)) s'
    (match acknowledgement r with StdAck_Error _ => [] | StdAck_Success _ => token_req p end).
Proof.
  intros [Hcfg Hcust] Hin Harch Hwf Hrun. destruct (acknowledgement r) as [b|err] eqn:Hack.
  2: { destruct (ibc_packet_receive_err deps env {| packet_data := pkt_data p;
         packet_dest_channel_id := pkt_channel p; CosmWasm.relayer := relayer |}
         _ _ _ _ Hcfg (Hcust _ Hin) Hrun Hack) as (-> & Hm & _). rewrite Hm. by apply quiet_sound. }
  unfold token_req. destruct (from_json (pkt_data p)) as [[after origin|]|e|] eqn:Hp.
  2-4: eapply ibc_packet_receive_other in Hrun as [-> Hm]; [|intros ? ?; simpl; by rewrite Hp];
    rewrite Hm; by apply quiet_sound.
  - eapply ibc_packet_receive_request_ok in Hrun; [|exact Hp|exact Hack].
    destruct Hrun as (receipt & s1 & cfg & cust & pay & _ & [_ Hr] & _ & _ & _ & _ & Hm & ->).
    assert (packets_of (sub_msg <$> messages (response r)) = packets_of (receipt_msgs receipt))
      as Hps by by rewrite Hm, packets_of_app, app_nil_r.
    clear Hm. cbn [packet_data packet_dest_channel_id] in *.
    set (job := job_of (pkt_channel p) after origin) in *.
    change (pkt_channel p, publish_time (next_round after), origin)
      with (job_token (next_round after) job).
    destruct (archived s (next_round after)) as [rnd|] eqn:Ha.
    + destruct Hr as (_ & -> & Hround & (m & Hms & Hdel) & _). rewrite Hms in Hps.
      destruct (delivers_packet _ _ _ _ _ (next_round_pos after) (Harch _ _ Hround Ha) Hdel)
        as (_ & Hgood & Htok).
      split; [exact Harch|by rewrite Hps|]. rewrite Hps, Htok. apply (Permutation_app_comm [_]).
    + destruct Hr as (_ & -> & _ & (cfg' & _ & Hmsgs) & _).
      assert (packets_of (receipt_msgs receipt) = []) as Hnil.
      { destruct (drand cfg'); [destruct Hmsgs as (? & _ & ->)|rewrite Hmsgs]; done. }
      rewrite Hnil in Hps. split; [exact Harch|by rewrite Hps|].
      rewrite Hps, app_nil_r, !waiting_tokens.
      match goal with |- context [all_jobs (map_set CUSTOMERS ?a (map_set REQUESTS_LOG ?b ?c))] =>
        change (all_jobs (map_set CUSTOMERS a (map_set REQUESTS_LOG b c))) with (all_jobs c) end.
      by rewrite (all_jobs_enqueued _ _ _ Hwf).
Qed.

(** ** Preservation *)

Lemma registered_subset cs cs' s : cs ⊆ cs' → registered cs' s → registered cs s.
Proof. intros Hsub [? Hc]. split; [done|]. intros c ?. by apply Hc, Hsub. Qed.

Lemma gateway_mail_good msgs : Forall good_mail (mail_of gateway_addr msgs).
Proof.
  eapply Forall_impl; [apply mail_of_from|]. intros m Hm Hd. exfalso. apply Hdistinct. congruence.
Qed.

Lemma gateway_did_sane w s' msgs new :
  sane w → Gateway.call (gateway_state w) msgs s' → trusts_drand drand_addr s' →
  sent_over (far_channels w) msgs →
  sound (gateway_state w) msgs s' new → sane (gateway_did gateway_addr s' msgs w).
Proof.
  intros [] Hcall Htrust Hover []. split; simpl; try done.
  - by eapply call_well_formed.
  - by eapply call_registered.
  - apply Forall_app. split; [done|apply gateway_mail_good].
  - by apply Forall_app.
  - by apply Forall_app.
Qed.

Lemma sent_over_subset ends ends' msgs : ends ⊆ ends' → sent_over ends msgs → sent_over ends' msgs.
Proof. intros Hsub Hs. eapply Forall_impl; [exact Hs|]. intros p. apply Hsub. Qed.

(** What the gateway sends goes to ends that are open. *)
Lemma near_open_far w : sane w → near_open w ⊆ far_channels w.
Proof. intros []. unfold near_open. set_solver. Qed.

Lemma with_ends_inv opens near_closes far_closes w :
  inv w → inv (with_ends opens near_closes far_closes w).
Proof.
  intros [[] Hcon]. split; [|exact Hcon]. split; simpl; try done.
  - set_solver.
  - eapply Forall_impl; [exact sane_routes0|]. set_solver.
Qed.

Lemma gateway_did_conserved w s' msgs :
  conserved w → sound (gateway_state w) msgs s' [] →
  conserved (gateway_did gateway_addr s' msgs w).
Proof.
  unfold conserved. intros Hcon [_ _ Htok]. simpl in *.
  rewrite Hcon, Htok, bind_app. solve_Permutation.
Qed.

Lemma gateway_runs_inv {E} ends (m : M GatewayState.Storage E Response) w w' :
  inv w → ends ⊆ far_channels w → gateway_runs drand_addr gateway_addr ends m w = Some w' →
  (∀ r s', m (gateway_state w) = (Ok r, s') →
    Gateway.call (gateway_state w) (sub_msg <$> messages r) s' ∧
    sound (gateway_state w) (sub_msg <$> messages r) s' []) →
  inv w'.
Proof.
  unfold gateway_runs. intros [Hsane Hcon] Hends Hrun Hm.
  destruct (committed m _) as [[r s']|] eqn:Hc; [|done]. simpl in Hrun.
  apply bind_Some in Hrun as (Htrust & _ & Hrun). apply bind_Some in Hrun as (Hover & _ & [= <-]).
  apply committed_Some, Hm in Hc as [Hcall Hsound]. split.
  - eapply gateway_did_sane; [done..| |exact Hsound]. by eapply sent_over_subset.
  - by apply gateway_did_conserved.
Qed.

Lemma drand_step_mail s deps env info msg r s' :
  Drand.well_formed s → Drand.execute deps env info msg s = (Ok r, s') →
  Forall good_mail (mail_of drand_addr (sub_msg <$> messages r)).
Proof.
  intros Hwf Hrun. destruct msg as [round signature| | | |].
  - simpl in Hrun. apply execute_add_round_ok in Hrun
      as (cfg & c & to_gw & _ & _ & _ & Hsig & _ & _ & _ & _ & Hmsgs & Hgw & _).
    rewrite Hmsgs, sub_msg_new, mail_of_app. apply Forall_app. split.
    2: by destruct (amount c =? 0).
    destruct (Drand.gateway cfg) as [gw|]; [|by subst].
    destruct Hgw as (b & Hb & ->). constructor; [|done]. intros _. simpl.
    exists round, (derive_randomness signature),
      (Drand.count_of s round <? NUMBER_OF_SUBMISSION_VERIFICATION_PER_ROUND).
    split; [exact (understands (f:=λ '(NoisGatewayExecuteMsg_AddVerifiedRound r x v),
      Gateway.ExecuteMsg_AddVerifiedRound r x v) _ _ Hb)|].
    by apply (accepted_signature_verified s round signature env).
  - simpl in Hrun. unfold execute_register_bot in Hrun. by inv_run.
  - simpl in Hrun. unfold execute_set_incentivized in Hrun. by inv_run.
  - simpl in Hrun. apply execute_update_allowlist_bots_ok in Hrun
      as (_ & Hm & _). by rewrite Hm.
  - simpl in Hrun. unfold Drand.execute_set_config in Hrun. inv_run. repeat case_match; by inv_run.
Qed.

Lemma drand_did_inv w s' msgs :
  inv w → Drand.well_formed s' → Forall good_mail (mail_of drand_addr msgs) →
  inv (drand_did drand_addr s' msgs w).
Proof.
  intros [[] Hcon] Hwf Hmail. split; [|exact Hcon]. split; simpl; try done. by apply Forall_app.
Qed.

Lemma drand_execute_inv deps env info msg w w' :
  inv w → drand_runs drand_addr (Drand.execute deps env info msg) w = Some w' → inv w'.
Proof.
  unfold drand_runs. intros Hinv Hrun. pose proof (sane_drand _ (inv_sane _ Hinv)) as Hwf.
  destruct (committed _ _) as [[r s']|] eqn:Hc; [|done]. injection Hrun as <-.
  apply committed_Some in Hc. apply drand_did_inv; [done| |by eapply drand_step_mail].
  eapply step_well_formed; [exact Hwf|]. by eapply Drand.step_execute.
Qed.

Lemma take_mail_inv n w : inv w → inv (take_mail n w).
Proof.
  intros [[] Hcon]. split; [|exact Hcon]. split; simpl; try done.
  by apply Forall_delete.
Qed.

Lemma take_request_sane n refusal timeout w : sane w → sane (take_request n refusal timeout w).
Proof. by intros []. Qed.

Lemma take_request_conserved n p refusal timeout new w :
  conserved w → to_gateway w !! n = Some p → refusal ++ timeout ++ new ≡ₚ token_req p →
  (requested w ≫= λ r, token_req (req_packet r)) ≡ₚ
    new ++ (delete n (to_gateway w) ≫= token_req) ++ waiting (gateway_state w) ++
    (to_proxy w ≫= token_del) ++ received w ++ (refused w ++ refusal) ++ expired w ++ timeout.
Proof.
  unfold conserved. intros Hcon Hp Hsplit.
  rewrite Hcon. rewrite (delete_Permutation _ _ _ Hp) at 1. rewrite bind_cons, <-Hsplit.
  solve_Permutation.
Qed.

Lemma links_grow l' w : links w ⊆ l' → inv w → inv (with_links l' (open_channels w) w).
Proof.
  intros Hsub [Hs Hcon]. split; [|exact Hcon]. pose proof Hs as []. split; simpl; try done.
  - eapply Forall_impl; [exact (sane_requests _ Hs)|]. intros r (local & after & origin & Hl & ?).
    exists local, after, origin. split; [by eapply lookup_weaken|done].
  - eapply Forall2_impl; [done|]. intros t cb (local & o & Hl & ?).
    exists local, o. split; [by eapply lookup_weaken|done].
Qed.

(** A channel is opened when its customer is registered. *)
Lemma open_channel_inv c w :
  is_Some (customers (gateway_state w) !! c) → c ∈ far_channels w → inv w →
  inv (with_links (links w) ({[c]} ∪ open_channels w) w).
Proof.
  intros Hc Hfar [[] Hcon]. split; [|exact Hcon]. split; simpl; try done; [|set_solver].
  match goal with H : registered _ _ |- _ => destruct H as [? Hcust] end.
  split; [done|]. intros c' [->%elem_of_singleton|?]%elem_of_union; [done|by apply Hcust].
Qed.

(** *** Events of the proxies *)

Lemma route_packets_data w chain ps ps' :
  mapM (route_packet w chain) ps = Some ps' →
  Forall2 (λ p p', pkt_data p' = pkt_data p ∧
    links w !! pkt_channel p' = Some (chain, pkt_channel p)) ps ps'.
Proof.
  intros Hf%mapM_Some. eapply Forall2_impl; [exact Hf|]. intros p p' Hr.
  unfold route_packet in Hr. apply bind_Some in Hr as (g & Hg & Hr).
  apply bind_Some in Hr as (_ & _ & [= <-]). simpl.
  split; [done|]. by apply far_end_link.
Qed.

Lemma proxy_did_sane chain s ps reqs w :
  sane w → configured s → Forall (good_request (links w)) reqs →
  Forall (λ r, req_chain r = chain) reqs → sane (proxy_did chain s ps reqs w).
Proof.
  intros Hw Hs Hreqs Hchain. pose proof Hw as []. split; simpl; try done.
  - by apply map_Forall_insert_2.
  - by apply Forall_app.
  - apply Forall_app. split.
    + eapply Forall_impl; [exact (sane_requesters _ Hw)|]. simpl. intros r.
      rewrite lookup_insert_is_Some'. by right.
    + eapply Forall_impl; [exact Hchain|]. simpl. intros r ->. by rewrite lookup_insert_eq.
Qed.

Lemma proxy_tx_inv chain tx w w' :
  inv w → wstep drand_addr gateway_addr (Proxy_tx chain tx) w = Some w' → inv w'.
Proof.
  intros [Hsane Hcon] Hstep. cbn [wstep] in Hstep. apply bind_Some in Hstep as (s & Hs & Hstep).
  do 2 apply bind_Some in Hstep as (_ & _ & Hstep).
  apply bind_Some in Hstep as ([r s'] & Hr & Hstep).
  apply bind_Some in Hstep as (ps & Hps & Hstep). injection Hstep as <-. apply with_ends_inv.
  destruct (run_tx_call _ _ _ _ Hr) as [who Hcall].
  assert (configured s') as Hconf.
  { eapply call_configured; [exact Hcall|]. by apply (sane_proxies _ Hsane chain). }
  apply route_packets_data in Hps.
  destruct (run_tx_packets _ _ _ _ Hr) as [[Hasked Hnil]|
    (a & job_id & p & after & origin & Hasked & Hone & Hp & Ho)]; rewrite Hasked.
  - rewrite Hnil in Hps. inversion Hps; subst. split; [by apply proxy_did_sane|].
    unfold conserved in *. simpl. by rewrite !app_nil_r.
  - rewrite Hone in Hps. inversion Hps as [|? p' ? ps' [Hdata Hlink] Hnil]; subst.
    inversion Hnil; subst. simpl. split.
    + apply proxy_did_sane; [done..| |by repeat constructor]. constructor; [|done].
      exists (pkt_channel p), after, origin. simpl. by rewrite Hdata.
    + unfold conserved in *. simpl. rewrite !bind_app, Hcon. simpl. rewrite !app_nil_r.
      solve_Permutation.
Qed.

Lemma take_delivery_inv n p receipt timeout cbs w :
  inv w → to_proxy w !! n = Some p → receipt ++ timeout = token_del p →
  Forall good_callback cbs → Forall2 (answers (links w)) receipt cbs →
  inv (take_delivery n receipt timeout cbs w).
Proof.
  intros [[] Hcon] Hp Hsplit Hgood Hans. split.
  - split; simpl; try done.
    + by apply Forall_delete.
    + by apply Forall_delete.
    + by apply Forall_app.
    + by apply Forall2_app.
  - unfold conserved in *. simpl. rewrite Hcon.
    rewrite (delete_Permutation _ _ _ Hp) at 1. rewrite bind_cons, <-Hsplit.
    solve_Permutation.
Qed.

(** What a token tells of its request. *)
Lemma request_of_token w (t : Token) :
  sane w → t ∈ (requested w ≫= λ r, token_req (req_packet r)) →
  ∃ r local after, r ∈ requested w ∧
    from_json (pkt_data (req_packet r)) = Ok (InPacket_RequestBeacon after t.2) ∧
    t.1 = (pkt_channel (req_packet r), publish_time (next_round after)) ∧
    links w !! t.1.1 = Some (req_chain r, local) ∧
    from_json t.2 = Ok {| origin_sender := req_sender r; origin_job_id := req_job r |}.
Proof.
  intros [] (r & Hin & Hr)%list_elem_of_bind.
  match goal with H : Forall (good_request _) _ |- _ => rewrite Forall_forall in H;
    destruct (H r Hr) as (local & after & origin & Hl & Hp & Ho) end.
  unfold token_req in Hin. rewrite Hp in Hin. apply list_elem_of_singleton in Hin as ->.
  by exists r, local, after.
Qed.

Lemma delivery_token w p (t : Token) :
  conserved w → p ∈ to_proxy w → t ∈ token_del p →
  t ∈ (requested w ≫= λ r, token_req (req_packet r)).
Proof.
  unfold conserved. intros Hcon Hp Ht. rewrite Hcon, !elem_of_app.
  right; right; left. apply list_elem_of_bind. by exists p.
Qed.

(** A delivery under way is accepted by its proxy and makes one callback. *)
Lemma delivery_run w p src published rnd origin chain local s deps env relayer :
  inv w → p ∈ to_proxy w →
  from_json (pkt_data p) = Ok (OutPacket_DeliverBeacon src published rnd origin) →
  links w !! pkt_channel p = Some (chain, local) → configured s →
  ∃ r cb, Proxy.ibc_packet_receive deps env {| packet_data := pkt_data p;
      packet_dest_channel_id := local; CosmWasm.relayer := relayer |} s = (Ok r, s) ∧
    packets_of (sub_msg <$> messages (response r)) = [] ∧
    callbacks_of chain (sub_msg <$> messages (response r)) = [cb] ∧
    answers (links w) (pkt_channel p, published, origin) cb ∧ good_callback cb.
Proof.
  intros [Hsane Hcon] Hp Hd Hl [cfg Hcfg].
  edestruct (request_of_token w (pkt_channel p, published, origin) Hsane)
    as (req & _ & _ & _ & _ & _ & _ & Ho).
  { eapply delivery_token; [exact Hcon|exact Hp|]. unfold token_del. rewrite Hd. by left. }
  simpl in Ho. set (o := {| origin_sender := req_sender req; origin_job_id := req_job req |}) in *.
  pose proof (sane_deliveries _ Hsane) as Hgood. rewrite Forall_forall in Hgood.
  destruct (Hgood p Hp _ _ _ _ Hd) as (round & Hpos & Hpub & Hauth).
  destruct (json_roundtrip OutPacketAck_DeliverBeacon) as (ack & Hack & _).
  set (call := {| callback_job_id := origin_job_id o; callback_published := published;
    callback_randomness := rnd |}).
  destruct (json_roundtrip (ReceiverExecuteMsg_NoisReceive call)) as (cb & Hcb & Hcb').
  destruct (deliver_beacon_run deps env {| packet_data := pkt_data p;
    packet_dest_channel_id := local; CosmWasm.relayer := relayer |} src published rnd origin o cb
    ack s cfg Hd Ho Hcfg Hcb Hack) as (r & Hrun & _ & Hm).
  exists r, {| cb_chain := chain; cb_to := origin_sender o; cb_call := call |}.
  rewrite Hm. split_and!; [done|done|simpl; by rewrite Hcb'| |by exists round].
  by exists local, o.
Qed.

Lemma proxy_receive_inv n deps env relayer w w' :
  inv w → wstep drand_addr gateway_addr (Proxy_receive n deps env relayer) w = Some w' → inv w'.
Proof.
  intros Hinv Hstep. cbn [wstep] in Hstep.
  apply bind_Some in Hstep as (p & Hp & Hstep). apply bind_Some in Hstep as (_ & _ & Hstep).
  apply bind_Some in Hstep as ([chain local] & Hl & Hstep).
  apply bind_Some in Hstep as (s & Hs & Hstep).
  apply bind_Some in Hstep as ([r s'] & Hr%committed_Some & Hstep).
  apply bind_Some in Hstep as (ps & Hps & Hstep). injection Hstep as <-.
  assert (configured s) as Hconf by by apply (sane_proxies _ (inv_sane _ Hinv) chain).
  assert (configured s') as Hconf'.
  { eapply call_configured; [|exact Hconf]. by eapply Proxy.call_packet_receive. }
  assert (packets_of (sub_msg <$> messages (response r)) = [] ∧
    Forall good_callback (callbacks_of chain (sub_msg <$> messages (response r))) ∧
    Forall2 (answers (links w)) (token_del p)
      (callbacks_of chain (sub_msg <$> messages (response r)))) as (Hnil & Hgood & Hans).
  2: { rewrite Hnil in Hps. injection Hps as <-.
       assert (inv (take_delivery n (token_del p) []
         (callbacks_of chain (sub_msg <$> messages (response r))) w)) as [Hsane Hcon].
       { eapply take_delivery_inv; [done..|by rewrite app_nil_r|done|done]. }
       split; [by apply proxy_did_sane|]. unfold conserved in *. simpl in *.
       by rewrite !app_nil_r in *. }
  unfold token_del. destruct (from_json (pkt_data p)) as [[src published rnd origin|pay|t a d]|e|] eqn:Hd.
  2-5: (eapply other_packet_silent in Hr; [|intros ????; simpl; by rewrite Hd]);
    by rewrite Hr.
  destruct (delivery_run w p src published rnd origin chain local s deps env relayer Hinv
    (list_elem_of_lookup_2 _ _ _ Hp) Hd Hl Hconf) as (r' & cb & Hrun & Hps' & Hcb & Hans & Hgood).
  rewrite Hr in Hrun. injection Hrun as <- _. rewrite Hps', Hcb. by repeat constructor.
Qed.

(** *** Events of the gateway *)

Lemma gateway_execute_sound deps env info msg s r s' :
  Gateway.well_formed s → authentic_archive s → trusts_drand drand_addr s →
  (∀ round rnd v, sender info = drand_addr → msg = Gateway.ExecuteMsg_AddVerifiedRound round rnd v →
    authentic round rnd) →
  Gateway.execute deps env info msg s = (Ok r, s') → sound s (sub_msg <$> messages r) s' [].
Proof.
  intros Hwf Harch Htrust Hmsg Hrun. destruct msg as [round rnd v|ma p dr pif ts].
  - eapply report_sound; [done..| |exact Hrun]. apply (Hmsg round rnd v); [|done].
    pose proof (execute_add_verified_round_ok deps _ _ _ _ _ _ _ _ Hrun) as [(cfg & Hcfg & Hin) _].
    unfold trusts_drand in Htrust. rewrite Hcfg in Htrust. simpl in Htrust.
    by apply list_elem_of_singleton, Htrust.
  - simpl in Hrun. pose proof (execute_set_config_ok _ _ _ _ _ _ _ _ _ _ _ Hrun)
      as (_ & _ & _ & _ & _ & Hm & _).
    eapply silent_sound; [|exact Hrun|done|done]. unfold Gateway.execute_set_config, save. preserve.
Qed.

Lemma gateway_account_inv deps env info msg w w' :
  inv w → sender info ≠ drand_addr →
  gateway_runs drand_addr gateway_addr (near_open w) (Gateway.execute deps env info msg) w = Some w' →
  inv w'.
Proof.
  intros Hinv Hsender Hrun.
  eapply gateway_runs_inv; [exact Hinv|by apply near_open_far, Hinv|exact Hrun|].
  destruct Hinv as [[] _]. intros r s' Hr. split; [by eapply Gateway.call_execute|].
  eapply gateway_execute_sound; [done..| |exact Hr]. by intros.
Qed.

Lemma gateway_mail_inv n deps env w w' :
  inv w → wstep drand_addr gateway_addr (Gateway_mail n deps env) w = Some w' → inv w'.
Proof.
  intros Hinv Hstep. simpl in Hstep. apply bind_Some in Hstep as (m & Hm & Hstep).
  case_guard; [|done]. simpl in Hstep. apply bind_Some in Hstep as (msg & Hmsg & Hrun).
  eapply gateway_runs_inv; [by apply (take_mail_inv n)|by apply (near_open_far w), Hinv|exact Hrun|].
  destruct Hinv as [[] _]. intros r s' Hr. split; [by eapply Gateway.call_execute|].
  eapply gateway_execute_sound; [done..| |exact Hr].
  intros round rnd v Hsender ->. unfold parse in Hmsg.
  match goal with H : Forall good_mail _ |- _ => rewrite Forall_forall in H;
    destruct (H m (list_elem_of_lookup_2 _ _ _ Hm) Hsender) as (? & ? & ? & Hp & ?) end.
  rewrite Hp in Hmsg. by simplify_eq.
Qed.

(** Transactions that keep the queues and send no message. *)
Lemma gateway_silent_inv {E} (m : M GatewayState.Storage E Response) w w' :
  (∀ s, preserves (λ s1, core s1 = core s) m) →
  (∀ s r s', m s = (Ok r, s') →
    messages r = [] ∧ Gateway.call s (sub_msg <$> messages r) s') →
  inv w → gateway_runs drand_addr gateway_addr (near_open w) m w = Some w' → inv w'.
Proof.
  intros Hcore Hm Hinv Hrun.
  eapply gateway_runs_inv; [exact Hinv|by apply near_open_far, Hinv|exact Hrun|].
  destruct Hinv as [[] _]. intros r s' Hr. destruct (Hm _ _ _ Hr) as [? ?].
  split; [done|]. by eapply silent_sound.
Qed.

Lemma channel_confirm_inv deps env near w w' :
  inv w → wstep drand_addr gateway_addr (Channel_confirm deps env near) w = Some w' → inv w'.
Proof.
  intros Hinv Hstep. cbn [wstep] in Hstep. do 2 apply bind_Some in Hstep as (_ & _ & Hstep).
  apply bind_Some in Hstep as (Hfar & _ & Hstep). apply bind_Some in Hstep as (w1 & Hrun & [= <-]).
  assert (links w1 = links w ∧ open_channels w1 = open_channels w ∧
    far_channels w1 = far_channels w ∧
    is_Some (customers (gateway_state w1) !! endpoint_channel_id near)) as (<- & <- & Hfar1 & Hcust).
  { unfold gateway_runs in Hrun. apply bind_Some in Hrun as ([r s'] & Hr%committed_Some & Hrun).
    do 2 apply bind_Some in Hrun as (_ & _ & Hrun). injection Hrun as <-.
    split_and!; [done..|]. simpl.
    apply ibc_channel_connect_ok in Hr as (chan & [= <-] & Hcon).
    destruct Hcon as (? & ? & ? & ? & ? & ? & ? & ? & _ & _ & _ & _ & _ & -> & _).
    simpl. by rewrite lookup_insert_eq. }
  apply open_channel_inv; [done|by rewrite Hfar1|].
  eapply gateway_runs_inv; [exact Hinv| |exact Hrun|].
  { pose proof (near_open_far w (inv_sane _ Hinv)). set_solver. }
  destruct Hinv as [[] _]. intros r s' Hr. split; [by eapply Gateway.call_channel_connect|].
  by eapply connect_sound.
Qed.

Lemma gateway_receive_inv n deps env relayer w w' :
  inv w → wstep drand_addr gateway_addr (Gateway_receive n deps env relayer) w = Some w' → inv w'.
Proof.
  intros [Hsane Hcon] Hstep. cbn [wstep] in Hstep. apply bind_Some in Hstep as (p & Hp & Hstep).
  apply bind_Some in Hstep as ([Hopen _] & _ & Hstep).
  apply bind_Some in Hstep as ([r s'] & Hr%committed_Some & Hstep).
  apply bind_Some in Hstep as (Hover & _ & [= <-]).
  assert (pkt_channel p ∈ open_channels w) as Hin.
  { unfold near_open in Hopen. set_solver. }
  pose proof Hsane as []. pose proof (receive_sound _ _ _ _ _ _ _ _ sane_registered0 Hin
    sane_archive0 (proj1 sane_gateway0) Hr) as Hsound.
  split.
  - eapply gateway_did_sane; [by apply take_request_sane|by eapply Gateway.call_packet_receive|
      | |exact Hsound].
    + unfold trusts_drand in *. by rewrite (receive_config _ _ _ _ _ _ Hr).
    + eapply sent_over_subset; [|exact Hover]. by apply (near_open_far w).
  - destruct Hsound as [_ _ Htok]. unfold conserved in *. simpl.
    rewrite (take_request_conserved n p
      (match acknowledgement r with StdAck_Error _ => token_req p | _ => [] end) []
      (match acknowledgement r with StdAck_Error _ => [] | _ => token_req p end) w Hcon Hp).
    + rewrite Permutation_app_swap_app, (app_assoc _ (waiting _)), Htok, bind_app.
      solve_Permutation.
    + by destruct (acknowledgement r); rewrite ?app_nil_r.
Qed.

(** *** All events *)

Lemma wstep_inv e w w' : inv w → wstep drand_addr gateway_addr e w = Some w' → inv w'.
Proof.
  intros Hinv Hstep. destruct e.
  - cbn [wstep] in Hstep. apply bind_Some in Hstep as (_ & _ & Hstep).
    apply bind_Some in Hstep as ([r s] & Hr%committed_Some & [= <-]).
    destruct Hinv as [Hsane Hcon]. split.
    + apply proxy_did_sane; [done| |done..]. by eapply instantiate_configured.
    + unfold conserved in *. simpl. by rewrite !app_nil_r.
  - by eapply proxy_tx_inv.
  - by eapply proxy_receive_inv.
  - cbn [wstep] in Hstep. apply bind_Some in Hstep as (p & Hp & Hstep).
    apply bind_Some in Hstep as (_ & _ & [= <-]). by eapply take_delivery_inv.
  - cbn [wstep] in Hstep. apply bind_Some in Hstep as (s & Hs & Hstep).
    do 2 apply bind_Some in Hstep as (_ & _ & Hstep).
    apply bind_Some in Hstep as (Hnew & _ & Hstep). apply bind_Some in Hstep as (_ & _ & [= <-]).
    apply links_grow; [|done]. by apply insert_subseteq.
  - by eapply channel_confirm_inv.
  - by eapply gateway_receive_inv.
  - cbn [wstep] in Hstep. apply bind_Some in Hstep as (p & Hp & Hstep).
    apply bind_Some in Hstep as (_ & _ & [= <-]).
    destruct Hinv as [Hsane Hcon]. split; [by apply take_request_sane|].
    unfold conserved. simpl. rewrite (take_request_conserved n p [] (token_req p) [] w Hcon Hp);
      [done|by rewrite app_nil_r].
  - cbn [wstep] in Hstep. apply bind_Some in Hstep as ([Hsender _] & _ & Hstep).
    by eapply gateway_account_inv.
  - by eapply gateway_mail_inv.
  - revert Hstep. apply gateway_silent_inv; [| |done].
    + intros s. unfold Gateway.migrate, save. preserve.
    + intros s r s' Hr. split; [|by eapply Gateway.call_migrate].
      unfold Gateway.migrate in Hr. by inv_run.
  - cbn [wstep] in Hstep. apply bind_Some in Hstep as (_ & _ & Hstep).
    apply bind_Some in Hstep as (w1 & Hrun & [= <-]). apply with_ends_inv.
    revert Hrun. apply gateway_silent_inv; [| |done].
    + intros s. unfold Gateway.ibc_channel_close. preserve.
    + intros s r s' Hr. split; [|by eapply Gateway.call_channel_close].
      unfold Gateway.ibc_channel_close in Hr. by inv_run.
  - revert Hstep. apply gateway_silent_inv; [| |done].
    + intros s. unfold Gateway.ibc_packet_ack. preserve.
    + intros s r s' Hr. split; [|by eapply Gateway.call_packet_ack].
      unfold Gateway.ibc_packet_ack in Hr. inv_run. repeat case_match; by inv_run.
  - revert Hstep. apply gateway_silent_inv; [| |done].
    + intros s. unfold Gateway.ibc_packet_timeout. preserve.
    + intros s r s' Hr. split; [|by eapply Gateway.call_packet_timeout].
      unfold Gateway.ibc_packet_timeout in Hr. by inv_run.
  - by eapply drand_execute_inv.
  - cbn [wstep] in Hstep. apply bind_Some in Hstep as (m & _ & Hstep).
    apply bind_Some in Hstep as (_ & _ & Hstep). apply bind_Some in Hstep as (msg & _ & Hstep).
    eapply drand_execute_inv; [|exact Hstep]. by apply take_mail_inv.
  - cbn [wstep] in Hstep. unfold drand_runs in Hstep.
    apply bind_Some in Hstep as ([r s] & Hr%committed_Some & [= <-]).
    apply drand_did_inv; [done| |].
    + eapply step_well_formed; [exact (sane_drand _ (inv_sane _ Hinv))|].
      by eapply Drand.step_migrate.
    + unfold Drand.migrate in Hr. by inv_run.
Qed.

Lemma winit_inv w : winit w → inv w.
Proof.
  intros (d & g & Hd & Hg & ->). split; [split; simpl|]; try done.
  - apply reachable_well_formed. by apply reachable_init.
  - apply reachable_gateway_well_formed. by apply reachable_init.
  - apply init_core in Hg as [_ (cfg & Hcfg & _)]. split; [by rewrite Hcfg|set_solver].
  - apply init_core in Hg as [_ (cfg & Hcfg & Hts)]. unfold trusts_drand. rewrite Hcfg. simpl.
    rewrite Hts. apply list_subseteq_nil.
  - apply init_core in Hg as [Hcore _]. intros round rnd _.
    by rewrite (core_archived _ _ _ Hcore).
  - apply init_core in Hg as [Hcore _]. unfold conserved. simpl.
    by rewrite waiting_tokens, (core_all_jobs _ _ Hcore).
Qed.

Lemma wreachable_inv w : wreachable drand_addr gateway_addr w → inv w.
Proof.
  apply reachable_invariant; [apply winit_inv|]. intros w1 w2 Hinv [e He]. by eapply wstep_inv.
Qed.

Lemma publish_time_inj r r' :
  1 ≤ r → 1 ≤ r' → publish_time r = publish_time r' → r = r'.
Proof.
  unfold publish_time. change DRAND_ROUND_LENGTH with 3000000000. lia.
Qed.

(** ** Properties *)

(** C1. Every callback is authentic. In every reachable state of the network,
    however packets are delayed, reordered or lost and whatever the accounts on
    the chains do, each callback that a proxy ever sent answers a request that
    the very dapp it goes to made over this proxy with the same job ID; it
    carries the randomness derived from a signature that verifies under the key
    of the drand network for the round the request is committed to, which is
    published after the time the request asked for. *)
Theorem callbacks_are_authentic (w : World) (cb : Callback)
    (Hreach : wreachable drand_addr gateway_addr w) (Hcb : cb ∈ callbacks w) :
  ∃ r after origin, r ∈ requested w ∧
    req_chain r = cb_chain cb ∧ req_sender r = cb_to cb ∧
    req_job r = callback_job_id (cb_call cb) ∧
    from_json (pkt_data (req_packet r)) = Ok (InPacket_RequestBeacon after origin) ∧
    after < callback_published (cb_call cb) ∧
    callback_published (cb_call cb) = publish_time (next_round after) ∧
    authentic (next_round after) (callback_randomness (cb_call cb)).
Proof.
  destruct (wreachable_inv w Hreach) as [Hsane Hcon].
  apply list_elem_of_lookup in Hcb as [i Hcb].
  destruct (Forall2_lookup_r _ _ _ _ _ (sane_answers _ Hsane) Hcb)
    as (t & Ht & local & o & Hl & Ho & Hto & Hjob & Hpub).
  destruct (request_of_token w t Hsane) as (r & local' & after & Hr & Hp & Ht1 & Hl' & Ho').
  { unfold conserved in Hcon. rewrite Hcon, !elem_of_app.
    do 3 right. left. by eapply list_elem_of_lookup_2. }
  rewrite Ho in Ho'. injection Ho' as ->. rewrite Hl in Hl'. injection Hl' as Hchain _.
  rewrite Ht1 in Hpub. simpl in Hpub.
  pose proof (sane_callbacks _ Hsane) as Hgood. rewrite Forall_forall in Hgood.
  destruct (Hgood cb (list_elem_of_lookup_2 _ _ _ Hcb)) as (round & Hpos & Hround & Hauth).
  exists r, after, t.2. split_and!; try done.
  - rewrite Hpub. apply publish_time_next_round_gt.
  - assert (round = next_round after) as <-; [|done].
    apply publish_time_inj; [done|apply next_round_pos|congruence].
Qed.

(** C2. Every request is in exactly one place. In every reachable state of the
    network, the requests that the proxies accepted are, as a multiset, those
    whose packets are on the way to the gateway, those whose jobs wait in its
    queues, those whose deliveries are on the way back, those received by their
    proxy, those the gateway refused and those whose packets timed out; and each
    delivery that was received made exactly one callback, to the dapp and with
    the job ID that its origin names. So no request is lost inside the
    contracts and none is answered twice. *)
Theorem requests_are_conserved (w : World) (Hreach : wreachable drand_addr gateway_addr w) :
  (requested w ≫= λ r, token_req (req_packet r)) ≡ₚ
    (to_gateway w ≫= token_req) ++ waiting (gateway_state w) ++ (to_proxy w ≫= token_del) ++
    received w ++ refused w ++ expired w ∧
  Forall (λ r, length (token_req (req_packet r)) = 1%nat) (requested w) ∧
  Forall2 (answers (links w)) (received w) (callbacks w).
Proof.
  destruct (wreachable_inv w Hreach) as [Hsane Hcon].
  split_and!; [exact Hcon| |exact (sane_answers _ Hsane)].
  eapply Forall_impl; [exact (sane_requests _ Hsane)|].
  intros r (local & after & origin & _ & Hp & _). unfold token_req. by rewrite Hp.
Qed.

(** C10. A delivery under way is never stuck. In every reachable state of the
    network, as long as a delivery has not expired and its channel is not closed
    at the proxy, it can be received: whatever block before the timeout and
    whatever relayer bring it, the proxy exists, its end of the channel is open,
    it accepts the packet and sends its callback. Once its timeout has passed on
    the chain of the proxy, or the channel is closed there, it can be timed out,
    and its request is then accounted as expired. *)
Theorem delivery_can_be_received (w : World) (n : nat) (p : Packet) (t : Token)
    (Hreach : wreachable drand_addr gateway_addr w) (Hp : to_proxy w !! n = Some p)
    (Ht : token_del p = [t]) :
  (∀ deps env relayer, pkt_channel p ∉ far_closed w → block_time env < pkt_timeout p →
    ∃ w' cb, wstep drand_addr gateway_addr (Proxy_receive n deps env relayer) w = Some w' ∧
      to_proxy w' = delete n (to_proxy w) ∧ received w' = received w ++ [t] ∧
      callbacks w' = callbacks w ++ [cb] ∧ answers (links w) t cb) ∧
  (∀ now, pkt_timeout p ≤ now ∨ pkt_channel p ∈ far_closed w →
    ∃ w', wstep drand_addr gateway_addr (Delivery_timeout n now) w = Some w' ∧
      to_proxy w' = delete n (to_proxy w) ∧ expired w' = expired w ++ [t]).
Proof.
  split; [intros deps env relayer Hclosed Htime|intros now Hout].
  2: { eexists. cbn [wstep]. rewrite Hp. simpl. rewrite option_guard_True by exact Hout.
       rewrite Ht. done. }
  pose proof (wreachable_inv w Hreach) as Hinv. destruct (Hinv) as [Hsane Hcon].
  pose proof (list_elem_of_lookup_2 _ _ _ Hp) as Hin.
  assert (can_arrive (far_open w) env p) as Harrive.
  { split; [|done]. apply elem_of_difference. split; [|done].
    pose proof (sane_routes _ Hsane) as Hr. rewrite Forall_forall in Hr. by apply Hr. }
  destruct (request_of_token w t Hsane) as (req & local & after & Hreq & _ & _ & Hl & _).
  { eapply delivery_token; [done..|]. rewrite Ht. by left. }
  unfold token_del in Ht. destruct (from_json (pkt_data p)) as [[]|e|] eqn:Hd; simplify_eq.
  pose proof (sane_requesters _ Hsane) as Hs. rewrite Forall_forall in Hs.
  destruct (Hs req Hreq) as [s Hs'].
  destruct (delivery_run w p _ _ _ _ _ local s deps env relayer Hinv Hin Hd Hl
    (sane_proxies _ Hsane _ _ Hs')) as (r & cb & Hrun & Hps & Hcb & Hans & _).
  eexists (proxy_did (req_chain req) s [] [] (take_delivery n [_] [] [cb] w)), cb.
  split_and!; [|done..]. cbn [wstep]. rewrite Hp. simpl. rewrite option_guard_True by done.
  simpl in *. rewrite Hl. simpl. rewrite Hs'.
  simpl. unfold committed. rewrite Hrun. simpl. rewrite Hps, Hcb. simpl. unfold token_del.
  by rewrite Hd.
Qed.
End safety.

(** ** Witnesses *)

Section runs.
Context `{Display} `{Anybuf} `{Sha256} `{Instantiate2} `{Nois} `{DrandVerify} `{Json InPacket}
  `{Json InPacketAck} `{Json OutPacket} `{Json OutPacketAck} `{Json StdAck}
  `{Json RequestBeaconOrigin} `{Json ReceiverExecuteMsg} `{Json NoisGatewayExecuteMsg}
  `{Json Drand.ExecuteMsg} `{Json Gateway.ExecuteMsg} `{Json Payment.InstantiateMsg}
  `{Json Payment.ExecuteMsg}.
Context (drand_addr gateway_addr : Addr).

(** A sequence of events. *)
Fixpoint wrun (es : list Event) (w : World) : option World :=
  match es with
  | [] => Some w
  | e :: es => w' ← wstep drand_addr gateway_addr e w; wrun es w'
  end.

Lemma wrun_reachable es w w' :
  wreachable drand_addr gateway_addr w → wrun es w = Some w' →
  wreachable drand_addr gateway_addr w'.
Proof.
  revert w. induction es as [|e es IH]; intros w Hw Hrun; [by injection Hrun as <-|].
  simpl in Hrun. apply bind_Some in Hrun as (w1 & He & Hrun).
  eapply IH; [|exact Hrun]. eapply reachable_step; [exact Hw|]. by exists e.
Qed.
End runs.

Definition sample_far : IbcChannel :=
  {| endpoint_channel_id := "channel-12"; order := APP_ORDER; version := IBC_APP_VERSION |}.
Definition sample_asked : Timestamp := publish_time 49.
Definition sample_time : Env := test_env 5 DRAND_GENESIS.
Definition sample_start : World := empty_world Drand.sample_init Gateway.sample_init.
(** Everything up to the acceptance of one request of a dapp on the chain [juno]. *)
Definition sample_setup : list Event := [
  Drand_account (test_deps 0) sample_time (Drand.sample_info "boss")
    (Drand.ExecuteMsg_SetConfig None (Some "gateway") None None None);
  Gateway_account (test_deps 0) sample_time (Gateway.sample_info "boss")
    (Gateway.ExecuteMsg_SetConfig None None (Some "drand") None (Some ["drand"]));
  Proxy_new "juno" (test_deps 0) sample_time (Proxy.sample_info "creator" [])
    {| Proxy.msg_prices := [coin 10 "u"]; Proxy.msg_manager := None;
       Proxy.msg_test_mode := None; msg_callback_gas_limit := 500;
       msg_mode := OperationalMode_Funded; msg_allowlist_enabled := None;
       msg_allowlist := None |};
  Channel_open "juno" (test_deps 0) sample_time Gateway.sample_channel sample_far;
  Proxy_tx "juno" (Tx_channel_connect (test_deps 0) sample_time
    (IbcChannelConnectMsg_OpenAck sample_far IBC_APP_VERSION));
  Channel_confirm (test_deps 0) sample_time Gateway.sample_channel;
  Proxy_receive 0 (test_deps 0) sample_time "relayer";
  Proxy_receive 0 (test_deps 0) sample_time "relayer";
  Proxy_tx "juno" (Tx_execute (test_deps 0) sample_time (Proxy.sample_info "dapp" [coin 10 "u"])
    (Proxy.ExecuteMsg_GetRandomnessAfter sample_asked "job"))].
(** The request reaches the gateway, and a bot submits the round. *)
Definition sample_answer : list Event := [
  Gateway_receive 0 (test_deps 0) sample_time "relayer";
  Drand_mail 0 (test_deps 0) sample_time;
  Drand_account (test_deps 0) sample_time (Drand.sample_info "joe")
    (Drand.ExecuteMsg_AddRound 50 "50")].
Definition sample_report : list Event := [Gateway_mail 1 (test_deps 0) sample_time].
Definition sample_receipt : list Event := [Proxy_receive 0 (test_deps 0) sample_time "relayer"].

Definition sample_world (es : list Event) : World :=
  unwrap_or sample_start (wrun "drand" "gateway" es sample_start).
Definition sample_delivering : World :=
  sample_world (sample_setup ++ sample_answer ++ sample_report).
Definition sample_answered : World :=
  sample_world (sample_setup ++ sample_answer ++ sample_report ++ sample_receipt).

Lemma sample_start_reachable : wreachable "drand" "gateway" sample_start.
Proof.
  apply reachable_init. exists Drand.sample_init, Gateway.sample_init. split_and!; [| |done].
  - by apply (Drand.init_instantiate (test_deps 0) (test_env 1 10) (Drand.sample_info "creator")
      {| Drand.msg_manager := "boss"; msg_min_round := 10; msg_incentive_point_price := 2;
         msg_incentive_denom := "unois" |} Response_new).
  - by apply (Gateway.init_instantiate (test_deps 0) (test_env 1 10)
      (Gateway.sample_info "creator")
      {| msg_price := coin 101 "unois"; Gateway.msg_manager := "boss"; msg_payment_code_id := 33;
         msg_payment_initial_funds := None; Gateway.msg_sink := "sink" |} Response_new).
Qed.

Lemma sample_world_reachable es :
  is_Some (wrun "drand" "gateway" es sample_start) →
  wreachable "drand" "gateway" (sample_world es).
Proof.
  intros [w Hw]. unfold sample_world. rewrite Hw.
  by eapply wrun_reachable; [apply sample_start_reachable|].
Qed.

Lemma sample_delivering_reachable : wreachable "drand" "gateway" sample_delivering.
Proof. apply sample_world_reachable. eexists. vm_compute. reflexivity. Qed.
Lemma sample_answered_reachable : wreachable "drand" "gateway" sample_answered.
Proof. apply sample_world_reachable. eexists. vm_compute. reflexivity. Qed.

Definition sample_callback : Callback := {|
  cb_chain := "juno"; cb_to := "dapp";
  cb_call := {| callback_job_id := "job"; callback_published := publish_time 50;
    callback_randomness := "randomness of 50" |} |}.

Lemma callbacks_are_authentic_witness :
  callbacks sample_answered = [sample_callback] ∧
  ∃ r after origin, r ∈ requested sample_answered ∧
    req_chain r = "juno" ∧ req_sender r = "dapp" ∧ req_job r = "job" ∧
    from_json (pkt_data (req_packet r)) = Ok (InPacket_RequestBeacon after origin) ∧
    after < publish_time 50 ∧ publish_time 50 = publish_time (next_round after) ∧
    authentic (next_round after) "randomness of 50".
Proof.
  split; [by vm_compute|].
  apply (callbacks_are_authentic "drand" "gateway" ltac:(done) sample_answered sample_callback
    sample_answered_reachable).
  assert (callbacks sample_answered = [sample_callback]) as -> by by vm_compute. by left.
Defined.

Lemma requests_are_conserved_witness :
  length (requested sample_answered) = 1%nat ∧ length (received sample_answered) = 1%nat ∧
  (requested sample_answered ≫= λ r, token_req (req_packet r)) ≡ₚ
    (to_gateway sample_answered ≫= token_req) ++ waiting (gateway_state sample_answered) ++
    (to_proxy sample_answered ≫= token_del) ++ received sample_answered ++
    refused sample_answered ++ expired sample_answered.
Proof.
  split; [by vm_compute|]. split; [by vm_compute|].
  apply (requests_are_conserved "drand" "gateway" ltac:(done) sample_answered
    sample_answered_reachable).
Defined.

Lemma delivery_can_be_received_witness : ∃ p t w' cb,
  to_proxy sample_delivering = [p] ∧
  wstep "drand" "gateway" (Proxy_receive 0 (test_deps 7) (test_env 9 9) "anyone")
    sample_delivering = Some w' ∧
  to_proxy w' = [] ∧ received w' = received sample_delivering ++ [t] ∧
  callbacks w' = callbacks sample_delivering ++ [cb] ∧ answers (links sample_delivering) t cb.
Proof.
  assert (∃ p t, to_proxy sample_delivering = [p] ∧ token_del p = [t] ∧
    block_time (test_env 9 9) < pkt_timeout p ∧ pkt_channel p ∉ far_closed sample_delivering)
    as (p & t & Hp & Ht & Htime & Hopen).
  { eexists _, _. split; [vm_compute; reflexivity|]. split; [vm_compute; reflexivity|].
    split; [vm_compute; reflexivity|]. apply (bool_decide_unpack _). vm_compute. exact I. }
  exists p, t.
  assert (to_proxy sample_delivering !! 0%nat = Some p) as Hp0 by by rewrite Hp.
  destruct (delivery_can_be_received "drand" "gateway" ltac:(done) sample_delivering 0 p t
    sample_delivering_reachable Hp0 Ht) as [Hreceive _].
  destruct (Hreceive (test_deps 7) (test_env 9 9) "anyone" Hopen Htime)
    as (w' & cb & Hw & Hp' & Hrest).
  exists w', cb. split; [exact Hp|]. split; [exact Hw|]. split; [|exact Hrest].
  rewrite Hp', Hp. reflexivity.
Defined.
