(* ===== verification/Oracle.v ===== *)
(** * The network as a randomness oracle

    What the dapps rely on, without contracts, chains and packets: an oracle
    holds a multiset of pending requests, answers each of them at most once,
    with the randomness of the round it is committed to, or gives it up. The
    theorem of this file is that the network of [Network] refines it. *)
From stdpp Require Import prelude gmap strings list sorting pretty.
From Stdlib Require Import NArith Lia.
From S2P Require Import Prelude.
From S2P Require Import CosmWasm.
From S2P Require Import DrandCommon.
From S2P Require Import NoisProtocol.
From S2P Require Import Fixtures.
From S2P Require Import Payment.
From S2P Require Import Drand.
From S2P Require Import GatewayState.
From S2P Require Import RequestRouter.
From S2P Require Import Gateway.
From S2P Require Import Nois.
From S2P Require Import Proxy.
From S2P Require Import System.
From S2P Require Import Network.
From S2P Require Import NetworkSafety.

(** ** The oracle *)

Record Oracle := { pending : list Token; answered : list (Token * Callback) }.

(** States are equal up to the order of the pending requests. *)
#[global] Instance oracle_equiv : Equiv Oracle := λ o o',
  pending o ≡ₚ pending o' ∧ answered o = answered o'.
#[global] Instance oracle_equivalence : Equivalence (≡@{Oracle}).
Proof.
  split.
  - by intros [].
  - intros ? ? [Hp Ha]. by split.
  - intros ? ? ? [Hp Ha] [Hp' Ha']. split; [by rewrite Hp|congruence].
Qed.

Section oracle.
Context `{DrandVerify} `{Json RequestBeaconOrigin}.

(** The callback gives the dapp that asked, under its job ID, the randomness of
    the round of the request. *)
Definition faithful (t : Token) (cb : Callback) : Prop :=
  ∃ o round, from_json t.2 = Ok o ∧ cb_to cb = origin_sender o ∧
    callback_job_id (cb_call cb) = origin_job_id o ∧
    1 ≤ round ∧ t.1.2 = publish_time round ∧ callback_published (cb_call cb) = publish_time round ∧
    authentic round (callback_randomness (cb_call cb)).

Inductive oracle_step (o : Oracle) : Oracle → Prop :=
  | oracle_idle o' : o' ≡ o → oracle_step o o'
  | oracle_ask t o' :
      o' ≡ {| pending := t :: pending o; answered := answered o |} → oracle_step o o'
  | oracle_answer t cb rest o' :
      pending o ≡ₚ t :: rest → faithful t cb →
      o' ≡ {| pending := rest; answered := answered o ++ [(t, cb)] |} → oracle_step o o'
  | oracle_drop t rest o' :
      pending o ≡ₚ t :: rest → o' ≡ {| pending := rest; answered := answered o |} →
      oracle_step o o'.

(** The order of the pending requests does not matter for the steps. *)
#[global] Instance oracle_step_proper : Proper ((≡) ==> (≡) ==> iff) oracle_step.
Proof.
  assert (∀ a b a' b', a ≡ a' → b ≡ b' → oracle_step a b → oracle_step a' b') as Hgen.
  { intros a b a' b' [Hp Ha] Hb. destruct 1 as [o Ho|t o Ho|t cb rest o Hr Hf Ho|t rest o Hr Ho].
    - apply oracle_idle. by rewrite <-Hb, Ho.
    - eapply oracle_ask. rewrite <-Hb, Ho. by split; simpl; rewrite ?Hp.
    - eapply oracle_answer; [by rewrite <-Hp|done|]. rewrite <-Hb, Ho. split; simpl; by rewrite ?Ha.
    - eapply oracle_drop; [by rewrite <-Hp|]. rewrite <-Hb, Ho. by split. }
  intros a a' Ha b b' Hb. split; apply Hgen; done.
Qed.
End oracle.

(** ** The network as an oracle *)

Section refinement.
Context `{Display} `{Anybuf} `{Sha256} `{Instantiate2} `{Nois} `{DrandVerify}
  `{JsonLaws InPacket} `{JsonLaws InPacketAck} `{JsonLaws OutPacket} `{JsonLaws OutPacketAck}
  `{Json StdAck} `{JsonLaws RequestBeaconOrigin} `{JsonLaws ReceiverExecuteMsg}
  `{Json NoisGatewayExecuteMsg} `{JsonLaws Drand.ExecuteMsg} `{Json Gateway.ExecuteMsg}
  `{Json Payment.InstantiateMsg} `{JsonLaws Payment.ExecuteMsg}
  `{!Understands (λ '(NoisGatewayExecuteMsg_AddVerifiedRound r x v),
      Gateway.ExecuteMsg_AddVerifiedRound r x v)}.
Context (drand_addr gateway_addr : Addr) (Hdistinct : drand_addr ≠ gateway_addr).

(** The requests under way are pending, wherever they are. *)
Definition oracle_of (w : World) : Oracle := {|
  pending := (to_gateway w ≫= token_req) ++ waiting (gateway_state w) ++
    (to_proxy w ≫= token_del);
  answered := zip (received w) (callbacks w) |}.

Definition asked_tokens (w : World) : list Token :=
  requested w ≫= λ r, token_req (req_packet r).
Definition lost_tokens (w : World) : list Token := refused w ++ expired w.

(** The history after an event: at most one token is added to it. *)
Definition history (w w' : World) (new received' lost : list Token) (cbs : list Callback) : Prop :=
  asked_tokens w' ≡ₚ new ++ asked_tokens w ∧ received w' = received w ++ received' ∧
  callbacks w' = callbacks w ++ cbs ∧ lost_tokens w' ≡ₚ lost ++ lost_tokens w.

Lemma history_pending w w' new received' lost cbs :
  inv drand_addr w → inv drand_addr w' → history w w' new received' lost cbs →
  new ++ pending (oracle_of w) ≡ₚ received' ++ lost ++ pending (oracle_of w').
Proof.
  intros [_ Hcon] [_ Hcon'] (Hnew & Hrec & _ & Hlost).
  unfold conserved in *. fold (asked_tokens w) in Hcon. fold (asked_tokens w') in Hcon'.
  fold (lost_tokens w) in Hcon. fold (lost_tokens w') in Hcon'.
  rewrite Hnew, Hcon, Hrec, Hlost in Hcon'. simpl.
  apply (Permutation_app_inv_r (received w ++ lost_tokens w)).
  etrans; [|etrans; [exact Hcon'|]]; solve_Permutation.
Qed.

Lemma history_step w w' new received' lost cbs :
  inv drand_addr w → inv drand_addr w' → history w w' new received' lost cbs →
  (length new + length received' + length lost ≤ 1)%nat → Forall2 faithful received' cbs →
  oracle_step (oracle_of w) (oracle_of w').
Proof.
  intros Hinv Hinv' Hhist Hlen Hans. pose proof (history_pending _ _ _ _ _ _ Hinv Hinv' Hhist) as Hp.
  destruct Hhist as (_ & Hrec & Hcbs & _).
  assert (answered (oracle_of w') = answered (oracle_of w) ++ zip received' cbs) as Ha.
  { simpl. rewrite Hrec, Hcbs. apply zip_with_app.
    eapply Forall2_length. exact (sane_answers _ _ (inv_sane _ _ Hinv)). }
  destruct new as [|t []]; [|destruct received', lost; simpl in Hlen; try lia|simpl in Hlen; lia].
  - destruct received' as [|t []]; [|destruct lost; simpl in Hlen; try lia|simpl in Hlen; lia].
    + inversion Hans; subst. rewrite app_nil_r in Ha.
      destruct lost as [|t []]; [| |simpl in Hlen; lia].
      * apply oracle_idle. by split.
      * by eapply oracle_drop.
    + inversion Hans as [|? cb ? ? Hf Hnil]; subst. inversion Hnil; subst.
      by eapply oracle_answer.
  - inversion Hans; subst. rewrite app_nil_r in Ha. by eapply oracle_ask.
Qed.

(** Events that leave the history alone. *)
Lemma history_idle w w' :
  requested w' = requested w → received w' = received w → callbacks w' = callbacks w →
  refused w' = refused w → expired w' = expired w → history w w' [] [] [] [].
Proof.
  unfold history, asked_tokens, lost_tokens. intros -> -> -> -> ->. by rewrite !app_nil_r.
Qed.

Lemma gateway_runs_idle {E} ends (m : M GatewayState.Storage E Response) w w' :
  gateway_runs drand_addr gateway_addr ends m w = Some w' → history w w' [] [] [] [].
Proof.
  unfold gateway_runs. intros ([r s] & _ & Hrun)%bind_Some.
  do 2 apply bind_Some in Hrun as (_ & _ & Hrun). injection Hrun as <-. by apply history_idle.
Qed.

Lemma drand_runs_idle {E} (m : M Drand.Storage E Response) w w' :
  drand_runs drand_addr m w = Some w' → history w w' [] [] [] [].
Proof. unfold drand_runs. intros ([r s] & _ & [= <-])%bind_Some. by apply history_idle. Qed.

Lemma token_req_length p : (length (token_req p) ≤ 1)%nat.
Proof. unfold token_req. repeat case_match; simpl; lia. Qed.
Lemma token_del_length p : (length (token_del p) ≤ 1)%nat.
Proof. unfold token_del. repeat case_match; simpl; lia. Qed.

(** What each event adds to the history. *)
Definition logs (w w' : World) : Prop :=
  ∃ new received' lost cbs, history w w' new received' lost cbs ∧
    (length new + length received' + length lost ≤ 1)%nat ∧ Forall2 faithful received' cbs.

Lemma idle_logs w w' : history w w' [] [] [] [] → logs w w'.
Proof. intros Hh. exists [], [], [], []. split; [exact Hh|]. split; [simpl; lia|constructor]. Qed.

Lemma lost_logs w w' p :
  requested w' = requested w → received w' = received w → callbacks w' = callbacks w →
  lost_tokens w' ≡ₚ token_req p ++ lost_tokens w ∨
  lost_tokens w' ≡ₚ token_del p ++ lost_tokens w → logs w w'.
Proof.
  unfold logs, history, asked_tokens. intros Hreq Hrec Hcbs [Hl|Hl].
  - exists [], [], (token_req p), []. rewrite Hreq, Hrec, Hcbs, !app_nil_r.
    split_and!; try done. apply token_req_length.
  - exists [], [], (token_del p), []. rewrite Hreq, Hrec, Hcbs, !app_nil_r.
    split_and!; try done. apply token_del_length.
Qed.

Lemma proxy_tx_logs chain tx w w' :
  wstep drand_addr gateway_addr (Proxy_tx chain tx) w = Some w' → logs w w'.
Proof.
  intros Hstep. cbn [wstep] in Hstep. apply bind_Some in Hstep as (s & Hs & Hstep).
  do 2 apply bind_Some in Hstep as (_ & _ & Hstep).
  apply bind_Some in Hstep as ([r s'] & Hr & Hstep).
  apply bind_Some in Hstep as (ps & Hps & Hstep). injection Hstep as <-.
  apply route_packets_data in Hps.
  destruct (run_tx_packets _ _ _ _ Hr) as [[Hasked Hnil]|
    (a & job_id & p & after & origin & Hasked & Hone & Hp & Ho)]; rewrite Hasked.
  - apply idle_logs, history_idle; try done. simpl. by rewrite app_nil_r.
  - rewrite Hone in Hps. inversion Hps as [|? p' ? ps' [Hdata Hlink] Hnil]; subst.
    inversion Hnil; subst. exists (token_req p'), [], [], []. split_and!.
    + unfold history, asked_tokens. simpl. rewrite bind_app, !app_nil_r. simpl.
      rewrite app_nil_r. split_and!; try done. apply Permutation_app_comm.
    + simpl. pose proof (token_req_length p'). lia.
    + constructor.
Qed.

Lemma proxy_receive_logs n deps env relayer w w' :
  inv drand_addr w → wstep drand_addr gateway_addr (Proxy_receive n deps env relayer) w = Some w' →
  logs w w'.
Proof.
  intros Hinv Hstep. cbn [wstep] in Hstep.
  apply bind_Some in Hstep as (p & Hp & Hstep). apply bind_Some in Hstep as (_ & _ & Hstep).
  apply bind_Some in Hstep as ([chain local] & Hl & Hstep).
  apply bind_Some in Hstep as (s & Hs & Hstep).
  apply bind_Some in Hstep as ([r s'] & Hr%committed_Some & Hstep).
  apply bind_Some in Hstep as (ps & Hps & Hstep). injection Hstep as <-.
  exists [], (token_del p), [], (callbacks_of chain (sub_msg <$> messages (response r))).
  split; [|split; [simpl; pose proof (token_del_length p); lia|]].
  { unfold history, asked_tokens, lost_tokens. simpl. by rewrite !app_nil_r. }
  unfold token_del. destruct (from_json (pkt_data p)) as [[src published rnd origin|pay|t a d]|e|] eqn:Hd.
  2-5: (eapply other_packet_silent in Hr; [|intros ????; simpl; by rewrite Hd]); by rewrite Hr.
  destruct (delivery_run drand_addr w p src published rnd origin chain local s deps env relayer Hinv
    (list_elem_of_lookup_2 _ _ _ Hp) Hd Hl (sane_proxies _ _ (inv_sane _ _ Hinv) _ _ Hs))
    as (r' & cb & Hrun & _ & Hcb & (local' & o & _ & Ho & Hto & Hjob & Hpub) & Hgood).
  rewrite Hr in Hrun. injection Hrun as <- _. rewrite Hcb. constructor; [|done].
  destruct Hgood as (round & Hpos & Hround & Hauth). exists o, round. simpl in *.
  split_and!; try done. congruence.
Qed.

Lemma wstep_logs e w w' :
  inv drand_addr w → wstep drand_addr gateway_addr e w = Some w' → logs w w'.
Proof.
  intros Hinv Hstep. destruct e.
  - cbn [wstep] in Hstep. apply bind_Some in Hstep as (_ & _ & Hstep).
    apply bind_Some in Hstep as ([r s] & _ & [= <-]).
    apply idle_logs, history_idle; try done. simpl. by rewrite app_nil_r.
  - by eapply proxy_tx_logs.
  - by eapply proxy_receive_logs.
  - cbn [wstep] in Hstep. apply bind_Some in Hstep as (p & Hp & Hstep).
    apply bind_Some in Hstep as (_ & _ & [= <-]).
    apply (lost_logs _ _ p); simpl; rewrite ?app_nil_r; try done. right.
    unfold lost_tokens. simpl. solve_Permutation.
  - cbn [wstep] in Hstep. apply bind_Some in Hstep as (s & Hs & Hstep).
    do 4 apply bind_Some in Hstep as (_ & _ & Hstep). injection Hstep as <-.
    by apply idle_logs, history_idle.
  - cbn [wstep] in Hstep. do 3 apply bind_Some in Hstep as (_ & _ & Hstep).
    apply bind_Some in Hstep as (w1 & Hrun & [= <-]). apply gateway_runs_idle in Hrun.
    by apply idle_logs.
  - cbn [wstep] in Hstep. apply bind_Some in Hstep as (p & Hp & Hstep).
    apply bind_Some in Hstep as (_ & _ & Hstep). apply bind_Some in Hstep as ([r s] & _ & Hstep).
    apply bind_Some in Hstep as (_ & _ & [= <-]). destruct (acknowledgement r).
    + apply idle_logs, history_idle; try done; simpl; by rewrite app_nil_r.
    + apply (lost_logs _ _ p); try done. left. unfold lost_tokens. simpl. rewrite app_nil_r.
      solve_Permutation.
  - cbn [wstep] in Hstep. apply bind_Some in Hstep as (p & Hp & Hstep).
    apply bind_Some in Hstep as (_ & _ & [= <-]).
    apply (lost_logs _ _ p); try done. left. unfold lost_tokens. simpl. rewrite app_nil_r.
    solve_Permutation.
  - cbn [wstep] in Hstep. apply bind_Some in Hstep as (_ & _ & Hstep).
    eapply idle_logs, gateway_runs_idle, Hstep.
  - cbn [wstep] in Hstep. apply bind_Some in Hstep as (m & _ & Hstep).
    apply bind_Some in Hstep as (_ & _ & Hstep). apply bind_Some in Hstep as (msg & _ & Hstep).
    apply idle_logs. by apply gateway_runs_idle in Hstep.
  - eapply idle_logs, gateway_runs_idle, Hstep.
  - cbn [wstep] in Hstep. apply bind_Some in Hstep as (_ & _ & Hstep).
    apply bind_Some in Hstep as (w1 & Hrun & [= <-]). apply idle_logs.
    by apply gateway_runs_idle in Hrun.
  - eapply idle_logs, gateway_runs_idle, Hstep.
  - eapply idle_logs, gateway_runs_idle, Hstep.
  - eapply idle_logs, drand_runs_idle, Hstep.
  - cbn [wstep] in Hstep. apply bind_Some in Hstep as (m & _ & Hstep).
    apply bind_Some in Hstep as (_ & _ & Hstep). apply bind_Some in Hstep as (msg & _ & Hstep).
    apply idle_logs. by apply drand_runs_idle in Hstep.
  - eapply idle_logs, drand_runs_idle, Hstep.
Qed.

(** ** Properties *)

(** C3. The network is a randomness oracle. Seen from the dapps, every event of
    the network, in every reachable state, is a step of the oracle: it leaves
    the pending and answered requests alone, adds one request, answers one
    pending request with the authentic randomness of its round, by a callback to
    the dapp that asked, or gives up one pending request. *)
Theorem network_refines_oracle (e : Event) (w w' : World)
    (Hreach : wreachable drand_addr gateway_addr w)
    (Hstep : wstep drand_addr gateway_addr e w = Some w') :
  oracle_step (oracle_of w) (oracle_of w').
Proof.
  pose proof (wreachable_inv drand_addr gateway_addr Hdistinct w Hreach) as Hinv.
  pose proof (wstep_inv drand_addr gateway_addr Hdistinct e w w' Hinv Hstep) as Hinv'.
  destruct (wstep_logs e w w' Hinv Hstep) as (new & received' & lost & cbs & Hh & Hlen & Hans).
  by eapply history_step.
Qed.
End refinement.

(** ** Witnesses *)

Lemma network_refines_oracle_witness :
  length (pending (oracle_of sample_delivering)) = 1%nat ∧
  pending (oracle_of sample_answered) = [] ∧
  oracle_step (oracle_of sample_delivering) (oracle_of sample_answered).
Proof.
  split; [vm_compute; reflexivity|]. split; [vm_compute; reflexivity|].
  apply (network_refines_oracle "drand" "gateway" ltac:(done)
    (Proxy_receive 0 (test_deps 0) sample_time "relayer") sample_delivering sample_answered
    sample_delivering_reachable).
  vm_compute. reflexivity.
Defined.
