(* ===== verification/Bank.v ===== *)
(** * The bank of a chain

    The contracts move money only by messages to the bank module of their chain.
    The module is not part of this repository: it appears as the class [Bank] of
    its operations, with the laws [BankLaws] that the module documents. The
    theorems about money are proved against this interface. The [Ledger] at the
    end implements it, so that the theorems can be evaluated. *)
From stdpp Require Import prelude gmap strings list sorting pretty.
From Stdlib Require Import NArith Lia.
From S2P Require Import Prelude.
From S2P Require Import CosmWasm.

(** The amount of a denom in a list of coins. *)
Fixpoint total (d : string) (coins : list Coin) : N :=
  match coins with
  | [] => 0
  | c :: coins => (if decide (denom c = d) then amount c else 0) + total d coins
  end.

(** What the holder [who] has to do with the coins. *)
Definition share (who a : Addr) (d : string) (coins : list Coin) : N :=
  if decide (who = a) then total d coins else 0.

(** The operations fail when the holder does not own the coins. *)
Class Bank (B : Type) := {
  balance : B → Addr → string → N;
  bank_send : Addr → Addr → list Coin → B → option B;
  bank_burn : Addr → list Coin → B → option B;
  bank_mint : Addr → list Coin → B → option B;
}.

Class BankLaws (B : Type) `{Bank B} := {
  send_balance b b' from to coins a d : bank_send from to coins b = Some b' →
    balance b' a d + share from a d coins = balance b a d + share to a d coins;
  burn_balance b b' from coins a d : bank_burn from coins b = Some b' →
    balance b' a d + share from a d coins = balance b a d;
  mint_balance b b' to coins a d : bank_mint to coins b = Some b' →
    balance b' a d = balance b a d + share to a d coins;
  (* a coin of a positive amount can be moved by who owns it *)
  send_funded b from to c : amount c ≠ 0 → amount c ≤ balance b from (denom c) →
    is_Some (bank_send from to [c] b);
  burn_funded b from c : amount c ≠ 0 → amount c ≤ balance b from (denom c) →
    is_Some (bank_burn from [c] b);
}.

(** The funds of a message move before the message is executed; no funds, no
    transfer. *)
Definition transfer `{Bank B} (from to : Addr) (coins : list Coin) (b : B) : option B :=
  match coins with [] => Some b | _ => bank_send from to coins b end.

Lemma share_eq a d coins : share a a d coins = total d coins.
Proof. unfold share. by rewrite decide_True. Qed.
Lemma share_ne a a' d coins : a ≠ a' → share a a' d coins = 0.
Proof. intros ?. unfold share. by rewrite decide_False. Qed.
Lemma total_one c d : total d [c] = if decide (denom c = d) then amount c else 0.
Proof. simpl. lia. Qed.

Lemma transfer_balance `{BankLaws B} (b b' : B) from to coins a d :
  transfer from to coins b = Some b' →
  balance b' a d + share from a d coins = balance b a d + share to a d coins.
Proof.
  destruct coins as [|c coins]; [|apply send_balance].
  simpl. intros [= <-]. unfold share. by repeat case_decide.
Qed.

(** ** A ledger *)

(** The balances that are not zero. *)
Abbreviation Ledger := (gmap (Addr * string) N).

Definition ledger_balance (l : Ledger) (a : Addr) (d : string) : N := unwrap_or 0 (l !! (a, d)).

Definition credit_coin (a : Addr) (c : Coin) (l : Ledger) : option Ledger :=
  Some (<[(a, denom c) := ledger_balance l a (denom c) + amount c]> l).
Definition debit_coin (a : Addr) (c : Coin) (l : Ledger) : option Ledger :=
  guard (amount c ≠ 0 ∧ amount c ≤ ledger_balance l a (denom c));;
  Some (<[(a, denom c) := ledger_balance l a (denom c) - amount c]> l).

(** One coin after the other. *)
Fixpoint each_coin (f : Coin → Ledger → option Ledger) (coins : list Coin) (l : Ledger) :
    option Ledger :=
  match coins with
  | [] => Some l
  | c :: coins => l ← f c l; each_coin f coins l
  end.

#[global] Instance ledger_bank : Bank Ledger := {|
  balance := ledger_balance;
  bank_send from to coins l :=
    l ← each_coin (debit_coin from) coins l; each_coin (credit_coin to) coins l;
  bank_burn from coins l := each_coin (debit_coin from) coins l;
  bank_mint to coins l := each_coin (credit_coin to) coins l;
|}.

Lemma ledger_balance_insert (l : Ledger) a d n a' d' :
  ledger_balance (<[(a, d) := n]> l) a' d' =
  if decide (a = a' ∧ d = d') then n else ledger_balance l a' d'.
Proof.
  unfold ledger_balance. destruct (decide (a = a' ∧ d = d')) as [[-> ->]|Hne].
  - by rewrite lookup_insert_eq.
  - rewrite lookup_insert_ne; [done|]. intros [= -> ->]. by destruct Hne.
Qed.

Lemma credits_balance a coins l l' a' d : each_coin (credit_coin a) coins l = Some l' →
  ledger_balance l' a' d = ledger_balance l a' d + share a a' d coins.
Proof.
  unfold share. revert l. induction coins as [|c coins IH]; intros l Hl; simpl in *.
  - injection Hl as <-. case_decide; lia.
  - rewrite (IH _ Hl), ledger_balance_insert. repeat case_decide; naive_solver lia.
Qed.

Lemma debits_balance a coins l l' a' d : each_coin (debit_coin a) coins l = Some l' →
  ledger_balance l' a' d + share a a' d coins = ledger_balance l a' d.
Proof.
  unfold share. revert l. induction coins as [|c coins IH]; intros l Hl; simpl in *.
  - injection Hl as <-. case_decide; lia.
  - apply bind_Some in Hl as (l1 & Hc & Hl). apply IH in Hl. revert Hl.
    unfold debit_coin in Hc. case_guard as Hg; simplify_eq/=. destruct Hg as [_ Hle].
    rewrite ledger_balance_insert. repeat case_decide; naive_solver lia.
Qed.

Lemma debit_funded (a : Addr) (c : Coin) (l : Ledger) : amount c ≠ 0 → amount c ≤ ledger_balance l a (denom c) →
  is_Some (debit_coin a c l).
Proof. intros. unfold debit_coin. rewrite option_guard_True by done. by eexists. Qed.

#[global] Instance ledger_laws : BankLaws Ledger.
Proof.
  split; simpl.
  - intros b b' from to coins a d (b1 & Hb1 & Hb')%bind_Some.
    rewrite (credits_balance _ _ _ _ a d Hb').
    pose proof (debits_balance _ _ _ _ a d Hb1). lia.
  - intros. by apply debits_balance.
  - intros. by apply credits_balance.
  - intros b from to c Hz Hle. destruct (debit_funded from c b Hz Hle) as [b1 ->]. by eexists.
  - intros b from c Hz Hle. destruct (debit_funded from c b Hz Hle) as [b1 ->]. by eexists.
Qed.
