(* ===== verification/NoisChain.v ===== *)
(** * The Nois chain: contracts that call and pay each other

    nois-drand, nois-gateway, nois-sink and one nois-payment per customer run on
    one chain, with a bank. [Chain] is their state. A transaction delivers
    messages; the messages a contract answers with are delivered before the
    ones that follow, and a message that fails undoes the whole transaction:
    [dispatch] runs this worklist. Each message costs one unit of gas.

    The messages of the contracts go through their serialized form. Contracts
    that are not part of this repository can answer a message with any messages
    of their own, also with calls back into these contracts. *)
From stdpp Require Import prelude gmap strings list sorting pretty.
From Stdlib Require Import NArith Lia.
From S2P Require Import Prelude.
From S2P Require Import CosmWasm.
From S2P Require Import NoisProtocol.
From S2P Require Import Sink.
From S2P Require Import Payment.
From S2P Require Import Drand.
From S2P Require Import GatewayState.
From S2P Require Import RequestRouter.
From S2P Require Import Gateway.
From S2P Require Import System.
From S2P Require Import Bank.

(** ** The chain *)

(** The addresses of the contracts and of the community pool, what the chain
    computes for the contracts, the code ID of nois-payment, and the decoder of
    messages to the community pool. *)
Class Setup := {
  drand_addr : Addr;
  gateway_addr : Addr;
  sink_addr : Addr;
  pool_addr : Addr;
  chain_api : Api;
  code_checksum : u64 → outcome StdError Binary;
  payment_code : u64;
  decode_fund : Binary → option (Coin * Addr);
}.

Definition fixed_addrs `{Setup} : list Addr := [drand_addr; gateway_addr; sink_addr; pool_addr].

Class SetupLaws `{Setup} `{Anybuf} := {
  fixed_distinct : NoDup fixed_addrs;
  (* a valid address is its own normal form *)
  validate_self a a' : addr_validate_ chain_api a = Ok a' → a' = a;
  decode_encode_fund c a : decode_fund (encode_msg_fund_community_pool c a) = Some (c, a);
}.

(** The last two fields are a history: the acknowledgements of the packets
    received and the coins that the sink burnt. *)
Record Chain (B : Type) := {
  bank : B;
  drand_state : Drand.Storage;
  gateway_state : GatewayState.Storage;
  sink_state : Sink.Storage;
  payments : gmap Addr Payment.Storage;
  packets : list IbcMsg;
  acks : list StdAck;
  burnt : list Coin;
}.
Arguments bank {B} c : rename.
Arguments drand_state {B} c : rename.
Arguments gateway_state {B} c : rename.
Arguments sink_state {B} c : rename.
Arguments payments {B} c : rename.
Arguments packets {B} c : rename.
Arguments acks {B} c : rename.
Arguments burnt {B} c : rename.

Inductive Tx :=
  (* a transaction that an account signs *)
  | Tx_messages (signer : Addr) (msgs : list CosmosMsg)
  | Tx_mint (to : Addr) (coins : list Coin)
  (* what relayers submit *)
  | Tx_channel_connect (msg : IbcChannelConnectMsg)
  | Tx_channel_close (msg : IbcChannelCloseMsg)
  | Tx_packet_receive (msg : IbcPacketReceiveMsg)
  | Tx_packet_ack (msg : IbcPacketAckMsg)
  | Tx_packet_timeout
  (* governance *)
  | Tx_migrate_drand
  | Tx_migrate_gateway
  | Tx_migrate_sink
  | Tx_migrate_payment (a : Addr).

Section updates.
Context {B : Type}.
Implicit Types c : Chain B.

Definition with_bank (b : B) c : Chain B := {|
  bank := b; drand_state := drand_state c; gateway_state := gateway_state c;
  sink_state := sink_state c; payments := payments c; packets := packets c; acks := acks c;
  burnt := burnt c |}.
Definition with_drand (s : Drand.Storage) c : Chain B := {|
  bank := bank c; drand_state := s; gateway_state := gateway_state c;
  sink_state := sink_state c; payments := payments c; packets := packets c; acks := acks c;
  burnt := burnt c |}.
Definition with_gateway (s : GatewayState.Storage) c : Chain B := {|
  bank := bank c; drand_state := drand_state c; gateway_state := s;
  sink_state := sink_state c; payments := payments c; packets := packets c; acks := acks c;
  burnt := burnt c |}.
Definition with_sink (s : Sink.Storage) c : Chain B := {|
  bank := bank c; drand_state := drand_state c; gateway_state := gateway_state c;
  sink_state := s; payments := payments c; packets := packets c; acks := acks c;
  burnt := burnt c |}.
Definition with_payment (a : Addr) (s : Payment.Storage) c : Chain B := {|
  bank := bank c; drand_state := drand_state c; gateway_state := gateway_state c;
  sink_state := sink_state c; payments := <[a := s]> (payments c); packets := packets c;
  acks := acks c; burnt := burnt c |}.
Definition with_packet (m : IbcMsg) c : Chain B := {|
  bank := bank c; drand_state := drand_state c; gateway_state := gateway_state c;
  sink_state := sink_state c; payments := payments c; packets := packets c ++ [m];
  acks := acks c; burnt := burnt c |}.
Definition with_ack (a : StdAck) c : Chain B := {|
  bank := bank c; drand_state := drand_state c; gateway_state := gateway_state c;
  sink_state := sink_state c; payments := payments c; packets := packets c;
  acks := acks c ++ [a]; burnt := burnt c |}.
Definition with_burnt (coins : list Coin) c : Chain B := {|
  bank := bank c; drand_state := drand_state c; gateway_state := gateway_state c;
  sink_state := sink_state c; payments := payments c; packets := packets c; acks := acks c;
  burnt := burnt c ++ coins |}.
End updates.

(** ** Messages *)

Definition msgs_of (from : Addr) (r : Response) : list (Addr * CosmosMsg) :=
  pair from <$> (sub_msg <$> messages r).

Section chain.
Context {B : Type} `{Bank B} `{Setup}.
Context `{Display} `{Anybuf} `{Sha256} `{Instantiate2} `{DrandVerify} `{Json InPacket}
  `{Json InPacketAck} `{Json OutPacket} `{Json OutPacketAck} `{Json StdAck}
  `{Json NoisSinkExecuteMsg} `{Json NoisGatewayExecuteMsg} `{Json Sink.ExecuteMsg}
  `{Json Drand.ExecuteMsg} `{Json Gateway.ExecuteMsg} `{Json Payment.InstantiateMsg}
  `{Json Payment.ExecuteMsg}.
Implicit Types c : Chain B.

(** What contracts can query during a transaction. *)
Definition deps_of c : Deps := {|
  api := chain_api;
  querier := {|
    query_balance_ a d := Ok (coin (balance (bank c) a d) d);
    query_wasm_code_info_ := code_checksum;
    raw_query_code_info_ id :=
      match code_checksum id with Ok _ => None | _ => Some (SystemError_NoSuchCode id) end;
  |};
|}.

Definition env_at (env : Env) (a : Addr) : Env := {|
  block_height := block_height env; block_time := block_time env;
  transaction_index := transaction_index env; contract_address := a |}.

(** The call of a contract, after the funds moved: the new state, and the
    messages it answers with. [answer] is what a contract of others answers. *)
Definition execute_contract (env : Env) (answer : list CosmosMsg) (to : Addr)
    (info : MessageInfo) (msg : Binary) c : option (list (Addr * CosmosMsg) * Chain B) :=
  if decide (to = drand_addr) then
    m ← parse msg;
    '(r, s) ← committed (Drand.execute (deps_of c) (env_at env to) info m) (drand_state c);
    Some (msgs_of to r, with_drand s c)
  else if decide (to = gateway_addr) then
    m ← parse msg;
    '(r, s) ← committed (Gateway.execute (deps_of c) (env_at env to) info m) (gateway_state c);
    Some (msgs_of to r, with_gateway s c)
  else if decide (to = sink_addr) then
    m ← parse msg;
    '(r, s) ← committed (Sink.execute (deps_of c) (env_at env to) info m) (sink_state c);
    Some (msgs_of to r, with_sink s c)
  else
    match payments c !! to with
    | Some s =>
        m ← parse msg;
        '(r, s) ← committed (Payment.execute (deps_of c) (env_at env to) info m) s;
        Some (msgs_of to r, with_payment to s c)
    | None =>
        guard (to ≠ pool_addr);;
        Some (pair to <$> answer, c)
    end.

(** The creation of a contract at an address that no other contract has. *)
Definition instantiate_contract (env : Env) (answer : list CosmosMsg) (to : Addr)
    (info : MessageInfo) (code_id : u64) (msg : Binary) c :
    option (list (Addr * CosmosMsg) * Chain B) :=
  guard (to ∉ fixed_addrs ∧ payments c !! to = None);;
  if decide (code_id = payment_code) then
    m ← parse msg;
    '(r, s) ← committed (Payment.instantiate (deps_of c) (env_at env to) info m)
      {| Payment.contract_info := None; Payment.config := None |};
    Some (msgs_of to r, with_payment to s c)
  else Some (pair to <$> answer, c).

(** The address of a contract: it depends on the code, the creator and the salt. *)
Definition contract_at (creator : Addr) (code_id : u64) (salt : Binary) : option Addr :=
  match code_checksum code_id, addr_canonicalize_ chain_api creator with
  | Ok checksum, Ok canonical =>
      match instantiate2_address checksum canonical salt with
      | Ok a => match addr_humanize_ chain_api a with Ok address => Some address | _ => None end
      | _ => None
      end
  | _, _ => None
  end.

Definition deliver (env : Env) (answer : list CosmosMsg) (from : Addr) (m : CosmosMsg) c :
    option (list (Addr * CosmosMsg) * Chain B) :=
  match m with
  | CosmosMsg_Bank (BankMsg_Send to coins) =>
      b ← bank_send from to coins (bank c);
      Some ([], with_bank b c)
  | CosmosMsg_Bank (BankMsg_Burn coins) =>
      b ← bank_burn from coins (bank c);
      Some ([], with_burnt (if decide (from = sink_addr) then coins else []) (with_bank b c))
  | CosmosMsg_Wasm (WasmMsg_Execute to msg coins) =>
      b ← transfer from to coins (bank c);
      execute_contract env answer to {| sender := from; funds := coins |} msg (with_bank b c)
  | CosmosMsg_Wasm (WasmMsg_Instantiate2 _ code_id _ msg coins salt) =>
      to ← contract_at from code_id salt;
      b ← transfer from to coins (bank c);
      instantiate_contract env answer to {| sender := from; funds := coins |} code_id msg
        (with_bank b c)
  | CosmosMsg_Ibc (IbcMsg_SendPacket channel data timeout) =>
      guard (from = gateway_addr);;
      Some ([], with_packet (IbcMsg_SendPacket channel data timeout) c)
  | CosmosMsg_Stargate url value =>
      guard (url = "/cosmos.distribution.v1beta1.MsgFundCommunityPool");;
      '(amt, depositor) ← decode_fund value;
      guard (depositor = from);;
      b ← bank_send from pool_addr [amt] (bank c);
      Some ([], with_bank b c)
  | _ => None
  end.

(** The answers of the contracts of others can depend on the gas that is left. *)
Fixpoint dispatch (gas : nat) (env : Env) (answers : nat → list CosmosMsg)
    (todo : list (Addr * CosmosMsg)) c : option (Chain B) :=
  match todo, gas with
  | [], _ => Some c
  | _, O => None
  | (from, m) :: todo, S gas =>
      '(msgs, c) ← deliver env (answers gas) from m c;
      dispatch gas env answers (msgs ++ todo) c
  end.

(** ** Transactions *)

(** An account: the address of no contract of this repository. *)
Definition account c (a : Addr) : Prop := a ∉ fixed_addrs ∧ payments c !! a = None.

(** The manager of the gateway lists no drand contract but nois-drand. *)
Definition drand_is_drand c : Prop :=
  unwrap_or drand_addr (GatewayState.config (gateway_state c) ≫= drand) = drand_addr.

Definition run_gateway {E} (gas : nat) (env : Env) (answers : nat → list CosmosMsg)
    (m : M GatewayState.Storage E Response) c : option (Chain B) :=
  '(r, s) ← committed m (gateway_state c);
  dispatch gas env answers (msgs_of gateway_addr r) (with_gateway s c).

Definition run_tx (gas : nat) (env : Env) (answers : nat → list CosmosMsg) (tx : Tx) c :
    option (Chain B) :=
  let deps := deps_of c in
  let genv := env_at env gateway_addr in
  match tx with
  | Tx_messages signer msgs =>
      guard (account c signer);;
      c' ← dispatch gas env answers (pair signer <$> msgs) c;
      guard (drand_is_drand c');;
      Some c'
  | Tx_mint to coins => b ← bank_mint to coins (bank c); Some (with_bank b c)
  | Tx_channel_connect msg =>
      run_gateway gas env answers (Gateway.ibc_channel_connect deps genv msg) c
  | Tx_channel_close msg =>
      run_gateway gas env answers (Gateway.ibc_channel_close deps genv msg) c
  | Tx_packet_receive msg =>
      guard (account c (relayer msg));;
      '(r, s) ← committed (Gateway.ibc_packet_receive deps genv msg) (gateway_state c);
      c' ← dispatch gas env answers (msgs_of gateway_addr (response r)) (with_gateway s c);
      Some (with_ack (acknowledgement r) c')
  | Tx_packet_ack msg => run_gateway gas env answers (Gateway.ibc_packet_ack deps genv msg) c
  | Tx_packet_timeout => run_gateway gas env answers (Gateway.ibc_packet_timeout deps genv) c
  | Tx_migrate_drand =>
      '(_, s) ← committed (Drand.migrate deps (env_at env drand_addr)) (drand_state c);
      Some (with_drand s c)
  | Tx_migrate_gateway => run_gateway gas env answers (Gateway.migrate deps genv) c
  | Tx_migrate_sink =>
      '(_, s) ← committed (Sink.migrate deps (env_at env sink_addr)) (sink_state c);
      Some (with_sink s c)
  | Tx_migrate_payment a =>
      s ← payments c !! a;
      '(_, s) ← committed (Payment.migrate deps (env_at env a)) s;
      Some (with_payment a s c)
  end.

(** At the start the contracts are instantiated, the gateway with the sink and
    the payment code of this chain, and nobody is a customer yet. *)
Definition chain_init c : Prop :=
  Drand.init (drand_state c) ∧ Gateway.init (gateway_state c) ∧ Sink.init (sink_state c) ∧
  (GatewayState.sink <$> GatewayState.config (gateway_state c)) = Some sink_addr ∧
  (payment_code_id <$> GatewayState.config (gateway_state c)) = Some payment_code ∧
  payments c = ∅ ∧ packets c = [] ∧ acks c = [] ∧ burnt c = [].

Definition chain_step c c' : Prop := ∃ gas env answers tx, run_tx gas env answers tx c = Some c'.

Definition chain_reachable : Chain B → Prop := reachable chain_init chain_step.
End chain.
