(* ===== verification/ChainInvariant.v ===== *)
(** * Transactions of the Nois chain

    What a transaction of [NoisChain] does to the contracts and their money: the
    worklist of an account's transaction by an invariant, the receipt of a packet
    and the handshake by running them, and the invariant of every reachable
    state. *)
From stdpp Require Import prelude gmap strings list sorting pretty.
From Stdlib Require Import NArith Lia.
From S2P Require Import Prelude.
From S2P Require Import CosmWasm.
From S2P Require Import DrandCommon.
From S2P Require Import NoisProtocol.
From S2P Require Import Fixtures.
From S2P Require Import Sink.
From S2P Require Import Payment.
From S2P Require Import Drand.
From S2P Require Import GatewayState.
From S2P Require Import RequestRouter.
From S2P Require Import Gateway.
From S2P Require Import System.
From S2P Require Import Bank.
From S2P Require Import NoisChain.

(** ** Contracts *)

Definition is_packet (m : CosmosMsg) : Prop :=
  match m with CosmosMsg_Ibc (IbcMsg_SendPacket _ _ _) => True | _ => False end.

(** The customers have the same payment contracts, which obey the same sink. *)
Definition same_contracts (s s' : GatewayState.Storage) : Prop :=
  (∀ chan, (payment <$> customers s' !! chan) = (payment <$> customers s !! chan)) ∧
  (GatewayState.sink <$> GatewayState.config s') = (GatewayState.sink <$> GatewayState.config s) ∧
  (payment_code_id <$> GatewayState.config s') = (payment_code_id <$> GatewayState.config s).

Section contracts.
Context `{Display} `{Anybuf} `{Sha256} `{Instantiate2} `{Json InPacket} `{Json InPacketAck}
  `{Json OutPacket} `{Json OutPacketAck} `{Json StdAck} `{Json NoisSinkExecuteMsg}
  `{Json Drand.ExecuteMsg} `{Json Payment.InstantiateMsg} `{Json Payment.ExecuteMsg}.

Lemma delivered_packets env round randomness jobs msgs :
  Forall2 (delivers env round randomness) jobs msgs → Forall is_packet msgs.
Proof. induction 1 as [|job m jobs msgs (data & _ & ->)]; by constructor. Qed.

Lemma gateway_execute_calm deps env info msg s r s' :
  Gateway.execute deps env info msg s = (Ok r, s') →
  customers s' = customers s ∧ same_contracts s s' ∧ Forall is_packet (sub_msg <$> messages r).
Proof.
  destruct msg as [round randomness v|ma p dr pif ts]; intros Hrun.
  - apply (execute_add_verified_round_ok deps) in Hrun as (_ & n & (_ & Hdel & ->) & _).
    match goal with |- context [drained ?k ?s1 ?q] =>
      destruct (drained_frame k s1 q) as (_ & Hc & Hs & _) end.
    unfold same_contracts. rewrite Hc, Hs. split_and!; [done..|]. by eapply delivered_packets.
  - simpl in Hrun. apply execute_set_config_ok in Hrun
      as (cfg & cfg' & Hcfg & _ & -> & -> & (_ & _ & _ & _ & _ & Hcode & Hsink)).
    split_and!; [done| |constructor]. unfold same_contracts. simpl. rewrite Hcfg. simpl.
    by rewrite Hcode, Hsink.
Qed.

(** Only the counters of the customers change when a packet is received. *)
Lemma receive_contracts deps env msg s o s' :
  Gateway.ibc_packet_receive deps env msg s = (o, s') →
  same_contracts s s' ∧ GatewayState.config s' = GatewayState.config s.
Proof.
  intros Hrun. assert (GatewayState.config s' = GatewayState.config s) as Hcfg
    by by eapply receive_config.
  split; [|done]. unfold same_contracts. rewrite Hcfg. split; [|done]. clear Hcfg.
  set (P := λ s1 : GatewayState.Storage,
    ∀ chan, (payment <$> customers s1 !! chan) = (payment <$> customers s !! chan)).
  eapply (preserves_run P); [|exact Hrun|done]. clear Hrun s' o.
  assert (∀ chan e, preserves P (requests_log_add chan e
    : M GatewayState.Storage Gateway.ContractError unit)) by by intros ? ? ?.
  assert (∀ round, preserves P (increment_processed_drand_jobs round
    : M GatewayState.Storage Gateway.ContractError unit)).
  { intros round s1 Hs. rewrite increment_run. by destruct (_ <=? _). }
  assert (∀ round job, preserves P (unprocessed_drand_jobs_enqueue round job
    : M GatewayState.Storage Gateway.ContractError unit)).
  { intros round job s1 Hs. rewrite enqueue_run. by destruct (_ && _). }
  intros s1 Hs. unfold Gateway.ibc_packet_receive, or_else_ack.
  match goal with |- context [match ?m s1 with _ => _ end] =>
    assert (preserves P m) as Hm end.
  { apply preserves_bind; [auto with preserves|]. intros [after origin|].
    2: { unfold receive_pull_beacon_price. preserve. }
    unfold receive_request_beacon.
    apply preserves_bind; [auto with preserves|]. intros _.
    apply preserves_bind.
    { unfold route, handle_drand_request, archive_lookup. preserve; done. }
    intros receipt. apply preserves_bind; [done|]. intros _.
    intros s2 Hs2. unfold mbind at 1, M_bind at 1, map_load. simpl.
    destruct (customers s2 !! packet_dest_channel_id msg) as [customer|] eqn:Hc; [|done].
    destruct (uadd 64 _ 1) as [n|e|]; [|done..]. run_step by done.
    unfold map_save. apply preserves_after_write; [|preserve].
    intros chan. simpl. destruct (decide (packet_dest_channel_id msg = chan)) as [<-|].
    - by rewrite lookup_insert_eq, <-Hs2, Hc.
    - rewrite lookup_insert_ne by done. apply Hs2. }
  specialize (Hm s1 Hs). by case_match; case_match.
Qed.

(** A receipt that sends something is an accepted request. *)
Lemma receive_messages deps env msg s r s' :
  Gateway.ibc_packet_receive deps env msg s = (Ok r, s') →
  (messages (response r) = [] ∧
    ∀ after origin b, from_json (packet_data msg) = Ok (InPacket_RequestBeacon after origin) →
      acknowledgement r ≠ StdAck_Success b) ∨
  ∃ after origin b, from_json (packet_data msg) = Ok (InPacket_RequestBeacon after origin) ∧
    acknowledgement r = StdAck_Success b ∧
    request_accepted env (packet_dest_channel_id msg) (relayer msg) after origin s r s'.
Proof.
  intros Hrun. destruct (acknowledgement r) as [b|e] eqn:Hack.
  - destruct (from_json (packet_data msg) : outcome StdError InPacket) as [[after origin|]|e|] eqn:Hj.
    1: { right. exists after, origin, b. split_and!; [done..|]. by eapply ibc_packet_receive_request_ok. }
    all: left; (split; [|by intros ? ? ? [=]]);
      eapply ibc_packet_receive_other; [|exact Hrun]; intros ? ?; by rewrite Hj.
  - left. split; [|done]. revert Hrun Hack. unfold Gateway.ibc_packet_receive, or_else_ack.
    match goal with |- match ?m s with _ => _ end = _ → _ =>
      destruct (m s) as [[r1|e1|] s1] eqn:Hm end; intros Hr Hack; simplify_eq/=; [|done].
    exfalso. revert Hm Hack. clear.
    destruct (from_json (packet_data msg) : outcome StdError InPacket) as [[after origin|]|e2|]; simpl; try done.
    + run_step by (by apply std_run). intros (receipt & ? & ? & ? & ? & _ & [_ Hr] & _ & _ & -> & _)%receive_request_beacon_ok.
      destruct (archived s _); by destruct Hr as (_ & _ & _ & _ & b & _ & ->).
    + run_step by (by apply std_run). unfold receive_pull_beacon_price. intros Hrun. by inv_run.
Qed.

Lemma payment_execute_ok deps env info msg s r s' :
  Payment.execute deps env info msg s = (Ok r, s') →
  s' = s ∧ ∃ cfg, Payment.config s = Some cfg ∧ sender info = Payment.gateway cfg.
Proof.
  destruct msg as [burn pool rew]. simpl. unfold execute_pay. intros Hrun. inv_run.
  match goal with H : (if _ then _ else _) _ = _ |- _ => destruct (_ =? _) in H; simpl in H; inv_run end.
  all: by eauto.
Qed.

(** The messages of a payment that succeeds. *)
Lemma payment_pay_ok deps env info burn pool rew s r s' cfg b :
  Payment.execute deps env info (Payment.ExecuteMsg_Pay burn pool rew) s = (Ok r, s') →
  Payment.config s = Some cfg → to_json_binary NoisSinkExecuteMsg_Burn = Ok b →
  s' = s ∧ sub_msg <$> messages r = pay_messages cfg b env burn pool rew.
Proof.
  intros Hrun Hcfg Hb.
  assert (∃ a, sender info = Payment.gateway cfg ∧ funds info = [] ∧
    addr_validate_ (api deps) rew.1 = Ok a) as (a & Hs & Hf & Ha).
  { simpl in Hrun. unfold execute_pay in Hrun. inv_run. simpl in *. simplify_eq.
    eexists. by split_and!. }
  destruct (execute_pay_run deps env info burn pool rew s cfg b a) as (r' & Hr' & Hm); [done..|].
  rewrite Hrun in Hr'. injection Hr' as <- ->. split; [done|]. by rewrite Hm, sub_msg_new.
Qed.

Lemma payment_instantiate_ok deps env info msg s r s' :
  Payment.instantiate deps env info msg s = (Ok r, s') →
  messages r = [] ∧ ∃ a, addr_validate_ (api deps) (Payment.msg_sink msg) = Ok a ∧
    Payment.config s' = Some {| Payment.sink := a; Payment.gateway := sender info |}.
Proof.
  unfold Payment.instantiate. intros Hrun. inv_run. split; [done|]. by eexists.
Qed.

(** The coins that the sink has recorded, oldest first. *)
Definition recorded_coins (s : Sink.Storage) : list Coin := ash_amount <$> (entries (ashes s)).*2.

Definition unois_only (coins : list Coin) : Prop := Forall (λ x, denom x = BURN_DENOM) coins.

Lemma sink_execute_ok deps env info msg s r s' :
  (∀ a d x, query_balance_ (querier deps) a d = Ok x → denom x = d) →
  Sink.execute deps env info msg s = (Ok r, s') →
  ∃ ash, recorded ash s s' ∧ denom (ash_amount ash) = BURN_DENOM ∧
    messages r = [SubMsg_new (CosmosMsg_Bank (BankMsg_Burn [ash_amount ash]))].
Proof.
  intros Hbal. destruct msg; simpl.
  - intros (x & _ & Hd & ? & ?)%execute_burn_ok. by eexists.
  - intros (x & _ & Hd%Hbal & _ & ? & ?)%execute_burn_balance_ok. by eexists.
Qed.

Lemma recorded_coins_snoc ash s s' : ledger s → recorded ash s s' →
  recorded_coins s' = recorded_coins s ++ [ash_amount ash].
Proof.
  intros Hl [_ ->]. unfold recorded_coins. simpl. rewrite entries_insert_last.
  - by rewrite !fmap_app.
  - intros i a Hi. apply key_lt_N. assert (is_Some (ashes s !! i)) as Hs by by eexists.
    apply Hl in Hs. lia.
Qed.
End contracts.

(** ** Running messages *)

Section chain.
Context {B : Type} `{BankLaws B} `{Setup} `{Display} `{Anybuf} `{!SetupLaws}.
Context `{Sha256} `{Instantiate2} `{DrandVerify} `{Json InPacket}
  `{Json InPacketAck} `{Json OutPacket} `{Json OutPacketAck} `{Json StdAck}
  `{Json NoisSinkExecuteMsg} `{Json NoisGatewayExecuteMsg} `{Json Sink.ExecuteMsg}
  `{Json Drand.ExecuteMsg} `{Json Gateway.ExecuteMsg} `{Json Payment.InstantiateMsg}
  `{Json Payment.ExecuteMsg}.
Implicit Types c : Chain B.

Lemma fixed_ne : drand_addr ≠ gateway_addr ∧ drand_addr ≠ sink_addr ∧ gateway_addr ≠ sink_addr ∧
  gateway_addr ≠ pool_addr ∧ sink_addr ≠ pool_addr.
Proof.
  pose proof fixed_distinct as Hd. unfold fixed_addrs in Hd.
  repeat setoid_rewrite NoDup_cons in Hd. set_solver.
Qed.

Lemma not_fixed a : a ∉ fixed_addrs →
  a ≠ drand_addr ∧ a ≠ gateway_addr ∧ a ≠ sink_addr ∧ a ≠ pool_addr.
Proof. unfold fixed_addrs. set_solver. Qed.

Lemma dispatch_nil gas env answers c c' : dispatch gas env answers [] c = Some c' → c' = c.
Proof. destruct gas; simpl; congruence. Qed.

Lemma dispatch_cons gas env answers from m todo c c' :
  dispatch gas env answers ((from, m) :: todo) c = Some c' →
  ∃ gas' msgs c1, gas = S gas' ∧ deliver env (answers gas') from m c = Some (msgs, c1) ∧
    dispatch gas' env answers (msgs ++ todo) c1 = Some c'.
Proof.
  destruct gas as [|gas]; [done|]. cbn [dispatch].
  intros ([msgs c1] & Hd & Hrun)%bind_Some. by exists gas, msgs, c1.
Qed.

(** An invariant of the worklist. *)
Lemma dispatch_invariant (I : list (Addr * CosmosMsg) → Chain B → Prop) env answers :
  (∀ from m todo c answer msgs c', I ((from, m) :: todo) c →
    deliver env answer from m c = Some (msgs, c') → I (msgs ++ todo) c') →
  ∀ gas todo c c', I todo c → dispatch gas env answers todo c = Some c' → I [] c'.
Proof.
  intros Hstep gas. induction gas as [|gas IH]; intros [|[from m] todo] c c' HI Hrun.
  - by injection Hrun as <-.
  - done.
  - by injection Hrun as <-.
  - apply dispatch_cons in Hrun as (? & msgs & c1 & [= <-] & Hd & Hrun). eauto.
Qed.

(** The cases of a call. *)
Inductive called (env : Env) (answer : list CosmosMsg) (to : Addr) (info : MessageInfo)
    (msg : Binary) c : list (Addr * CosmosMsg) → Chain B → Prop :=
  | called_drand m r s :
      to = drand_addr → parse msg = Some m →
      Drand.execute (deps_of c) (env_at env to) info m (drand_state c) = (Ok r, s) →
      called env answer to info msg c (msgs_of to r) (with_drand s c)
  | called_gateway m r s :
      to = gateway_addr → parse msg = Some m →
      Gateway.execute (deps_of c) (env_at env to) info m (gateway_state c) = (Ok r, s) →
      called env answer to info msg c (msgs_of to r) (with_gateway s c)
  | called_sink m r s :
      to = sink_addr → parse msg = Some m →
      Sink.execute (deps_of c) (env_at env to) info m (sink_state c) = (Ok r, s) →
      called env answer to info msg c (msgs_of to r) (with_sink s c)
  | called_payment m r s s' :
      payments c !! to = Some s → parse msg = Some m →
      to ≠ drand_addr → to ≠ gateway_addr → to ≠ sink_addr →
      Payment.execute (deps_of c) (env_at env to) info m s = (Ok r, s') →
      called env answer to info msg c (msgs_of to r) (with_payment to s' c)
  | called_other :
      to ∉ fixed_addrs → payments c !! to = None →
      called env answer to info msg c (pair to <$> answer) c.

Lemma execute_contract_called env answer to info msg c msgs c' :
  execute_contract env answer to info msg c = Some (msgs, c') →
  called env answer to info msg c msgs c'.
Proof.
  unfold execute_contract. intros Hrun. destruct (decide (to = drand_addr)).
  2: destruct (decide (to = gateway_addr)).
  3: destruct (decide (to = sink_addr)).
  1-3: apply bind_Some in Hrun as (m & Hm & Hrun);
    apply bind_Some in Hrun as ([r s] & Hr%committed_Some & [= <- <-]); by econstructor.
  destruct (payments c !! to) as [s|] eqn:Hto.
  - apply bind_Some in Hrun as (m & Hm & Hrun).
    apply bind_Some in Hrun as ([r s'] & Hr%committed_Some & [= <- <-]). by econstructor.
  - case_guard as Hpool; simplify_eq/=. apply called_other; [|done]. unfold fixed_addrs. set_solver.
Qed.

(** *** Invariants of the contracts *)

Definition customer_contract (cs : gmap string Customer) (a : Addr) : Prop :=
  ∃ chan, (payment <$> cs !! chan) = Some a.

Definition gateway_payment : Payment.Config :=
  {| Payment.sink := sink_addr; Payment.gateway := gateway_addr |}.

Record contracts_wf c : Prop := {
  wf_ledger : ledger (sink_state c);
  wf_unois : unois_only (recorded_coins (sink_state c));
  wf_sink : (GatewayState.sink <$> GatewayState.config (gateway_state c)) = Some sink_addr;
  wf_code : (payment_code_id <$> GatewayState.config (gateway_state c)) = Some payment_code;
  wf_fresh : ∀ a, is_Some (payments c !! a) → a ∉ fixed_addrs;
  (* the customers' payment contracts exist and obey the gateway *)
  wf_customers : ∀ a, customer_contract (customers (gateway_state c)) a →
    (payments c !! a ≫= Payment.config) = Some gateway_payment;
}.

Lemma customer_not_fixed c a : contracts_wf c →
  customer_contract (customers (gateway_state c)) a → a ∉ fixed_addrs.
Proof.
  intros Hwf Ha. apply (wf_fresh c Hwf).
  apply (wf_customers c Hwf) in Ha. destruct (payments c !! a); [by eexists|done].
Qed.

(** Two states with the same contracts as far as the invariant is concerned. *)
Lemma contracts_wf_frame c c' :
  sink_state c' = sink_state c → same_contracts (gateway_state c) (gateway_state c') →
  payments c' = payments c → contracts_wf c → contracts_wf c'.
Proof.
  intros Hs (Hc & Hsink & Hcode) Hp [Hl Hu Hws Hwc Hf Hcu].
  split; rewrite ?Hs, ?Hsink, ?Hcode, ?Hp; try done.
  intros a [chan Ha]. apply Hcu. exists chan. by rewrite <-Hc.
Qed.

(** *** The bank *)

Lemma transfer_keeps (b b' : B) from to coins a d :
  transfer from to coins b = Some b' → from ≠ a → balance b a d ≤ balance b' a d.
Proof. intros Hb Hne. pose proof (transfer_balance _ _ _ _ _ a d Hb) as Hbal.
  rewrite (share_ne from) in Hbal by done. lia. Qed.
Lemma send_keeps (b b' : B) from to coins a d :
  bank_send from to coins b = Some b' → from ≠ a → balance b a d ≤ balance b' a d.
Proof. intros Hb Hne. pose proof (send_balance _ _ _ _ _ a d Hb) as Hbal.
  rewrite (share_ne from) in Hbal by done. lia. Qed.
Lemma burn_keeps (b b' : B) from coins a d :
  bank_burn from coins b = Some b' → from ≠ a → balance b a d ≤ balance b' a d.
Proof. intros Hb Hne. pose proof (burn_balance _ _ _ _ a d Hb) as Hbal.
  rewrite (share_ne from) in Hbal by done. lia. Qed.

(** *** Transactions of accounts *)

(** In the transactions of accounts no customer's payment contract sends anything,
    the gateway only sends packets, and the sink burns at once what it records. *)
Definition harmless (cs : gmap string Customer) (x : Addr * CosmosMsg) : Prop :=
  x.1 ≠ sink_addr ∧ ¬ customer_contract cs x.1 ∧ (x.1 = gateway_addr → is_packet x.2).

Inductive shape (cs : gmap string Customer) : list (Addr * CosmosMsg) → list Coin → Prop :=
  | shape_calm todo : Forall (harmless cs) todo → shape cs todo []
  | shape_burning coins todo : Forall (harmless cs) todo →
      shape cs ((sink_addr, CosmosMsg_Bank (BankMsg_Burn coins)) :: todo) coins.

Record running (c0 : Chain B) (todo : list (Addr * CosmosMsg)) c : Prop := {
  run_customers : customers (gateway_state c) = customers (gateway_state c0);
  run_wf : contracts_wf c;
  run_burnt : ∃ pending, shape (customers (gateway_state c0)) todo pending ∧
    burnt c ++ pending = recorded_coins (sink_state c);
  run_balance : ∀ p d, customer_contract (customers (gateway_state c0)) p →
    balance (bank c0) p d ≤ balance (bank c) p d;
}.

Lemma harmless_from cs a (msgs : list CosmosMsg) :
  a ≠ sink_addr → a ≠ gateway_addr → ¬ customer_contract cs a →
  Forall (harmless cs) (pair a <$> msgs).
Proof. intros. apply Forall_fmap, Forall_true. intros m. unfold harmless. simpl. by split_and!. Qed.

Lemma harmless_gateway c (msgs : list CosmosMsg) :
  contracts_wf c → Forall is_packet msgs →
  Forall (harmless (customers (gateway_state c))) (pair gateway_addr <$> msgs).
Proof.
  intros Hwf Hmsgs. destruct fixed_ne as (_ & _ & ? & _). apply Forall_fmap.
  eapply Forall_impl; [exact Hmsgs|]. intros m Hm. unfold harmless. simpl.
  split_and!; [done| |done].
  intros Ha. apply (customer_not_fixed c) in Ha; [|done]. apply Ha. unfold fixed_addrs. set_solver.
Qed.

(** The state between two messages, none of which is a burn of the sink. *)
Definition calm (c0 : Chain B) (todo : list (Addr * CosmosMsg)) c : Prop :=
  running c0 todo c ∧ Forall (harmless (customers (gateway_state c0))) todo ∧
  burnt c = recorded_coins (sink_state c).

Lemma calm_running c0 todo c c' :
  calm c0 todo c → contracts_wf c' →
  customers (gateway_state c') = customers (gateway_state c) →
  burnt c' = recorded_coins (sink_state c') →
  (∀ p d, customer_contract (customers (gateway_state c)) p →
    balance (bank c) p d ≤ balance (bank c') p d) →
  ∀ msgs, Forall (harmless (customers (gateway_state c))) msgs → running c0 (msgs ++ todo) c'.
Proof.
  intros ([Hc Hwf _ Hb] & Htodo & _) Hwf' Hc' Hburnt Hbal msgs Hmsgs.
  split; [by rewrite Hc'|done| |].
  - exists []. rewrite app_nil_r. split; [|done]. constructor. rewrite <-Hc in *.
    by apply Forall_app.
  - intros p d Hp. etrans; [by apply Hb|]. apply Hbal. by rewrite Hc.
Qed.

Lemma called_running c0 todo c env answer to info msg msgs c' :
  calm c0 todo c → sender info ≠ gateway_addr →
  called env answer to info msg c msgs c' → running c0 (msgs ++ todo) c'.
Proof.
  intros Hcalm Hsender Hcall. pose proof Hcalm as ([Hcust Hwf _ Hbal] & Htodo & Hburnt).
  destruct fixed_ne as (Hdg & Hds & Hgs & _).
  assert (∀ a, customer_contract (customers (gateway_state c)) a → a ∉ fixed_addrs) as Hfix
    by by intros a; apply customer_not_fixed.
  destruct Hcall as [m r s -> Hm Hr|m r s -> Hm Hr|m r s -> Hm Hr|m r s s' Hto Hm Hd Hg Hs Hr|Hto Hno].
  - apply (calm_running _ _ _ _ Hcalm); try done; [by apply (contracts_wf_frame c)|].
    apply harmless_from; [done..|]. intros Ha%Hfix. apply Ha. unfold fixed_addrs. set_solver.
  - apply gateway_execute_calm in Hr as (Hcs & Hsame & Hmsgs).
    apply (calm_running _ _ _ _ Hcalm); try done;
      [by apply (contracts_wf_frame c)|by apply harmless_gateway].
  - apply sink_execute_ok in Hr as (ash & Hrec & Hden & Hmsgs); [|by intros ? ? ? [= <-]].
    unfold msgs_of. rewrite Hmsgs. simpl.
    pose proof (recorded_coins_snoc _ _ _ (wf_ledger c Hwf) Hrec) as Hcoins.
    split; simpl; [done| | |done].
    + destruct Hwf. split; try done; simpl; [by eapply recorded_ledger|].
      rewrite Hcoins. apply Forall_app. split; [done|by constructor].
    + exists [ash_amount ash]. split; [by constructor|]. by rewrite Hcoins, Hburnt.
  - apply payment_execute_ok in Hr as [-> (cfg & Hcfg & Hs')].
    assert (with_payment to s c = c) as ->.
    { unfold with_payment. rewrite insert_id by done. by destruct c. }
    apply (calm_running _ _ _ _ Hcalm); try done.
    apply harmless_from; [done..|]. intros Ha. apply (wf_customers c Hwf) in Ha.
    rewrite Hto in Ha. simpl in Ha. rewrite Ha in Hcfg. injection Hcfg as <-. by rewrite Hs' in Hsender.
  - apply (calm_running _ _ _ _ Hcalm); try done.
    unfold fixed_addrs in Hto. apply harmless_from; [set_solver..|].
    intros Ha%(wf_customers c Hwf). by rewrite Hno in Ha.
Qed.

Lemma bank_calm c0 from m todo c b :
  running c0 ((from, m) :: todo) c → harmless (customers (gateway_state c0)) (from, m) →
  (∀ a d, from ≠ a → balance (bank c) a d ≤ balance b a d) →
  calm c0 todo (with_bank b c).
Proof.
  intros [Hcust Hwf (pending & Hshape & Hburnt) Hbal] (Hs & Hfrom & _) Hb.
  assert (Forall (harmless (customers (gateway_state c0))) todo ∧ pending = []) as [Htodo ->].
  { inversion Hshape as [? Hall|]; simplify_eq/=. by inversion Hall. }
  rewrite app_nil_r in Hburnt. split_and!; [|done..]. split; [done| | |].
  - by destruct Hwf.
  - exists []. rewrite app_nil_r. split; [by constructor|done].
  - intros p d Hp. etrans; [by apply Hbal|]. apply Hb. intros ->. by apply Hfrom.
Qed.

(** What comes back from the creation of a contract. *)
Lemma instantiate_running c0 todo c env answer to info code_id msg msgs c' :
  calm c0 todo c →
  instantiate_contract env answer to info code_id msg c = Some (msgs, c') →
  running c0 (msgs ++ todo) c'.
Proof.
  intros Hcalm Hrun. pose proof Hcalm as ([Hcust Hwf _ Hbal] & Htodo & Hburnt).
  unfold instantiate_contract in Hrun. case_guard as Hnew; [|done].
  destruct Hnew as [Hfix Hnone]. simpl in Hrun.
  assert (¬ customer_contract (customers (gateway_state c)) to) as Hto.
  { intros Ha%(wf_customers c Hwf). by rewrite Hnone in Ha. }
  destruct (decide (code_id = payment_code)).
  - apply bind_Some in Hrun as (m & Hm & Hrun).
    apply bind_Some in Hrun as ([r s] & Hr%committed_Some & [= <- <-]).
    apply payment_instantiate_ok in Hr as (Hmsgs & _). unfold msgs_of. rewrite Hmsgs.
    apply (calm_running _ _ _ _ Hcalm); try done. destruct Hwf as [? ? ? ? Hfresh Hcs]. split; try done.
    + intros a. simpl. rewrite lookup_insert_is_Some.
      intros [<-|[_ Ha]]; [done|by apply Hfresh].
    + intros a Ha. simpl. rewrite lookup_insert_ne; [by apply Hcs|]. by intros ->.
  - injection Hrun as <- <-. apply (calm_running _ _ _ _ Hcalm); try done.
    unfold fixed_addrs in Hfix. apply harmless_from; set_solver.
Qed.

Lemma deliver_running c0 env from m todo c answer msgs c' :
  running c0 ((from, m) :: todo) c → deliver env answer from m c = Some (msgs, c') →
  running c0 (msgs ++ todo) c'.
Proof.
  intros Hrun Hd. pose proof Hrun as [_ _ (pending & Hshape & Hburnt) _].
  inversion Hshape as [? Hall|coins ? Htodo]; subst.
  2: { (* the sink burns *)
    destruct Hrun as [Hcust Hwf _ Hbal]. simpl in Hd. apply bind_Some in Hd as (b & Hb & [= <- <-]).
    rewrite decide_True by done. split; [done| | |].
    - by destruct Hwf.
    - exists []. rewrite app_nil_r. split; [by constructor|done].
    - intros p d Hp. etrans; [by apply Hbal|]. eapply burn_keeps; [exact Hb|]. intros <-.
      rewrite <-Hcust in Hp. apply (customer_not_fixed c) in Hp; [|done]. apply Hp.
      unfold fixed_addrs. set_solver. }
  inversion Hall as [|? ? Hm Htodo]; subst. pose proof Hm as (Hsink & Hcon & Hgw). simpl in Hsink, Hcon, Hgw.
  pose proof (bank_calm c0 from m todo c) as Hcalm.
  assert (∀ b, calm c0 todo (with_bank b c) → running c0 todo (with_bank b c)) as Hdone
    by by intros ? [].
  destruct m as [[to coins|coins]|[to msg coins|admin code_id label msg coins salt]
    |[|channel data timeout]| | |url value]; simpl in Hd; try done.
  - apply bind_Some in Hd as (b & Hb & [= <- <-]).
    apply Hdone, Hcalm; [done..|]. intros. by eapply send_keeps.
  - apply bind_Some in Hd as (b & Hb & [= <- <-]). rewrite decide_False by done.
    assert (with_burnt [] (with_bank b c) = with_bank b c) as ->.
    { unfold with_burnt. simpl. by rewrite app_nil_r. }
    apply Hdone, Hcalm; [done..|]. intros. by eapply burn_keeps.
  - apply bind_Some in Hd as (b & Hb & Hd).
    apply execute_contract_called in Hd.
    apply called_running with (3 := Hd); [|exact Hgw].
    apply Hcalm; [done..|]. intros. by eapply transfer_keeps.
  - apply bind_Some in Hd as (to & Hto & Hd). apply bind_Some in Hd as (b & Hb & Hd).
    eapply instantiate_running; [|exact Hd].
    apply Hcalm; [done..|]. intros. by eapply transfer_keeps.
  - case_guard; simplify_eq/=. destruct (Hcalm (bank c)) as ([? Hwf ? ?] & ? & ?); [done..|].
    split; try done. by destruct Hwf.
  - case_guard; [|done]. simpl in Hd. apply bind_Some in Hd as ([amt depositor] & _ & Hd).
    case_guard; [|done]. simpl in Hd. apply bind_Some in Hd as (b & Hb & [= <- <-]).
    apply Hdone, Hcalm; [done..|]. intros. by eapply send_keeps.
Qed.

(** *** A payment *)

Context `{!JsonLaws NoisSinkExecuteMsg} `{!JsonLaws Payment.ExecuteMsg}
  `{!Understands (λ _ : NoisSinkExecuteMsg, Sink.ExecuteMsg_Burn)}.

Lemma parse_written {A} `{JsonLaws A} (x : A) b : to_json_binary x = Ok b → parse b = Some x.
Proof. intros Hb%json_decode. unfold parse. by rewrite Hb. Qed.

Lemma dispatch_app gas env answers l1 l2 c c' :
  dispatch gas env answers (l1 ++ l2) c = Some c' →
  ∃ gas2 c1, dispatch gas env answers l1 c = Some c1 ∧ dispatch gas2 env answers l2 c1 = Some c'.
Proof.
  revert l1 c. induction gas as [|gas IH]; intros [|[from m] l1] c Hrun; simpl in Hrun.
  - by exists 0%nat, c.
  - done.
  - by exists (S gas), c.
  - apply bind_Some in Hrun as ([msgs c1] & Hd & Hrun). rewrite app_assoc in Hrun.
    apply IH in Hrun as (gas2 & c2 & Hrun & Hrest). exists gas2, c2. simpl. by rewrite Hd.
Qed.

Lemma with_bank_same c : with_bank (bank c) c = c.
Proof. by destruct c. Qed.

(** A part of the price that is sent to an account. *)
Lemma dispatch_send gas env answers from to x c c' :
  dispatch gas env answers
    (pair from <$> if amount x =? 0 then [] else [CosmosMsg_Bank (BankMsg_Send to [x])]) c
    = Some c' →
  ∃ b, c' = with_bank b c ∧
    ∀ a d, balance b a d + share from a d [x] = balance (bank c) a d + share to a d [x].
Proof.
  destruct (N.eqb_spec (amount x) 0) as [Hz|Hz]; simpl.
  - intros ->%dispatch_nil. exists (bank c). rewrite with_bank_same. split; [done|].
    intros a d. unfold share. rewrite total_one, Hz. repeat case_decide; lia.
  - intros (? & msgs & c1 & _ & Hd & Hrun)%dispatch_cons. simpl in Hd.
    apply bind_Some in Hd as (b & Hb & [= <- <-]). apply dispatch_nil in Hrun as ->.
    exists b. split; [done|]. intros a d. by apply send_balance.
Qed.

(** A part of the price that is sent to the community pool. *)
Lemma dispatch_fund gas env answers from x c c' :
  dispatch gas env answers
    (pair from <$> if amount x =? 0 then [] else
       [CosmosMsg_Stargate "/cosmos.distribution.v1beta1.MsgFundCommunityPool"
          (encode_msg_fund_community_pool x from)]) c = Some c' →
  ∃ b, c' = with_bank b c ∧
    ∀ a d, balance b a d + share from a d [x] = balance (bank c) a d + share pool_addr a d [x].
Proof.
  destruct (N.eqb_spec (amount x) 0) as [Hz|Hz]; simpl.
  - intros ->%dispatch_nil. exists (bank c). rewrite with_bank_same. split; [done|].
    intros a d. unfold share. rewrite total_one, Hz. repeat case_decide; lia.
  - intros (? & msgs & c1 & _ & Hd & Hrun)%dispatch_cons. cbn [deliver] in Hd.
    rewrite option_guard_True in Hd by done. rewrite decode_encode_fund in Hd. simpl in Hd.
    rewrite option_guard_True in Hd by done. simpl in Hd.
    apply bind_Some in Hd as (b & Hb & [= <- <-]). apply dispatch_nil in Hrun as ->.
    exists b. split; [done|]. intros a d. by apply send_balance.
Qed.

(** What the sink recorded and burnt, when it was given a coin. *)
Definition burned (from : Addr) (x : Coin) (env : Env) c c' : Prop :=
  if amount x =? 0 then sink_state c' = sink_state c ∧ burnt c' = burnt c
  else denom x = BURN_DENOM ∧ burnt c' = burnt c ++ [x] ∧
    recorded {| burner := Some from; ash_amount := x; Sink.time := block_time env |}
      (sink_state c) (sink_state c').

(** The other contracts did not change. *)
Definition others_same c c' : Prop :=
  drand_state c' = drand_state c ∧ gateway_state c' = gateway_state c ∧
  payments c' = payments c ∧ packets c' = packets c ∧ acks c' = acks c.

Lemma dispatch_burn gas env answers from x bin c c' :
  to_json_binary NoisSinkExecuteMsg_Burn = Ok bin →
  dispatch gas env answers
    (pair from <$> if amount x =? 0 then [] else
       [CosmosMsg_Wasm (WasmMsg_Execute sink_addr bin [x])]) c = Some c' →
  (∀ a d, balance (bank c') a d + share from a d [x] = balance (bank c) a d) ∧
  burned from x env c c' ∧ others_same c c'.
Proof.
  intros Hbin. unfold burned. destruct (N.eqb_spec (amount x) 0) as [Hz|Hz]; simpl.
  { intros ->%dispatch_nil. split_and!; [|done..].
    intros a d. unfold share. rewrite total_one, Hz. repeat case_decide; lia. }
  intros (gas1 & msgs & c1 & -> & Hd & Hrun)%dispatch_cons. cbn [deliver] in Hd.
  apply bind_Some in Hd as (b & Hb & Hd). apply execute_contract_called in Hd.
  destruct fixed_ne as (_ & Hds & Hgs & _).
  inversion Hd as [? ? ? Ha|? ? ? Ha|m r s _ Hm Hr|? ? ? ? _ _ _ _ Ha|Ha]; subst; try done.
  2: { exfalso. apply Ha. unfold fixed_addrs. set_solver. }
  unfold parse in Hm.
  rewrite (understands (f:=λ _ : NoisSinkExecuteMsg, Sink.ExecuteMsg_Burn) _ _ Hbin) in Hm.
  injection Hm as <-. simpl in Hr. apply execute_burn_ok in Hr as (y & Hf & Hden & Hmsgs & Hrec).
  simpl in Hf. injection Hf as <-. unfold msgs_of in Hrun. rewrite Hmsgs in Hrun.
  simpl in Hrun. apply dispatch_cons in Hrun as (? & msgs & c2 & -> & Hd2 & Hrun).
  simpl in Hd2. apply bind_Some in Hd2 as (b2 & Hb2 & [= <- <-]).
  apply dispatch_nil in Hrun as ->. rewrite decide_True by done.
  split; [|split; [by split_and!|done]]. intros a d. simpl.
  pose proof (transfer_balance _ _ _ _ _ a d Hb). pose proof (burn_balance _ _ _ _ a d Hb2).
  simpl in *. lia.
Qed.

(** The price leaves the payment contract: a part is burnt, a part rewards the
    relayer, the rest goes to the community pool. *)
Record paid (p : Addr) (price : Coin) (relayer : Addr) (env : Env) c c' : Prop := {
  paid_balances : ∀ a d, balance (bank c') a d + share p a d [price] =
    balance (bank c) a d
      + share relayer a d [coin (relayer_part (amount price)) (denom price)]
      + share pool_addr a d [coin (rest_part (amount price)) (denom price)];
  paid_burn : burned p (coin (burn_part (amount price)) (denom price)) env c c';
  paid_others : others_same c c';
}.

Lemma share_parts p a d price :
  share p a d [price] =
  share p a d [coin (burn_part (amount price)) (denom price)] +
  share p a d [coin (relayer_part (amount price)) (denom price)] +
  share p a d [coin (rest_part (amount price)) (denom price)].
Proof.
  unfold share. rewrite !total_one. simpl. pose proof (parts_sum (amount price)).
  repeat case_decide; lia.
Qed.

Definition price_message (price : Coin) (relayer : Addr) : Payment.ExecuteMsg :=
  Payment.ExecuteMsg_Pay
    (coin (burn_part (amount price)) (denom price)) (coin (rest_part (amount price)) (denom price))
    (relayer, coin (relayer_part (amount price)) (denom price)).

Lemma dispatch_pay gas env answers p price relayer pay c c' s :
  payments c !! p = Some s → Payment.config s = Some gateway_payment → p ∉ fixed_addrs →
  to_json_binary (price_message price relayer) = Ok pay →
  dispatch gas env answers [(gateway_addr, CosmosMsg_Wasm (WasmMsg_Execute p pay []))] c = Some c' →
  paid p price relayer env c c'.
Proof.
  intros Hp Hs Hfix Hpay (gas1 & msgs & c1 & -> & Hd & Hrun)%dispatch_cons.
  cbn [deliver transfer] in Hd. cbn [mbind option_bind] in Hd. rewrite with_bank_same in Hd.
  apply execute_contract_called in Hd. unfold fixed_addrs in Hfix.
  inversion Hd as [? ? ? ->|? ? ? ->|? ? ? ->|m r s1 s2 Hs1 Hm _ _ _ Hr|? Hno]; subst;
    [set_solver..| |congruence].
  rewrite Hp in Hs1. injection Hs1 as <-. rewrite (parse_written _ _ Hpay) in Hm.
  injection Hm as <-. destruct (json_roundtrip NoisSinkExecuteMsg_Burn) as (bin & Hbin & _).
  eapply payment_pay_ok in Hr as [-> Hmsgs]; [|exact Hs|exact Hbin].
  assert (with_payment p s c = c) as Hsame.
  { unfold with_payment. rewrite insert_id by done. by destruct c. }
  unfold msgs_of in Hrun. rewrite Hmsgs, Hsame, app_nil_r in Hrun. unfold pay_messages in Hrun.
  simpl in Hrun. rewrite !fmap_app in Hrun.
  apply dispatch_app in Hrun as (gas2 & c1 & Hburn & Hrun).
  apply dispatch_app in Hrun as (gas3 & c2 & Hsend & Hfund).
  apply (dispatch_burn _ _ _ _ (coin (burn_part (amount price)) (denom price))) in Hburn
    as (Hb1 & Hburned & Hsame1); [|done].
  apply (dispatch_send _ _ _ _ _ (coin (relayer_part (amount price)) (denom price))) in Hsend
    as (b2 & -> & Hb2).
  apply (dispatch_fund _ _ _ _ (coin (rest_part (amount price)) (denom price))) in Hfund
    as (b3 & -> & Hb3).
  split; [|done..]. intros a d. simpl. specialize (Hb1 a d). specialize (Hb2 a d).
  specialize (Hb3 a d). simpl in Hb3. rewrite share_parts. lia.
Qed.

(** *** A received packet *)

Context `{!JsonLaws Drand.ExecuteMsg}.

(** Nothing but nois-drand and the packets sent differs. *)
Definition same_money c c' : Prop :=
  bank c' = bank c ∧ sink_state c' = sink_state c ∧ payments c' = payments c ∧
  gateway_state c' = gateway_state c ∧ burnt c' = burnt c ∧ acks c' = acks c.

Lemma set_incentivized_ok deps env info round s r s' :
  Drand.execute deps env info (Drand.ExecuteMsg_SetIncentivized round) s = (Ok r, s') →
  messages r = [].
Proof. simpl. unfold execute_set_incentivized. intros Hrun. by inv_run. Qed.

Lemma dispatch_routed gas env answers channel after origin s receipt s1 c c' :
  routed env channel after origin s receipt s1 →
  unwrap_or drand_addr (GatewayState.config s ≫= drand) = drand_addr →
  dispatch gas env answers (pair gateway_addr <$> receipt_msgs receipt) c = Some c' →
  same_money c c'.
Proof.
  intros [_ Hr] Hdrand Hrun. destruct (archived s (next_round after)).
  { destruct Hr as (_ & _ & _ & (m & Hm & data & _ & ->) & _). rewrite Hm in Hrun. simpl in Hrun.
    apply dispatch_cons in Hrun as (? & msgs & c1 & _ & Hd & Hrun).
    cbn [deliver] in Hd. rewrite option_guard_True in Hd by done. injection Hd as <- <-.
    by apply dispatch_nil in Hrun as ->. }
  destruct Hr as (_ & _ & _ & (cfg & Hcfg & Hmsgs) & _). rewrite Hcfg in Hdrand. simpl in Hdrand.
  destruct (drand cfg) as [d|]; simpl in Hdrand.
  2: { rewrite Hmsgs in Hrun. by apply dispatch_nil in Hrun as ->. }
  subst d. destruct Hmsgs as (b & Hb & Hm). rewrite Hm in Hrun. simpl in Hrun.
  apply dispatch_cons in Hrun as (? & msgs & c1 & _ & Hd & Hrun).
  cbn [deliver transfer] in Hd. cbn [mbind option_bind] in Hd. rewrite with_bank_same in Hd.
  apply execute_contract_called in Hd. destruct fixed_ne as (Hdg & Hds & _).
  inversion Hd as [m r s2 _ Hm' Hr'|? ? ? Ha|? ? ? Ha|? ? ? ? _ _ Ha|Ha _]; subst; try done.
  2: { exfalso. apply Ha. unfold fixed_addrs. set_solver. }
  rewrite (parse_written _ _ Hb) in Hm'. injection Hm' as <-.
  apply set_incentivized_ok in Hr'. unfold msgs_of in Hrun. rewrite Hr' in Hrun.
  by apply dispatch_nil in Hrun as ->.
Qed.

(** The invariant of the chain. *)
Record chain_wf c : Prop := {
  cwf_contracts : contracts_wf c;
  cwf_burnt : burnt c = recorded_coins (sink_state c);
  cwf_drand : drand_is_drand c;
}.

(** A packet that is a request charges its customer, any other packet nobody. *)
Inductive received (env : Env) (msg : IbcPacketReceiveMsg) c : Chain B → Prop :=
  | received_quiet s ack :
      same_contracts (gateway_state c) s →
      GatewayState.config s = GatewayState.config (gateway_state c) →
      (∀ after origin b, from_json (packet_data msg) = Ok (InPacket_RequestBeacon after origin) →
        ack ≠ StdAck_Success b) →
      received env msg c (with_ack ack (with_gateway s c))
  | received_request after origin b cust cfg s c1 c2 :
      from_json (packet_data msg) = Ok (InPacket_RequestBeacon after origin) →
      customers (gateway_state c) !! packet_dest_channel_id msg = Some cust →
      GatewayState.config (gateway_state c) = Some cfg →
      same_contracts (gateway_state c) s →
      GatewayState.config s = GatewayState.config (gateway_state c) →
      same_money (with_gateway s c) c1 →
      paid (payment cust) (price cfg) (relayer msg) env c1 c2 →
      received env msg c (with_ack (StdAck_Success b) c2).

Lemma receive_tx gas env answers msg c c' :
  chain_wf c → run_tx gas env answers (Tx_packet_receive msg) c = Some c' →
  received env msg c c'.
Proof.
  intros [Hwf Hburnt Hdrand] Hrun. cbn [run_tx] in Hrun. case_guard as Hrel; [|done].
  simpl in Hrun. apply bind_Some in Hrun as ([r s] & Hr%committed_Some & Hrun).
  apply bind_Some in Hrun as (c2 & Hrun & [= <-]).
  pose proof (receive_contracts _ _ _ _ _ _ Hr) as [Hsame Hcfg'].
  destruct (receive_messages _ _ _ _ _ _ Hr) as [[Hm Hno]|(after & origin & b & Hj & -> & Hacc)].
  { unfold msgs_of in Hrun. rewrite Hm in Hrun. apply dispatch_nil in Hrun as ->.
    by apply received_quiet. }
  destruct Hacc as (receipt & s1 & cfg & cust & pay & _ & Hrouted & Hcfg & Hcust & _ & Hpay & Hmsgs & _).
  unfold msgs_of in Hrun. rewrite Hmsgs, fmap_app in Hrun.
  apply dispatch_app in Hrun as (gas2 & c1 & Hroute & Hrun).
  eapply dispatch_routed in Hroute as Hmoney; [|exact Hrouted|exact Hdrand].
  pose proof Hmoney as (_ & _ & Hp & _).
  assert (customer_contract (customers (gateway_state c)) (payment cust)) as Hcon.
  { exists (packet_dest_channel_id msg). by rewrite Hcust. }
  pose proof (customer_not_fixed c _ Hwf Hcon) as Hfix.
  apply (wf_customers c Hwf) in Hcon.
  destruct (payments c !! payment cust) as [ps|] eqn:Hps; [|done]. simpl in Hcon.
  eapply received_request; [done..|].
  eapply dispatch_pay; [|exact Hcon|exact Hfix|exact Hpay|exact Hrun].
  by rewrite Hp.
Qed.

Lemma drand_is_drand_frame c c' :
  GatewayState.config (gateway_state c') = GatewayState.config (gateway_state c) →
  drand_is_drand c → drand_is_drand c'.
Proof. unfold drand_is_drand. by intros ->. Qed.

Lemma burned_recorded from x env c c' :
  ledger (sink_state c) → unois_only (recorded_coins (sink_state c)) →
  burnt c = recorded_coins (sink_state c) → burned from x env c c' →
  ledger (sink_state c') ∧ unois_only (recorded_coins (sink_state c')) ∧
    burnt c' = recorded_coins (sink_state c').
Proof.
  unfold burned. intros Hl Hu Hb. destruct (_ =? _).
  - by intros [-> ->].
  - intros (Hden & -> & Hrec). split; [by eapply recorded_ledger|].
    rewrite (recorded_coins_snoc _ _ _ Hl Hrec), Hb. split; [|done].
    apply Forall_app. split; [done|by constructor].
Qed.

Lemma received_wf env msg c c' : chain_wf c → received env msg c c' → chain_wf c'.
Proof.
  intros [Hwf Hburnt Hdrand].
  destruct 1 as [s ack Hsame Hcfg _|after origin b cust cfg s c1 c2 _ _ _ Hsame Hcfg Hmoney [_ Hburn Hothers]].
  { split; [by apply (contracts_wf_frame c)|done|]. by apply (drand_is_drand_frame c). }
  destruct Hmoney as (_ & Hs & Hp & Hg & Hb & _), Hothers as (_ & Hg2 & Hp2 & _).
  apply burned_recorded in Hburn as (Hl2 & Hu2 & Hb2);
    [|rewrite Hs; apply Hwf|rewrite Hs; apply Hwf|by rewrite Hb, Hs].
  simpl in Hg, Hp. rewrite Hg in Hg2. rewrite Hp in Hp2.
  split; [|done|]; simpl.
  - assert (contracts_wf (with_gateway s c)) as [_ _ ? ? ? ?] by by apply (contracts_wf_frame c).
    split; simpl; rewrite ?Hg2, ?Hp2; done.
  - apply (drand_is_drand_frame c); [|done]. simpl. by rewrite Hg2.
Qed.

(** *** A new channel *)

Context `{!JsonLaws Payment.InstantiateMsg}.

Lemma dispatch_packets gas env answers msgs c c' :
  Forall is_packet msgs → dispatch gas env answers (pair gateway_addr <$> msgs) c = Some c' →
  same_money c c'.
Proof.
  intros Hmsgs. revert gas c. induction Hmsgs as [|m msgs Hm _ IH]; intros gas c; simpl.
  { by intros ->%dispatch_nil. }
  intros (? & ms & c1 & _ & Hd & Hrun)%dispatch_cons.
  destruct m as [|?|[|channel data timeout]| | |]; try done. cbn [deliver] in Hd.
  rewrite option_guard_True in Hd by done. injection Hd as <- <-. by apply IH in Hrun.
Qed.

(** The new customer's payment contract is created by the gateway. *)
Lemma connect_tx gas env answers msg c c' :
  chain_wf c → run_tx gas env answers (Tx_channel_connect msg) c = Some c' →
  chain_wf c' ∧ ∀ a d, a ≠ gateway_addr → balance (bank c) a d ≤ balance (bank c') a d.
Proof.
  intros [Hwf Hburnt Hdrand] Hrun. cbn [run_tx] in Hrun. unfold run_gateway in Hrun.
  apply bind_Some in Hrun as ([r s] & Hr%committed_Some & Hrun).
  apply ibc_channel_connect_ok in Hr as (channel & _ & Hcon).
  destruct Hcon as (cfg & creator & checksum & canonical & address & m & w & p & Hcfg & Hcanon &
    Hsum & Hinst & Hhuman & -> & Hm & _ & _ & Hmsgs). simpl in Hcanon, Hsum, Hhuman.
  pose proof (wf_sink c Hwf) as Hsink. pose proof (wf_code c Hwf) as Hcode.
  rewrite Hcfg in Hsink, Hcode. injection Hsink as Hsink. injection Hcode as Hcode.
  unfold msgs_of in Hrun. rewrite Hmsgs in Hrun. simpl in Hrun.
  apply dispatch_cons in Hrun as (gas1 & msgs & c1 & -> & Hd & Hrun). cbn [deliver] in Hd.
  assert (contract_at gateway_addr (payment_code_id cfg) (hash_channel (endpoint_channel_id channel))
    = Some address) as Hat.
  { unfold contract_at. by rewrite Hsum, Hcanon, Hinst, Hhuman. }
  rewrite Hat in Hd. simpl in Hd. apply bind_Some in Hd as (b & Hb & Hd).
  unfold instantiate_contract in Hd. case_guard as Hnew; [|done]. destruct Hnew as [Hfix Hnone].
  simpl in Hd. rewrite (parse_written _ _ Hm), decide_True in Hd by done. simpl in Hd.
  apply bind_Some in Hd as ([r2 ps] & Hr2%committed_Some & [= <- <-]).
  apply payment_instantiate_ok in Hr2 as (Hmsgs2 & a & Ha & Hpcfg). simpl in Ha, Hpcfg.
  apply validate_self in Ha as ->. unfold msgs_of in Hrun. rewrite Hmsgs2 in Hrun. simpl in Hrun.
  apply (dispatch_packets _ _ _ [CosmosMsg_Ibc _; CosmosMsg_Ibc _]) in Hrun
    as (Hbank & Hss & Hps & Hgs & Hbs & _); [|by repeat constructor].
  simpl in *. split; [split|].
  - destruct Hwf as [Hl Hu _ _ Hfresh Hcs]. split; rewrite ?Hss, ?Hgs; simpl.
    + done.
    + done.
    + rewrite Hcfg. simpl. by rewrite Hsink.
    + rewrite Hcfg. simpl. by rewrite Hcode.
    + intros a. rewrite Hps, lookup_insert_is_Some. intros [<-|[_ ?]]; [done|by apply Hfresh].
    + intros a [chan Hchan]. rewrite Hps. destruct (decide (endpoint_channel_id channel = chan)) as [<-|Hne].
      * rewrite lookup_insert_eq in Hchan. injection Hchan as <-.
        rewrite lookup_insert_eq. simpl. rewrite Hpcfg, Hsink. done.
      * rewrite lookup_insert_ne in Hchan by done. assert (address ≠ a) as Hne'.
        { intros ->. assert (customer_contract (customers (gateway_state c)) a) as Ha by by exists chan.
          apply Hcs in Ha. by rewrite Hnone in Ha. }
        rewrite lookup_insert_ne by done. apply Hcs. by exists chan.
  - by rewrite Hbs, Hss.
  - apply (drand_is_drand_frame c); [|done]. by rewrite Hgs.
  - intros a d Ha. rewrite Hbank. eapply transfer_keeps; [exact Hb|done].
Qed.

(** *** The other transactions *)

(** A transaction of the gateway that sends nothing and keeps what matters here. *)
Definition quiet {E} (m : M GatewayState.Storage E Response) : Prop :=
  ∀ s r s', m s = (Ok r, s') → messages r = [] ∧ same_contracts s s' ∧
    (GatewayState.config s' ≫= drand) = (GatewayState.config s ≫= drand).

Lemma quiet_close deps env msg : quiet (Gateway.ibc_channel_close deps env msg).
Proof. intros s r s' Hrun. unfold Gateway.ibc_channel_close in Hrun. by inv_run. Qed.
Lemma quiet_ack deps env msg : quiet (Gateway.ibc_packet_ack deps env msg).
Proof.
  intros s r s' Hrun. unfold Gateway.ibc_packet_ack in Hrun. inv_run.
  repeat case_match; by inv_run.
Qed.
Lemma quiet_timeout deps env : quiet (Gateway.ibc_packet_timeout deps env).
Proof. intros s r s' Hrun. unfold Gateway.ibc_packet_timeout in Hrun. by inv_run. Qed.
Lemma quiet_migrate deps env : quiet (Gateway.migrate deps env).
Proof.
  intros s r s' Hrun. unfold Gateway.migrate in Hrun. inv_run. simpl_gateway.
  split; [done|]. unfold same_contracts. simpl.
  match goal with H : GatewayState.config s = Some ?cfg |- _ => rewrite H end.
  simpl. repeat case_match; by split_and!.
Qed.

Lemma run_quiet {E} gas env answers (m : M GatewayState.Storage E Response) c c' :
  chain_wf c → quiet m → run_gateway gas env answers m c = Some c' →
  chain_wf c' ∧ bank c' = bank c.
Proof.
  intros [Hwf Hburnt Hdrand] Hq Hrun. unfold run_gateway in Hrun.
  apply bind_Some in Hrun as ([r s] & (Hm & Hsame & Hd)%committed_Some%Hq & Hrun).
  unfold msgs_of in Hrun. rewrite Hm in Hrun. apply dispatch_nil in Hrun as ->.
  split; [split|done]; [by apply (contracts_wf_frame c)|done|].
  unfold drand_is_drand in *. simpl. by rewrite Hd.
Qed.

(** The state of the sink and of a payment contract after a migration. *)
Lemma with_sink_wf c s : chain_wf c → ashes s = ashes (sink_state c) →
  ashes_last_id s = ashes_last_id (sink_state c) → chain_wf (with_sink s c).
Proof.
  intros [[Hl Hu ? ? ? ?] Hb Hd] Ha Hi. split; [split; try done| |done].
  - intros i. unfold Sink.last_id. simpl. rewrite Ha, Hi. apply Hl.
  - simpl. unfold recorded_coins. by rewrite Ha.
  - simpl. unfold recorded_coins. by rewrite Ha.
Qed.

Lemma with_payment_wf c a s s' : chain_wf c → payments c !! a = Some s →
  Payment.config s' = Payment.config s → chain_wf (with_payment a s' c).
Proof.
  intros [[? ? ? ? Hf Hcs] Hb Hd] Hs Hcfg. split; [split; try done|done|done]; simpl.
  - intros a'. rewrite lookup_insert_is_Some. intros [<-|[_ ?]]; [|by apply Hf].
    apply Hf. by eexists.
  - intros a' Ha'. apply Hcs in Ha'. destruct (decide (a = a')) as [<-|Hne].
    + rewrite lookup_insert_eq. simpl. rewrite Hs in Ha'. simpl in Ha'. by rewrite Hcfg.
    + by rewrite lookup_insert_ne.
Qed.

(** A transaction of an account. *)
Lemma messages_tx gas env answers signer msgs c c' :
  chain_wf c → run_tx gas env answers (Tx_messages signer msgs) c = Some c' →
  chain_wf c' ∧ ∀ p d, customer_contract (customers (gateway_state c)) p →
    balance (bank c) p d ≤ balance (bank c') p d.
Proof.
  intros [Hwf Hburnt Hdrand] Hrun. cbn [run_tx] in Hrun. case_guard as Hacc; [|done].
  simpl in Hrun. apply bind_Some in Hrun as (c1 & Hrun & Hg). case_guard; [|done].
  injection Hg as <-. destruct Hacc as [Hfix Hnone]. unfold fixed_addrs in Hfix.
  assert (running c (pair signer <$> msgs) c) as Hstart.
  { split; [done..| |done]. exists []. rewrite app_nil_r. split; [|done]. constructor.
    apply harmless_from; [set_solver..|]. intros Ha%(wf_customers c Hwf). by rewrite Hnone in Ha. }
  apply (dispatch_invariant (running c) env answers) in Hrun
    as [Hcust Hwf1 (pending & Hshape & Hb1) Hbal]; [|by intros; eapply deliver_running|done].
  split; [|done]. split; [done| |done]. inversion Hshape; subst. by rewrite app_nil_r in Hb1.
Qed.

(** What a transaction does: it keeps the invariant, and it either takes nothing
    from a customer's payment contract or it is the receipt of a packet. *)
Lemma run_tx_wf gas env answers tx c c' :
  chain_wf c → run_tx gas env answers tx c = Some c' →
  chain_wf c' ∧
  ((∃ msg, tx = Tx_packet_receive msg ∧ received env msg c c') ∨
   ∀ p d, customer_contract (customers (gateway_state c)) p →
     balance (bank c) p d ≤ balance (bank c') p d).
Proof.
  intros Hwf Hrun.
  destruct tx as [signer msgs|to coins|msg|msg|msg|msg| | | | |a].
  - apply messages_tx in Hrun as [? ?]; [|done]. auto.
  - cbn [run_tx] in Hrun. apply bind_Some in Hrun as (b & Hb & [= <-]).
    split; [by destruct Hwf as [[] ? ?]|]. right. intros p d _. simpl.
    rewrite (mint_balance _ _ _ _ p d Hb). lia.
  - apply connect_tx in Hrun as [? Hbal]; [|done]. split; [done|]. right.
    intros p d Hp. apply Hbal. intros ->. apply (customer_not_fixed c) in Hp; [|apply Hwf].
    apply Hp. unfold fixed_addrs. set_solver.
  - apply run_quiet in Hrun as [? ->]; [auto|done|apply quiet_close].
  - apply receive_tx in Hrun as Hrec; [|done]. split; [by eapply received_wf|].
    left. by exists msg.
  - apply run_quiet in Hrun as [? ->]; [auto|done|apply quiet_ack].
  - apply run_quiet in Hrun as [? ->]; [auto|done|apply quiet_timeout].
  - cbn [run_tx] in Hrun. apply bind_Some in Hrun as ([r s] & _ & [= <-]).
    split; [by destruct Hwf as [[] ? ?]|by right].
  - apply run_quiet in Hrun as [? ->]; [auto|done|apply quiet_migrate].
  - cbn [run_tx] in Hrun. apply bind_Some in Hrun as ([r s] & Hr%committed_Some & [= <-]).
    unfold Sink.migrate in Hr. inv_run. split; [by apply with_sink_wf|by right].
  - cbn [run_tx] in Hrun. apply bind_Some in Hrun as (s0 & Hs & Hrun).
    apply bind_Some in Hrun as ([r s] & Hr%committed_Some & [= <-]).
    unfold Payment.migrate in Hr. inv_run. split; [by eapply with_payment_wf|by right].
Qed.

Lemma chain_init_wf c : chain_init c → chain_wf c.
Proof.
  intros (_ & Hg & Hs & Hsink & Hcode & Hp & _ & _ & Hb).
  assert (reachable Sink.init Sink.step (sink_state c)) as Hl%reachable_ledger
    by by apply reachable_init.
  assert (customers (gateway_state c) = ∅ ∧
    unwrap_or drand_addr (GatewayState.config (gateway_state c) ≫= drand) = drand_addr) as [Hc Hd].
  { destruct Hg as [deps env info msg r s Hr]. unfold Gateway.instantiate, ensure_code_id_exists in Hr.
    inv_run. repeat case_match; by inv_run. }
  assert (recorded_coins (sink_state c) = []) as Hcoins.
  { destruct Hs as [deps env info msg r s Hr]. unfold Sink.instantiate in Hr. inv_run.
    unfold recorded_coins. simpl. by rewrite entries_empty. }
  split; [split; try done| |done]; rewrite ?Hcoins, ?Hb; try done.
  - constructor.
  - intros a. rewrite Hp, lookup_empty. by intros [].
  - intros a [chan Hchan]. by rewrite Hc, lookup_empty in Hchan.
Qed.

Lemma chain_reachable_wf c : chain_reachable c → chain_wf c.
Proof.
  apply reachable_invariant; [apply chain_init_wf|].
  intros c1 c2 Hwf (gas & env & answers & tx & Hrun). by eapply run_tx_wf.
Qed.
End chain.
