(* ===== verification/ChainSafety.v ===== *)
(** * Money on the Nois chain

    Who pays for a request, and that who paid is served: the theorems about the
    money of the customers in every reachable state of the chain. *)
From stdpp Require Import prelude gmap strings list sorting pretty.
From Stdlib Require Import NArith Lia Ascii.
From S2P Require Import Prelude.
From S2P Require Import CosmWasm.
From S2P Require Import DrandCommon.
From S2P Require Import NoisProtocol.
From S2P Require Import Fixtures.
From S2P Require Import Sink.
From S2P Require Import Payment.
From S2P Require Import Drand.
From S2P Require Import GatewayState.
From S2P Require Import RequestRouter.
From S2P Require Import Gateway.
From S2P Require Import System.
From S2P Require Import Bank.
From S2P Require Import NoisChain.
From S2P Require Import ChainInvariant.

Section chain.
Context {B : Type} `{BankLaws B} `{Setup} `{Display} `{Anybuf} `{!SetupLaws}.
Context `{Sha256} `{Instantiate2} `{DrandVerify} `{Json InPacket}
  `{Json InPacketAck} `{Json OutPacket} `{Json OutPacketAck} `{Json StdAck}
  `{JsonLaws NoisSinkExecuteMsg} `{Json NoisGatewayExecuteMsg} `{Json Sink.ExecuteMsg}
  `{JsonLaws Drand.ExecuteMsg} `{Json Gateway.ExecuteMsg} `{JsonLaws Payment.InstantiateMsg}
  `{JsonLaws Payment.ExecuteMsg}
  `{!Understands (λ _ : NoisSinkExecuteMsg, Sink.ExecuteMsg_Burn)}.
Implicit Types c : Chain B.

(** ** Requests that are served *)

(** Delivering these messages takes [k] units of gas, whatever follows them. *)
Definition runs (env : Env) (answers : nat → list CosmosMsg) (k : nat)
    (l : list (Addr * CosmosMsg)) c c' : Prop :=
  ∀ gas todo, dispatch (k + gas) env answers (l ++ todo) c = dispatch gas env answers todo c'.

Lemma runs_nil env answers c : runs env answers 0 [] c c.
Proof. by intros gas todo. Qed.

Lemma runs_app env answers k1 k2 l1 l2 c c1 c2 :
  runs env answers k1 l1 c c1 → runs env answers k2 l2 c1 c2 →
  runs env answers (k1 + k2) (l1 ++ l2) c c2.
Proof.
  intros Hr1 Hr2 gas todo. rewrite <-app_assoc, <-Nat.add_assoc.
  etrans; [apply Hr1|apply Hr2].
Qed.

Lemma runs_deliver env answers k from m msgs c c1 c2 :
  (∀ answer, deliver env answer from m c = Some (msgs, c1)) →
  runs env answers k msgs c1 c2 → runs env answers (S k) [(from, m)] c c2.
Proof. intros Hd Hr gas todo. simpl. rewrite Hd. apply Hr. Qed.

Lemma runs_send env answers from to x c :
  amount x ≤ balance (bank c) from (denom x) →
  ∃ k b, (k ≤ 1)%nat ∧ runs env answers k
      (pair from <$> if amount x =? 0 then [] else [CosmosMsg_Bank (BankMsg_Send to [x])])
      c (with_bank b c) ∧
    ∀ a d, balance b a d + share from a d [x] = balance (bank c) a d + share to a d [x].
Proof.
  intros Hx. destruct (N.eqb_spec (amount x) 0) as [Hz|Hz].
  - exists 0%nat, (bank c). rewrite with_bank_same. split_and!; [lia|apply runs_nil|].
    intros a d. unfold share. rewrite total_one, Hz. repeat case_decide; lia.
  - destruct (send_funded (bank c) from to x Hz Hx) as [b Hb]. exists 1%nat, b.
    split_and!; [lia| |intros; by apply send_balance].
    eapply runs_deliver; [|apply runs_nil]. intros answer. cbn [deliver]. by rewrite Hb.
Qed.

Lemma runs_fund env answers from x c :
  amount x ≤ balance (bank c) from (denom x) →
  ∃ k b, (k ≤ 1)%nat ∧ runs env answers k
      (pair from <$> if amount x =? 0 then [] else
         [CosmosMsg_Stargate "/cosmos.distribution.v1beta1.MsgFundCommunityPool"
            (encode_msg_fund_community_pool x from)]) c (with_bank b c).
Proof.
  intros Hx. destruct (N.eqb_spec (amount x) 0) as [Hz|Hz].
  - exists 0%nat, (bank c). rewrite with_bank_same. split; [lia|apply runs_nil].
  - destruct (send_funded (bank c) from pool_addr x Hz Hx) as [b Hb]. exists 1%nat, b.
    split; [lia|]. eapply runs_deliver; [|apply runs_nil]. intros answer. cbn [deliver].
    rewrite option_guard_True by done. rewrite decode_encode_fund. simpl.
    rewrite option_guard_True by done. simpl. by rewrite Hb.
Qed.

Lemma runs_burn env answers from x bin c :
  to_json_binary NoisSinkExecuteMsg_Burn = Ok bin → denom x = BURN_DENOM →
  amount x ≤ balance (bank c) from (denom x) → Sink.last_id (sink_state c) + 1 ≤ umax 32 →
  ∃ k c', (k ≤ 2)%nat ∧ runs env answers k
      (pair from <$> if amount x =? 0 then [] else
         [CosmosMsg_Wasm (WasmMsg_Execute sink_addr bin [x])]) c c' ∧
    (∀ d, balance (bank c') from d + share from from d [x] = balance (bank c) from d) ∧
    acks c' = acks c.
Proof.
  intros Hbin Hden Hx Hid. destruct (N.eqb_spec (amount x) 0) as [Hz|Hz].
  { exists 0%nat, c. split_and!; [lia|apply runs_nil| |done].
    intros d. unfold share. rewrite total_one, Hz. repeat case_decide; lia. }
  destruct (send_funded (bank c) from sink_addr x Hz Hx) as [b Hb].
  set (c1 := with_bank b c).
  destruct (execute_burn_run (deps_of c1) {| sender := from; funds := [x] |}
    (env_at env sink_addr) (sink_state c) x) as (r & s & Hr & Hrec); [done..|].
  pose proof (execute_burn_ok _ _ _ _ _ _ Hr) as (y & [= <-] & _ & Hm & _).
  assert (amount x ≤ balance b sink_addr (denom x)) as Hy.
  { pose proof (send_balance _ _ _ _ _ sink_addr (denom x) Hb) as Hbal. revert Hbal.
    unfold share. rewrite total_one, (decide_True (P:=denom x = denom x)) by done.
    destruct (decide (sink_addr = sink_addr)); [|done].
    destruct (decide (from = sink_addr)) as [->|]; lia. }
  destruct (burn_funded b sink_addr x Hz Hy) as [b2 Hb2].
  exists 2%nat, (with_burnt [x] (with_bank b2 (with_sink s c1))). split_and!; [lia| | |done].
  - eapply runs_deliver; [|eapply runs_deliver; [|apply runs_nil]].
    + intros answer. cbn [deliver transfer]. rewrite Hb. simpl. unfold execute_contract.
      destruct fixed_ne as (_ & Hds & Hgs & _).
      rewrite (decide_False (P:=sink_addr = drand_addr)), (decide_False (P:=sink_addr = gateway_addr)),
        (decide_True (P:=sink_addr = sink_addr)) by done.
      unfold parse. rewrite (understands (f:=λ _ : NoisSinkExecuteMsg, Sink.ExecuteMsg_Burn) _ _ Hbin).
      simpl. unfold committed. unfold c1 in Hr. simpl in Hr. rewrite Hr. simpl.
      unfold msgs_of. rewrite Hm. done.
    + intros answer. cbn [deliver]. simpl. rewrite Hb2. simpl. by rewrite decide_True.
  - intros d. simpl. pose proof (send_balance _ _ _ _ _ from d Hb) as Hs.
    pose proof (burn_balance _ _ _ _ from d Hb2) as Hbb. rewrite share_eq in *.
    unfold share in *. destruct (decide (sink_addr = from)); simpl in *; lia.
Qed.

Lemma runs_pay env answers p price relayer pay a c s :
  payments c !! p = Some s → Payment.config s = Some gateway_payment → p ∉ fixed_addrs →
  to_json_binary (price_message price relayer) = Ok pay →
  addr_validate_ chain_api relayer = Ok a → denom price = BURN_DENOM →
  amount price ≤ balance (bank c) p BURN_DENOM → Sink.last_id (sink_state c) + 1 ≤ umax 32 →
  ∃ k c', (k ≤ 5)%nat ∧
    runs env answers k [(gateway_addr, CosmosMsg_Wasm (WasmMsg_Execute p pay []))] c c' ∧
    acks c' = acks c.
Proof.
  intros Hp Hs Hfix Hpay Ha Hden Hfunds Hid.
  destruct (json_roundtrip NoisSinkExecuteMsg_Burn) as (bin & Hbin & _).
  pose proof (parts_sum (amount price)) as Hsum. rewrite <-Hden in Hfunds.
  destruct (runs_burn env answers p (coin (burn_part (amount price)) (denom price)) bin c)
    as (k1 & c1 & Hk1 & Hr1 & Hb1 & Hack); [done|done|simpl; lia|done|].
  specialize (Hb1 (denom price)). rewrite share_eq, total_one in Hb1. simpl in Hb1.
  rewrite decide_True in Hb1 by done.
  destruct (runs_send env answers p relayer (coin (relayer_part (amount price)) (denom price)) c1)
    as (k2 & b2 & Hk2 & Hr2 & Hb2); [simpl; lia|].
  specialize (Hb2 p (denom price)). rewrite share_eq, total_one in Hb2. simpl in Hb2.
  rewrite decide_True in Hb2 by done.
  destruct (runs_fund env answers p (coin (rest_part (amount price)) (denom price)) (with_bank b2 c1))
    as (k3 & b3 & Hk3 & Hr3); [simpl; lia|].
  destruct (execute_pay_run (deps_of c) (env_at env p) {| sender := gateway_addr; funds := [] |}
    (coin (burn_part (amount price)) (denom price)) (coin (rest_part (amount price)) (denom price))
    (relayer, coin (relayer_part (amount price)) (denom price)) s gateway_payment bin a)
    as (r & Hr & Hm); [done..|].
  exists (S (k1 + (k2 + k3)))%nat, (with_bank b3 (with_bank b2 c1)). split_and!; [lia| |done].
  apply runs_deliver with
    (msgs := pair p <$> pay_messages gateway_payment bin (env_at env p)
       (coin (burn_part (amount price)) (denom price)) (coin (rest_part (amount price)) (denom price))
       (relayer, coin (relayer_part (amount price)) (denom price))) (c1 := c).
  - intros answer. cbn [deliver transfer]. cbn [mbind option_bind]. rewrite with_bank_same.
    unfold execute_contract. destruct (not_fixed p Hfix) as (? & ? & ? & _).
    rewrite (decide_False (P:=p = drand_addr)), (decide_False (P:=p = gateway_addr)),
      (decide_False (P:=p = sink_addr)) by done.
    rewrite Hp, (parse_written _ _ Hpay). cbn [mbind option_bind].
    unfold price_message, committed. rewrite Hr. cbn [mbind option_bind].
    unfold msgs_of, with_payment. rewrite Hm, sub_msg_new, insert_id by done. by destruct c.
  - unfold pay_messages. rewrite !fmap_app.
    eapply runs_app; [exact Hr1|]. eapply runs_app; [exact Hr2|exact Hr3].
Qed.

Lemma set_incentivized_run deps env info round s cfg :
  Drand.config s = Some cfg → Drand.gateway cfg = Some (sender info) → min_round cfg ≤ round →
  ∃ r s', Drand.execute deps env info (Drand.ExecuteMsg_SetIncentivized round) s = (Ok r, s').
Proof.
  intros Hcfg Hg Hmin. simpl. unfold execute_set_incentivized. run_unfold. simpl. rewrite Hcfg. simpl.
  rewrite Hg, bool_decide_true by done. rewrite (proj2 (N.ltb_ge _ _)) by done. by do 2 eexists.
Qed.

Lemma runs_routed env answers channel after origin s receipt s1 c dcfg :
  routed env channel after origin s receipt s1 →
  unwrap_or drand_addr (GatewayState.config s ≫= drand) = drand_addr →
  Drand.config (drand_state c) = Some dcfg → Drand.gateway dcfg = Some gateway_addr →
  min_round dcfg ≤ next_round after →
  ∃ k c', (k ≤ 1)%nat ∧ runs env answers k (pair gateway_addr <$> receipt_msgs receipt) c c' ∧
    same_money c c'.
Proof.
  intros [_ Hr] Hdrand Hdcfg Hgw Hmin. destruct (archived s (next_round after)).
  { destruct Hr as (_ & _ & _ & (m & Hm & data & _ & ->) & _). rewrite Hm. simpl.
    exists 1%nat. eexists (with_packet (IbcMsg_SendPacket _ _ _) c). split_and!; [lia| |done..].
    eapply runs_deliver; [|apply runs_nil]. intros answer. cbn [deliver].
    by rewrite option_guard_True. }
  destruct Hr as (_ & _ & _ & (cfg & Hcfg & Hmsgs) & _). rewrite Hcfg in Hdrand. simpl in Hdrand.
  destruct (drand cfg) as [d|]; simpl in Hdrand.
  2: { rewrite Hmsgs. exists 0%nat, c. split_and!; [lia|apply runs_nil|done..]. }
  subst d. destruct Hmsgs as (b & Hb & Hm). rewrite Hm. simpl.
  destruct (set_incentivized_run (deps_of c) (env_at env drand_addr)
    {| sender := gateway_addr; funds := [] |} (next_round after) (drand_state c) dcfg)
    as (r & s2 & Hrun); [done..|]. pose proof (set_incentivized_ok _ _ _ _ _ _ _ Hrun) as Hnone.
  exists 1%nat, (with_drand s2 c). split_and!; [lia| |done..].
  eapply runs_deliver; [|apply runs_nil]. intros answer. cbn [deliver transfer].
  cbn [mbind option_bind]. rewrite with_bank_same. unfold execute_contract.
  rewrite decide_True by done. rewrite (parse_written _ _ Hb). cbn [mbind option_bind].
  unfold committed. rewrite Hrun. cbn [mbind option_bind]. unfold msgs_of. by rewrite Hnone.
Qed.

(** The circumstances in which a request is served: the request fits, the price
    is in unois and the customer's payment contract owns it, the relayer is an
    account with a valid address, nois-drand is configured with the gateway and
    accepts the round ([SetIncentivized] fails below [min_round]), and the sink
    has an id left. *)
Record servable (env : Env) (msg : IbcPacketReceiveMsg) (after : Timestamp) (origin : Binary) c :
    Prop := {
  servable_packet : from_json (packet_data msg) = Ok (InPacket_RequestBeacon after origin);
  servable_fits : request_fits (env_at env gateway_addr) (packet_dest_channel_id msg) after origin
    (gateway_state c);
  servable_funds : ∃ cust cfg, customers (gateway_state c) !! packet_dest_channel_id msg = Some cust ∧
    GatewayState.config (gateway_state c) = Some cfg ∧ denom (price cfg) = BURN_DENOM ∧
    amount (price cfg) ≤ balance (bank c) (payment cust) BURN_DENOM;
  servable_relayer : account c (relayer msg) ∧
    ∃ a, addr_validate_ chain_api (relayer msg) = Ok a;
  servable_drand : ∃ cfg, Drand.config (drand_state c) = Some cfg ∧
    Drand.gateway cfg = Some gateway_addr ∧ min_round cfg ≤ next_round after;
  servable_sink : Sink.last_id (sink_state c) + 1 ≤ umax 32;
}.

(** The payment contract of a customer is not the relayer or the pool. *)
Lemma paid_by_customer p price relayer env c c1 c2 d :
  p ≠ relayer → p ≠ pool_addr → bank c1 = bank c → paid p price relayer env c1 c2 →
  balance (bank c) p d =
    balance (bank c2) p d + if decide (denom price = d) then amount price else 0.
Proof.
  intros Hr Hp Hb [Hbal _ _]. specialize (Hbal p d). rewrite Hb, share_eq, total_one in Hbal.
  rewrite !share_ne in Hbal by done. lia.
Qed.

(** The parties of a received request. *)
Lemma customer_parties gas env answers msg c c' cust :
  chain_wf c → run_tx gas env answers (Tx_packet_receive msg) c = Some c' →
  customers (gateway_state c) !! packet_dest_channel_id msg = Some cust →
  payment cust ≠ relayer msg ∧ payment cust ≠ pool_addr.
Proof.
  intros [Hwf _ _] Hrun Hcust. cbn [run_tx] in Hrun. case_guard as Hrel; [|done].
  clear Hrun. destruct Hrel as [_ Hnone].
  assert (customer_contract (customers (gateway_state c)) (payment cust)) as Hcon.
  { exists (packet_dest_channel_id msg). by rewrite Hcust. }
  split; [|by apply not_fixed, (customer_not_fixed c)].
  intros Heq. apply (wf_customers c Hwf) in Hcon. rewrite Heq, Hnone in Hcon. done.
Qed.

(** *** What the theorems state *)

(** The transaction is the receipt of an acknowledged request that is charged to
    [p]: it takes the price from it. *)
Definition charges (tx : Tx) (p : Addr) (d : string) c c' : Prop :=
  ∃ msg after origin b cust cfg, tx = Tx_packet_receive msg ∧
    from_json (packet_data msg) = Ok (InPacket_RequestBeacon after origin) ∧
    acks c' = acks c ++ [StdAck_Success b] ∧
    customers (gateway_state c) !! packet_dest_channel_id msg = Some cust ∧ payment cust = p ∧
    GatewayState.config (gateway_state c) = Some cfg ∧ denom (price cfg) = d ∧
    balance (bank c) p d = balance (bank c') p d + amount (price cfg).

(** The price of the request moved: the customer owned it, and the balances and
    the ashes differ by its three parts. *)
Definition request_paid (env : Env) (msg : IbcPacketReceiveMsg) c c' : Prop :=
  ∃ cust cfg, customers (gateway_state c) !! packet_dest_channel_id msg = Some cust ∧
    GatewayState.config (gateway_state c) = Some cfg ∧
    let p := price cfg in
    amount p ≤ balance (bank c) (payment cust) (denom p) ∧
    (∀ a d, balance (bank c') a d + share (payment cust) a d [p] =
      balance (bank c) a d
        + share (relayer msg) a d [coin (relayer_part (amount p)) (denom p)]
        + share pool_addr a d [coin (rest_part (amount p)) (denom p)]) ∧
    burned (payment cust) (coin (burn_part (amount p)) (denom p)) env c c'.

(** The sum of the ashes. *)
Definition ash_total (s : Sink.Storage) : N :=
  foldr (λ x n, amount x + n) 0 (recorded_coins s).

Lemma total_unois d (l : list Coin) : unois_only l →
  total d l = if decide (d = BURN_DENOM) then foldr (λ x n, amount x + n) 0 l else 0.
Proof.
  induction 1 as [|x l Hx _ IH]; simpl; [by case_decide|]. rewrite IH, Hx.
  repeat case_decide; congruence || lia.
Qed.

(** ** Properties *)

(** C4. The money of the customers is safe. Whatever is going on at the chain,
    with contracts of others that answer any call with calls of their own, a
    transaction takes money from the payment contract of a customer only if it
    is the receipt of a request that the gateway acknowledges with success, on
    the channel of this customer; then it takes exactly the price. *)
Theorem customer_funds_are_safe (gas : nat) (env : Env) (answers : nat → list CosmosMsg) (tx : Tx)
    (c c' : Chain B) (p : Addr) (d : string)
    (Hc : chain_reachable c) (Hrun : run_tx gas env answers tx c = Some c')
    (Hp : customer_contract (customers (gateway_state c)) p)
    (Hless : balance (bank c') p d < balance (bank c) p d) :
  charges tx p d c c'.
Proof.
  pose proof (chain_reachable_wf c Hc) as Hwf.
  destruct (run_tx_wf _ _ _ _ _ _ Hwf Hrun) as [_ [(msg & -> & Hrec)|Hle]].
  2: { specialize (Hle p d Hp). lia. }
  destruct Hrec as [s ack _ _ _|after origin b cust cfg s c1 c2 Hj Hcust Hcfg _ _ Hmoney Hpaid].
  { simpl in Hless. lia. }
  destruct (customer_parties _ _ _ _ _ _ _ Hwf Hrun Hcust) as [Hr Hpool].
  destruct Hmoney as (Hb & _ & _ & _ & _ & Ha). simpl in Hb, Ha.
  exists msg, after, origin, b, cust, cfg.
  pose proof Hpaid as [Hbal _ (_ & _ & _ & _ & Ha2)]. simpl in Hless. simpl.
  assert (payment cust = p) as <-.
  { apply dec_stable. intros Hne. specialize (Hbal p d). rewrite Hb, (share_ne (payment cust)) in Hbal by done. lia. }
  pose proof (paid_by_customer _ _ _ _ c _ _ d Hr Hpool Hb Hpaid) as Heq.
  split_and!; [done|done|by rewrite Ha2, Ha|done|done|done| |]; revert Heq;
    case_decide; intros Heq; [done|lia|lia|lia].
Qed.

(** C5. Every request is paid for. When a request is acknowledged with success,
    the payment contract of the customer owned the price, and the transaction
    moves exactly the price out of it: one part is burnt and recorded by the
    sink, one rewards the relayer, the rest goes to the community pool, and the
    balance of nobody else changes. *)
Theorem request_is_paid (gas : nat) (env : Env) (answers : nat → list CosmosMsg)
    (msg : IbcPacketReceiveMsg) (after : Timestamp) (origin : Binary) (b : Binary) (c c' : Chain B)
    (Hc : chain_reachable c)
    (Hrun : run_tx gas env answers (Tx_packet_receive msg) c = Some c')
    (Hpacket : from_json (packet_data msg) = Ok (InPacket_RequestBeacon after origin))
    (Hack : acks c' = acks c ++ [StdAck_Success b]) :
  request_paid env msg c c'.
Proof.
  pose proof (chain_reachable_wf c Hc) as Hwf.
  destruct (receive_tx _ _ _ _ _ _ Hwf Hrun)
    as [s ack _ _ Hno|after' origin' b' cust cfg s c1 c2 _ Hcust Hcfg _ _ Hmoney Hpaid].
  { simpl in Hack. apply app_inv_head in Hack as [= ->]. by destruct (Hno _ _ _ Hpacket eq_refl). }
  destruct (customer_parties _ _ _ _ _ _ _ Hwf Hrun Hcust) as [Hr Hpool].
  destruct Hmoney as (Hb & Hs & _ & _ & Hbu & _). simpl in Hb, Hs, Hbu.
  exists cust, cfg. split; [done|]. split; [done|]. split_and!.
  - rewrite (paid_by_customer _ _ _ _ c _ _ (denom (price cfg)) Hr Hpool Hb Hpaid).
    rewrite decide_True by done. lia.
  - intros a d. destruct Hpaid as [Hbal _ _]. simpl. by rewrite Hbal, Hb.
  - destruct Hpaid as [_ Hburn _]. revert Hburn. unfold burned. simpl. by rewrite Hs, Hbu.
Qed.

(** C28. The ashes tell the truth: at any time the coins that nois-sink has burnt
    are, one by one and in this order, the coins of its ashes. In total it burnt
    the sum of the ashes, in unois, and nothing of any other denom. *)
Theorem burns_are_recorded (c : Chain B) (Hc : chain_reachable c) :
  burnt c = recorded_coins (sink_state c) ∧
  ∀ d, total d (burnt c) = if decide (d = BURN_DENOM) then ash_total (sink_state c) else 0.
Proof.
  destruct (chain_reachable_wf c Hc) as [Hwf -> _]. split; [done|].
  intros d. by apply total_unois, wf_unois.
Qed.

(** C11. A request that fulfils the conditions of [servable] is served: its packet
    parses and fits (registered channel, short origin, a round of 32 bits, no
    counter, id or timestamp at its limit); the price is in unois and the
    customer's payment contract owns it; the relayer is an account with a valid
    address; nois-drand is configured with this gateway and its [min_round] is
    not above the round of the request; nois-sink has an id left. Then the
    relayer's transaction succeeds with gas for six messages, and the request is
    acknowledged with success. *)
Theorem funded_request_is_served `{!JsonLaws OutPacket} `{!JsonLaws InPacketAck} (gas : nat)
    (env : Env) (answers : nat → list CosmosMsg) (msg : IbcPacketReceiveMsg) (after : Timestamp)
    (origin : Binary) (c : Chain B) (Hc : chain_reachable c)
    (Hserve : servable env msg after origin c) (Hgas : (6 ≤ gas)%nat) :
  ∃ c' b, run_tx gas env answers (Tx_packet_receive msg) c = Some c' ∧
    acks c' = acks c ++ [StdAck_Success b].
Proof.
  pose proof (chain_reachable_wf c Hc) as [Hwf _ Hdrand].
  destruct Hserve as [Hj Hfits (cust & cfg & Hcust & Hcfg & Hden & Hfunds) [Hacc [a Ha]]
    (dcfg & Hdcfg & Hdgw & Hmin) Hid].
  destruct (ibc_packet_receive_request_run (deps_of c) _ _ _ _ _ Hj Hfits) as (r & s & b & Hr & Hb & Hacc').
  destruct Hacc' as (receipt & s1 & cfg' & cust' & pay & _ & Hrouted & Hcfg' & Hcust' & _ & Hpay & Hmsgs & _).
  rewrite Hcfg in Hcfg'. injection Hcfg' as <-. rewrite Hcust in Hcust'. injection Hcust' as <-.
  assert (customer_contract (customers (gateway_state c)) (payment cust)) as Hcon.
  { exists (packet_dest_channel_id msg). by rewrite Hcust. }
  pose proof (customer_not_fixed c _ Hwf Hcon) as Hfix. apply (wf_customers c Hwf) in Hcon.
  destruct (payments c !! payment cust) as [ps|] eqn:Hps; [|done]. simpl in Hcon.
  destruct (runs_routed env answers _ _ _ _ _ _ (with_gateway s c) dcfg Hrouted Hdrand Hdcfg Hdgw Hmin)
    as (k1 & c1 & Hk1 & Hr1 & (Hbank & Hsink & Hpays & _ & _ & Hacks)).
  destruct (runs_pay env answers (payment cust) (price cfg) (relayer msg) pay a c1 ps)
    as (k2 & c2 & Hk2 & Hr2 & Hacks2).
  1-8: rewrite ?Hpays, ?Hbank, ?Hsink; done.
  exists (with_ack (StdAck_Success b) c2), b. split.
  - pose proof (runs_app _ _ _ _ _ _ _ _ _ Hr1 Hr2 (gas - (k1 + k2))%nat []) as Hrun.
    rewrite app_nil_r in Hrun. replace (k1 + k2 + (gas - (k1 + k2)))%nat with gas in Hrun by lia.
    assert (dispatch gas env answers (msgs_of gateway_addr (response r)) (with_gateway s c) = Some c2)
      as Hd.
    { unfold msgs_of. rewrite Hmsgs, fmap_app. etrans; [exact Hrun|]. by destruct (gas - _)%nat. }
    cbn [run_tx]. rewrite option_guard_True by done. simpl. unfold committed. rewrite Hr. simpl.
    by rewrite Hd, <-Hb.
  - simpl. rewrite Hacks2, Hacks. done.
Qed.
End chain.

(** ** Witnesses *)

(** Messages to the community pool that can be read back: a buffer is the list of
    its fields. *)
Definition fields (b : Binary) : list (N * string) :=
  unwrap_or [] (string_to_positive b ≫= decode).
Definition add_field (n : N) (v : string) (b : Binary) : Binary :=
  positive_to_string (encode (fields b ++ [(n, v)])).
#[local] Instance fields_anybuf : Anybuf :=
  {| Anybuf_new := positive_to_string (encode (@nil (N * string)));
     append_string := add_field; append_message := add_field |}.

Fixpoint parse_decimal (s : string) (acc : N) : N :=
  match s with
  | EmptyString => acc
  | String c s => parse_decimal s (10 * acc + (N_of_ascii c - 48))
  end.

Definition read_fund (b : Binary) : option (Coin * Addr) :=
  match fields b with
  | [(1, c); (2, depositor)] =>
      match fields c with
      | [(1, d); (2, a)] => Some (coin (parse_decimal a 0) d, depositor)
      | _ => None
      end
  | _ => None
  end.

Lemma parse_pretty n : parse_decimal (pretty n) 0 = n.
Proof.
  unfold pretty, pretty_N. case_decide as Hn; [by subst|]. clear Hn.
  assert (∀ s, parse_decimal (pretty_N_go n s) 0 = parse_decimal s n) as Hgo; [|apply Hgo].
  induction (N.lt_wf_0 n) as [n _ IH]. intros s.
  destruct (decide (n = 0)) as [->|Hn]; [done|].
  rewrite pretty_N_go_step by lia. rewrite IH by (apply N.div_lt; lia). simpl. f_equal.
  assert (N_of_ascii (pretty_N_char (n `mod` 10)) - 48 = n `mod` 10) as ->.
  { assert (n `mod` 10 < 10) as Hm by by apply N.mod_lt.
    destruct (n `mod` 10) as [|[[[[]|[]|]|[[]|[]|]|]|[[[]|[]|]|[[]|[]|]|]|]]; try done; lia. }
  rewrite (N.Div0.div_mod n 10) at 3. done.
Qed.

Lemma fields_encode l : fields (positive_to_string (encode l)) = l.
Proof. unfold fields. by rewrite string_to_positive_to_string; simpl; rewrite decode_encode. Qed.
Lemma fields_add n v b : fields (add_field n v b) = fields b ++ [(n, v)].
Proof. apply fields_encode. Qed.

(** A chain with one customer. *)
#[local] Instance sample_setup : Setup := {|
  drand_addr := "drand"; gateway_addr := "gateway"; sink_addr := "sink"; pool_addr := "pool";
  chain_api := test_api;
  code_checksum id := if id =? 33 then Ok "checksum" else Err StdError_NotFound;
  payment_code := 33; decode_fund := read_fund |}.
#[local] Instance sample_setup_laws : SetupLaws.
Proof.
  split.
  - by apply (bool_decide_unpack _).
  - intros a a'. simpl. case_bool_decide; naive_solver.
  - intros [n d] a. change (decode_fund ?b) with (read_fund b).
    unfold read_fund, encode_msg_fund_community_pool.
    cbn [append_string append_message Anybuf_new fields_anybuf amount denom].
    rewrite !fields_add, fields_encode. cbn [app]. rewrite !fields_add, fields_encode. cbn [app].
    by rewrite parse_pretty.
Qed.

#[local] Instance sink_msg_json : Json Sink.ExecuteMsg := {|
  to_json_binary m := Ok "";
  from_json b :=
    match (from_json b : outcome StdError NoisSinkExecuteMsg) with
    | Ok NoisSinkExecuteMsg_Burn => Ok Sink.ExecuteMsg_Burn
    | Err e => Err e
    | Panic => Panic
    end;
|}.
#[local] Instance sink_understands : Understands (λ _ : NoisSinkExecuteMsg, Sink.ExecuteMsg_Burn).
Proof.
  intros x b Hb%json_decode. unfold from_json, sink_msg_json. by rewrite Hb; destruct x.
Qed.
(** Next to reports the gateway parses one message of its manager. *)
#[local] Instance manager_msg_json : Json Gateway.ExecuteMsg := {|
  to_json_binary m := Ok "";
  from_json b :=
    if String.eqb b "use drand" then
      Ok (Gateway.ExecuteMsg_SetConfig None None (Some "drand") None (Some ["drand"]))
    else from_json (Json:=gateway_msg_json) b;
|}.

Definition sample_env (n : N) : Env := test_env n (n * 10).
Definition sample_run (n : N) (tx : Tx) (c : option (Chain Ledger)) : option (Chain Ledger) :=
  c ≫= run_tx 6 (sample_env n) (λ _, []) tx.

Definition sample_start : Chain Ledger := {|
  bank := ∅; drand_state := Drand.sample_init; gateway_state := Gateway.sample_init;
  sink_state := Sink.sample_empty; payments := ∅; packets := []; acks := []; burnt := [] |}.

(** The manager connects nois-drand and the gateway, a channel is opened, and the
    customer funds its payment contract. *)
Definition sample_payment : Addr := "payment for chan-1".
Definition sample_txs : list Tx := [
  Tx_messages "boss" [
    CosmosMsg_Wasm (WasmMsg_Execute "drand"
      (positive_to_string (encode (Drand.ExecuteMsg_SetConfig None (Some "gateway") None None None))) []);
    CosmosMsg_Wasm (WasmMsg_Execute "gateway" "use drand" [])];
  Tx_channel_connect (IbcChannelConnectMsg_OpenConfirm Gateway.sample_channel);
  Tx_mint "dapp" [coin 500 "unois"];
  Tx_messages "dapp" [CosmosMsg_Bank (BankMsg_Send sample_payment [coin 300 "unois"])]].
Definition sample_state (n : nat) : option (Chain Ledger) :=
  foldl (λ c tx, sample_run 1 tx c) (Some sample_start) (take n sample_txs).
Definition sample_ready : Chain Ledger := unwrap_or sample_start (sample_state 4).
Definition sample_request : IbcPacketReceiveMsg :=
  Gateway.sample_packet (DRAND_GENESIS + 60 * DRAND_ROUND_LENGTH) "origin".
Definition sample_served : Chain Ledger :=
  unwrap_or sample_start (sample_run 5 (Tx_packet_receive sample_request) (Some sample_ready)).

Lemma unwrap_or_some {A} (d : A) (o : option A) :
  bool_decide (is_Some o) = true → o = Some (unwrap_or d o).
Proof. by destruct o. Qed.

Lemma sample_start_init : chain_init sample_start.
Proof.
  split_and!; try done.
  - by apply (Drand.init_instantiate (test_deps 0) (test_env 1 10) (Drand.sample_info "creator")
      {| Drand.msg_manager := "boss"; msg_min_round := 10; msg_incentive_point_price := 2;
         msg_incentive_denom := "unois" |} Response_new).
  - by apply (Gateway.init_instantiate (test_deps 0) (test_env 1 10) (Gateway.sample_info "creator")
      {| msg_price := coin 101 "unois"; Gateway.msg_manager := "boss"; msg_payment_code_id := 33;
         msg_payment_initial_funds := None; Gateway.msg_sink := "sink" |} Response_new).
  - by apply (Sink.init_instantiate (test_deps 0) (test_env 1 10) (Sink.sample_info [])
      Sink.Build_InstantiateMsg Response_new).
Qed.

Lemma chain_sample_step n tx c :
  bool_decide (is_Some (sample_run n tx (Some c))) = true →
  chain_step c (unwrap_or sample_start (sample_run n tx (Some c))).
Proof.
  intros Hrun%(unwrap_or_some sample_start). exists 6%nat, (sample_env n), (λ _, []), tx. exact Hrun.
Qed.

Lemma chain_sample_reachable : chain_reachable sample_ready.
Proof.
  assert (∀ n tx c, (n < 4)%nat → sample_txs !! n = Some tx → sample_state n = Some c →
    bool_decide (is_Some (sample_state (S n))) = true → chain_reachable c →
    chain_reachable (unwrap_or sample_start (sample_state (S n)))) as Hstep.
  { intros n tx c _ Htx Hc Hsome Hreach. eapply reachable_step; [exact Hreach|].
    unfold sample_state in *. erewrite take_S_r in * by exact Htx.
    rewrite foldl_app, Hc in *. by apply chain_sample_step. }
  assert (∀ n, bool_decide (is_Some (sample_state n)) = true →
    sample_state n = Some (unwrap_or sample_start (sample_state n))) as Hsome
    by by intros n; apply unwrap_or_some.
  apply (Hstep 3%nat _ _ ltac:(lia) eq_refl (Hsome 3%nat ltac:(by vm_compute)) ltac:(by vm_compute)).
  apply (Hstep 2%nat _ _ ltac:(lia) eq_refl (Hsome 2%nat ltac:(by vm_compute)) ltac:(by vm_compute)).
  apply (Hstep 1%nat _ _ ltac:(lia) eq_refl (Hsome 1%nat ltac:(by vm_compute)) ltac:(by vm_compute)).
  apply (Hstep 0%nat _ _ ltac:(lia) eq_refl eq_refl ltac:(by vm_compute)).
  apply reachable_init, sample_start_init.
Qed.

Lemma sample_serves :
  run_tx 6 (sample_env 5) (λ _, []) (Tx_packet_receive sample_request) sample_ready
    = Some sample_served.
Proof. apply (unwrap_or_some sample_start). by vm_compute. Qed.
Lemma sample_acks : ∃ b, acks sample_served = acks sample_ready ++ [StdAck_Success b].
Proof. eexists. by vm_compute. Qed.

Lemma customer_funds_are_safe_witness :
  balance (bank sample_ready) sample_payment "unois" = 300 ∧
  balance (bank sample_served) sample_payment "unois" = 199 ∧
  charges (Tx_packet_receive sample_request) sample_payment "unois" sample_ready sample_served.
Proof.
  split; [by vm_compute|]. split; [by vm_compute|].
  apply (customer_funds_are_safe 6 (sample_env 5) (λ _, []) (Tx_packet_receive sample_request)
    sample_ready sample_served sample_payment "unois" chain_sample_reachable sample_serves).
  - exists "chan-1". by vm_compute.
  - by vm_compute.
Defined.

Lemma request_is_paid_witness :
  request_paid (sample_env 5) sample_request sample_ready sample_served.
Proof.
  destruct sample_acks as [b Hb].
  apply (request_is_paid 6 (sample_env 5) (λ _, []) sample_request
    (DRAND_GENESIS + 60 * DRAND_ROUND_LENGTH) "origin" b sample_ready sample_served
    chain_sample_reachable sample_serves); [by vm_compute|exact Hb].
Defined.

Lemma burns_are_recorded_witness :
  burnt sample_served = [coin 40 "unois"] ∧
  burnt sample_served = recorded_coins (sink_state sample_served) ∧
  ∀ d, total d (burnt sample_served) =
    if decide (d = BURN_DENOM) then ash_total (sink_state sample_served) else 0.
Proof.
  split; [by vm_compute|]. apply (burns_are_recorded sample_served).
  eapply reachable_step; [exact chain_sample_reachable|].
  exists 6%nat, (sample_env 5), (λ _, []), (Tx_packet_receive sample_request). exact sample_serves.
Defined.

Definition sample_customer : Customer :=
  {| payment := sample_payment; requested_beacons := 0 |}.

Lemma sample_servable :
  servable (sample_env 5) sample_request (DRAND_GENESIS + 60 * DRAND_ROUND_LENGTH) "origin"
    sample_ready.
Proof.
  split.
  - by vm_compute.
  - split; [by vm_compute..| | |by vm_compute|by vm_compute|by vm_compute].
    + exists Gateway.sample_gateway_config. split; by vm_compute.
    + exists sample_customer. split; by vm_compute.
  - exists sample_customer, Gateway.sample_gateway_config. split_and!; by vm_compute.
  - split; [split|by eexists]; [apply (bool_decide_unpack _)|]; by vm_compute.
  - exists {| Drand.manager := "boss"; Drand.gateway := Some "gateway"; min_round := 10;
      incentive_point_price := 2; incentive_denom := "unois" |}. split_and!; by vm_compute.
  - by vm_compute.
Qed.

Lemma funded_request_is_served_witness :
  ∃ c' b, run_tx 6 (sample_env 5) (λ _, []) (Tx_packet_receive sample_request) sample_ready
      = Some c' ∧ acks c' = acks sample_ready ++ [StdAck_Success b].
Proof.
  apply (funded_request_is_served 6 (sample_env 5) (λ _, []) sample_request
    (DRAND_GENESIS + 60 * DRAND_ROUND_LENGTH) "origin" sample_ready chain_sample_reachable
    sample_servable). lia.
Defined.
