(* ===== verification/Testing.v ===== *)
(** * The environment of the unit tests

    What the unit tests of the repository ([#[cfg(test)]] modules) need to run
    on the model: executable versions of the algorithms that are parameters
    elsewhere (SHA-256, bech32, hexadecimal, the protobuf wire format), the mock
    dependencies of [cosmwasm_std::testing], the assertions, and
    [testing_signature] of packages/drand-common/src/testing.rs. The files
    [SinkTests] to [ProxyTests] have the tests: a definition per test function,
    under its name, and a lemma that all tests of the file pass. *)
From stdpp Require Import prelude gmap strings list sorting pretty.
From Stdlib Require Import NArith Lia Ascii.
From S2P Require Import Prelude.
From S2P Require Import CosmWasm.
From S2P Require Import Fixtures.
From S2P Require Import Nois.
From S2P Require Import Drand.
From S2P Require Import Gateway.

(** ** Tests *)

(** A test runs calls on the storage of a contract. It fails with an [Err] at
    the first assertion that does not hold; a [Panic] of the code under test is
    a panic of the test. As under [mock_dependencies], the writes of a call
    that returns an error stay. *)
Abbreviation Test S := (M S string) (only parsing).

Section assertions.
Context {S : Type}.

(** [Result::unwrap] *)
Definition unwrap {E A} (m : M S E A) : Test S A := λ s,
  match m s with
  | (Ok a, s') => (Ok a, s')
  | (Err _, s') => (Err "called `Result::unwrap()` on an `Err` value", s')
  | (Panic, s') => (Panic, s')
  end.

(** [Result::unwrap_err] *)
Definition unwrap_err {E A} (m : M S E A) : Test S E := λ s,
  match m s with
  | (Ok _, s') => (Err "called `Result::unwrap_err()` on an `Ok` value", s')
  | (Err e, s') => (Ok e, s')
  | (Panic, s') => (Panic, s')
  end.

(** [Option::unwrap] *)
Definition unwrap_some {A} (o : option A) : Test S A :=
  lift (ok_or o "called `Option::unwrap()` on a `None` value").

(** [v[i]] *)
Definition index {A} (l : list A) (i : nat) : Test S A :=
  match l !! i with Some a => mret a | None => panic end.

(** [assert_eq!(a, b)] *)
Definition assert_eq {A} `{EqDecision A} (a b : A) : Test S unit :=
  ensure (bool_decide (a = b)) "assertion `left == right` failed".

(** [assert!(b)] *)
Definition assert (b : bool) : Test S unit := ensure b "assertion failed".

(** [from_json(binary).unwrap()] *)
Definition from_json_unwrap {A} `{Json A} (b : Binary) : Test S A :=
  unwrap (lift (E:=StdError) (from_json b)).

(** A computation without storage inside a test. *)
Definition eval {A} (o : outcome string A) : Test S A := lift o.

(** [Timestamp::minus_nanos] *)
Definition minus_nanos (t : Timestamp) (n : u64) : outcome string Timestamp := usub t n.

(** [#[should_panic]] *)
Definition should_panic {A} (t : Test S A) : Test S unit := λ s,
  match t s with
  | (Panic, s') => (Ok tt, s')
  | (_, s') => (Err "test did not panic as expected", s')
  end.

(** The test passes when it starts with the storage [s]. *)
Definition passes (s : S) (t : Test S unit) : Prop := (t s).1 = Ok tt.
End assertions.

(** [matches!(e, pattern)] *)
Notation "'matches!' e 'with' p 'end'" := (match e with p => true | _ => false end)
  (at level 0, e at level 200, p pattern at level 200, only parsing).

(** Runs a list of tests. *)
Ltac run_tests :=
  repeat (apply Forall_cons; split; [vm_compute; reflexivity|]); apply Forall_nil; exact I.

(** ** Bytes and hexadecimal *)

Definition bytes_of (s : string) : list N := N_of_ascii <$> String.list_ascii_of_string s.
Definition of_bytes (l : list N) : string := String.string_of_list_ascii (ascii_of_N <$> l).

Definition hex_digit (n : N) : ascii := ascii_of_N (if n <? 10 then 48 + n else 87 + n).
Definition hex_encode (s : string) : string :=
  String.string_of_list_ascii (bytes_of s ≫= λ b, [hex_digit (b / 16); hex_digit (b mod 16)]).

Definition hex_value (c : ascii) : option N :=
  let n := N_of_ascii c in
  if (48 <=? n) && (n <=? 57) then Some (n - 48)
  else if (97 <=? n) && (n <=? 102) then Some (n - 87)
  else if (65 <=? n) && (n <=? 70) then Some (n - 55)
  else None.
Fixpoint hex_decode (s : string) : option (list N) :=
  match s with
  | EmptyString => Some []
  | String a (String b s) =>
      x ← hex_value a; y ← hex_value b; l ← hex_decode s; Some (16 * x + y :: l)
  | String _ EmptyString => None
  end.

(** [HexBinary::from_hex] *)
Definition from_hex (s : string) : outcome StdError HexBinary :=
  l ← ok_or (hex_decode s) (StdError_GenericErr "Error decoding hex"); Ok (of_bytes l).

(** [HexBinary::from_hex(literal).unwrap()] and [hex::decode(literal).unwrap()] of a
    well-formed literal. *)
Definition hex (s : string) : HexBinary := unwrap_or "" (of_bytes <$> hex_decode s).

(** ** SHA-256 (FIPS 180-4) *)

Definition w32 (x : N) : N := N.land x 0xffffffff.
Definition rotr (n x : N) : N := N.lor (N.shiftr x n) (w32 (N.shiftl x (32 - n))).
Definition xor3 (x y z : N) : N := N.lxor x (N.lxor y z).

(** The constants are the first 32 bits of the fractional parts of roots of
    primes: cube roots for the rounds, square roots for the initial registers. *)
Definition is_prime (p : N) : bool :=
  forallb (λ d, negb (p mod d =? 0)) (seqN 2 (N.to_nat p - 2)).
Definition primes : list N := List.filter is_prime (seqN 2 310).

(** The largest [r] below [2 ^ bits] with [r ^ 3 <= n]. *)
Fixpoint cube_root (bits : nat) (r n : N) : N :=
  match bits with
  | O => r
  | S bits =>
      let r' := N.setbit r (N.of_nat bits) in
      cube_root bits (if r' ^ 3 <=? n then r' else r) n
  end.

Definition round_keys : list N :=
  Eval vm_compute in (λ p, w32 (cube_root 36 0 (N.shiftl p 96))) <$> primes.

Record Regs := { ra : N; rb : N; rc : N; rd : N; re : N; rf : N; rg : N; rh : N }.

Definition regs0 : Regs :=
  Eval vm_compute in
  match (λ p, w32 (N.sqrt (N.shiftl p 64))) <$> primes with
  | a :: b :: c :: d :: e :: f :: g :: h :: _ =>
      {| ra := a; rb := b; rc := c; rd := d; re := e; rf := f; rg := g; rh := h |}
  | _ => {| ra := 0; rb := 0; rc := 0; rd := 0; re := 0; rf := 0; rg := 0; rh := 0 |}
  end.

(** One round with the schedule word and key already added. *)
Definition sha_round (r : Regs) (kw : N) : Regs :=
  let 'Build_Regs a b c d e f g h := r in
  let t1 := h + xor3 (rotr 6 e) (rotr 11 e) (rotr 25 e)
            + N.lxor (N.land e f) (N.land (N.lxor e 0xffffffff) g) + kw in
  let t2 := xor3 (rotr 2 a) (rotr 13 a) (rotr 22 a)
            + xor3 (N.land a b) (N.land a c) (N.land b c) in
  {| ra := w32 (t1 + t2); rb := a; rc := b; rd := c;
     re := w32 (d + t1); rf := e; rg := f; rh := g |}.

(** The message schedule as a window of sixteen words. *)
Definition next_word (w : list N) : N :=
  let at_ i := nth i w 0 in
  let s0 := at_ 1%nat in let s1 := at_ 14%nat in
  w32 (at_ 0%nat + xor3 (rotr 7 s0) (rotr 18 s0) (N.shiftr s0 3) + at_ 9%nat
       + xor3 (rotr 17 s1) (rotr 19 s1) (N.shiftr s1 10)).

Fixpoint sha_rounds (keys : list N) (w : list N) (r : Regs) : Regs :=
  match keys, w with
  | k :: keys, x :: w' => sha_rounds keys (w' ++ [next_word w]) (sha_round r (k + x))
  | _, _ => r
  end.

Definition sha_block (r : Regs) (w : list N) : Regs :=
  let 'Build_Regs a b c d e f g h := r in
  let 'Build_Regs a' b' c' d' e' f' g' h' := sha_rounds round_keys w r in
  {| ra := w32 (a + a'); rb := w32 (b + b'); rc := w32 (c + c'); rd := w32 (d + d');
     re := w32 (e + e'); rf := w32 (f + f'); rg := w32 (g + g'); rh := w32 (h + h') |}.

Fixpoint words_of (l : list N) : list N :=
  match l with
  | a :: b :: c :: d :: l => (N.shiftl a 24 + N.shiftl b 16 + N.shiftl c 8 + d) :: words_of l
  | _ => []
  end.
Definition bytes_of_word (n : nat) (x : N) : list N :=
  (λ i, N.land (N.shiftr x (8 * N.of_nat i)) 0xff) <$> reverse (seq 0 n).

Definition sha_pad (m : list N) : list N :=
  let n := length m in
  m ++ 0x80 :: replicate (N.to_nat ((119 - N.of_nat n mod 64) mod 64)) 0
    ++ bytes_of_word 8 (8 * N.of_nat n).

Fixpoint chunks (fuel : nat) (w : list N) : list (list N) :=
  match fuel, w with
  | S fuel, _ :: _ => take 16 w :: chunks fuel (drop 16 w)
  | _, _ => []
  end.

Definition sha256_digest (s : string) : string :=
  let m := sha_pad (bytes_of s) in
  let w := words_of m in
  let r := foldl sha_block regs0 (chunks (length w) w) in
  of_bytes ([ra r; rb r; rc r; rd r; re r; rf r; rg r; rh r] ≫= bytes_of_word 4).

Lemma sha256_digest_nonempty s : sha256_digest s ≠ "".
Proof. unfold sha256_digest. by destruct (foldl _ _ _). Qed.


#[global] Instance mock_sha256 : Sha256 := sha256_digest.

(** ** bech32 (BIP 173) *)

Definition bech32_alphabet : list ascii :=
  String.list_ascii_of_string "qpzry9x8gf2tvdw0s3jn54khce6mua7l".

Definition polymod_step (chk v : N) : N :=
  let top := N.shiftr chk 25 in
  foldl (λ chk '(i, g), if N.testbit top i then N.lxor chk g else chk)
    (N.lxor (N.shiftl (N.land chk 0x1ffffff) 5) v)
    [(0, 0x3b6a57b2); (1, 0x26508e6d); (2, 0x1ea119fa); (3, 0x3d4233dd); (4, 0x2a1462b3)].
Definition polymod (l : list N) : N := foldl polymod_step 1 l.

Definition hrp_expand (hrp : list N) : list N :=
  ((λ c, N.shiftr c 5) <$> hrp) ++ 0 :: ((λ c, N.land c 31) <$> hrp).

(** Regroups bits, [from] per element to [to] per element; the last group is
    filled with zeros. *)
Fixpoint regroup (from to : N) (acc bits : N) (l : list N) : list N :=
  match l with
  | [] => if bits =? 0 then [] else [N.shiftl acc (to - bits)]
  | x :: l =>
      let acc := N.lor (N.shiftl acc from) x in
      let bits := bits + from in
      if to <=? bits then
        let rest := bits - to in
        if to <=? rest then
          let rest' := rest - to in
          N.shiftr acc rest :: N.land (N.shiftr acc rest') (N.ones to)
            :: regroup from to (N.land acc (N.ones rest')) rest' l
        else N.shiftr acc rest :: regroup from to (N.land acc (N.ones rest)) rest l
      else regroup from to acc bits l
  end.

Definition bech32_encode (hrp : string) (data : string) : string :=
  let h := bytes_of hrp in
  let d := regroup 8 5 0 0 (bytes_of data) in
  let chk := N.lxor (polymod (hrp_expand h ++ d ++ replicate 6 0)) 1 in
  let c := (λ i, N.land (N.shiftr chk (5 * i)) 31) <$> [5; 4; 3; 2; 1; 0] in
  hrp +:+ "1" +:+ String.string_of_list_ascii
    ((λ x, nth (N.to_nat x) bech32_alphabet "q"%char) <$> d ++ c).

Definition index_of (c : ascii) : option N := N.of_nat ∘ fst <$> list_find (c =.) bech32_alphabet.

(** The data part of a lower-case bech32 string with the prefix [hrp]. *)
Definition bech32_decode (hrp s : string) : option string :=
  let p := bytes_of (hrp +:+ "1") in
  let cs := String.list_ascii_of_string s in
  guard (bytes_of s = p ++ drop (length p) (bytes_of s));;
  d ← mapM index_of (drop (length p) cs);
  guard (6 ≤ length d)%nat;;
  guard (polymod (hrp_expand (bytes_of hrp) ++ d) = 1);;
  let data := take (length d - 6) d in
  let bytes := regroup 5 8 0 0 data in
  Some (of_bytes (take (length data * 5 / 8) bytes)).

(** The address of a contract that is created with [Instantiate2] and no message:
    the digest that cosmwasm-std documents, of length-prefixed parts. *)
Definition length_prefixed (b : string) : string := of_bytes (to_be_bytes 8 (len b)) +:+ b.
Definition instantiate2_digest (checksum creator salt : Binary) : Binary :=
  sha256_digest (sha256_digest "module" +:+ "wasm" +:+ of_bytes [0] +:+
    length_prefixed checksum +:+ length_prefixed creator +:+ length_prefixed salt +:+
    length_prefixed "").

(** ** Mock dependencies (cosmwasm_std::testing) *)

(** [MockApi::addr_make] *)
Definition addr_make (input : string) : Addr := bech32_encode "cosmwasm" (sha256_digest input).

(** [MockApi]: an address is valid when it is the bech32 string, with the prefix
    of the mock chain, of some bytes. *)
Definition MockApi : Api := {|
  addr_validate_ s :=
    match bech32_decode "cosmwasm" s with
    | Some b =>
        if bool_decide (bech32_encode "cosmwasm" b = s) then Ok s
        else Err (StdError_GenericErr "Invalid input: address not normalized")
    | None => Err (StdError_GenericErr "Error decoding bech32")
    end;
  addr_canonicalize_ s :=
    ok_or (bech32_decode "cosmwasm" s) (StdError_GenericErr "Error decoding bech32");
  addr_humanize_ b := Ok (bech32_encode "cosmwasm" b);
|}.

(** [MockQuerier::default()]: nobody owns anything and there is no code. *)
Definition MockQuerier : Querier := {|
  query_balance_ _ d := Ok (coin 0 d);
  query_wasm_code_info_ code_id := Err (StdError_GenericErr "Querier system error: No such code");
  raw_query_code_info_ code_id := Some (SystemError_NoSuchCode code_id);
|}.

Definition mock_dependencies : Deps := {| api := MockApi; querier := MockQuerier |}.

(** [deps.querier.bank.update_balance(addr, balance)] *)
Definition update_balance (addr : Addr) (balance : list Coin) (deps : Deps) : Deps := {|
  api := api deps;
  querier := {|
    query_balance_ a d :=
      if bool_decide (a = addr) then
        Ok (unwrap_or (coin 0 d) (List.find (λ c, bool_decide (denom c = d)) balance))
      else query_balance_ (querier deps) a d;
    query_wasm_code_info_ := query_wasm_code_info_ (querier deps);
    raw_query_code_info_ := raw_query_code_info_ (querier deps);
  |};
|}.

Definition message_info (sender : Addr) (funds : list Coin) : MessageInfo :=
  {| sender := sender; funds := funds |}.
Definition coins (a : Uint128) (d : string) : list Coin := [coin a d].

Definition MOCK_CONTRACT_ADDR : string := "cosmos2contract".
Definition mock_env : Env := {|
  block_height := 12345; block_time := 1571797419879305533;
  transaction_index := Some 3; contract_address := MOCK_CONTRACT_ADDR;
|}.

(** The environment of another block. *)
Definition at_time (t : Timestamp) (env : Env) : Env := {|
  block_height := block_height env; block_time := t;
  transaction_index := transaction_index env; contract_address := contract_address env;
|}.
Definition at_height (h : u64) (env : Env) : Env := {|
  block_height := h; block_time := block_time env;
  transaction_index := transaction_index env; contract_address := contract_address env;
|}.

(** [mock_ibc_channel_open_try], [mock_ibc_channel_open_init] and so on: messages
    about a channel of the mock chain. *)
Definition mock_ibc_channel (channel_id : string) (o : IbcOrder) (v : string) : IbcChannel :=
  {| endpoint_channel_id := channel_id; order := o; version := v |}.
Definition mock_ibc_channel_open_init channel_id o v : IbcChannelOpenMsg :=
  IbcChannelOpenMsg_OpenInit (mock_ibc_channel channel_id o v).
Definition mock_ibc_channel_open_try channel_id o v : IbcChannelOpenMsg :=
  IbcChannelOpenMsg_OpenTry (mock_ibc_channel channel_id o v) v.
Definition mock_ibc_channel_connect_ack channel_id o v : IbcChannelConnectMsg :=
  IbcChannelConnectMsg_OpenAck (mock_ibc_channel channel_id o v) v.
Definition mock_ibc_channel_connect_confirm channel_id o v : IbcChannelConnectMsg :=
  IbcChannelConnectMsg_OpenConfirm (mock_ibc_channel channel_id o v).
Definition mock_ibc_channel_close_init channel_id o v : IbcChannelCloseMsg :=
  IbcChannelCloseMsg_CloseInit (mock_ibc_channel channel_id o v).
Definition mock_ibc_channel_close_confirm channel_id o v : IbcChannelCloseMsg :=
  IbcChannelCloseMsg_CloseConfirm (mock_ibc_channel channel_id o v).

(** [mock_ibc_packet_recv(channel_id, &packet).unwrap()] *)
Definition mock_ibc_packet_recv {S A} `{Json A} (channel_id : string) (packet : A) :
    Test S IbcPacketReceiveMsg :=
  data ← unwrap (lift (E:=StdError) (to_json_binary packet));
  mret {| packet_data := data; packet_dest_channel_id := channel_id; relayer := "relayer" |}.

(** [mock_ibc_packet_ack] with [IbcAcknowledgement::encode_json(&ack)]. The
    handlers of the contracts do not look at the original packet. *)
Definition mock_ibc_packet_ack {S} `{Json StdAck} (ack : StdAck) : Test S IbcPacketAckMsg :=
  data ← unwrap (lift (E:=StdError) (to_json_binary ack));
  mret {| acknowledgement_data := data |}.

(** [StdAck::success(to_json_binary(&a).unwrap())] *)
Definition success_ack {S A} `{Json A} (a : A) : Test S StdAck :=
  b ← unwrap (lift (E:=StdError) (to_json_binary a)); mret (StdAck_Success b).

(** Decimal digits, padded with zeros to [n] places. *)
Definition pad_zeros (n : nat) (s : string) : string :=
  String.string_of_list_ascii (replicate (n - String.length s) "0"%char) +:+ s.

#[global] Instance mock_display : Display := {|
  show_coin c := pretty (amount c) +:+ denom c;
  show_timestamp t :=
    pretty (t / nanos_per_second) +:+ "." +:+ pad_zeros 9 (pretty (t mod nanos_per_second));
  show_std_error e :=
    match e with
    | StdError_GenericErr msg => "Generic error: " +:+ msg
    | _ => "std error"
    end;
  show_system_error e := "system error";
  to_hex := hex_encode;
|}.

(** ** Protobuf *)

Fixpoint varint (fuel : nat) (n : N) : list N :=
  match fuel with
  | O => []
  | S fuel => if n <? 128 then [n] else N.lor 128 (N.land n 127) :: varint fuel (n / 128)
  end.

(** A length-delimited field; like [anybuf], a string field is left out when it
    is empty. Ten bytes hold every 64-bit number. *)
Definition field_bytes (n : N) (v : string) : string :=
  of_bytes (varint 10 (8 * n + 2) ++ varint 10 (len v)) +:+ v.
#[global] Instance mock_anybuf : Anybuf := {|
  Anybuf_new := "";
  append_string n v b := if bool_decide (v = "") then b else b +:+ field_bytes n v;
  append_message n v b := b +:+ field_bytes n v;
|}.

(** ** Signatures of drand (packages/drand-common/src/testing.rs) *)

(** Rounds 1 to 10. *)
Definition testing_signatures_1 : list (u64 * string) := [
  (1, "9544ddce2fdbe8688d6f5b4f98eed5d63eee3902e7e162050ac0f45905a55657714880adabe3c3096b92767d886567d0");
  (2, "a050676d1a1b6ceedb5fb3281cdfe88695199971426ff003c0862460b3a72811328a07ecd53b7d57fc82bb67f35efaf1");
  (3, "8176555f90d71aa49ceb37739683749491c2bab15a46094b255289ed25cf8f01cdfb1fe8bd9cd5a19eb09448a3e53186");
  (4, "ae993698ec92a3da3b51a3ac0e3ef573670a3c5a279fa7858f5e13150d789a3ca302b77fab4ddf20700ba9e40ff50377");
  (5, "9166529271ebe0b30ce2d021c835e7c069647ffd5d4af1d35f997371a27860679a0f9cd3b8caa888a47237016e7accef");
  (6, "b5be83cc91295769734b3dc68121fc4a42945a04637ce324e79a2ce13c384e4f5989e11eca28121d18fcde739a13eea2");
  (7, "94b9bd8ec15ffaf7496417e653a1dd94cee68728bd551100a0949de743f4481c820300598d8e65adca8108b1af34c0e3");
  (8, "a56ec0345b0f8019a3ad85b57896d776d08ec7fe0633d7cfb2527ad723e1f43ce74b7d38fe4466385793d2cfd93ca513");
  (9, "b598635395730033daab872d08c0ca31045b216fd062d911fa72f8320edad3d838f0a7b3b0013296c7bbd0f8dec01e9a");
  (10, "a24c8c1b6b7ce4d01f7e61422781839209dae2b356d156517d5344f643c5f968cf0716f4c7eb105fb6a0306e88e51595")].

(** Rounds 72750 to 72900. *)
Definition testing_signatures_72750 : list (u64 * string) := [
  (72750, "8584a3d182931ca2139ef19e40371e7a26408de76aedc3941b05a3f82a981ddfc82559f41e8d2b91876602e5d9815db9");
  (72751, "920218e6bc07dfae00c0e59ced39ee663e2ed6e3294fd6b48514bd9fcdfadf8ad720b60d384691531ab198ce1a271712");
  (72752, "a7380c9d6f44371b7e520f5527f9ff94a26fab19f2123a362de861717777cc7eebfd7ffc1eba846371731d734c5e2eb6");
  (72753, "99ca8069d753db120e459f686d4c7d446c0e69237bbc5a29340a6e0086474cbbc35c2e3facd9b6a200545adb5699229f");
  (72754, "87e2f5fad0ab4b1442ea103afa7e10dcff66307d8eb3c9e788b3bbf21f02e20c72e60dd04c70c2988819d1c5853ca2c1");
  (72755, "89662f896d9a871e8ab0dfda3677f1d5b2b31c905cd08d6a8c4bc4d864a1623e888e129bd51ba3c9cf08f9f704fc889e");
  (72756, "82caf5ff593182846ace4fee90d203a839849eb230f35b7e52f02e1f9db36369a0566ce60ffab3d21062933e9095ed8e");
  (72757, "a0a98f12286d004c6e737f760ced33b20f0a763e5d185d4e9ed12f7ddea312e2c395f69b7c115e375e0bac6b13c280c5");
  (72758, "832052dd3760690bcef5ccbae7dd12443631a1df6f16582d75df98e2adf6face5da8a6c3c23303ee0dbda232c07771b6");
  (72759, "ac84c37dcdbaf52020643bf0972d6f408c50dadc8310a383d77e9f3d7bcb7f214329d88a861baa71defe29d952530bfc");
  (72760, "8b67bfda5e871ad79179fb8b7476852487904241c720e2434b68c51c5b9356623d242cf30d1869c9e0a642d608050c17");
  (72761, "8973b77b12c8d843841b5f554c10a420483aa4896aa263f36264c6568c3c8e29828940973d579e6192429391d8cb7902");
  (72762, "852cbe450aaad11990d8abffb3c7b80477d2e1afd6be2cea7f5aa9c72f37824af60e90f20c477fdd5450ec5d9442861d");
  (72763, "8e4d9c68c7f0d78b060e3f3297727ebe161319b41643d011d4c6e9b9dd8a0128e5dc04520173e7a956fff8faf1b70344");
  (72764, "b080d86f73971e13e8a1ad4000a1ff89494272ddc2ac5b8e33b7ec2a1c336a59f5df12e4ebdb9e9eacc7b11f626f928a");
  (72765, "b6d2823946415d38aeda9dc7194e44761947ef92574fd2a48debface415951d5f3b017a86577898f0e3ca7b84081c1e5");
  (72766, "b8a630a321a89bff2c3e1b68296b514166e60dbeac4ba1b1933efce5fdfbaf3081a0e1c628da6f7b267db46f9029188b");
  (72767, "88285ce5ebf6fd336b78ea2fd41a69bb78617c14cc0d1fd5177076b355182df2c2139f7a6cbfeaf077e0707d8d2c5196");
  (72768, "972506c3639d43efc175cea617be78ee6060a09030216b09fe752c0cbd0433196222e0facd4f47fcea31ae90934c8c88");
  (72769, "b6a3513ed4f7049b54609af8ff1b971ee5ce87b505eb8e7decc48d30f1667aa7fce0745dfbd62f134a2321368d58ace8");
  (72770, "85b380ce250af1e2aa9226f0f77e5ef88dafb30158bf240d745df689d002bba24db45af259bb941bfe27dd20ddc11b32");
  (72771, "a056f049509fd5ef3caf03fef966a066d3c2ebfc6d415d5f481774946987f6726fe71bc7cc6bcd55636e26194565baec");
  (72772, "aea4d26ab4c65baedc696f31bb3b9b304ba8520ad6810762cdd0ebed08482dcbb0e747deca7116a0f14bb7be99ab05be");
  (72773, "83561198d95fae700d220869b07b10d897e2fb1ed1183713d4f174278f5e24cba97ba649ed8df671b48c8e0cc3981969");
  (72774, "b70409a51ea4e70d25a4a3a78e3d289f91ef38665b89193363596545c9395eb518415a9a4bb73ad2413cb83492aaac6e");
  (72775, "973ae0dd58e53c7ca80952ee26e0565627dd61cc5ded60b20d2d846e5354d2aec13d08a2bfbc240c794993d16a0dae90");
  (72776, "9191b08e1f9c0701d66634e8bd4ded33fecb428e96d0d33b17454001c1fcb41857d7d59695bc184eaa828c536eba4e26");
  (72777, "aa64226aae1afe27835bf90f08b42ce5f8c239a37a542b5eb1a11549f8083c98b5c179488bf04bde951fffd7e1f6440e");
  (72778, "b88ab76e57d12bac286df63dd45f0360a8f88a79986a1a885ab7cffd1cd54f790fee3ccb93eb75f119501db9a07d8c76");
  (72779, "983b9c63b1b22f82397bdb13dc790cd5d89bdc09f21e48b983b8408899012b9967d02dcd604f1e0e394bb2f98498c993");
  (72780, "86ac005aaffa5e9de34b558c470a111c862e976922e8da34f9dce1a78507dbd53badd554862bc54bd8e44f44ddd8b100");
  (72781, "9321b3f2139b488f0d4f7c2628a8fa6f3af24a0a405b83946eb5a0c4e659f09dc220a8a938c82f2da73f870632a7a268");
  (72782, "98849d18cd21ec6d9aadb87c12a628a8cfc1160e9dac6f88b0496414cac5fa9d594438da8f5321f5438e3c3ab71a5d33");
  (72783, "a2e3c79477d6bbb67ff9dcc78acd53c223c3dea35c6b909aae79b1ad591b8e3aaa53f47811c1e1c00877756c6ba2438c");
  (72784, "b9555d15e77ea0b9e23b976851761dac830de0576a50faa39c1c4b3d097d5568a979a7cae0e95997b82f15272fd37fe8");
  (72785, "83f2bcb12b772602f27a1ad130a33781014ac73e82098580e934a5b5e4ad57ceff27ad22fd6344b33af9675e0d0b5e27");
  (72786, "845fa920aa818c5417e1f7be321f428d363f21acdede449bec2af7be7fdd0c26203829e4063703101a19770a3767d31c");
  (72787, "a989c38f3a9e9b871059f2dab78ea5db546196d00fc94db2893de609f3408f73adadc345e21df15d9e351bda365ebe0f");
  (72788, "b90c4026361eedafb45e93b5cef36e54cc0d7609838d0a7e99e96c0de04361a536cb119925a2bceb28d9bca361ded5a1");
  (72789, "b28d0686ce6a2ba23b4cd9a5a008d262facbe34546cd19b9f5bf35bc62eec9b5eee629bec3bf467362577bdb39710220");
  (72790, "b366eaf8ad13fbd36b76751ded49726f8cc47506af50c4e12d9fd1c3244418e0ac4c36d5cdcc342fa71e5bdb599564c9");
  (72791, "b845976fc4f7afa4cfb7601728b37c18fc41c7a253ebd3fe0c0485cd44497e65ede9b5713699272947e3cd3b0dbfaf2e");
  (72792, "84755d284d94d928db52da2be6d7bdda3eabe68b857f57cac4d5e8750cb59cca6d7d2437e2b4b3d25e992a654d4a5456");
  (72793, "a5d6dac652b884602ba35c20ab85293282dca5ffcce132c849f8da2e139e71a518ccdd578b0d7a32cd5b5eb9d254d5b9");
  (72794, "8c9e6583d37c2f0a2dfe83145ab3ecfd14e3135129359d3658975f9107558af7c29ef283fd16cd1de0f711057ad32e5b");
  (72795, "a1306a2952c304da1228555590d4a2087d92b802a35dcc806d70e6c6dca4fb2c836f3687f01d581b657b8835a53596d1");
  (72796, "87c637492aed406a1cf6488745330c9735c4ce640866f6e359dd7b81c5903b9a936fd6a5ff776f61b0f91909b3940ffd");
  (72797, "b7795806cfa5ea862611ad23f299af1cb98d504707f54c01141c49ed027b983ed5a953450448141dc53678fa03f3e1d9");
  (72798, "a8bc9473a7effba46e8506d9bccbfccbd61f816af7ae444e9cf600568722e8d75b6a480044c5b6eb76de42befd3d6b6d");
  (72799, "886832ac1b059709a8966347fc447773e15ceff1eada944504fa541ab71c1d1c9ff4f2bbc69f90669a0cf936d018ab52");
  (72800, "8f6f528a2faf2c993354eb22f8f06d5cb21429f4969c298a55981a8f3cb9960f66cf4e81a3f4754fa3459aaea1b3e411");
  (72801, "acdf3c20a34af546a698e71ccbb85ed53f1e5b3940ddad6575cc91070c653bdccfd12bc68c5797206a2837c87f889b60");
  (72802, "a6d1ddc390a4810c85ddf28baaaa30e7e51957b1d3e73d14daf2c44bb4a7d8eba8e85ce64274d75118a34294f565b09b");
  (72803, "824392d8b9f67c6e1608afbc6c91c898db54831918fb1142a9d9c8a92515a1fb514f06ec5794975dd16bb6dabcb8aee2");
  (72804, "b95843a8bd4c25d04896d79466710298b280acbba33eec69093cf1de56bad8af401535f5cd4c3373b59873d82fa06d11");
  (72805, "810c4078569dfc8b9d8330aedc9298a42eef2046d47a02e1a427f188c5a191d17f7efd6aa03f2d2aad2b635521cf9945");
  (72806, "a46e4fc4bd02e974973578b4bf7b3475d421924c0b01f53b43ab10953629a9d1a587be58e0e3d6d4e2fd153abb5787f8");
  (72807, "88c003a9c37f339e65589a39eba0e0f35ee8429ccc3b00a0c477bff37acd05593e43765c19f6c0f22b55128db182f06b");
  (72808, "b0cd06ae4b4973df09f1facb4444c981f8494800fc8b4ed083fb6e7da6bf28fd9612420bf587fc64c929b10c6e4acbcb");
  (72809, "8e311beec77b40fe41bc2d1d3e5a940bcde5c5d6dbd0345e439e0ba3266b0627d42f7803b697106f884f42b9b26b14d3");
  (72810, "a55ec5caf6a63f198aecde7a28da86ba2e059d80029be9ae8765331df112e4695cb24b951d322653359aaa75427f4b60");
  (72811, "86d21e26cc096c1c495e3f5825fe99472f4b263f8fc62fb0186416bb3052381b354abada43317683d790069f849fb8b3");
  (72812, "873d62d222bfe2e5d1ede46d9684741b03357fb33a94ba3c87a32bbfaf7de0b8c5ed98dd6dda3cfbcc70004385996943");
  (72813, "917f8c1e95175115c437cdd2c8ad2fea05557c50bc5e90cda9db1d3df234e0354466b01c3b03b8d902d7740341449706");
  (72814, "818703e0b58102beec43019261b0d11979af43a3ea8c842e6007b115b6a92c514b4bf59ecf2362c79771e0a0cc67ed79");
  (72815, "b9806f0eb2f7fab4599fa35d7dd5c3cdd78f61a0810ce7e1df4944bb5d7e12a1d63dffc930e37240061f8c18bc3ae498");
  (72816, "880518e52b0a533d8de3e2607b76f5e76c8a4d993108f0ea3496cd968f2d08932c2b5a8924ff9af39d2f1a8447ca0830");
  (72817, "a10554f14e029386aea406ae462e19c7f3dabc0fc86cb7778af16c39cee1dc5b94d366efde5a448f3897b1cfa934e215");
  (72818, "907555916f2c3faf84f2c5e1983c4db0975e9e0efe6b2c2df16bb1696aa21afc2ac1c42c4d0564c6702265495db9e24a");
  (72819, "8e5cd9a0a0ef4fb7ac09877a7f2d1e452d33f950a1cc6d0a399da2b6e823fc61916028df0674015042dd05537a0d3c87");
  (72820, "9988831fa1e6e0282ea949e1d9b0200ff52df86bc3de927abbbd527c6d5d97c20028e7d1c013d2c8c5b1182495042e5a");
  (72821, "a8c8d0916735b999b6d4d8474639aa70d04990278e66e5ff90171784f61950cccd7b9df773932e7d2ed5f4ec77043db2");
  (72822, "b594a4e954d145e114fb43092274187694dc611c4398906db659f47da7ff180408660078c283c335c5eb3e2e9c310cca");
  (72823, "83581dc45123b6680cef780bf9ed760fe45756998adce123d34c7c0b65d4f791a89ba58ec2dcc0c7aeac54a66723211f");
  (72824, "b7c151e795238d2adc5401ed2ea6efb30331cf1c4ef41801a8dc424ae847d618e17162d8916c73ebaa83d62e75650167");
  (72825, "b5b04decdc59cd2f0f1eb4d156f211ffa794c05a6a68f0dad0db0b3a866eedbde513cedd525631b4052f63bebe0d3fea");
  (72826, "b32d3039d01b7148c0dc9478130cde031ca0b1cb661d30296e71c77b0a15b650cebf768b7d3eb325783dec96d8a80c7e");
  (72827, "8a093aa0d6a09c621eb254eddd9e80ea12511ec83659f8d78ef43d8c5a3803d1f9431c18db30d6c242a952495e97b444");
  (72828, "b16f9339d30b0732ea6c517cae30109fd0003e5c06429386e958e6094d8f34b47497a5c8ce43151ff7a7a1c148cbfabc");
  (72829, "a6e940e36a021eebabe10976e8f211367e1314285b190cde4c8ab013ca4541b6ef0e15c8f7a6253f85618baf1c410504");
  (72830, "a2d03f0303e7841495be458d9d314a3f0eab1ba00a00877aa6e3e0588da65e99bc3ce72ef69cae7dc1f91edaaf5a2b6d");
  (72831, "a89172773ecd39ac3a21c37a718cb305cda7641d2acb91d147de6658c927c3e99cfd87f6a32d6a9a5567d58c3299832e");
  (72832, "8ed3a7049351b1f306a5f5f4877d9182c9025f0f2ed6ab1a065f2b142289c13879a964f8946410b250023f4380d05b44");
  (72833, "b6e32d9c9187eb1e9d7f2e743b858b48dc52317ac8d294faa1b0e158cd0f8c8417c1db8193f285a39f8c61d5148f12c6");
  (72834, "8c79a93113925203109c4bcb4aca42d704d07d3dc07bff9e026a52a3882cc7aa4af4dbf96e8541a4128b882cc3b312a8");
  (72835, "a655d3dcf732405602c0e1a99f1ef7a3d445ae96095f7cf9b2dfdb0f63bd8a18dc23123ef2ca63ca3687f8e88e373626");
  (72836, "95930cfe97614ae2b37faf2c10880f39fa4db0917265e5794ba0a22f6a3eb93f0e835330005dee7283c578ea608fce61");
  (72837, "8af07e6f09acb19c9a07e43d54ef201b5cacad249c6a1af9e5a2f152de38628b1fea804c5391dcbf25bc9947e909a046");
  (72838, "b2b4afff550a3f52c79f935cce660f076498910a5e0958c287f893f1ef45e97c79816f49f9e6a556dce6fd98a711f5a3");
  (72839, "903f2b4a97845134c5f9b7fdf6009393ca5b9f2b338dde602eab26413764c4fac68dc679d1e35fadee74f7233311227b");
  (72840, "84673a9e54f0ce75e053dad2ac94d21b491b507ee29b5aede82e8740a7bb7917f4dcac8008adf7f9e21a3e343c22c171");
  (72841, "aab6f2bb63f5d6b947cb7260d730faf845b70cbd94a93d81ab1f36f9ac911662350fac5984a9e9054aab89cd89bf7658");
  (72842, "b6ae5f4d2d81a24a7ec7b475005e0f494b48ebf6d398b06127ca74d4495df2e0c91edf1418f4c5d4e3e7bf387fcbf76b");
  (72843, "a011c155f3b8b5094b60bcf7b0afa0b4981896434c08775a16729030c5c63b74c60f35585af56af7b550e7f1e2251c6b");
  (72844, "b79639a9ff407a8e8e96cec29a9f5f474c80462b071aa985a2ac2cabd7326f4d8151b0ddf10a29804f471d52f62ee1ea");
  (72845, "96c4b06d881dcbef3e58724214d9d1c1db3343f65da3ddc15b03f9aa7e877141b6360dd2c485fbbfe696d590c99bb64d");
  (72846, "8742aac227c22023537475b7e397642d520245eb9442c76c9bb6a7cf4cdd2f330b75f08d256855709d4b5bb46a874ad0");
  (72847, "88b67724a059ef98178a30d2df0da16cfeed5fc1d12850965c18e8845822c8442c49c7e502beda951fb54ad99b3e52fa");
  (72848, "acc6cc1398f740451caac2d2d7677b34ee6d2b1a2a38f0287e747be5b9102cdc2e736906fa28bf7612af94c46d082db6");
  (72849, "ad6da732b41cd7639beb03982b7dbd8e92fa924a2ee7fc4d66c06f76a87f3339ec6c437e0f9dace456ec822c1673b7c2");
  (72850, "93cc9c49fb4501ad094e117a1aaacf7f6c97e23d4490bd342deb1e5a22d93fbcb0c4bc6eb86c4a068509babf614c80b0");
  (72851, "98463b25a91bf76ba0dcf2102fca12394a78d7b6feca7066c1de19b5d1db164a699f0eac93462c4bc8da62b7f52065b0");
  (72852, "b51b2241935e1cac02d105919625ca173be02bcd379045d584712e43b626614e5ca14f6ec0355d8831cd77d50bdd72df");
  (72853, "91b3ede7a4e334d1b6bb8d4a6e918ed5f63c91dbf8b2787029c6e4f9ea339ef304a224ceac4ba6a424992c88e4c4576d");
  (72854, "a7666df642499d498272f32165d86eb01de91dcd6bff43d1c71311680ba306a257e227da15d6d2b75336c5959c05be7b");
  (72855, "b5351ce49e69999f9842ac54b85232ce7789d1ff75b1de37ce328f34fa250b187e8f6e23767a9778c29b855fff8a0465");
  (72856, "81a6702fec5d1747071e1ee79c5dc3db9300c9c5a98cb4ddad4d72922dc961831c36c513e709f3b10b560ad83e61fd0a");
  (72857, "b69730c1ad7b71c40f745d6e91f25942d980f6ad9a2df05f49081d1dc361987256b4b3f26ffd824d4cf8fb6ec149994d");
  (72858, "ae673e455b8e98ecce13e2bd9a7067ea4a537ed1ae0a2f8a4711f5a2db2ff8a3f38ebb358a05ae106f04dc1bbd9a664d");
  (72859, "94555d5f54291ce3f0199cbebb0d931086b27adfe87b9e8230e090bb538cc0ca47463091b6a0408bb51bb528ae0f2069");
  (72860, "94902533abd41da11b5c9726b1b80aa6b6d1d5fab1903b1d81f54af7e0212fb9156d192261774974ea581822a5ea9721");
  (72861, "a5bd740cb79eb3982ec1d9475304c44e727aedd1ebf392fc6ec86f6bbe57090861fd9f2317d5d8c8cd653dda56f02414");
  (72862, "864c5422ca7eff4de0519a61d2b52ce10cc40596db9cf6f61179dc76fcb31fe49a086dce1a1a1ed96f3b3d33eba7cccc");
  (72863, "9906aca12199a1565400827cd51327075a9b96c39d111f7cc7d78dffb9a3cfcb8da3a56a26c419fd913b955f0557534a");
  (72864, "99a024b737d86f50c96b18400ee451df04beac1e4ea139e0ad825c16ae89b02f06c50a45b6c53e38880e71b98c2048f9");
  (72865, "a3e9467eb0267f1f20455027ce57e7a25b5e548f663bf9582894f7ecaf84dcb9ff33c1fbad0d000936d78339ef803bfa");
  (72866, "97a7a272336c74183487c9bbc27af48bdd6931c04cafa45d5d5a80a21291b75e7c189de6600cf5e328866c4504850e00");
  (72867, "a6f220096e077a991c38a08ec4709e76873f077944dfacfd38a3bddada8495733ae1a63166490ead688c8045d0eb9273");
  (72868, "9092fc82d0c9ea6154763e0a091f048743f731b8471af5a7a8d24cc434facb41ccadd7a3c4c9daffd322eff56c9a7613");
  (72869, "b6314c7e35c8a8b80bf6f5bb7b4a1fef540366b7051f6a2ce3872a2a4c8bcbe4307a686d7d1ed966bbfb25b7e49aa67a");
  (72870, "87da37e79188c34f311486ab469f8c1e24aaceae042c6166486fbccfeab01fbadae88414cca7523f35ebddc799f5152b");
  (72871, "96196b364ac7a26e70190ac93da67ddcecf0b3bb4c46796239cd74ee937a01f184391b8e4e886d857f4c0998aaadbb19");
  (72872, "a332b718b45989c53b8f92a511427347352a7523a2486a9ae2d33b3998d01f41d00e824e79e2dc5708ce8f4acb0a3e5f");
  (72873, "84adcc985658d0023a6ec554debbd42cd3411a6aa380008254d0c66116e5cd02f9e05640fba94ff459451ab321d52fc5");
  (72874, "b3348406e691009e83e260e91e3a5dbfdc780665383093d3e580881de1a7c40288084e5821c4b031ee10151bafce50e4");
  (72875, "91da11ec34be025f4acbca00e6881c8ac4e5603a6bcd2d15875bbf9b39577c1f1611d2e5c038f4702ed63ee43065b4f6");
  (72876, "8f47ea5358e6419cc9f57dd0c9be734c5c55f3773b09b8770bbf2c34ca31605305e39ff33ec00b24c391864b874d8499");
  (72877, "a0d5a6e493ed2769f2dc47634fe0b924ae765afdfd51367829e5a8bddd5d528c3fa8660d30150c9d0a373eaf177afe87");
  (72878, "aa752603a9b76cd781772ebe31cd1216b85fed4d9be5144be1dbc91aba66ef5832a2edd26b48239edf3a0849e71c6f91");
  (72879, "819dba553ffbaed4f360d289e353b9e9c8de918ba585ab221fb4c82d3d94d67038fe5c0ca5e715f0a8f8bf92749f1398");
  (72880, "a15e1ad9054839f266d817e36e77b340c79377c0e30647a97ea71a5e3c9d0df535d81a917e8294a59a1c8c4154b71c4d");
  (72881, "91f6e79b1b96a7ba0e6973f526100baabadead6325150cdb1cc34324f9417ab257d95421376dd1958ce4730f2c33fb3b");
  (72882, "ab6a30fee0b8cc82ae091517507dc19041b9e62a6ab9e6d98074ed19a731b3985dc3daa40f19f7f7619cc2875e3b099f");
  (72883, "a1a41c71bde2772380486c30c174196cd9d84c03ab575e4e2d0c7aaee7489afb83c633e14ff32a6cc55fb7e0018479c5");
  (72884, "aa4c1bfc89a9d00efe1a935162ed2bcfbc0f38ccd00a73b4e255c7e21629a7915499dc79334879638de53d79511be084");
  (72885, "93d8a5ca0315cc502ecda0e78f3ea290e304c4ba6e3158322e631c2265791f6b5dd846b422133b87214867300b55cd17");
  (72886, "9795dd688bfe486ab1b2dcf98c1da19f3a722bd2d56e8be6a2def6193fd90e5b55f76fd7f22033288f19f9160428097b");
  (72887, "98bad46acf25dcc2f18698370492ea8d42c3002eef12ab95d396593d52657a17807b2b504b0ae0abe32c9daba757157c");
  (72888, "a9a440bc7c75eb6035e1e820b305c40ec78ed9e9e1812edc36ccb873889addae41e8f5dfdd484cbe2cbbc5dc69cb02b9");
  (72889, "b0dce2fb456443265e9d7b315a73d855e72154a4fd151bf7d899d1200e691f7276e36b43e8c859140efb9cd29189306b");
  (72890, "871e6f805f61724100e373c376081de81e70b860d99cb8b77737c493fb7cbbcab8986a64788542d6d38f94a9241d055f");
  (72891, "a49285e4d7a04accd86420f2a1002fd58127487474c9a716045f45eabe789dc5d6760385bb55afe93e8a55d5ceff7e9c");
  (72892, "82b3234a7b92d36d395f54f8a7c7a9d306e1d0624b3be82921e380590a578536f1513181e3241751c9a424c704806b7e");
  (72893, "8f9213c5a23f428bb32e12ef3a86d9c6e2ec6e82b0bf03893a233ff620582cf2ac8bd904627880a0a38d44d14c7345bd");
  (72894, "95032e73a68934c3a460bd6adc192e6924cd1faf81f8d2366256e3df3464309b7dc02ab72bd91e180a56be7233f9cfde");
  (72895, "99f212ffbb1939115436b6cd5aaa3b7851638e71f800ad688c44953750a7862117ad6233c578b6bf4928ea1c1fe21d10");
  (72896, "b9b3ebe2f71c1c1475aad355f703f6936be9c098e1c38ef08dfa3a8a9dd699036f85aeabe5e82f09c885a461e0557da7");
  (72897, "ad729b77305c5dd312d962bd5e38d54dd825d6510b36e0985c9282ac4c2eeb6afd12412044df4c043556ddc505045990");
  (72898, "8584d80949aa2aeded48a414b1669da079472d785ac81c3ec20adfd40fd3d14cc71ef2192bcc65283c9c6fcd5e70344b");
  (72899, "a42eded0bc38e014fee51953a8616c9468a66050d27349693d16ea5801750217c12b1ce6ba3dbf8560cf6a5e89d49306");
  (72900, "8e5380b827f6971956e73e3e29a01daf7e5e8e74908092483a637ae528998cb83e927a026651ea35e82fb1540b61d7a9")].

Definition testing_signatures : list (u64 * string) :=
  testing_signatures_1 ++ testing_signatures_72750.

(** Gets a signature from drand mainnet 2 for testing purposes. *)
Definition testing_signature (round : u64) : option HexBinary :=
  hex ∘ snd <$> List.find (λ e, e.1 =? round) testing_signatures.

(** The signatures in the table are those that verify: a stand-in for the BLS
    signature scheme on the rounds and the key that the tests use. A signature
    that is not a point of the curve is an error; here, one of another length.
    [derive_randomness] is the digest of the signature. *)
#[global, refine] Instance mock_drand_verify : DrandVerify := {|
  Pubkey := list u8;
  from_fixed_unchecked k := Some k;
  verify _ round _ signature :=
    if len signature =? 48 then Some (bool_decide (testing_signature round = Some signature))
    else None;
  derive_randomness := sha256_digest;
|}.
Proof. intros signature. apply sha256_digest_nonempty. Defined.

#[global] Instance mock_nois : Nois := {|
  MAX_JOB_ID_LEN := 64;
  roll_dice r := 4;
  sub_randomness r n := r;
  random_decimal r := 0;
|}.

(** ** Comparing and serializing what the tests look at *)

#[global] Instance BankMsg_eq_dec : EqDecision BankMsg.
Proof. solve_decision. Defined.
#[global] Instance WasmMsg_eq_dec : EqDecision WasmMsg.
Proof. solve_decision. Defined.
#[global] Instance IbcMsg_eq_dec : EqDecision IbcMsg.
Proof. solve_decision. Defined.
#[global] Instance StakingMsg_eq_dec : EqDecision StakingMsg.
Proof. solve_decision. Defined.
#[global] Instance DistributionMsg_eq_dec : EqDecision DistributionMsg.
Proof. solve_decision. Defined.
#[global] Instance CosmosMsg_eq_dec : EqDecision CosmosMsg.
Proof. solve_decision. Defined.
#[global] Instance ReplyOn_eq_dec : EqDecision ReplyOn.
Proof. solve_decision. Defined.
#[global] Instance SubMsg_eq_dec : EqDecision SubMsg.
Proof. solve_decision. Defined.
#[global] Instance Event_eq_dec : EqDecision Event.
Proof. solve_decision. Defined.
#[global] Instance Response_eq_dec : EqDecision Response.
Proof. solve_decision. Defined.

#[global] Program Instance Coin_countable : Countable Coin :=
  inj_countable' (λ c, (amount c, denom c)) (λ '(a, d), coin a d) _.
Next Obligation. by intros []. Qed.

(** Gets the value of the first attribute with the given key. *)
Definition first_attr (data : list Attribute) (search_key : string) : option string :=
  snd <$> List.find (λ a, bool_decide (a.1 = search_key)) data.

(** ** Known answers *)

Lemma sha256_abc :
  hex_encode (sha256_digest "abc")
  = "ba7816bf8f01cfea414140de5dae2223b00361a396177a9cb410ff61f20015ad".
Proof. by vm_compute. Qed.

(** A message of two blocks. *)
Lemma sha256_two_blocks :
  hex_encode (sha256_digest "abcdbcdecdefdefgefghfghighijhijkijkljklmklmnlmnomnopnopq")
  = "248d6a61d20638b8e5c026930c3e6039a33ce45964ff2167f6ecedd419db06c1".
Proof. by vm_compute. Qed.

Lemma addr_make_creator :
  addr_make "creator" = "cosmwasm1h34lmpywh4upnjdg90cjf4j70aee6z8qqfspugamjp42e4q28kqs8s7vcp".
Proof. by vm_compute. Qed.

Lemma addr_make_valid :
  addr_validate_ MockApi (addr_make "creator") = Ok (addr_make "creator").
Proof. by vm_compute. Qed.

(** Every entry of the table is the hexadecimal form of 48 bytes. *)
Lemma testing_signatures_decode :
  forallb (λ e, bool_decide (length <$> hex_decode e.2 = Some 48%nat)) testing_signatures = true.
Proof. by vm_compute. Qed.
