(* ===== verification/SinkTests.v ===== *)
(** * The unit tests of nois-sink (contracts/nois-sink/src/contract.rs) *)
From stdpp Require Import prelude gmap strings list sorting pretty.
From Stdlib Require Import NArith Lia.
From S2P Require Import Prelude.
From S2P Require Import CosmWasm.
From S2P Require Import Fixtures.
From S2P Require Import Sink.
From S2P Require Import Testing.

#[global] Instance ContractError_eq_dec : EqDecision ContractError.
Proof. solve_decision. Defined.
#[global] Instance QueriedAsh_eq_dec : EqDecision QueriedAsh.
Proof. solve_decision. Defined.
#[global] Program Instance QueriedAsh_countable : Countable QueriedAsh :=
  inj_countable' (λ q, (id q, queried_burner q, queried_amount q, queried_time q))
    (λ '(i, b, a, t), {| id := i; queried_burner := b; queried_amount := a; queried_time := t |}) _.
Next Obligation. by intros []. Qed.
#[global] Instance AshesResponse_eq_dec : EqDecision AshesResponse.
Proof. solve_decision. Defined.
#[global] Program Instance AshesResponse_countable : Countable AshesResponse :=
  inj_countable' queried_ashes Build_AshesResponse _.
Next Obligation. by intros []. Qed.

Definition DEFAULT_TIME : Timestamp := from_nanos 1571797419879305533.

(** The ashes in the answer to a query. *)
Definition get_ashes (deps : Deps) (msg : QueryMsg) : Test Storage (list QueriedAsh) :=
  b ← unwrap (query deps mock_env msg);
  r ← from_json_unwrap b;
  mret (queried_ashes r).

Definition queried (id : u32) (burner : option Addr) (amount : Uint128) : QueriedAsh :=
  {| id := id; queried_burner := burner; queried_amount := coin amount "unois";
     queried_time := DEFAULT_TIME |}.

Definition burn_works : Test Storage unit :=
  let deps := mock_dependencies in
  let creator := addr_make "creator" in
  let burner1 := addr_make "burner-1" in
  let burner2 := addr_make "burner-2" in
  let burner3 := addr_make "burner-3" in
  let burner4 := addr_make "burner-4" in
  let env := mock_env in
  unwrap (instantiate deps env (message_info creator []) Build_InstantiateMsg) ;;
  let msg := ExecuteMsg_Burn in
  err ← unwrap_err (execute deps mock_env (message_info creator [coin 1000 "bitcoin"]) msg);
  assert_eq err ContractError_WrongDenom ;;
  err ← unwrap_err (execute deps mock_env
    (message_info creator [coin 1000 "unois"; coin 1000 "bitcoin"]) msg);
  assert_eq err ContractError_TooManyCoins ;;
  err ← unwrap_err (execute deps mock_env (message_info creator []) msg);
  assert_eq err ContractError_NoCoins ;;
  resp ← unwrap (execute deps env (message_info burner1 [coin 1000 "unois"]) msg);
  a ← unwrap_some (first_attr (attributes resp) "burnt_amount");
  assert_eq a "1000unois" ;;
  a ← unwrap_some (first_attr (attributes resp) "burner");
  assert_eq a burner1 ;;
  a ← unwrap_some (first_attr (attributes resp) "time");
  assert_eq a "1571797419.879305533" ;;
  unwrap (execute deps env (message_info burner2 [coin 2000 "unois"]) msg) ;;
  unwrap (execute deps env (message_info burner3 [coin 3000 "unois"]) msg) ;;
  unwrap (execute deps env (message_info burner4 [coin 4000 "unois"]) msg) ;;
  (* Test Query Asc *)
  ashes ← get_ashes deps (QueryMsg_AshesAsc None None);
  assert_eq ashes [queried 1 (Some burner1) 1000; queried 2 (Some burner2) 2000;
    queried 3 (Some burner3) 3000; queried 4 (Some burner4) 4000] ;;
  (* Test Query Desc *)
  ashes ← get_ashes deps (QueryMsg_AshesDesc None None);
  assert_eq ashes [queried 4 (Some burner4) 4000; queried 3 (Some burner3) 3000;
    queried 2 (Some burner2) 2000; queried 1 (Some burner1) 1000].

Definition burn_native_works : Test Storage unit :=
  let deps := mock_dependencies in
  let creator := addr_make "creator" in
  let burner1 := addr_make "burner-1" in
  let burner4 := addr_make "burner-4" in
  let joe := addr_make "joe" in
  let env := mock_env in
  unwrap (instantiate deps env (message_info creator []) Build_InstantiateMsg) ;;
  let msg := ExecuteMsg_BurnBalance in
  err ← unwrap_err (execute deps mock_env (message_info creator [coin 1000 "unois"]) msg);
  assert_eq err ContractError_NonPayableMessage ;;
  err ← unwrap_err (execute deps mock_env (message_info creator []) msg);
  assert_eq err ContractError_NoFundsToBurn ;;
  let contract := contract_address env in
  let deps := update_balance contract [{| denom := "unois"; amount := 100000000 |}] deps in
  response ← unwrap (execute deps mock_env (message_info burner1 []) msg);
  m ← index (messages response) 0;
  assert_eq (sub_msg m)
    (CosmosMsg_Bank (BankMsg_Burn [{| denom := "unois"; amount := 100000000 |}])) ;;
  (* Send 2 burn messages *)
  for_each (λ a,
    unwrap (execute deps mock_env (message_info joe [coin a "unois"]) ExecuteMsg_Burn) ;;
    mret tt) [1; 2] ;;
  let deps := update_balance contract [{| denom := "unois"; amount := 5000 |}] deps in
  unwrap (execute deps mock_env (message_info burner4 []) msg) ;;
  ashes ← get_ashes deps (QueryMsg_AshesAsc None None);
  assert_eq ashes [queried 1 None 100000000; queried 2 (Some joe) 1; queried 3 (Some joe) 2;
    queried 4 None 5000].

Definition query_works_for_more_than_10_elements : Test Storage unit :=
  let deps := mock_dependencies in
  let creator := addr_make "creator" in
  let joe := addr_make "joe" in
  let env := mock_env in
  unwrap (instantiate deps env (message_info creator []) Build_InstantiateMsg) ;;
  (* Send 12 burn messages *)
  for_each (λ a,
    unwrap (execute deps mock_env (message_info joe [coin a "unois"]) ExecuteMsg_Burn) ;;
    mret tt) [1; 2; 3; 4; 5; 6; 7; 8; 9; 10; 11; 12] ;;
  let by_joe := λ n, queried n (Some joe) n in
  (* asc, limit 3 *)
  ashes ← get_ashes deps (QueryMsg_AshesAsc None (Some 3));
  assert_eq ashes [by_joe 1; by_joe 2; by_joe 3] ;;
  (* asc, limit 3, start after 2 *)
  ashes ← get_ashes deps (QueryMsg_AshesAsc (Some 2) (Some 3));
  assert_eq ashes [by_joe 3; by_joe 4; by_joe 5] ;;
  (* asc, limit None *)
  ashes ← get_ashes deps (QueryMsg_AshesAsc None None);
  assert_eq ashes [by_joe 1; by_joe 2; by_joe 3; by_joe 4; by_joe 5; by_joe 6; by_joe 7;
    by_joe 8; by_joe 9; by_joe 10; by_joe 11; by_joe 12] ;;
  (* desc, limit 3, start after 6 *)
  ashes ← get_ashes deps (QueryMsg_AshesDesc (Some 6) (Some 3));
  assert_eq ashes [by_joe 5; by_joe 4; by_joe 3] ;;
  (* desc, limit 5, start after 3 *)
  ashes ← get_ashes deps (QueryMsg_AshesDesc (Some 3) (Some 5));
  assert_eq ashes [by_joe 2; by_joe 1].

Definition sink_tests : list (Test Storage unit) :=
  [burn_works; burn_native_works; query_works_for_more_than_10_elements].

Lemma sink_tests_pass : Forall (passes empty_storage) sink_tests.
Proof. run_tests. Qed.
