(* ===== verification/PaymentTests.v ===== *)
(** * The unit tests of nois-payment (contracts/nois-payment/src/contract.rs) *)
From stdpp Require Import prelude gmap strings list sorting pretty.
From Stdlib Require Import NArith Lia.
From S2P Require Import Prelude.
From S2P Require Import CosmWasm.
From S2P Require Import Fixtures.
From S2P Require Import Payment.
From S2P Require Import Testing.

#[global] Instance Config_eq_dec : EqDecision Config.
Proof. solve_decision. Defined.
#[global] Program Instance Config_countable : Countable Config :=
  inj_countable' (λ c, (sink c, gateway c)) (λ '(s, g), {| sink := s; gateway := g |}) _.
Next Obligation. by intros []. Qed.

(** The JSON object that has one field, an empty object. *)
Definition json_unit_variant (name : string) : Binary :=
  let quote := of_bytes [34] in "{" +:+ quote +:+ name +:+ quote +:+ ":{}}".

#[global] Instance sink_msg_json : Json NoisSinkExecuteMsg := {|
  to_json_binary _ := Ok (json_unit_variant "burn");
  from_json b :=
    if bool_decide (b = json_unit_variant "burn") then Ok NoisSinkExecuteMsg_Burn
    else Err (StdError_ParseErr "unknown variant");
|}.

Definition NOIS_SINK : string := "sink".
Definition NOIS_GATEWAY : string := "nois-gateway".
Definition empty_storage : Storage := {| contract_info := None; config := None |}.

Definition instantiate_works : Test Storage unit :=
  let deps := mock_dependencies in
  let gateway := addr_make NOIS_GATEWAY in
  let sink := addr_make NOIS_SINK in
  let msg := {| msg_sink := sink |} in
  res ← unwrap (instantiate deps mock_env (message_info gateway []) msg);
  assert_eq 0%nat (length (messages res)) ;;
  b ← unwrap (query deps mock_env QueryMsg_Config);
  config ← from_json_unwrap b;
  assert_eq config {| Payment.sink := sink; Payment.gateway := gateway |}.

Definition cannot_send_funds : Test Storage unit :=
  let deps := mock_dependencies in
  let sink := addr_make NOIS_SINK in
  let gateway := addr_make NOIS_GATEWAY in
  let relayer := addr_make "some-relayer" in
  unwrap (instantiate deps mock_env (message_info gateway []) {| msg_sink := sink |}) ;;
  let info := message_info gateway (coins 12345 "unoisx") in
  let msg := ExecuteMsg_Pay (coin 500000 "unois") (coin 450000 "unois")
    (relayer, coin 50000 "unois") in
  err ← unwrap_err (execute deps mock_env info msg);
  assert (matches! err with ContractError_DontSendFunds end).

Definition only_gateway_can_pay : Test Storage unit :=
  let deps := mock_dependencies in
  let sink := addr_make NOIS_SINK in
  let gateway := addr_make NOIS_GATEWAY in
  let malicious := addr_make "a-malicious-person" in
  unwrap (instantiate deps mock_env (message_info gateway []) {| msg_sink := sink |}) ;;
  let info := message_info malicious [] in
  let msg := ExecuteMsg_Pay (coin 500000 "unois") (coin 450000 "unois")
    ("some-relayer", coin 50000 "unois") in
  err ← unwrap_err (execute deps mock_env info msg);
  assert (matches! err with ContractError_Unauthorized end).

Definition pay_fund_send_works : Test Storage unit :=
  let deps := mock_dependencies in
  let sink := addr_make NOIS_SINK in
  let gateway := addr_make NOIS_GATEWAY in
  let relayer := addr_make "some-relayer" in
  unwrap (instantiate deps mock_env (message_info gateway []) {| msg_sink := sink |}) ;;
  let info := message_info gateway [] in
  let msg := ExecuteMsg_Pay (coin 500000 "unois") (coin 450000 "unois")
    (relayer, coin 50000 "unois") in
  response ← unwrap (execute deps mock_env info msg);
  assert_eq (length (messages response)) 3%nat ;;
  m ← index (messages response) 0;
  assert_eq (sub_msg m)
    (CosmosMsg_Wasm (WasmMsg_Execute sink (json_unit_variant "burn") [coin 500000 "unois"])) ;;
  m ← index (messages response) 1;
  assert_eq (sub_msg m) (CosmosMsg_Bank (BankMsg_Send relayer (coins 50000 "unois"))) ;;
  m ← index (messages response) 2;
  assert (matches! sub_msg m with CosmosMsg_Stargate _ _ end) ;;
  a ← unwrap_some (first_attr (attributes response) "burnt");
  assert_eq a "500000unois" ;;
  a ← unwrap_some (first_attr (attributes response) "relayer_reward");
  assert_eq a "50000unois" ;;
  a ← unwrap_some (first_attr (attributes response) "sent_to_community_pool");
  assert_eq a "450000unois" ;;
  (* Zero amount is supported *)
  let info := message_info gateway [] in
  let msg := ExecuteMsg_Pay (coin 0 "unois") (coin 0 "unois") (relayer, coin 0 "unois") in
  response ← unwrap (execute deps mock_env info msg);
  assert_eq (length (messages response)) 0%nat ;;
  a ← unwrap_some (first_attr (attributes response) "burnt");
  assert_eq a "0unois" ;;
  a ← unwrap_some (first_attr (attributes response) "relayer_reward");
  assert_eq a "0unois" ;;
  a ← unwrap_some (first_attr (attributes response) "sent_to_community_pool");
  assert_eq a "0unois".

(** The bytes are those of a transaction on a public chain. *)
Definition encode_msg_fund_community_pool_works : Test Storage unit :=
  let amount := coin 799999999999
    "ibc/0F181D9F5BB18A8496153C1666E934169515592C135E8E9FCCC355889858EAF9" in
  let depositor := "stars18xsp37zc65690hlq0zm3q5sxcu2rpm4mrtx6ec" in
  let encoded := encode_msg_fund_community_pool amount depositor in
  assert_eq encoded (hex "0a540a446962632f30463138314439463542423138413834393631353343313636364539333431363935313535393243313335453845394643434333353538383938353845414639120c373939393939393939393939122c7374617273313878737033377a633635363930686c71307a6d337135737863753272706d346d727478366563").

Definition payment_tests : list (Test Storage unit) :=
  [instantiate_works; cannot_send_funds; only_gateway_can_pay; pay_fund_send_works;
   encode_msg_fund_community_pool_works].

Lemma payment_tests_pass : Forall (passes empty_storage) payment_tests.
Proof. run_tests. Qed.
