(* ===== verification/IcecubeTests.v ===== *)
(** * The unit tests of nois-icecube (contracts/nois-icecube/src/contract.rs) *)
From stdpp Require Import prelude gmap strings list sorting pretty.
From Stdlib Require Import NArith Lia.
From S2P Require Import Prelude.
From S2P Require Import CosmWasm.
From S2P Require Import Fixtures.
From S2P Require Import Icecube.
From S2P Require Import Testing.

#[global] Instance Config_eq_dec : EqDecision Config.
Proof. solve_decision. Defined.
#[global] Program Instance Config_countable : Countable Config :=
  inj_countable' (λ c, (manager c, drand c)) (λ '(m, d), {| manager := m; drand := d |}) _.
Next Obligation. by intros []. Qed.

Definition CREATOR : string := "creator".
Definition MANAGER : string := "the_manager_addr".

Definition instantiate_works : Test Storage unit :=
  let deps := mock_dependencies in
  let creator := addr_make CREATOR in
  let manager := addr_make MANAGER in
  let msg := {| msg_manager := manager |} in
  res ← unwrap (instantiate deps mock_env (message_info creator []) msg);
  assert_eq 0%nat (length (messages res)) ;;
  b ← unwrap (query deps mock_env QueryMsg_Config);
  config ← from_json_unwrap b;
  assert_eq config {| Icecube.manager := manager; Icecube.drand := None |}.

Definition setup : Test Storage Deps :=
  let deps := mock_dependencies in
  let creator := addr_make CREATOR in
  let manager := addr_make MANAGER in
  let drand := addr_make "the-drand-address" in
  unwrap (instantiate deps mock_env (message_info creator []) {| msg_manager := manager |}) ;;
  let msg := ExecuteMsg_SetDrandAddr drand in
  unwrap (execute deps mock_env (message_info manager []) msg) ;;
  mret deps.

Definition anyone_can_claim_rewards : Test Storage unit :=
  deps ← setup;
  let random := addr_make "some_random_person" in
  let msg := ExecuteMsg_ClaimRewards "valoper123" in
  response ← unwrap (execute deps mock_env (message_info random []) msg);
  assert_eq (length (messages response)) 1%nat ;;
  m ← index (messages response) 0;
  assert (matches! sub_msg m with
    CosmosMsg_Distribution (DistributionMsg_WithdrawDelegatorReward _) end).

Definition anyone_can_send_to_drand : Test Storage unit :=
  deps ← setup;
  let random := addr_make "some_random_person" in
  let msg := ExecuteMsg_SendFundsToDrand (coin 123 "foocoin") in
  response ← unwrap (execute deps mock_env (message_info random []) msg);
  assert_eq (length (messages response)) 1%nat ;;
  m ← index (messages response) 0;
  assert (matches! sub_msg m with CosmosMsg_Bank (BankMsg_Send _ _) end).

Definition only_manager_can_delegate_undelegate_redelegate : Test Storage unit :=
  let deps := mock_dependencies in
  let creator := addr_make CREATOR in
  let manager := addr_make MANAGER in
  let not_manager := addr_make "not-manager" in
  unwrap (instantiate deps mock_env (message_info creator []) {| msg_manager := manager |}) ;;
  (* check manager operations work *)
  let info := message_info manager [] in
  let msg := ExecuteMsg_Delegate "validator" 1000 in
  response ← unwrap (execute deps mock_env info msg);
  m ← index (messages response) 0;
  assert_eq (sub_msg m)
    (CosmosMsg_Staking (StakingMsg_Delegate "validator" {| amount := 1000; denom := "unois" |})) ;;
  let msg := ExecuteMsg_Undelegate "validator" 1000 in
  response ← unwrap (execute deps mock_env info msg);
  m ← index (messages response) 0;
  assert_eq (sub_msg m)
    (CosmosMsg_Staking (StakingMsg_Undelegate "validator" {| amount := 1000; denom := "unois" |})) ;;
  let msg := ExecuteMsg_Redelegate "src_validator" "dest_validator" 1000 in
  response ← unwrap (execute deps mock_env info msg);
  m ← index (messages response) 0;
  assert_eq (sub_msg m)
    (CosmosMsg_Staking (StakingMsg_Redelegate "src_validator" "dest_validator"
      {| amount := 1000; denom := "unois" |})) ;;
  (* check non-manager operations are unauthorized *)
  let info := message_info not_manager [] in
  let msg := ExecuteMsg_Delegate "validator" 1000 in
  err ← unwrap_err (execute deps mock_env info msg);
  assert (matches! err with ContractError_Unauthorized end) ;;
  let msg := ExecuteMsg_Undelegate "validator" 1000 in
  err ← unwrap_err (execute deps mock_env info msg);
  assert (matches! err with ContractError_Unauthorized end) ;;
  let msg := ExecuteMsg_Redelegate "src_validator" "dest_validator" 1000 in
  err ← unwrap_err (execute deps mock_env info msg);
  assert (matches! err with ContractError_Unauthorized end).

Definition only_manager_can_set_manager : Test Storage unit :=
  let deps := mock_dependencies in
  let creator := addr_make CREATOR in
  let manager := addr_make MANAGER in
  let new_manager := addr_make "new manager" in
  let random := addr_make "some_random_person" in
  unwrap (instantiate deps mock_env (message_info creator []) {| msg_manager := manager |}) ;;
  (* A random addr cannot set a new manager *)
  let msg := ExecuteMsg_SetManagerAddr new_manager in
  err ← unwrap_err (execute deps mock_env (message_info random []) msg);
  assert (matches! err with ContractError_Unauthorized end) ;;
  (* Creator cannot set a new manager *)
  err ← unwrap_err (execute deps mock_env (message_info creator []) msg);
  assert (matches! err with ContractError_Unauthorized end) ;;
  (* Manager can set a new manager *)
  unwrap (execute deps mock_env (message_info manager []) msg) ;;
  b ← unwrap (query deps mock_env QueryMsg_Config);
  config ← from_json_unwrap b;
  assert_eq config {| Icecube.manager := new_manager; Icecube.drand := None |}.

Definition icecube_tests : list (Test Storage unit) :=
  [instantiate_works; anyone_can_claim_rewards; anyone_can_send_to_drand;
   only_manager_can_delegate_undelegate_redelegate; only_manager_can_set_manager].

Lemma icecube_tests_pass : Forall (passes empty_storage) icecube_tests.
Proof. run_tests. Qed.
