(* ===== verification/MonitoringTests.v ===== *)
(** * The unit tests of nois-monitoring (contracts/nois-monitoring/src/contract.rs) *)
From stdpp Require Import prelude gmap strings list sorting pretty.
From Stdlib Require Import NArith Lia.
From S2P Require Import Prelude.
From S2P Require Import CosmWasm.
From S2P Require Import Fixtures.
From S2P Require Import Nois.
From S2P Require Import Monitoring.
From S2P Require Import Testing.

Definition CREATOR : string := "creator".
Definition PROXY_ADDRESS : string := "the proxy of choice".

Definition proper_initialization : Test Storage unit :=
  let deps := mock_dependencies in
  let creator := addr_make CREATOR in
  let proxy := addr_make "address123" in
  let msg := {| msg_nois_proxy := proxy |} in
  res ← unwrap (instantiate deps mock_env (message_info creator (coins 1000 "earth")) msg);
  assert_eq 0%nat (length (messages res)).

Definition instantiate_proxy : Test Storage Deps :=
  let deps := mock_dependencies in
  let creator := addr_make CREATOR in
  let proxy := addr_make PROXY_ADDRESS in
  let msg := {| msg_nois_proxy := proxy |} in
  unwrap (instantiate deps mock_env (message_info creator []) msg) ;;
  mret deps.

(** The callback of the tests, with 32 times the same byte. *)
Definition receive (job_id : string) (randomness : string) : ExecuteMsg :=
  ExecuteMsg_NoisReceive {|
    callback_job_id := job_id; callback_published := from_seconds 1682086395;
    callback_randomness := hex randomness |}.
Definition all_a : string := "aaaaaaaaaaaaaaaaaaaaaaaaaaaaaaaaaaaaaaaaaaaaaaaaaaaaaaaaaaaaaaaa".
Definition all_f : string := "ffffffffffffffffffffffffffffffffffffffffffffffffffffffffffffffff".

Definition execute_roll_dice_works : Test Storage unit :=
  deps ← instantiate_proxy;
  let guest := addr_make "guest" in
  unwrap (execute deps mock_env (message_info guest []) (ExecuteMsg_RollDice "1")) ;;
  mret tt.

Definition job_id_too_long : Test Storage unit :=
  deps ← instantiate_proxy;
  let guest := addr_make "guest" in
  let msg := ExecuteMsg_RollDice
    "abcabcabcabcabca_asfsdfsdgsdgbcbcabcabcabc234t34t3t34gabcabcabc49" in
  err ← unwrap_err (execute deps mock_env (message_info guest []) msg);
  assert (matches! err with ContractError_JobIdTooLong end).

Definition proxy_cannot_bring_an_existing_job_id : Test Storage unit :=
  deps ← instantiate_proxy;
  let proxy := addr_make PROXY_ADDRESS in
  let guest := addr_make "guest" in
  unwrap (execute deps mock_env (message_info guest []) (ExecuteMsg_RollDice "round_1")) ;;
  unwrap (execute deps mock_env (message_info proxy []) (receive "round_1" all_a)) ;;
  err ← unwrap_err (execute deps mock_env (message_info proxy []) (receive "round_1" all_f));
  assert (matches! err with ContractError_JobIdAlreadyPresent end).

Definition execute_receive_fails_for_invalid_randomness : Test Storage unit :=
  deps ← instantiate_proxy;
  let proxy := addr_make PROXY_ADDRESS in
  err ← unwrap_err (execute deps mock_env (message_info proxy []) (receive "round_1" "ffffffff"));
  assert (matches! err with ContractError_InvalidRandomness end).

Definition players_cannot_request_an_existing_job_id : Test Storage unit :=
  deps ← instantiate_proxy;
  let proxy := addr_make PROXY_ADDRESS in
  let guest := addr_make "guest" in
  unwrap (execute deps mock_env (message_info guest []) (ExecuteMsg_RollDice "111")) ;;
  unwrap (execute deps mock_env (message_info proxy []) (receive "111" all_a)) ;;
  err ← unwrap_err (execute deps mock_env (message_info guest []) (ExecuteMsg_RollDice "111"));
  assert (matches! err with ContractError_JobIdAlreadyPresent end).

Definition execute_receive_fails_for_wrong_sender : Test Storage unit :=
  deps ← instantiate_proxy;
  let guest := addr_make "guest" in
  err ← unwrap_err (execute deps mock_env (message_info guest []) (receive "123" all_a));
  assert (matches! err with ContractError_UnauthorizedReceive end).

Definition execute_receive_works : Test Storage unit :=
  deps ← instantiate_proxy;
  let proxy := addr_make PROXY_ADDRESS in
  let guest := addr_make "guest" in
  unwrap (execute deps mock_env (message_info guest []) (ExecuteMsg_RollDice "123")) ;;
  unwrap (execute deps mock_env (message_info proxy []) (receive "123" all_a)) ;;
  mret tt.

Definition monitoring_tests : list (Test Storage unit) :=
  [proper_initialization; execute_roll_dice_works; job_id_too_long;
   proxy_cannot_bring_an_existing_job_id; execute_receive_fails_for_invalid_randomness;
   players_cannot_request_an_existing_job_id; execute_receive_fails_for_wrong_sender;
   execute_receive_works].

Lemma monitoring_tests_pass : Forall (passes empty_storage) monitoring_tests.
Proof. run_tests. Qed.
