(* ===== verification/DemoTests.v ===== *)
(** * The unit tests of nois-demo (contracts/nois-demo/src/contract.rs) *)
From stdpp Require Import prelude gmap strings list sorting pretty.
From Stdlib Require Import NArith Lia.
From S2P Require Import Prelude.
From S2P Require Import CosmWasm.
From S2P Require Import Fixtures.
From S2P Require Import Nois.
From S2P Require Import Demo.
From S2P Require Import Testing.

#[global] Instance ContractError_eq_dec : EqDecision ContractError.
Proof. solve_decision. Defined.

Definition CREATOR : string := "creator".
Definition PROXY_ADDRESS : string := "the proxy of choice".
Definition empty_storage : Storage := {| nois_proxy := None; results := ∅ |}.

Definition instantiate_works : Test Storage unit :=
  let deps := mock_dependencies in
  let creator := addr_make CREATOR in
  let msg := {| msg_nois_proxy := addr_make "address123" |} in
  res ← unwrap (instantiate deps mock_env (message_info creator []) msg);
  assert_eq 0%nat (length (messages res)).

Definition instantiate_fails_for_invalid_proxy_address : Test Storage unit :=
  let deps := mock_dependencies in
  let creator := addr_make CREATOR in
  let msg := {| msg_nois_proxy := "" |} in
  res ← unwrap_err (instantiate deps mock_env (message_info creator []) msg);
  assert_eq res ContractError_InvalidProxyAddress.

Definition instantiate_proxy : Test Storage Deps :=
  let deps := mock_dependencies in
  let creator := addr_make CREATOR in
  let msg := {| msg_nois_proxy := addr_make PROXY_ADDRESS |} in
  unwrap (instantiate deps mock_env (message_info creator []) msg) ;;
  mret deps.

Definition execute_estimate_pi_works : Test Storage unit :=
  deps ← instantiate_proxy;
  let guest := addr_make "guest" in
  unwrap (execute deps mock_env (message_info guest []) (ExecuteMsg_EstimatePi "123")) ;;
  mret tt.

Definition receive_msg : ExecuteMsg :=
  ExecuteMsg_NoisReceive {|
    callback_job_id := "123"; callback_published := from_seconds 1682086395;
    callback_randomness :=
      hex "aaaaaaaaaaaaaaaaaaaaaaaaaaaaaaaaaaaaaaaaaaaaaaaaaaaaaaaaaaaaaaaa" |}.

Definition execute_receive_works : Test Storage unit :=
  deps ← instantiate_proxy;
  let proxy := addr_make PROXY_ADDRESS in
  unwrap (execute deps mock_env (message_info proxy []) receive_msg) ;;
  mret tt.

Definition execute_receive_fails_for_wrong_sender : Test Storage unit :=
  deps ← instantiate_proxy;
  let guest := addr_make "guest" in
  err ← unwrap_err (execute deps mock_env (message_info guest []) receive_msg);
  assert (matches! err with ContractError_UnauthorizedReceive end).

Definition demo_tests : list (Test Storage unit) :=
  [instantiate_works; instantiate_fails_for_invalid_proxy_address; execute_estimate_pi_works;
   execute_receive_works; execute_receive_fails_for_wrong_sender].

Lemma demo_tests_pass : Forall (passes empty_storage) demo_tests.
Proof. run_tests. Qed.
