(* ===== verification/CommonTests.v ===== *)
(** * The unit tests of drand-common (packages/drand-common/src/rounds.rs) *)
From stdpp Require Import prelude gmap strings list sorting pretty.
From Stdlib Require Import NArith Lia.
From S2P Require Import Prelude.
From S2P Require Import CosmWasm.
From S2P Require Import Fixtures.
From S2P Require Import DrandCommon.
From S2P Require Import Testing.

Definition time_of_round_works : Test unit unit :=
  t ← eval (time_of_round 1); assert_eq t DRAND_GENESIS ;;
  t ← eval (time_of_round 2); e ← eval (plus_seconds DRAND_GENESIS 3); assert_eq t e ;;
  t ← eval (time_of_round 111765); assert_eq t (from_seconds 1678020492).

Definition time_of_round_panics_for_round_0 : Test unit unit :=
  should_panic (eval (time_of_round 0)).

Definition round_after_works : Test unit unit :=
  (* UNIX epoch *)
  round ← eval (round_after (from_seconds 0));
  assert_eq round 1 ;;
  (* Before Drand genesis *)
  t ← eval (minus_nanos (from_seconds 1677685200) 1);
  round ← eval (round_after t);
  assert_eq round 1 ;;
  (* At Drand genesis *)
  round ← eval (round_after (from_seconds 1677685200));
  assert_eq round 2 ;;
  (* After Drand genesis *)
  t ← eval (plus_nanos (from_seconds 1677685200) 1);
  round ← eval (round_after t);
  assert_eq round 2 ;;
  (* Drand genesis +2s/3s/4s *)
  t ← eval (plus_seconds (from_seconds 1677685200) 2);
  round ← eval (round_after t);
  assert_eq round 2 ;;
  t ← eval (plus_seconds (from_seconds 1677685200) 3);
  round ← eval (round_after t);
  assert_eq round 3 ;;
  t ← eval (plus_seconds (from_seconds 1677685200) 4);
  round ← eval (round_after t);
  assert_eq round 3.

Definition is_incentivised_works : Test unit unit :=
  assert (negb (is_incentivized 0)) ;; (* no 0 round exists in drand *)
  for_each (λ r, assert (negb (is_incentivized r))) (seqN 1 24) ;;
  assert (is_incentivized 25) ;;
  for_each (λ r, assert (negb (is_incentivized r))) (seqN 26 24) ;;
  assert (is_incentivized 50) ;;
  assert (negb (is_incentivized 51)).

Definition common_tests : list (Test unit unit) :=
  [time_of_round_works; time_of_round_panics_for_round_0; round_after_works;
   is_incentivised_works].

Lemma common_tests_pass : Forall (passes tt) common_tests.
Proof. run_tests. Qed.
