(* ===== verification/GatewayTests.v ===== *)
(** * The unit tests of nois-gateway

    The tests of contract.rs, job_id.rs, request_router.rs and
    state/drand_jobs.rs in contracts/nois-gateway/src. *)
From stdpp Require Import prelude gmap strings list sorting pretty.
From Stdlib Require Import NArith Lia.
From S2P Require Import Prelude.
From S2P Require Import CosmWasm.
From S2P Require Import Fixtures.
From S2P Require Import DrandCommon.
From S2P Require Import NoisProtocol.
From S2P Require Import Drand.
From S2P Require Import GatewayState.
From S2P Require Import RequestRouter.
From S2P Require Import Gateway.
From S2P Require Import Testing.

(** ** Comparing and serializing the answers *)

#[global] Instance Config_eq_dec : EqDecision GatewayState.Config.
Proof. solve_decision. Defined.
#[global] Program Instance Config_countable : Countable GatewayState.Config :=
  inj_countable'
    (λ c, (drand c, trusted_sources c, GatewayState.manager c, price c, payment_code_id c,
           payment_initial_funds c, sink c))
    (λ '(d, t, m, p, i, f, s), {| drand := d; trusted_sources := t; GatewayState.manager := m;
       price := p; payment_code_id := i; payment_initial_funds := f; sink := s |}) _.
Next Obligation. by intros []. Qed.

#[global] Instance Job_eq_dec : EqDecision Job.
Proof. solve_decision. Defined.
#[global] Program Instance Job_countable : Countable Job :=
  inj_countable' (λ j, (source_id j, channel j, origin j))
    (λ '(s, c, o), {| source_id := s; channel := c; origin := o |}) _.
Next Obligation. by intros []. Qed.
#[global] Instance JobsResponse_eq_dec : EqDecision JobsResponse.
Proof. solve_decision. Defined.
#[global] Program Instance JobsResponse_countable : Countable JobsResponse :=
  inj_countable' response_jobs Build_JobsResponse _.
Next Obligation. by intros []. Qed.

#[global] Instance RequestLogEntry_eq_dec : EqDecision RequestLogEntry.
Proof. solve_decision. Defined.
#[global] Program Instance RequestLogEntry_countable : Countable RequestLogEntry :=
  inj_countable' (λ e, (logged_origin e, logged_tx e, logged_source_id e, queued e))
    (λ '(o, t, s, q), {| logged_origin := o; logged_tx := t; logged_source_id := s; queued := q |}) _.
Next Obligation. by intros []. Qed.
#[global] Instance RequestsLogResponse_eq_dec : EqDecision RequestsLogResponse.
Proof. solve_decision. Defined.
#[global] Program Instance RequestsLogResponse_countable : Countable RequestsLogResponse :=
  inj_countable' response_requests Build_RequestsLogResponse _.
Next Obligation. by intros []. Qed.

#[global] Instance DrandJobStatsResponse_eq_dec : EqDecision DrandJobStatsResponse.
Proof. solve_decision. Defined.
#[global] Program Instance DrandJobStatsResponse_countable : Countable DrandJobStatsResponse :=
  inj_countable' (λ r, (stats_round r, stats_unprocessed r, stats_processed r))
    (λ '(r, u, p), {| stats_round := r; stats_unprocessed := u; stats_processed := p |}) _.
Next Obligation. by intros []. Qed.

#[global] Instance QueriedCustomer_eq_dec : EqDecision QueriedCustomer.
Proof. solve_decision. Defined.
#[global] Program Instance QueriedCustomer_countable : Countable QueriedCustomer :=
  inj_countable' (λ c, (queried_channel_id c, queried_payment c, queried_requested_beacons c))
    (λ '(c, p, r), {| queried_channel_id := c; queried_payment := p;
                      queried_requested_beacons := r |}) _.
Next Obligation. by intros []. Qed.
#[global] Instance CustomerResponse_eq_dec : EqDecision CustomerResponse.
Proof. solve_decision. Defined.
#[global] Program Instance CustomerResponse_countable : Countable CustomerResponse :=
  inj_countable' response_customer Build_CustomerResponse _.
Next Obligation. by intros []. Qed.
#[global] Instance CustomersResponse_eq_dec : EqDecision CustomersResponse.
Proof. solve_decision. Defined.
#[global] Program Instance CustomersResponse_countable : Countable CustomersResponse :=
  inj_countable' response_customers Build_CustomersResponse _.
Next Obligation. by intros []. Qed.

(** ** The queue of jobs (state/drand_jobs.rs) *)

Definition make_job (id : u32) : Job := {|
  channel := "chan-123"; source_id := "drannd:foo:bar"; origin := of_bytes (to_be_bytes 4 id) |}.

Definition enqueue (round : u64) (job : Job) : Test Storage unit :=
  unwrap (unprocessed_drand_jobs_enqueue (E:=StdError) round job).
Definition dequeue (round : u64) : Test Storage (option Job) :=
  unwrap (unprocessed_drand_jobs_dequeue (E:=StdError) round).

Definition unprocessed_drand_jobs_dequeue_works : Test Storage unit :=
  let round := 3 in
  job ← dequeue round; assert_eq job None ;;
  let job1 := make_job 1 in
  let job2 := make_job 2 in
  let job3 := make_job 3 in
  let job4 := make_job 4 in
  enqueue round job1 ;;
  enqueue round job2 ;;
  enqueue round job3 ;;
  enqueue round job4 ;;
  job ← dequeue round; assert_eq job (Some job1) ;;
  job ← dequeue round; assert_eq job (Some job2) ;;
  job ← dequeue round; assert_eq job (Some job3) ;;
  job ← dequeue round; assert_eq job (Some job4) ;;
  job ← dequeue round; assert_eq job None.

Definition unprocessed_drand_jobs_len_works : Test Storage unit :=
  let round := 3 in
  let assert_len := λ n,
    l ← unwrap (unprocessed_drand_jobs_len (E:=StdError) round); assert_eq l n in
  assert_len 0 ;;
  enqueue round (make_job 1) ;; assert_len 1 ;;
  enqueue round (make_job 2) ;; assert_len 2 ;;
  enqueue round (make_job 3) ;; assert_len 3 ;;
  enqueue round (make_job 4) ;; assert_len 4 ;;
  dequeue round ;; assert_len 3 ;;
  dequeue round ;; assert_len 2 ;;
  dequeue round ;; assert_len 1 ;;
  dequeue round ;; assert_len 0 ;;
  dequeue round ;; assert_len 0.

Definition all_unprocessed_drand_jobs_works : Test Storage unit :=
  let all := λ o offset limit,
    unwrap (all_unprocessed_drand_jobs (E:=StdError) o offset limit) in
  jobs ← all Order_Ascending 0 100; assert_eq jobs [] ;;
  let job1 := {| channel := "chan-123"; source_id := "drannd:foo:bar";
                 origin := of_bytes [1; 2; 1; 2] |} in
  enqueue 3 job1 ;;
  jobs ← all Order_Ascending 0 100; assert_eq jobs [job1] ;;
  let job2 := {| channel := "chan-123"; source_id := "drannd:foo:baz";
                 origin := of_bytes [17; 4] |} in
  enqueue 3 job2 ;;
  jobs ← all Order_Ascending 0 100; assert_eq jobs [job1; job2] ;;
  jobs ← all Order_Ascending 0 1; assert_eq jobs [job1] ;;
  jobs ← all Order_Ascending 1 100; assert_eq jobs [job2] ;;
  jobs ← all Order_Descending 0 100; assert_eq jobs [job2; job1] ;;
  jobs ← all Order_Descending 0 1; assert_eq jobs [job2] ;;
  jobs ← all Order_Descending 1 100; assert_eq jobs [job1] ;;
  dequeue 3 ;;
  jobs ← all Order_Ascending 0 100; assert_eq jobs [job2] ;;
  (* new job in higher round *)
  let job3 := {| channel := "chan-123"; source_id := "drannd:foo:test";
                 origin := of_bytes [42; 42] |} in
  enqueue 4 job3 ;;
  (* new job in lower round *)
  let job4 := {| channel := "chan-123"; source_id := "drannd:foo:test";
                 origin := of_bytes [12; 21] |} in
  enqueue 2 job4 ;;
  jobs ← all Order_Ascending 0 100; assert_eq jobs [job4; job2; job3].

(** ** Origins (job_id.rs) *)

(** The 64 characters that the long origins repeat. *)
Definition long_job_id : string :=
  "abcabcabcabcabca_asfsdfsdgsdgbcbcabcabcabc234t34t3t34gabcabcabc4".

Definition validate_origin_works : Test Storage unit :=
  (* We have no good reason to disallow empty *)
  unwrap (lift (validate_origin "")) ;;
  unwrap (lift (validate_origin "abc")) ;;
  unwrap (lift (validate_origin "abcabcabcabcabcaabc2bcabcabcabcabcabcabc")) ;;
  (* max *)
  let max := foldr String.append "" (replicate 8 long_job_id) in
  unwrap (lift (validate_origin max)) ;;
  err ← unwrap_err (lift (validate_origin (max +:+ "1")));
  assert (matches! err with ContractError_OriginTooLong end).

(** ** Rounds (request_router.rs) *)

Definition commit_to_drand_round_works : Test Storage unit :=
  let chain := "drand:dbd506d6ef76e5f386f41c651dcb808c5bcbd75471cc4eafa3f4df7ad4e4c493:" in
  (* UNIX epoch *)
  '(round, source) ← eval (commit_to_drand_round (from_seconds 0));
  assert_eq round 1 ;; assert_eq source (chain +:+ "1") ;;
  (* Before Drand genesis *)
  t ← eval (minus_nanos (from_seconds 1677685200) 1);
  '(round, source) ← eval (commit_to_drand_round t);
  assert_eq round 1 ;; assert_eq source (chain +:+ "1") ;;
  (* At Drand genesis *)
  '(round, source) ← eval (commit_to_drand_round (from_seconds 1677685200));
  assert_eq round 2 ;; assert_eq source (chain +:+ "2") ;;
  (* After Drand genesis *)
  t ← eval (plus_nanos (from_seconds 1677685200) 1);
  '(round, _) ← eval (commit_to_drand_round t);
  assert_eq round 2 ;;
  (* Drand genesis +26s/27s/28s *)
  t ← eval (plus_seconds (from_seconds 1677685200) 26);
  '(round, _) ← eval (commit_to_drand_round t);
  assert_eq round 10 ;;
  t ← eval (plus_seconds (from_seconds 1677685200) 27);
  '(round, _) ← eval (commit_to_drand_round t);
  assert_eq round 11 ;;
  t ← eval (plus_seconds (from_seconds 1677685200) 28);
  '(round, _) ← eval (commit_to_drand_round t);
  assert_eq round 11.

(** ** The contract (contract.rs) *)

Definition CREATOR : string := "creator".
Definition MANAGER : string := "boss".
Definition MANAGER2 : string := "boss2".
Definition PAYMENT : u64 := 33.
Definition PAYMENT2 : u64 := 37.
Definition SINK : string := "sink".

Definition AFTER1 : Timestamp := from_seconds (1677687627 - 1).
Definition AFTER2 : Timestamp := from_seconds (1677687657 - 1).
Definition AFTER3 : Timestamp := from_seconds (1677687687 - 1).
Definition AFTER4 : Timestamp := from_seconds (1677687717 - 1).
Definition ROUND1 : u64 := 810.
Definition ROUND2 : u64 := 820.
Definition ROUND3 : u64 := 830.
Definition ROUND4 : u64 := 840.

Definition payment_initial : option Coin := Some (coin 2000000 "unois").

(** Under [cfg(test)] the contract ignores the computed address and takes
    [Addr::unchecked] of this one instead of [addr_humanize]. *)
#[global] Instance mock_instantiate2 : Instantiate2 := λ _ _ _, Ok "some payment address".

(** The mock querier knows the codes [PAYMENT] and [PAYMENT2]. *)
Definition mock_dependencies : Deps := {|
  api := {|
    addr_validate_ := addr_validate_ MockApi;
    addr_canonicalize_ := addr_canonicalize_ MockApi;
    addr_humanize_ b := Ok b;
  |};
  querier := {|
    query_balance_ := query_balance_ MockQuerier;
    query_wasm_code_info_ code_id :=
      if code_id =? PAYMENT then
        Ok (hex "04b59c31429dcc5bdc58fb1ded3894797a0f0c324f5db40e1fa2c7812a300b83")
      else if code_id =? PAYMENT2 then
        Ok (hex "f9ed2a2e7c03937004a2079747e79e508288e721bfe63f441f3e1c397c55b88d")
      else query_wasm_code_info_ MockQuerier code_id;
    raw_query_code_info_ code_id :=
      if (code_id =? PAYMENT) || (code_id =? PAYMENT2) then None
      else Some (SystemError_NoSuchCode code_id);
  |};
|}.

(** The message that the tests instantiate the contract with. *)
Definition init_msg (code_id : u64) (initial : option Coin) : InstantiateMsg := {|
  msg_manager := addr_make MANAGER; msg_price := coin 1 "unois"; msg_payment_code_id := code_id;
  msg_payment_initial_funds := initial; msg_sink := addr_make SINK |}.

Definition setup : Test Storage Deps :=
  let deps := mock_dependencies in
  let creator := addr_make CREATOR in
  res ← unwrap (instantiate deps mock_env (message_info creator [])
    (init_msg PAYMENT payment_initial));
  assert_eq 0%nat (length (messages res)) ;;
  mret deps.

(** Randomness of drand rounds. *)
Definition testing_randomness : list (u64 * string) := [
  (9, "1b9acda1c43e333bcf02ddce634b18ff79803a904097a5896710c7ae798b47ab");
  (810, "192af38cb4e26fd9d15e8b4968fb3df137f3e6d9b4aeb04c7c5b6201091872cc");
  (820, "32f614c72e9a382540f6cdca5f4d58537ea11de9b692bcdef7b10e892690d233");
  (830, "9e8d112e4c9b66e17ca3cd78aca91e6c076a42917a03fe1fe837f7eaf2fa8b86");
  (840, "59b949f6455a6d7319232f8fe085cbba884727cccf79fa5239579078c0a19cd4");
  (72785, "650be14f6ffd7dcb67df9138c3b7d7d6bca455d0438fc81d3fbb24a4ee038f36");
  (72786, "0ed47e6ebc311192000df4469bb5a5a00445a9365e428d61c8c08d78dd1e51a8");
  (72787, "d4ea3e5e43bf510c1b086613a9e68257b317202dbe5aab1b9182b65f51f4b82c");
  (2183668, "3436462283a07e695c41854bb953e5964d8737e7e29745afe54a9f4897b6c319");
  (2183669, "408de94b8c7e1972b06a4ab7636eb1ba2a176022a30d018c3b55e89289d41149");
  (2183670, "e5f7ba655389eee248575dde70cb9f3293c9774c8538136a135601907158d957");
  (2183671, "324e2a196293b42806c12c7bbd1aeba8d5617942f152a16588223f905f60801a")].

Definition make_add_verified_round_msg (round : u64) (is_verifying_tx : bool) :
    Test Storage ExecuteMsg :=
  match List.find (λ e, e.1 =? round) testing_randomness with
  | Some (round, randomness) =>
      mret (ExecuteMsg_AddVerifiedRound round (hex randomness) is_verifying_tx)
  | None => panic
  end.

(** Creates a testing origin. *)
Definition origin (job : u32) : Binary := "job " +:+ pretty job.

Definition mock_env_addr : Env := {|
  block_height := block_height mock_env; block_time := block_time mock_env;
  transaction_index := transaction_index mock_env;
  contract_address := addr_make MOCK_CONTRACT_ADDR;
|}.

Definition connect (deps : Deps) (channel_id : string) : Test Storage unit :=
  let handshake_open := mock_ibc_channel_open_try channel_id APP_ORDER IBC_APP_VERSION in
  (* first we try to open with a valid handshake *)
  unwrap (ibc_channel_open deps mock_env handshake_open) ;;
  (* then we connect (with counter-party version set) *)
  let handshake_connect :=
    mock_ibc_channel_connect_confirm channel_id APP_ORDER IBC_APP_VERSION in
  res ← unwrap (ibc_channel_connect deps mock_env_addr handshake_connect);
  assert_eq (length (messages res)) 3%nat ;;
  m ← index (messages res) 0;
  assert (matches! sub_msg m with CosmosMsg_Wasm _ end) ;;
  m ← index (messages res) 1;
  assert (matches! sub_msg m with CosmosMsg_Ibc (IbcMsg_SendPacket _ _ _) end) ;;
  m ← index (messages res) 2;
  assert (matches! sub_msg m with CosmosMsg_Ibc (IbcMsg_SendPacket _ _ _) end) ;;
  assert_eq (length (events res)) 1%nat ;;
  e ← index (events res) 0;
  assert_eq e {| event_type := "ibc"; event_attributes := [attr "channel" "connect"] |}.

(** [from_json(query(deps, mock_env(), msg).unwrap()).unwrap()] *)
Definition query_as (A : Type) `{Json A} (deps : Deps) (msg : QueryMsg) : Test Storage A :=
  b ← unwrap (query deps mock_env msg); from_json_unwrap b.

(** Delivers a request to the gateway; the packet is answered in any case. *)
Definition receive_request (deps : Deps) (env : Env) (channel_id : string) (after : Timestamp)
    (job : u32) : Test Storage IbcReceiveResponse :=
  msg ← mock_ibc_packet_recv channel_id (InPacket_RequestBeacon after (origin job));
  unwrap (ibc_packet_receive deps env msg).

(** Reports a round and gives the response. *)
Definition add_round (deps : Deps) (who : Addr) (round : u64) (is_verifying_tx : bool) :
    Test Storage Response :=
  msg ← make_add_verified_round_msg round is_verifying_tx;
  unwrap (execute deps mock_env (message_info who []) msg).

(** *** Instantiate tests *)

Definition instantiate_works : Test Storage unit :=
  let deps := mock_dependencies in
  let creator := addr_make CREATOR in
  let manager := addr_make MANAGER in
  let sink := addr_make SINK in
  (* Without payment_initial_funds *)
  unwrap (instantiate deps mock_env (message_info creator []) (init_msg PAYMENT None)) ;;
  config ← query_as ConfigResponse deps QueryMsg_Config;
  assert_eq config {|
    drand := None; trusted_sources := None; GatewayState.manager := manager;
    price := coin 1 "unois"; payment_code_id := PAYMENT; payment_initial_funds := None;
    GatewayState.sink := sink |} ;;
  (* With payment_initial_funds *)
  unwrap (instantiate deps mock_env (message_info creator [])
    (init_msg PAYMENT payment_initial)) ;;
  config ← query_as ConfigResponse deps QueryMsg_Config;
  assert_eq config {|
    drand := None; trusted_sources := None; GatewayState.manager := manager;
    price := coin 1 "unois"; payment_code_id := PAYMENT; payment_initial_funds := payment_initial;
    GatewayState.sink := sink |}.

Definition instantiate_with_non_existing_code_id_fails : Test Storage unit :=
  let deps := mock_dependencies in
  let creator := addr_make CREATOR in
  err ← unwrap_err (instantiate deps mock_env (message_info creator [])
    (init_msg 654321 payment_initial));
  match err with
  | ContractError_CodeIdDoesNotExist code_id => assert_eq code_id 654321
  | _ => panic
  end.

(** *** Execute tests *)

Definition execute_set_config_works : Test Storage unit :=
  let deps := mock_dependencies in
  let creator := addr_make CREATOR in
  let manager := addr_make MANAGER in
  let manager2 := addr_make MANAGER2 in
  let sink := addr_make SINK in
  let somewhere := addr_make "somewhere" in
  unwrap (instantiate deps mock_env (message_info creator []) (init_msg PAYMENT None)) ;;
  let msg := ExecuteMsg_SetConfig (Some manager2) (Some (coin 123 "unois")) (Some somewhere)
    (Some (coin 500 "unois")) (Some [somewhere; manager2]) in
  (* Fails for incorrect manager *)
  err ← unwrap_err (execute deps mock_env (message_info manager2 []) msg);
  assert (matches! err with ContractError_Unauthorized end) ;;
  (* Works for correct manager *)
  unwrap (execute deps mock_env (message_info manager []) msg) ;;
  config ← query_as ConfigResponse deps QueryMsg_Config;
  assert_eq config {|
    GatewayState.manager := manager2; price := coin 123 "unois"; drand := Some somewhere;
    trusted_sources := Some [somewhere; manager2]; payment_code_id := PAYMENT;
    payment_initial_funds := Some (coin 500 "unois"); GatewayState.sink := sink |}.

(** Sets the drand address and the trusted sources. *)
Definition set_config (deps : Deps) (drand_addr : option string)
    (trusted : option (list string)) : Test Storage Response :=
  let manager := addr_make MANAGER in
  unwrap (execute deps mock_env (message_info manager [])
    (ExecuteMsg_SetConfig None None drand_addr None trusted)).

Definition add_round_verified_must_only_be_called_by_drand : Test Storage unit :=
  let deps := mock_dependencies in
  let creator := addr_make CREATOR in
  let manager2 := addr_make MANAGER2 in
  let anon := addr_make "anon" in
  let drand := addr_make "drand_verifier_7" in
  unwrap (instantiate deps mock_env (message_info creator [])
    (init_msg PAYMENT payment_initial)) ;;
  msg ← make_add_verified_round_msg 2183668 true;
  (* drand contract unset, i.e. noone can submit *)
  err ← unwrap_err (execute deps mock_env (message_info anon []) msg);
  assert (matches! err with ContractError_UnauthorizedAddVerifiedRound end) ;;
  err ← unwrap_err (execute deps mock_env (message_info drand []) msg);
  assert (matches! err with ContractError_UnauthorizedAddVerifiedRound end) ;;
  (* Set drand contract *)
  set_config deps (Some drand) None ;;
  (* drand cannot add *)
  err ← unwrap_err (execute deps mock_env (message_info drand []) msg);
  assert (matches! err with ContractError_UnauthorizedAddVerifiedRound end) ;;
  (* Set trusted sources *)
  set_config deps None (Some [drand; manager2]) ;;
  (* Anon still cannot add round *)
  err ← unwrap_err (execute deps mock_env (message_info anon []) msg);
  assert (matches! err with ContractError_UnauthorizedAddVerifiedRound end) ;;
  (* But drand and manager2 can *)
  unwrap (execute deps mock_env (message_info drand []) msg) ;;
  unwrap (execute deps mock_env (message_info manager2 []) msg) ;;
  mret tt.

(** The response delivers [n] beacons and says so. *)
Definition assert_processed (res : Response) (n : nat) : Test Storage unit :=
  assert_eq (length (messages res)) n ;;
  jobs_processed ← unwrap_some (first_attr (attributes res) "jobs_processed");
  assert_eq jobs_processed (pretty n).

(** The first message is a packet without a gas limit. *)
Definition assert_sends_packet (res : Response) : Test Storage unit :=
  m ← index (messages res) 0;
  assert_eq (sub_gas_limit m) None ;;
  assert (matches! sub_msg m with CosmosMsg_Ibc (IbcMsg_SendPacket _ _ _) end).

Definition add_round_verified_processes_jobs : Test Storage unit :=
  let deps := mock_dependencies in
  let creator := addr_make CREATOR in
  let drand := addr_make "drand_verifier_7" in
  unwrap (instantiate deps mock_env (message_info creator [])
    (init_msg PAYMENT payment_initial)) ;;
  (* Set drand contract *)
  set_config deps (Some drand) (Some [drand]) ;;
  (* Create one job *)
  receive_request deps mock_env "foo" AFTER2 1 ;;
  (* Previous round processes no job *)
  res ← add_round deps drand ROUND1 true;
  assert_processed res 0 ;;
  (* Process one job *)
  res ← add_round deps drand ROUND2 true;
  assert_processed res 1 ;;
  assert_sends_packet res ;;
  (* Create 2 job *)
  for_each (λ i, receive_request deps mock_env "foo" AFTER3 i ;; mret tt) (seqN 0 2) ;;
  (* Process first jobs *)
  res ← add_round deps drand ROUND3 true;
  assert_processed res 1 ;;
  assert_sends_packet res ;;
  (* Process second job *)
  res ← add_round deps drand ROUND3 true;
  assert_processed res 1 ;;
  assert_sends_packet res ;;
  (* Create 21 job *)
  for_each (λ i, receive_request deps mock_env "foo" AFTER4 i ;; mret tt) (seqN 0 21) ;;
  (* Process first job *)
  res ← add_round deps drand ROUND4 true;
  assert_processed res 1 ;;
  (* Process next job *)
  res ← add_round deps drand ROUND4 true;
  assert_processed res 1 ;;
  (* Process next job *)
  res ← add_round deps drand ROUND4 true;
  assert_processed res 1 ;;
  (* Process next 10 jobs *)
  res ← add_round deps drand ROUND4 false;
  assert_processed res 10 ;;
  (* Process remaining jobs *)
  res ← add_round deps drand ROUND4 false;
  assert_processed res 8 ;;
  (* No jobs left for later submissions *)
  res ← add_round deps drand ROUND4 true;
  assert_processed res 0.

(** *** Query tests *)

Definition query_job_stats_works : Test Storage unit :=
  let deps := mock_dependencies in
  let creator := addr_make CREATOR in
  let drand := addr_make "drand_verifier_7" in
  unwrap (instantiate deps mock_env (message_info creator [])
    (init_msg PAYMENT payment_initial)) ;;
  (* Set drand contract *)
  set_config deps (Some drand) (Some [drand]) ;;
  let job_stats := λ round,
    query_as DrandJobStatsResponse deps (QueryMsg_DrandJobStats round) in
  let stats := λ round processed unprocessed,
    {| stats_round := round; stats_processed := processed; stats_unprocessed := unprocessed |} in
  (* No jobs by default *)
  r ← job_stats ROUND1; assert_eq r (stats ROUND1 0 0) ;;
  (* Create one job *)
  receive_request deps mock_env "foo" AFTER1 1 ;;
  (* One unprocessed job *)
  r ← job_stats ROUND1; assert_eq r (stats ROUND1 0 1) ;;
  add_round deps drand ROUND1 true ;;
  (* 1 processed job, no unprocessed jobs *)
  r ← job_stats ROUND1; assert_eq r (stats ROUND1 1 0) ;;
  (* New job for existing round gets processed immediately *)
  receive_request deps mock_env "foo" AFTER1 2 ;;
  (* 2 processed job, no unprocessed jobs *)
  r ← job_stats ROUND1; assert_eq r (stats ROUND1 2 0) ;;
  (* Create 20 jobs *)
  for_each (λ i, receive_request deps mock_env "foo" AFTER2 i ;; mret tt) (seqN 0 20) ;;
  (* 20 unprocessed *)
  r ← job_stats ROUND2; assert_eq r (stats ROUND2 0 20) ;;
  (* process some *)
  add_round deps drand ROUND2 true ;;
  (* Some processed, rest unprocessed *)
  r ← job_stats ROUND2; assert_eq r (stats ROUND2 1 19).

Definition query_requests_works : Test Storage unit :=
  let deps := mock_dependencies in
  let creator := addr_make CREATOR in
  let drand := addr_make "drand_verifier_7" in
  let CHANNEL := "channel-321" in
  unwrap (instantiate deps mock_env (message_info creator [])
    (init_msg PAYMENT payment_initial)) ;;
  (* Set drand contract *)
  set_config deps (Some drand) (Some [drand]) ;;
  let requests_asc :=
    query_as RequestsLogResponse deps (QueryMsg_RequestsLogAsc CHANNEL None None) in
  let requests_desc :=
    query_as RequestsLogResponse deps (QueryMsg_RequestsLogDesc CHANNEL None None) in
  (* No requests by default *)
  r ← requests_asc; assert_eq r {| response_requests := [] |} ;;
  r ← requests_desc; assert_eq r {| response_requests := [] |} ;;
  (* Create one job *)
  let receive_env := mock_env in
  receive_request deps receive_env CHANNEL AFTER1 1 ;;
  (* One unprocessed job *)
  let entry1 := {|
    logged_origin := origin 1; queued := true;
    logged_source_id :=
      "drand:dbd506d6ef76e5f386f41c651dcb808c5bcbd75471cc4eafa3f4df7ad4e4c493:810";
    logged_tx := (block_height receive_env, transaction_index receive_env) |} in
  r ← requests_asc; assert_eq r {| response_requests := [entry1] |} ;;
  r ← requests_desc; assert_eq r {| response_requests := [entry1] |} ;;
  (* Create second job *)
  let receive_env := at_height (block_height mock_env + 1) mock_env in
  receive_request deps receive_env CHANNEL AFTER2 2 ;;
  (* two results now *)
  let entry2 := {|
    logged_origin := origin 2; queued := true;
    logged_source_id :=
      "drand:dbd506d6ef76e5f386f41c651dcb808c5bcbd75471cc4eafa3f4df7ad4e4c493:820";
    logged_tx := (block_height receive_env, transaction_index receive_env) |} in
  r ← requests_asc; assert_eq r {| response_requests := [entry1; entry2] |} ;;
  r ← requests_desc; assert_eq r {| response_requests := [entry2; entry1] |}.

(** *** IBC tests *)

Definition ibc_channel_open_checks_version_and_order : Test Storage unit :=
  deps ← setup;
  (* All good *)
  let valid_handshake := mock_ibc_channel_open_try "channel-12" APP_ORDER IBC_APP_VERSION in
  unwrap (ibc_channel_open deps mock_env valid_handshake) ;;
  (* Wrong order *)
  let wrong_order := mock_ibc_channel_open_try "channel-12" BAD_APP_ORDER IBC_APP_VERSION in
  res ← unwrap_err (ibc_channel_open deps mock_env wrong_order);
  assert (matches! res with ContractError_ChannelError _ end) ;;
  (* Wrong version *)
  let wrong_version := mock_ibc_channel_open_try "channel-12" APP_ORDER "another version" in
  res ← unwrap_err (ibc_channel_open deps mock_env wrong_version);
  assert (matches! res with ContractError_ChannelError _ end).

Definition proper_handshake_flow : Test Storage unit :=
  deps ← setup;
  let channel_id := "channel-1234" in
  (* first we try to open with a valid handshake *)
  let handshake_open := mock_ibc_channel_open_try channel_id APP_ORDER IBC_APP_VERSION in
  unwrap (ibc_channel_open deps mock_env handshake_open) ;;
  (* then we connect (with counter-party version set) *)
  let handshake_connect :=
    mock_ibc_channel_connect_confirm channel_id APP_ORDER IBC_APP_VERSION in
  unwrap (ibc_channel_connect deps mock_env_addr handshake_connect) ;;
  mret tt.

Definition check_close_channel : Test Storage unit :=
  deps ← setup;
  let channel_id := "channel-123" in
  let account := "acct-123" in
  (* register the channel *)
  connect deps channel_id ;;
  (* assign it some funds *)
  let funds := [coin 123456 "uatom"; coin 7654321 "tgrd"] in
  let deps := update_balance account funds deps in
  (* close the channel *)
  let channel := mock_ibc_channel_close_init channel_id APP_ORDER IBC_APP_VERSION in
  unwrap (ibc_channel_close deps mock_env channel) ;;
  mret tt.

Definition ibc_packet_ack_works : Test Storage unit :=
  deps ← setup;
  (* Success ack (delivered) *)
  ack ← success_ack OutPacketAck_DeliverBeacon;
  msg ← mock_ibc_packet_ack ack;
  res ← unwrap (ibc_packet_ack deps mock_env msg);
  a ← unwrap_some (first_attr (attributes res) "action"); assert_eq a "ack" ;;
  a ← unwrap_some (first_attr (attributes res) "is_error"); assert_eq a "false" ;;
  assert_eq (first_attr (attributes res) "error") None ;;
  (* Error ack *)
  msg ← mock_ibc_packet_ack (StdAck_Error "kaputt");
  res ← unwrap (ibc_packet_ack deps mock_env msg);
  a ← unwrap_some (first_attr (attributes res) "action"); assert_eq a "ack" ;;
  a ← unwrap_some (first_attr (attributes res) "is_error"); assert_eq a "true" ;;
  a ← unwrap_some (first_attr (attributes res) "error"); assert_eq a "kaputt".

Definition query_customer_works : Test Storage unit :=
  deps ← setup;
  let channel_id := "channel-123" in
  (* register the channel *)
  connect deps channel_id ;;
  (* Existing channel *)
  r ← query_as CustomerResponse deps (QueryMsg_Customer channel_id);
  assert_eq (response_customer r) (Some {|
    queried_channel_id := channel_id; queried_payment := "some payment address";
    queried_requested_beacons := 0 |}) ;;
  (* Non-Existing channel *)
  r ← query_as CustomerResponse deps (QueryMsg_Customer "channel-does-not-exist");
  assert_eq (response_customer r) None.

Definition query_customer_requested_beacons_works : Test Storage unit :=
  deps ← setup;
  let drand := addr_make "drand_verifier_7" in
  let CHANNEL_ID := "the-channel" in
  (* register the channel *)
  connect deps CHANNEL_ID ;;
  (* Set drand contract *)
  set_config deps (Some drand) (Some [drand]) ;;
  let customer_beacons :=
    res ← query_as CustomerResponse deps (QueryMsg_Customer CHANNEL_ID);
    c ← unwrap_some (response_customer res);
    mret (queried_requested_beacons c) in
  (* No jobs by default *)
  n ← customer_beacons; assert_eq n 0 ;;
  (* Create one job *)
  receive_request deps mock_env CHANNEL_ID AFTER1 1 ;;
  (* One requested beacon *)
  n ← customer_beacons; assert_eq n 1 ;;
  add_round deps drand ROUND1 true ;;
  (* New job for existing round gets processed immediately *)
  receive_request deps mock_env CHANNEL_ID AFTER1 2 ;;
  (* 2 requested beacons *)
  n ← customer_beacons; assert_eq n 2 ;;
  (* Create more 20 jobs *)
  for_each (λ i, receive_request deps mock_env CHANNEL_ID AFTER2 i ;; mret tt) (seqN 0 20) ;;
  n ← customer_beacons; assert_eq n 22.

Definition query_customers_works : Test Storage unit :=
  deps ← setup;
  let channel_id := "channel-123" in
  r ← query_as CustomersResponse deps (QueryMsg_Customers None None);
  assert_eq (response_customers r) [] ;;
  (* register the channel *)
  connect deps channel_id ;;
  r ← query_as CustomersResponse deps (QueryMsg_Customers None None);
  assert_eq (response_customers r) [{|
    queried_channel_id := channel_id; queried_payment := "some payment address";
    queried_requested_beacons := 0 |}] ;;
  r ← query_as CustomersResponse deps (QueryMsg_Customers (Some channel_id) None);
  assert_eq (response_customers r) [].

Definition gateway_tests : list (Test Storage unit) :=
  [unprocessed_drand_jobs_dequeue_works; unprocessed_drand_jobs_len_works;
   all_unprocessed_drand_jobs_works; validate_origin_works; commit_to_drand_round_works;
   instantiate_works; instantiate_with_non_existing_code_id_fails; execute_set_config_works;
   add_round_verified_must_only_be_called_by_drand; add_round_verified_processes_jobs;
   query_job_stats_works; query_requests_works; ibc_channel_open_checks_version_and_order;
   proper_handshake_flow; check_close_channel; ibc_packet_ack_works; query_customer_works;
   query_customer_requested_beacons_works; query_customers_works].

Lemma gateway_tests_pass : Forall (passes empty_storage) gateway_tests.
Proof. run_tests. Qed.
