(* ===== verification/ProxyTests.v ===== *)
(** * The unit tests of nois-proxy

    The tests of contract.rs, jobs.rs and publish_time.rs in
    contracts/nois-proxy/src. *)
From stdpp Require Import prelude gmap strings list sorting pretty.
From Stdlib Require Import NArith Lia.
From S2P Require Import Prelude.
From S2P Require Import CosmWasm.
From S2P Require Import Fixtures.
From S2P Require Import NoisProtocol.
From S2P Require Import Nois.
From S2P Require Import Proxy.
From S2P Require Import Testing.

(** ** Comparing and serializing the answers *)

#[global] Instance IbcDenom_eq_dec : EqDecision IbcDenom.
Proof. solve_decision. Defined.
#[global] Program Instance IbcDenom_countable : Countable IbcDenom :=
  inj_countable' (λ d, (ics20_channel d, ibc_denom d))
    (λ '(c, d), {| ics20_channel := c; ibc_denom := d |}) _.
Next Obligation. by intros []. Qed.
#[global] Instance OperationalMode_eq_dec : EqDecision OperationalMode.
Proof. solve_decision. Defined.
#[global] Program Instance OperationalMode_countable : Countable OperationalMode :=
  inj_countable'
    (λ m, match m with OperationalMode_Funded => None | OperationalMode_IbcPay d => Some d end)
    (λ x, match x with None => OperationalMode_Funded | Some d => OperationalMode_IbcPay d end) _.
Next Obligation. by intros []. Qed.
#[global] Instance Config_eq_dec : EqDecision Config.
Proof. solve_decision. Defined.
#[global] Program Instance Config_countable : Countable Config :=
  inj_countable'
    (λ c, ((prices c, manager c, test_mode c, callback_gas_limit c, payment c),
           (nois_beacon_price c, nois_beacon_price_updated c, mode c, allowlist_enabled c),
           (min_after c, max_after c)))
    (λ '((p, m, t, g, y), (b, u, o, a), (l, h)), {|
       prices := p; manager := m; test_mode := t; callback_gas_limit := g; payment := y;
       nois_beacon_price := b; nois_beacon_price_updated := u; mode := o;
       allowlist_enabled := a; min_after := l; max_after := h |}) _.
Next Obligation. by intros []. Qed.
#[global] Instance ConfigResponse_eq_dec : EqDecision ConfigResponse.
Proof. solve_decision. Defined.
#[global] Program Instance ConfigResponse_countable : Countable ConfigResponse :=
  inj_countable' response_config Build_ConfigResponse _.
Next Obligation. by intros []. Qed.
#[global] Instance PricesResponse_eq_dec : EqDecision PricesResponse.
Proof. solve_decision. Defined.
#[global] Program Instance PricesResponse_countable : Countable PricesResponse :=
  inj_countable' response_prices Build_PricesResponse _.
Next Obligation. by intros []. Qed.
#[global] Instance PriceResponse_eq_dec : EqDecision PriceResponse.
Proof. solve_decision. Defined.
#[global] Program Instance PriceResponse_countable : Countable PriceResponse :=
  inj_countable' response_price Build_PriceResponse _.
Next Obligation. by intros []. Qed.
#[global] Instance GatewayChannelResponse_eq_dec : EqDecision GatewayChannelResponse.
Proof. solve_decision. Defined.
#[global] Program Instance GatewayChannelResponse_countable : Countable GatewayChannelResponse :=
  inj_countable' response_channel Build_GatewayChannelResponse _.
Next Obligation. by intros []. Qed.
#[global] Instance AllowlistResponse_eq_dec : EqDecision AllowlistResponse.
Proof. solve_decision. Defined.
#[global] Program Instance AllowlistResponse_countable : Countable AllowlistResponse :=
  inj_countable' allowed Build_AllowlistResponse _.
Next Obligation. by intros []. Qed.
#[global] Instance IsAllowlistedResponse_eq_dec : EqDecision IsAllowlistedResponse.
Proof. solve_decision. Defined.
#[global] Program Instance IsAllowlistedResponse_countable : Countable IsAllowlistedResponse :=
  inj_countable' listed Build_IsAllowlistedResponse _.
Next Obligation. by intros []. Qed.

(** ** Checks of a request (jobs.rs) *)

Definition validate_job_id_works : Test Storage unit :=
  (* We have no good reason to disallow empty *)
  unwrap (lift (validate_job_id "")) ;;
  unwrap (lift (validate_job_id "abc")) ;;
  unwrap (lift (validate_job_id "abcabcabcabcabcaabc2bcabcabcabcabcabcabc")) ;;
  (* a sha256 hash *)
  unwrap (lift (validate_job_id
    "cb480eb3697f39db828d9efa021abe681bfcd72e23894019b8ddb1ab94039081")) ;;
  err ← unwrap_err (lift (validate_job_id
    "abcabcabcabcabca_asfsdfsdgsdgbcbcabcabcabc234t34t3t34gabcabcabc41"));
  assert (matches! err with ContractError_JobIdTooLong end).

Definition assert_pays (prices funds : list Coin) : Test Storage unit :=
  unwrap (lift (validate_payment prices funds)).
Definition assert_no_option (prices funds : list Coin) : Test Storage unit :=
  err ← unwrap_err (lift (validate_payment prices funds));
  assert (matches! err with ContractError_NoPaymentOption end).
Definition assert_insufficient (prices funds : list Coin) : Test Storage unit :=
  err ← unwrap_err (lift (validate_payment prices funds));
  assert (matches! err with ContractError_InsufficientPayment end).

Definition validate_payment_works : Test Storage unit :=
  (* No payment option *)
  assert_no_option [] [coin 100 "bucks"] ;;
  assert_no_option [] [] ;;
  (* Single payment option *)
  let prices := coins 100 "bucks" in
  assert_pays prices [coin 100 "bucks"] ;;
  assert_pays prices [coin 150 "bucks"] ;;
  assert_pays prices [coin 100 "bucks"; coin 20 "ujunox"] ;;
  assert_pays prices [coin 20 "ujunox"; coin 100 "bucks"] ;;
  assert_pays prices [coin 20 "ujunox"; coin 100 "bucks"; coin 55 "uluna"] ;;
  assert_insufficient prices [coin 99 "bucks"] ;;
  assert_insufficient prices [coin 99 "bucks"; coin 17 "bucks"] ;;
  assert_insufficient prices [] ;;
  assert_insufficient prices [coin 99 "bucks"; coin 200 "gold"] ;;
  (* Multi payment option *)
  let prices := [coin 100 "bucks"; coin 20 "sand"] in
  assert_pays prices [coin 100 "bucks"] ;;
  assert_pays prices [coin 20 "sand"] ;;
  assert_pays prices [coin 150 "bucks"] ;;
  assert_pays prices [coin 50 "sand"] ;;
  assert_pays prices [coin 100 "bucks"; coin 20 "ujunox"] ;;
  assert_pays prices [coin 20 "ujunox"; coin 100 "bucks"] ;;
  assert_pays prices [coin 20 "ujunox"; coin 100 "bucks"; coin 55 "uluna"] ;;
  assert_insufficient prices [coin 99 "bucks"] ;;
  assert_insufficient prices [coin 99 "bucks"; coin 17 "bucks"] ;;
  assert_insufficient prices [coin 99 "bucks"; coin 17 "sand"] ;;
  assert_insufficient prices [] ;;
  assert_insufficient prices [coin 99 "bucks"; coin 200 "gold"].

(** ** The time of a request (publish_time.rs) *)

Definition safety_margin_is_correct : Test Storage unit :=
  let actual := from_nanos SAFETY_MARGIN in
  expected ← eval (plus_seconds (from_nanos 0) 5);
  assert_eq actual expected.

Definition calculated (mode : AfterMode) : Test Storage Timestamp :=
  unwrap (calculate_after (E:=StdError) mode).

Definition calculate_after_works_for_block_time : Test Storage unit :=
  after ← calculated (AfterMode_BlockTime (from_nanos 0));
  assert_eq after (from_nanos SAFETY_MARGIN) ;;
  after ← calculated (AfterMode_BlockTime (from_nanos 4984338431241435));
  assert_eq after (from_nanos (4984338431241435 + SAFETY_MARGIN)) ;;
  after ← calculated (AfterMode_BlockTime (from_nanos 42));
  assert_eq after (from_nanos (42 + SAFETY_MARGIN)).

(** [let mut deps = mock_dependencies()] again: a new storage. *)
Definition new_storage : Test Storage unit := modify (λ _, empty_storage).

Definition calculate_after_works_for_test_mode : Test Storage unit :=
  let TEST_VAL1 := from_nanos 1677687596999999999 in
  let TEST_VAL2 := from_nanos 1677687626999999999 in
  let TEST_VAL3 := from_nanos 1677687656999999999 in
  after ← calculated AfterMode_Test; assert_eq after TEST_VAL1 ;;
  after ← calculated AfterMode_Test; assert_eq after TEST_VAL2 ;;
  after ← calculated AfterMode_Test; assert_eq after TEST_VAL3 ;;
  (* Resets for new storage *)
  new_storage ;;
  after ← calculated AfterMode_Test; assert_eq after TEST_VAL1 ;;
  after ← calculated AfterMode_Test; assert_eq after TEST_VAL2 ;;
  after ← calculated AfterMode_Test; assert_eq after TEST_VAL3 ;;
  (* Can be mixed with block height mode for no reason *)
  new_storage ;;
  after ← calculated (AfterMode_BlockTime (from_nanos 0));
  assert_eq after (from_nanos SAFETY_MARGIN) ;;
  after ← calculated AfterMode_Test; assert_eq after TEST_VAL1 ;;
  after ← calculated (AfterMode_BlockTime (from_nanos 7));
  assert_eq after (from_nanos (7 + SAFETY_MARGIN)) ;;
  after ← calculated AfterMode_Test; assert_eq after TEST_VAL2 ;;
  after ← calculated (AfterMode_BlockTime (from_nanos 4984338431241435));
  assert_eq after (from_nanos (4984338431241435 + SAFETY_MARGIN)) ;;
  after ← calculated AfterMode_Test; assert_eq after TEST_VAL3.

(** ** The contract (contract.rs) *)

Definition CREATOR : string := "creator".
(** A secondary manager address used when creator is not manager anymore. *)
Definition MANAGER_ADDRESS : string := "some-manager".
Definition DAPP_ADDRESS : string := "dapp1".

Definition init_msg (manager : option string) (test_mode enabled : option bool)
    (allowlist : option (list string)) : InstantiateMsg := {|
  msg_manager := manager; msg_prices := [coin 1000000 "unoisx"]; msg_test_mode := test_mode;
  msg_callback_gas_limit := 500000; msg_mode := OperationalMode_Funded;
  msg_allowlist_enabled := enabled; msg_allowlist := allowlist |}.

Definition setup (instantiate_msg : option InstantiateMsg) : Test Storage Deps :=
  let initial_funds := [coin 22334455 "unoisx";
    coin 123321 "ibc/CB480EB3697F39DB828D9EFA021ABE681BFCD72E23894019B8DDB1AB94039081"] in
  let deps := update_balance MOCK_CONTRACT_ADDR initial_funds mock_dependencies in
  let creator := addr_make CREATOR in
  let msg := unwrap_or (init_msg (Some creator) (Some true) None None) instantiate_msg in
  res ← unwrap (instantiate deps mock_env (message_info creator []) msg);
  assert_eq 0%nat (length (messages res)) ;;
  mret deps.

Definition setup_channel (deps : Deps) : Test Storage unit :=
  let init := mock_ibc_channel_open_init "channel-12" APP_ORDER IBC_APP_VERSION in
  unwrap (ibc_channel_open deps mock_env init) ;;
  let ack := mock_ibc_channel_connect_ack "channel-12" APP_ORDER IBC_APP_VERSION in
  unwrap (ibc_channel_connect deps mock_env ack) ;;
  mret tt.

(** [from_json(query(deps, mock_env(), msg).unwrap()).unwrap()] *)
Definition query_as (A : Type) `{Json A} (deps : Deps) (msg : QueryMsg) : Test Storage A :=
  b ← unwrap (query deps mock_env msg); from_json_unwrap b.

Definition instantiate_works : Test Storage unit :=
  let deps := mock_dependencies in
  let manager := addr_make CREATOR in
  res ← unwrap (instantiate deps mock_env (message_info manager [])
    (init_msg (Some manager) None None None));
  assert_eq 0%nat (length (messages res)).

(** *** Execute tests *)

(** The response sends one packet, without gas limit and reply. *)
Definition assert_one_packet (res : Response) : Test Storage unit :=
  assert_eq (length (messages res)) 1%nat ;;
  out_msg ← index (messages res) 0;
  assert_eq (sub_gas_limit out_msg) None ;;
  assert_eq (sub_reply_on out_msg) ReplyOn_Never ;;
  assert (matches! sub_msg out_msg with CosmosMsg_Ibc (IbcMsg_SendPacket _ _ _) end).

Definition get_next_randomness_works : Test Storage unit :=
  deps ← setup None;
  (* Requires a channel to forward requests to *)
  setup_channel deps ;;
  let dapp := addr_make DAPP_ADDRESS in
  res ← unwrap (execute deps mock_env (message_info dapp (coins 22334455 "unoisx"))
    (ExecuteMsg_GetNextRandomness "foo"));
  assert_one_packet res.

Definition get_next_randomness_for_invalid_inputs : Test Storage unit :=
  deps ← setup None;
  setup_channel deps ;;
  let dapp := addr_make DAPP_ADDRESS in
  (* Job ID too long *)
  let msg := ExecuteMsg_GetNextRandomness
    "cb480eb3697f39db828d9efa021abe681bfcd72e23894019b8ddb1ab94039081-and-counting" in
  err ← unwrap_err (execute deps mock_env (message_info dapp []) msg);
  assert (matches! err with ContractError_JobIdTooLong end).

Definition get_next_randomness_for_allowed_address : Test Storage unit :=
  let creator := addr_make CREATOR in
  deps ← setup (Some (init_msg (Some creator) (Some true) (Some true) (Some [creator])));
  setup_channel deps ;;
  (* Sender in allowlist *)
  res ← unwrap (execute deps mock_env (message_info creator (coins 22334455 "unoisx"))
    (ExecuteMsg_GetNextRandomness "1"));
  assert_one_packet res.

Definition get_next_randomness_for_disallowed_address : Test Storage unit :=
  let creator := addr_make CREATOR in
  deps ← setup (Some (init_msg (Some creator) (Some true) (Some true) (Some [creator])));
  setup_channel deps ;;
  let anon := addr_make "anon" in
  (* Sender not in allowlist *)
  err ← unwrap_err (execute deps mock_env (message_info anon (coins 22334455 "unoisx"))
    (ExecuteMsg_GetNextRandomness "1"));
  assert (matches! err with ContractError_SenderNotAllowed end).

Definition get_randomness_after_works : Test Storage unit :=
  deps ← setup None;
  (* Requires a channel to forward requests to *)
  setup_channel deps ;;
  let dapp := addr_make DAPP_ADDRESS in
  res ← unwrap (execute deps mock_env (message_info dapp (coins 22334455 "unoisx"))
    (ExecuteMsg_GetRandomnessAfter (from_seconds 1666343642) "foo"));
  assert_one_packet res.

Definition get_randomness_after_fails_for_invalid_inputs : Test Storage unit :=
  deps ← setup None;
  setup_channel deps ;;
  let dapp := addr_make DAPP_ADDRESS in
  (* Job ID too long *)
  let msg := ExecuteMsg_GetRandomnessAfter (from_seconds 1666343642)
    "cb480eb3697f39db828d9efa021abe681bfcd72e23894019b8ddb1ab94039081-and-counting" in
  err ← unwrap_err (execute deps mock_env (message_info dapp []) msg);
  assert (matches! err with ContractError_JobIdTooLong end).

Definition get_randomness_after_fails_for_after_values_out_of_range : Test Storage unit :=
  deps ← setup None;
  (* Requires a channel to forward requests to *)
  setup_channel deps ;;
  let dapp := addr_make DAPP_ADDRESS in
  let info := message_info dapp (coins 22334455 "unoisx") in
  let instantiate_time := block_time mock_env in
  (* after == instantiate_time works *)
  unwrap (execute deps mock_env info (ExecuteMsg_GetRandomnessAfter instantiate_time "foo")) ;;
  (* after < instantiate_time fails *)
  before ← eval (minus_nanos instantiate_time 1);
  err ← unwrap_err (execute deps mock_env info (ExecuteMsg_GetRandomnessAfter before "foo"));
  match err with
  | ContractError_AfterTooLow min_after after =>
      assert_eq min_after instantiate_time ;; assert_eq after before
  | _ => panic
  end ;;
  (* after has one 0 too much *)
  err ← unwrap_err (execute deps mock_env info
    (ExecuteMsg_GetRandomnessAfter (from_nanos 15717974198793055330) "foo"));
  match err with
  | ContractError_AfterTooHigh max_after after =>
      assert_eq max_after (from_nanos 1887157419879305533) ;;
      assert_eq after (from_nanos 15717974198793055330)
  | _ => panic
  end.

(** A message that sets the callback gas limit and the use of the allowlist. *)
Definition set_config_msg (manager : option string) (gas_limit : option u64)
    (enabled : option bool) : ExecuteMsg :=
  ExecuteMsg_SetConfig manager None None None gas_limit None enabled None None.

Definition get_config (deps : Deps) : Test Storage Config :=
  r ← query_as ConfigResponse deps QueryMsg_Config; mret (response_config r).

(** The settings that the test does not set are those of [original]. *)
Definition assert_rest_unchanged (config original : Config) : Test Storage unit :=
  assert_eq (prices config) (prices original) ;;
  assert_eq (manager config) (manager original) ;;
  assert_eq (mode config) (mode original) ;;
  assert_eq (payment config) (payment original).

Definition set_config_works : Test Storage unit :=
  deps ← setup None;
  let creator := addr_make CREATOR in
  let info := message_info creator [] in
  (* Check original config *)
  original ← get_config deps;
  assert_eq (manager original) (Some creator) ;;
  assert_eq (callback_gas_limit original) 500000 ;;
  assert_eq (allowlist_enabled original) (Some false) ;;
  (* Update nothing *)
  unwrap (execute deps mock_env info (set_config_msg None None None)) ;;
  config ← get_config deps;
  assert_eq config original ;;
  (* Set allowlist_enabled to true *)
  unwrap (execute deps mock_env info (set_config_msg None None (Some true))) ;;
  config ← get_config deps;
  assert_eq (allowlist_enabled config) (Some true) ;;
  assert_rest_unchanged config original ;;
  (* Set allowlist_enabled to false *)
  unwrap (execute deps mock_env info (set_config_msg None None (Some false))) ;;
  config ← get_config deps;
  assert_eq (allowlist_enabled config) (Some false) ;;
  assert_rest_unchanged config original ;;
  (* Update callback_gas_limit *)
  unwrap (execute deps mock_env info (set_config_msg None (Some 800000) None)) ;;
  config ← get_config deps;
  assert_eq (callback_gas_limit config) 800000 ;;
  assert_rest_unchanged config original.

Definition set_config_only_allowed_for_manager : Test Storage unit :=
  let deps := mock_dependencies in
  let dapp := addr_make DAPP_ADDRESS in
  let creator := addr_make CREATOR in
  unwrap (instantiate deps mock_env (message_info creator [])
    (init_msg (Some creator) None None None)) ;;
  (* Edit config *)
  err ← unwrap_err (execute deps mock_env (message_info dapp [])
    (set_config_msg None None (Some false)));
  assert (matches! err with ContractError_Unauthorized end).

Definition withdraw_works : Test Storage unit :=
  deps ← setup None;
  let creator := addr_make CREATOR in
  let dapp := addr_make DAPP_ADDRESS in
  let some := addr_make "some-address" in
  let msg := ExecuteMsg_Withdraw "unoisx" (Some 12) some in
  err ← unwrap_err (execute deps mock_env (message_info dapp []) msg);
  assert (matches! err with ContractError_Unauthorized end) ;;
  res ← unwrap (execute deps mock_env (message_info creator []) msg);
  assert_eq (length (messages res)) 1%nat ;;
  m ← index (messages res) 0;
  assert_eq (sub_msg m) (CosmosMsg_Bank (BankMsg_Send some (coins 12 "unoisx"))).

Definition withdraw_all_works : Test Storage unit :=
  deps ← setup None;
  let creator := addr_make CREATOR in
  let dapp := addr_make DAPP_ADDRESS in
  let some := addr_make "some-address" in
  let msg := ExecuteMsg_Withdraw "unoisx" None some in
  (* Withdraw by dapp *)
  err ← unwrap_err (execute deps mock_env (message_info dapp []) msg);
  assert (matches! err with ContractError_Unauthorized end) ;;
  (* Withdraw by manager *)
  res ← unwrap (execute deps mock_env (message_info creator []) msg);
  assert_eq (length (messages res)) 1%nat ;;
  m ← index (messages res) 0;
  assert_eq (sub_msg m) (CosmosMsg_Bank (BankMsg_Send some (coins 22334455 "unoisx"))).

Definition withdraw_when_manager_is_not_set_withdraws_are_unauthorised : Test Storage unit :=
  (* Check that if manager not set, a random person cannot execute manager-like operations. *)
  let deps := mock_dependencies in
  let creator := addr_make CREATOR in
  let manager := addr_make MANAGER_ADDRESS in
  let dapp := addr_make DAPP_ADDRESS in
  let some := addr_make "some-address" in
  unwrap (instantiate deps mock_env (message_info creator []) (init_msg None None None None)) ;;
  (* withdraw *)
  err ← unwrap_err (execute deps mock_env (message_info dapp [])
    (ExecuteMsg_Withdraw "unoisx" (Some 12) some));
  assert (matches! err with ContractError_Unauthorized end) ;;
  (* withdraw all *)
  err ← unwrap_err (execute deps mock_env (message_info dapp [])
    (ExecuteMsg_Withdraw "unoisx" None some));
  assert (matches! err with ContractError_Unauthorized end) ;;
  (* Edit config *)
  err ← unwrap_err (execute deps mock_env (message_info dapp [])
    (set_config_msg (Some manager) None (Some false)));
  assert (matches! err with ContractError_Unauthorized end).

Definition update_allowlist_works : Test Storage unit :=
  deps ← setup None;
  let creator := addr_make CREATOR in
  let aaa := addr_make "aaa" in
  let bbb := addr_make "bbb" in
  let ccc := addr_make "ccc" in
  let msg := ExecuteMsg_UpdateAllowlist [aaa; ccc] [aaa; bbb] in
  unwrap (execute deps mock_env (message_info creator []) msg) ;;
  b ← map_has ALLOWLIST bbb; assert (negb b) ;;
  b ← map_has ALLOWLIST ccc; assert b ;;
  (* If an address is both added and removed, err on the side of removing it *)
  b ← map_has ALLOWLIST aaa; assert (negb b).

Definition update_allowlist_fails_for_non_manager : Test Storage unit :=
  deps ← setup None;
  let dapp := addr_make DAPP_ADDRESS in
  let msg := ExecuteMsg_UpdateAllowlist ["aaa"; "ccc"] ["aaa"; "bbb"] in
  err ← unwrap_err (execute deps mock_env (message_info dapp []) msg);
  assert (matches! err with ContractError_Unauthorized end).

(** *** Query tests *)

Definition query_prices_works : Test Storage unit :=
  deps ← setup None;
  r ← query_as PricesResponse deps QueryMsg_Prices;
  assert_eq (response_prices r) (coins 1000000 "unoisx").

Definition query_price_works : Test Storage unit :=
  deps ← setup None;
  r ← query_as PriceResponse deps (QueryMsg_Price "shitcoin");
  assert_eq (response_price r) None ;;
  r ← query_as PriceResponse deps (QueryMsg_Price "unoisx");
  assert_eq (response_price r) (Some 1000000).

Definition query_allowlist_works : Test Storage unit :=
  (* some list *)
  let addr_in_allowlist := [addr_make "addr2"; addr_make "addr1"] in
  deps ← setup (Some (init_msg (Some (addr_make CREATOR)) (Some true) (Some true)
    (Some addr_in_allowlist)));
  r ← query_as AllowlistResponse deps QueryMsg_Allowlist;
  assert_eq (list_to_set (allowed r) : gset string) {[addr_make "addr1"; addr_make "addr2"]} ;;
  (* empty list *)
  new_storage ;;
  deps ← setup (Some (init_msg (Some (addr_make CREATOR)) (Some true) (Some true) (Some [])));
  r ← query_as AllowlistResponse deps QueryMsg_Allowlist;
  assert (bool_decide (allowed r = [])).

(** Both tests of [IsAllowlisted], with the allowlist in use or not. *)
Definition query_is_allowed (enabled : bool) : Test Storage unit :=
  let addr_in_allowlist := addr_make "addr1" in
  let addr_not_in_allowlist := addr_make "addr2" in
  deps ← setup (Some (init_msg (Some (addr_make CREATOR)) (Some true) (Some enabled)
    (Some [addr_in_allowlist])));
  (* expect the address IN allow list to return true *)
  r ← query_as IsAllowlistedResponse deps (QueryMsg_IsAllowlisted addr_in_allowlist);
  assert (listed r) ;;
  (* expect the address NOT in allow list to return false *)
  r ← query_as IsAllowlistedResponse deps (QueryMsg_IsAllowlisted addr_not_in_allowlist);
  assert (negb (listed r)).

Definition query_is_allowed_works_when_allowlist_enabled : Test Storage unit :=
  query_is_allowed true.

Definition query_is_allowed_works_when_allowlist_disabled : Test Storage unit :=
  query_is_allowed false.

(** *** IBC tests *)

Definition ibc_channel_open_checks_version_and_order : Test Storage unit :=
  deps ← setup None;
  (* All good *)
  let valid_handshake := mock_ibc_channel_open_init "channel-12" APP_ORDER IBC_APP_VERSION in
  unwrap (ibc_channel_open deps mock_env valid_handshake) ;;
  (* Wrong order *)
  let wrong_order := mock_ibc_channel_open_init "channel-12" BAD_APP_ORDER IBC_APP_VERSION in
  res ← unwrap_err (ibc_channel_open deps mock_env wrong_order);
  assert (matches! res with ContractError_ChannelError _ end) ;;
  (* Wrong version *)
  let wrong_version := mock_ibc_channel_open_init "channel-12" APP_ORDER "another version" in
  res ← unwrap_err (ibc_channel_open deps mock_env wrong_version);
  assert (matches! res with ContractError_ChannelError _ end).

Definition get_channel (deps : Deps) : Test Storage (option string) :=
  r ← query_as GatewayChannelResponse deps QueryMsg_GatewayChannel; mret (response_channel r).

Definition ibc_channel_connect_works : Test Storage unit :=
  (* We are chain A and get the ChanOpenAck *)
  deps ← setup None;
  (* Channel is unset *)
  channel ← get_channel deps; assert_eq channel None ;;
  let msg := mock_ibc_channel_connect_ack "channel-12" APP_ORDER IBC_APP_VERSION in
  unwrap (ibc_channel_connect deps mock_env msg) ;;
  (* Channel is now set *)
  channel ← get_channel deps; assert_eq channel (Some "channel-12") ;;
  (* One more ChanOpenAck *)
  let msg := mock_ibc_channel_connect_ack "channel-12" APP_ORDER IBC_APP_VERSION in
  err ← unwrap_err (ibc_channel_connect deps mock_env msg);
  assert (matches! err with ContractError_ChannelAlreadySet end) ;;
  (* ChanOpenConfirm is rejected *)
  let msg := mock_ibc_channel_connect_confirm "channel-12" APP_ORDER IBC_APP_VERSION in
  err ← unwrap_err (ibc_channel_connect deps mock_env msg);
  assert (matches! err with ContractError_MustBeChainA end).

Definition ibc_channel_close_works : Test Storage unit :=
  deps ← setup None;
  (* Open *)
  let valid_handshake := mock_ibc_channel_open_init "channel-12" APP_ORDER IBC_APP_VERSION in
  unwrap (ibc_channel_open deps mock_env valid_handshake) ;;
  (* Connect *)
  let msg := mock_ibc_channel_connect_ack "channel-12" APP_ORDER IBC_APP_VERSION in
  unwrap (ibc_channel_connect deps mock_env msg) ;;
  (* Channel is now set *)
  channel ← get_channel deps; assert_eq channel (Some "channel-12") ;;
  (* Closing channel fails *)
  let msg := mock_ibc_channel_close_init "channel-12" APP_ORDER IBC_APP_VERSION in
  err ← unwrap_err (ibc_channel_close deps mock_env msg);
  assert (matches! err with ContractError_ChannelMustNotBeClosed end) ;;
  (* Channel is still set *)
  channel ← get_channel deps; assert_eq channel (Some "channel-12") ;;
  (* The other side closed *)
  let msg := mock_ibc_channel_close_confirm "channel-12" APP_ORDER IBC_APP_VERSION in
  unwrap (ibc_channel_close deps mock_env msg) ;;
  (* Channel is unset *)
  channel ← get_channel deps; assert_eq channel None.

Definition ibc_packet_ack_works : Test Storage unit :=
  deps ← setup None;
  (* Success ack (processed) *)
  ack ← success_ack (InPacketAck_RequestProcessed "backend:123:456");
  msg ← mock_ibc_packet_ack ack;
  res ← unwrap (ibc_packet_ack deps mock_env msg);
  a ← unwrap_some (first_attr (attributes res) "action"); assert_eq a "ibc_packet_ack" ;;
  a ← unwrap_some (first_attr (attributes res) "is_error"); assert_eq a "false" ;;
  assert_eq (first_attr (attributes res) "error") None ;;
  a ← unwrap_some (first_attr (attributes res) "ack_type"); assert_eq a "request_processed" ;;
  (* Success ack (queued) *)
  ack ← success_ack (InPacketAck_RequestQueued "backend:123:456");
  msg ← mock_ibc_packet_ack ack;
  res ← unwrap (ibc_packet_ack deps mock_env msg);
  a ← unwrap_some (first_attr (attributes res) "action"); assert_eq a "ibc_packet_ack" ;;
  a ← unwrap_some (first_attr (attributes res) "is_error"); assert_eq a "false" ;;
  assert_eq (first_attr (attributes res) "error") None ;;
  a ← unwrap_some (first_attr (attributes res) "ack_type"); assert_eq a "request_queued" ;;
  (* Error ack *)
  msg ← mock_ibc_packet_ack (StdAck_Error "kaputt");
  res ← unwrap (ibc_packet_ack deps mock_env msg);
  a ← unwrap_some (first_attr (attributes res) "action"); assert_eq a "ibc_packet_ack" ;;
  a ← unwrap_some (first_attr (attributes res) "is_error"); assert_eq a "true" ;;
  a ← unwrap_some (first_attr (attributes res) "error"); assert_eq a "kaputt" ;;
  assert_eq (first_attr (attributes res) "ack_type") None.

Definition proxy_tests : list (Test Storage unit) :=
  [validate_job_id_works; validate_payment_works; safety_margin_is_correct;
   calculate_after_works_for_block_time; calculate_after_works_for_test_mode;
   instantiate_works; get_next_randomness_works; get_next_randomness_for_invalid_inputs;
   get_next_randomness_for_allowed_address; get_next_randomness_for_disallowed_address;
   get_randomness_after_works; get_randomness_after_fails_for_invalid_inputs;
   get_randomness_after_fails_for_after_values_out_of_range; set_config_works;
   set_config_only_allowed_for_manager; withdraw_works; withdraw_all_works;
   withdraw_when_manager_is_not_set_withdraws_are_unauthorised; update_allowlist_works;
   update_allowlist_fails_for_non_manager; query_prices_works; query_price_works;
   query_allowlist_works; query_is_allowed_works_when_allowlist_enabled;
   query_is_allowed_works_when_allowlist_disabled; ibc_channel_open_checks_version_and_order;
   ibc_channel_connect_works; ibc_channel_close_works; ibc_packet_ack_works].

Lemma proxy_tests_pass : Forall (passes empty_storage) proxy_tests.
Proof. run_tests. Qed.
