(* ===== verification/DrandTests.v ===== *)
(** * The unit tests of nois-drand

    The tests of contract.rs and bots.rs in contracts/nois-drand/src. The
    groups of the bots come from real SHA-256 digests of bech32 addresses. *)
From stdpp Require Import prelude gmap strings list sorting pretty.
From Stdlib Require Import NArith Lia.
From S2P Require Import Prelude.
From S2P Require Import CosmWasm.
From S2P Require Import Fixtures.
From S2P Require Import DrandCommon.
From S2P Require Import Drand.
From S2P Require Import Testing.

(** ** Comparing and serializing the answers *)

#[global] Instance Config_eq_dec : EqDecision Config.
Proof. solve_decision. Defined.
#[global] Program Instance Config_countable : Countable Config :=
  inj_countable'
    (λ c, (manager c, gateway c, min_round c, incentive_point_price c, incentive_denom c))
    (λ '(m, g, r, p, d), {| manager := m; gateway := g; min_round := r;
       incentive_point_price := p; incentive_denom := d |}) _.
Next Obligation. by intros []. Qed.

#[global] Instance QueriedBeacon_eq_dec : EqDecision QueriedBeacon.
Proof. solve_decision. Defined.
#[global] Program Instance QueriedBeacon_countable : Countable QueriedBeacon :=
  inj_countable'
    (λ b, (queried_round b, queried_published b, queried_verified b, queried_randomness b))
    (λ '(r, p, v, x), {| queried_round := r; queried_published := p; queried_verified := v;
       queried_randomness := x |}) _.
Next Obligation. by intros []. Qed.
#[global] Instance BeaconResponse_eq_dec : EqDecision BeaconResponse.
Proof. solve_decision. Defined.
#[global] Program Instance BeaconResponse_countable : Countable BeaconResponse :=
  inj_countable' response_beacon Build_BeaconResponse _.
Next Obligation. by intros []. Qed.
#[global] Instance BeaconsResponse_eq_dec : EqDecision BeaconsResponse.
Proof. solve_decision. Defined.
#[global] Program Instance BeaconsResponse_countable : Countable BeaconsResponse :=
  inj_countable' response_beacons Build_BeaconsResponse _.
Next Obligation. by intros []. Qed.

#[global] Instance QueriedBot_eq_dec : EqDecision QueriedBot.
Proof. solve_decision. Defined.
#[global] Program Instance QueriedBot_countable : Countable QueriedBot :=
  inj_countable'
    (λ b, (queried_moniker b, queried_address b, queried_rounds_added b, queried_reward_points b))
    (λ '(m, a, r, p), {| queried_moniker := m; queried_address := a;
       queried_rounds_added := r; queried_reward_points := p |}) _.
Next Obligation. by intros []. Qed.
#[global] Instance BotResponse_eq_dec : EqDecision BotResponse.
Proof. solve_decision. Defined.
#[global] Program Instance BotResponse_countable : Countable BotResponse :=
  inj_countable' response_bot Build_BotResponse _.
Next Obligation. by intros []. Qed.
#[global] Instance BotsResponse_eq_dec : EqDecision BotsResponse.
Proof. solve_decision. Defined.
#[global] Program Instance BotsResponse_countable : Countable BotsResponse :=
  inj_countable' response_bots Build_BotsResponse _.
Next Obligation. by intros []. Qed.

#[global] Instance AllowlistResponse_eq_dec : EqDecision AllowlistResponse.
Proof. solve_decision. Defined.
#[global] Program Instance AllowlistResponse_countable : Countable AllowlistResponse :=
  inj_countable' allowed Build_AllowlistResponse _.
Next Obligation. by intros []. Qed.
#[global] Instance IsAllowlistedResponse_eq_dec : EqDecision IsAllowlistedResponse.
Proof. solve_decision. Defined.
#[global] Program Instance IsAllowlistedResponse_countable : Countable IsAllowlistedResponse :=
  inj_countable' listed Build_IsAllowlistedResponse _.
Next Obligation. by intros []. Qed.
#[global] Instance IsIncentivizedResponse_eq_dec : EqDecision IsIncentivizedResponse.
Proof. solve_decision. Defined.
#[global] Program Instance IsIncentivizedResponse_countable : Countable IsIncentivizedResponse :=
  inj_countable' incentivized Build_IsIncentivizedResponse _.
Next Obligation. by intros []. Qed.
#[global] Instance QueriedSubmission_eq_dec : EqDecision QueriedSubmission.
Proof. solve_decision. Defined.
#[global] Program Instance QueriedSubmission_countable : Countable QueriedSubmission :=
  inj_countable'
    (λ s, (submission_bot s, submission_time s, submission_height s, submission_tx_index s))
    (λ '(b, t, h, i), {| submission_bot := b; submission_time := t; submission_height := h;
       submission_tx_index := i |}) _.
Next Obligation. by intros []. Qed.
#[global] Instance SubmissionsResponse_eq_dec : EqDecision SubmissionsResponse.
Proof. solve_decision. Defined.
#[global] Program Instance SubmissionsResponse_countable : Countable SubmissionsResponse :=
  inj_countable' (λ r, (response_round r, response_submissions r))
    (λ '(r, l), {| response_round := r; response_submissions := l |}) _.
Next Obligation. by intros []. Qed.

(** ** Bots (bots.rs) *)

Definition validate_moniker_works : Test Storage unit :=
  unwrap (lift (validate_moniker "abc")) ;;
  unwrap (lift (validate_moniker "stargaze.zone")) ;;
  unwrap (lift (validate_moniker "webmaster128")) ;;
  err ← unwrap_err (lift (validate_moniker ""));
  assert (matches! err with ContractError_MonikerEmpty end) ;;
  err ← unwrap_err (lift (validate_moniker "abcabcabcabcabcaabc2bcabcabcabcabcabcabc"));
  assert (matches! err with ContractError_MonikerTooLong end).

Definition group_works : Test Storage unit :=
  assert_eq (group "nois1ffy2rz96sjxzm2ezwkmvyeupktp7elt6w3xckt") Group_B ;;
  assert_eq (group "nois1uw8c69maprjq5ure7x80x9nauasrn7why5dfwd") Group_B ;;
  assert_eq (group "nois1zh77twxfc47eu59q7mc7027jvvcnrpte3sr922") Group_B ;;
  assert_eq (group "nois1wpy3gwlw4tt3uy0u5jrspfz0w9azztvlr0d04s") Group_A ;;
  assert_eq (group "nois1rw47dxvhw3ahdlcznvwpcz43cdq8l0832eg6re") Group_A ;;
  assert_eq (group "nois12a8yv4ndgnkygujj7cmmkfz2j9wjanezldwye0") Group_B.

Definition eligible_group_works : Test Storage unit :=
  assert_eq (eligible_group 1) Group_B ;;
  assert_eq (eligible_group 2) Group_A ;;
  assert_eq (eligible_group 3) Group_B ;;
  assert_eq (eligible_group 4) Group_A ;;
  assert_eq (eligible_group 5) Group_B ;;
  assert_eq (eligible_group 6) Group_A.

(** ** The contract (contract.rs) *)

Definition TESTING_MANAGER : string := "mngr".
Definition GATEWAY : string := "thegateway".
Definition TESTING_MIN_ROUND : u64 := 72750.
Definition DEFAULT_TIME : Timestamp := from_nanos 1571797419879305533.
Definition DEFAULT_HEIGHT : u64 := 12345.
Definition DEFAULT_TX_INDEX : option u32 := Some 3.

Definition make_add_round_msg (round : u64) : Test Storage ExecuteMsg :=
  match testing_signature round with
  | Some signature => mret (ExecuteMsg_AddRound round signature)
  | None => panic
  end.

(** Executes a message that has to succeed. *)
Definition run (deps : Deps) (who : Addr) (msg : ExecuteMsg) : Test Storage Response :=
  unwrap (execute deps mock_env (message_info who []) msg).

(** Adds round 72750, 72775, 72800, 72825 using bot address [sender]. *)
Definition add_test_rounds (deps : Deps) (sender : Addr) : Test Storage unit :=
  for_each (λ round, msg ← make_add_round_msg round; run deps sender msg ;; mret tt)
    [72750; 72775; 72800; 72825].

(** [from_json(query(deps, mock_env(), msg).unwrap()).unwrap()] *)
Definition query_as (A : Type) `{Json A} (deps : Deps) (msg : QueryMsg) : Test Storage A :=
  b ← unwrap (query deps mock_env msg); from_json_unwrap b.

(** Instantiates the contract as all tests do. *)
Definition init_contract (deps : Deps) : Test Storage Response :=
  let creator := addr_make "creator" in
  unwrap (instantiate deps mock_env (message_info creator []) {|
    msg_manager := addr_make TESTING_MANAGER; msg_min_round := TESTING_MIN_ROUND;
    msg_incentive_point_price := 20000; msg_incentive_denom := "unois" |}).

(** *** Instantiate tests *)

Definition instantiate_works : Test Storage unit :=
  let deps := mock_dependencies in
  res ← init_contract deps;
  assert_eq 0%nat (length (messages res)) ;;
  config ← query_as ConfigResponse deps QueryMsg_Config;
  assert_eq config {|
    manager := addr_make TESTING_MANAGER; gateway := None; min_round := TESTING_MIN_ROUND;
    incentive_point_price := 20000; incentive_denom := "unois" |}.

(** *** Execute tests *)

Definition register_bot (deps : Deps) (sender_addr : Addr) : Test Storage Response :=
  run deps sender_addr (ExecuteMsg_RegisterBot "Best Bot").

Definition allowlist_bot (deps : Deps) (addr : Addr) : Test Storage Response :=
  run deps (addr_make TESTING_MANAGER) (ExecuteMsg_UpdateAllowlistBots [addr] []).

Definition add_round_verifies_and_stores_randomness : Test Storage unit :=
  let deps := mock_dependencies in
  let anyone := addr_make "anyone" in
  init_contract deps ;;
  register_bot deps anyone ;;
  msg ← make_add_round_msg 72780;
  run deps anyone msg ;;
  r ← query_as BeaconResponse deps (QueryMsg_Beacon 72780);
  beacon ← unwrap_some (response_beacon r);
  assert_eq (to_hex (queried_randomness beacon))
    "2f3a6976baf6847d75b5eae60c0e460bb55ab6034ee28aef2f0d10b0b5cc57c1".

Definition assert_attr (res : Response) (key value : string) : Test Storage unit :=
  v ← unwrap_some (first_attr (attributes res) key); assert_eq v value.

Definition add_round_not_divisible_by_15_succeeds : Test Storage unit :=
  let deps := update_balance MOCK_CONTRACT_ADDR [coin 9999999 "unois"] mock_dependencies in
  let manager := addr_make TESTING_MANAGER in
  let gateway := addr_make GATEWAY in
  let bot1 := addr_make "mr_bot" in
  let bot2 := addr_make "mrs_bot" in
  res ← init_contract deps;
  assert_eq (length (messages res)) 0%nat ;;
  let ROUND := 72762 in
  let EXPECTED_RANDOMNESS :=
    "528bb3e953412bea63dff0f86ad44aeda64953cd50040279e7b1aba4b9196f28" in
  register_bot deps bot1 ;;
  register_bot deps bot2 ;;
  allowlist_bot deps bot1 ;;
  allowlist_bot deps bot2 ;;
  (* succeeds but not incentivized *)
  msg ← make_add_round_msg ROUND;
  response ← run deps bot1 msg;
  assert_eq (length (messages response)) 0%nat ;;
  assert_attr response "randomness" EXPECTED_RANDOMNESS ;;
  assert_attr response "reward_points" "0" ;;
  assert_attr response "reward_payout" "0unois" ;;
  (* Set gateway *)
  run deps manager (ExecuteMsg_SetConfig None (Some gateway) None None None) ;;
  (* Set incentivized *)
  run deps gateway (ExecuteMsg_SetIncentivized ROUND) ;;
  (* succeeds and incentivized *)
  msg ← make_add_round_msg ROUND;
  response ← run deps bot2 msg;
  assert_eq (length (messages response)) 2%nat ;;
  m ← index (messages response) 0;
  assert (matches! sub_msg m with CosmosMsg_Wasm _ end) ;;
  m ← index (messages response) 1;
  assert (matches! sub_msg m with CosmosMsg_Bank (BankMsg_Send _ _) end) ;;
  assert_attr response "randomness" EXPECTED_RANDOMNESS ;;
  assert_attr response "reward_points" "50" ;;
  assert_attr response "reward_payout" "1000000unois".

(** Executes a message that has to fail. *)
Definition run_err (deps : Deps) (who : Addr) (msg : ExecuteMsg) : Test Storage ContractError :=
  unwrap_err (execute deps mock_env (message_info who []) msg).

Definition assert_min_round (deps : Deps) : Test Storage unit :=
  config ← query_as ConfigResponse deps QueryMsg_Config;
  assert_eq (min_round config) TESTING_MIN_ROUND.

Definition add_round_fails_when_round_too_low : Test Storage unit :=
  let deps := mock_dependencies in
  let anyone := addr_make "anyone" in
  res ← init_contract deps;
  assert_eq 0%nat (length (messages res)) ;;
  assert_min_round deps ;;
  msg ← make_add_round_msg 10;
  err ← run_err deps anyone msg;
  match err with
  | ContractError_RoundTooLow round min_round =>
      assert_eq round 10 ;; assert_eq min_round TESTING_MIN_ROUND
  | _ => panic
  end.

Definition unregistered_bot_does_not_get_incentives : Test Storage unit :=
  let deps := mock_dependencies in
  let unregistered := addr_make "unregistered_bot" in
  let contract := contract_address mock_env in
  (* add balance to this contract *)
  let deps := update_balance contract [{| denom := "unois"; amount := 100000000 |}] deps in
  init_contract deps ;;
  msg ← make_add_round_msg 72780;
  response ← run deps unregistered msg;
  assert_attr response "randomness"
    "2f3a6976baf6847d75b5eae60c0e460bb55ab6034ee28aef2f0d10b0b5cc57c1" ;;
  assert_eq (length (messages response)) 0%nat ;;
  assert_attr response "reward_points" "0" ;;
  assert_attr response "reward_payout" "0unois".

Definition set_incentivized_works : Test Storage unit :=
  let deps := mock_dependencies in
  let manager := addr_make TESTING_MANAGER in
  let gateway := addr_make GATEWAY in
  let anyone := addr_make "anyone" in
  res ← init_contract deps;
  assert_eq 0%nat (length (messages res)) ;;
  assert_min_round deps ;;
  let GOOD_ROUND := TESTING_MIN_ROUND + 10 in
  let BAD_ROUND := TESTING_MIN_ROUND - 10 in
  (* Gateway not set, unauthorized *)
  err ← run_err deps gateway (ExecuteMsg_SetIncentivized GOOD_ROUND);
  assert (matches! err with ContractError_Unauthorized end) ;;
  (* Set gateway *)
  run deps manager (ExecuteMsg_SetConfig None (Some gateway) None None None) ;;
  (* Gateway can set now *)
  run deps gateway (ExecuteMsg_SetIncentivized GOOD_ROUND) ;;
  (* Someone else is unauthoized *)
  err ← run_err deps anyone (ExecuteMsg_SetIncentivized GOOD_ROUND);
  assert (matches! err with ContractError_Unauthorized end) ;;
  err ← run_err deps gateway (ExecuteMsg_SetIncentivized BAD_ROUND);
  match err with
  | ContractError_RoundTooLow round min_round =>
      assert_eq round BAD_ROUND ;; assert_eq min_round TESTING_MIN_ROUND
  | _ => panic
  end.

Definition is_listed (deps : Deps) (bot : Addr) : Test Storage bool :=
  r ← query_as IsAllowlistedResponse deps (QueryMsg_IsAllowlisted bot); mret (listed r).

Definition allowlisting_and_deallowlisting_work : Test Storage unit :=
  let deps := mock_dependencies in
  let manager := addr_make TESTING_MANAGER in
  let bot := addr_make "bobbybot" in
  init_contract deps ;;
  listed ← is_listed deps bot; assert (negb listed) ;;
  (* allowlist *)
  run deps manager (ExecuteMsg_UpdateAllowlistBots [bot] []) ;;
  (* adding same address again is fine *)
  run deps manager (ExecuteMsg_UpdateAllowlistBots [bot] []) ;;
  listed ← is_listed deps bot; assert listed ;;
  (* deallowlist *)
  run deps manager (ExecuteMsg_UpdateAllowlistBots [] [bot]) ;;
  listed ← is_listed deps bot; assert (negb listed) ;;
  (* removal takes precendence over additions (better safe than sorry) *)
  run deps manager (ExecuteMsg_UpdateAllowlistBots [bot] [bot]) ;;
  listed ← is_listed deps bot; assert (negb listed).

(** The error of a bech32 decoder. *)
Definition assert_bech32_error (err : ContractError) : Test Storage unit :=
  match err with
  | ContractError_Std (StdError_GenericErr msg) => assert_eq msg "Error decoding bech32"
  | _ => panic
  end.

Definition updateallowlistbots_handles_invalid_addresses : Test Storage unit :=
  let deps := mock_dependencies in
  let manager := addr_make TESTING_MANAGER in
  init_contract deps ;;
  (* add: Empty value *)
  err ← run_err deps manager (ExecuteMsg_UpdateAllowlistBots [""] []);
  assert_bech32_error err ;;
  (* add: Upper case address *)
  err ← run_err deps manager (ExecuteMsg_UpdateAllowlistBots ["theADDRESS"] []);
  assert_bech32_error err ;;
  (* remove: Empty value *)
  err ← run_err deps manager (ExecuteMsg_UpdateAllowlistBots [] [""]);
  assert_bech32_error err ;;
  (* remove: Upper case address *)
  err ← run_err deps manager (ExecuteMsg_UpdateAllowlistBots [] ["theADDRESS"]);
  assert_bech32_error err.

Definition when_contract_does_not_have_enough_funds_no_bot_incentives_are_sent :
    Test Storage unit :=
  let deps := mock_dependencies in
  let bot_address := addr_make "mybot_12" in (* eligable for odd rounds *)
  let contract := contract_address mock_env in
  (* add balance to the contract *)
  let deps := update_balance contract [coin 10000 "unois"] deps in
  init_contract deps ;;
  register_bot deps bot_address ;;
  allowlist_bot deps bot_address ;;
  msg ← make_add_round_msg 72775;
  response ← run deps bot_address msg;
  assert_eq (length (messages response)) 0%nat ;;
  assert_attr response "randomness"
    "b84506d4342f4ec2506baa60a6b611ab006cf45e870d069ebb1b6a051c9e9acf" ;;
  assert_attr response "reward_points" "50" ;;
  assert_attr response "reward_payout" "0unois".

(** A submission of a round that is answered with a payout. *)
Definition assert_paid (deps : Deps) (msg : ExecuteMsg) (bot : Addr) (payout : Uint128) :
    Test Storage unit :=
  response ← run deps bot msg;
  assert_eq (length (messages response)) 1%nat ;;
  m ← index (messages response) 0;
  assert_eq (sub_msg m) (CosmosMsg_Bank (BankMsg_Send bot (coins payout "unois"))).

Definition only_top_x_bots_receive_incentive : Test Storage unit :=
  let deps := mock_dependencies in
  let manager := addr_make TESTING_MANAGER in
  let contract := contract_address mock_env in
  (* add balance to the drand contract *)
  let deps := update_balance contract [{| denom := "unois"; amount := 100000000 |}] deps in
  init_contract deps ;;
  let bot1 := addr_make "registered_bot_761826382" in
  let bot2 := addr_make "registered_bot_98787233" in
  let bot3 := addr_make "registered_bot_12618926371" in
  let bot4 := addr_make "registered_bot_21739812" in
  let bot5 := addr_make "registered_bot_26737167" in
  let bot6 := addr_make "registered_bot_34216397" in
  let bot7 := addr_make "registered_bot_0821738" in
  let bots := [bot1; bot2; bot3; bot4; bot5; bot6; bot7] in
  for_each (λ bot, register_bot deps bot ;; mret tt) bots ;;
  (* add bots to allowlist *)
  run deps manager (ExecuteMsg_UpdateAllowlistBots bots []) ;;
  (* Same msg for all submissions *)
  msg ← make_add_round_msg 72775;
  (* 1st to 3rd: verification + fast *)
  assert_paid deps msg bot1 1000000 ;;
  assert_paid deps msg bot2 1000000 ;;
  assert_paid deps msg bot3 1000000 ;;
  (* 4th to 6th: fast, no verification *)
  assert_paid deps msg bot4 300000 ;;
  assert_paid deps msg bot5 300000 ;;
  assert_paid deps msg bot6 300000 ;;
  (* 7th, here no message is emitted *)
  response ← run deps bot7 msg;
  assert_eq (length (messages response)) 0%nat.

Definition unregistered_bot_can_add_round : Test Storage unit :=
  let deps := mock_dependencies in
  let unregistered := addr_make "unregistered_bot" in
  init_contract deps ;;
  msg ← make_add_round_msg 72780;
  response ← run deps unregistered msg;
  assert_attr response "randomness"
    "2f3a6976baf6847d75b5eae60c0e460bb55ab6034ee28aef2f0d10b0b5cc57c1".

Definition add_round_fails_for_broken_signature : Test Storage unit :=
  let deps := mock_dependencies in
  let anyone := addr_make "anyone" in
  init_contract deps ;;
  register_bot deps anyone ;;
  err ← run_err deps anyone
    (ExecuteMsg_AddRound 72780 (hex "3cc6f6cdf59e95526d5a5d82aaa84fa6f181e4"));
  assert (matches! err with ContractError_InvalidSignature end).

Definition add_round_fails_for_invalid_signature : Test Storage unit :=
  let deps := mock_dependencies in
  let anon := addr_make "anon" in
  init_contract deps ;;
  (* wrong round *)
  signature ← unwrap_some (testing_signature 72780);
  err ← run_err deps anon (ExecuteMsg_AddRound 72790 signature);
  assert (matches! err with ContractError_InvalidSignature end) ;;
  (* wrong signature (first two bytes swapped) *)
  err ← run_err deps anon (ExecuteMsg_AddRound 72780
    (hex "ac86005aaffa5e9de34b558c470a111c862e976922e8da34f9dce1a78507dbd53badd554862bc54bd8e44f44ddd8b100"));
  assert (matches! err with ContractError_InvalidSignature end).

Definition add_round_succeeds_multiple_times : Test Storage unit :=
  let deps := mock_dependencies in
  let creator := addr_make "creator" in
  register_bot deps creator ;;
  init_contract deps ;;
  msg ← make_add_round_msg 72780;
  (* Execute 1 *)
  let anyone := addr_make "anyone" in
  register_bot deps anyone ;;
  response ← run deps anyone msg;
  assert_attr response "randomness"
    "2f3a6976baf6847d75b5eae60c0e460bb55ab6034ee28aef2f0d10b0b5cc57c1" ;;
  (* Execute 2 *)
  let someone_else := addr_make "someone else" in
  register_bot deps someone_else ;;
  response ← run deps someone_else msg;
  assert_attr response "randomness"
    "2f3a6976baf6847d75b5eae60c0e460bb55ab6034ee28aef2f0d10b0b5cc57c1".

Definition add_round_fails_when_same_bot_submits_multiple_times : Test Storage unit :=
  let deps := mock_dependencies in
  let creator := addr_make "creator" in
  register_bot deps creator ;;
  init_contract deps ;;
  msg ← make_add_round_msg 72780;
  let a := addr_make "bot_alice" in
  let b := addr_make "bot_bob" in
  register_bot deps a ;;
  register_bot deps b ;;
  (* Execute A1 *)
  run deps a msg ;;
  (* Execute B1 *)
  run deps b msg ;;
  (* Execute A2 *)
  err ← run_err deps a msg;
  assert (matches! err with ContractError_SubmissionExists end) ;;
  (* Execute B2 *)
  err ← run_err deps b msg;
  assert (matches! err with ContractError_SubmissionExists end).

Definition assert_bot (deps : Deps) (addr : Addr) (moniker : string) (rounds points : u64) :
    Test Storage unit :=
  r ← query_as BotResponse deps (QueryMsg_Bot addr);
  bot ← unwrap_some (response_bot r);
  assert_eq bot {|
    queried_moniker := moniker; queried_address := addr; queried_rounds_added := rounds;
    queried_reward_points := points |}.

Definition register_bot_works_for_updates : Test Storage unit :=
  let deps := mock_dependencies in
  let bot_addr := addr_make "bot_addr" in
  (* first registration *)
  run deps bot_addr (ExecuteMsg_RegisterBot "Nickname1") ;;
  assert_bot deps bot_addr "Nickname1" 0 0 ;;
  (* re-register *)
  run deps bot_addr (ExecuteMsg_RegisterBot "Another nickname") ;;
  assert_bot deps bot_addr "Another nickname" 0 0.

(** *** Query tests *)

Definition assert_rounds (deps : Deps) (msg : QueryMsg) (rounds : list u64) : Test Storage unit :=
  r ← query_as BeaconsResponse deps msg;
  assert_eq (queried_round <$> response_beacons r) rounds.

Definition query_beacons_asc_works : Test Storage unit :=
  let deps := mock_dependencies in
  init_contract deps ;;
  let anyone := addr_make "anyone" in
  register_bot deps anyone ;;
  add_test_rounds deps anyone ;;
  (* Unlimited *)
  assert_rounds deps (QueryMsg_BeaconsAsc None None) [72750; 72775; 72800; 72825] ;;
  (* Limit 2 *)
  assert_rounds deps (QueryMsg_BeaconsAsc None (Some 2)) [72750; 72775] ;;
  (* After 0 *)
  assert_rounds deps (QueryMsg_BeaconsAsc (Some 0) None) [72750; 72775; 72800; 72825] ;;
  (* After 72760 *)
  assert_rounds deps (QueryMsg_BeaconsAsc (Some 72760) None) [72775; 72800; 72825] ;;
  (* After 72825 *)
  assert_rounds deps (QueryMsg_BeaconsAsc (Some 72825) None) [].

Definition query_beacons_desc_works : Test Storage unit :=
  let deps := mock_dependencies in
  let creator := addr_make "creator" in
  register_bot deps creator ;;
  init_contract deps ;;
  let anyone := addr_make "anyone" in
  register_bot deps anyone ;;
  add_test_rounds deps anyone ;;
  (* Unlimited *)
  assert_rounds deps (QueryMsg_BeaconsDesc None None) [72825; 72800; 72775; 72750] ;;
  (* Limit 2 *)
  assert_rounds deps (QueryMsg_BeaconsDesc None (Some 2)) [72825; 72800] ;;
  (* After 99999 *)
  assert_rounds deps (QueryMsg_BeaconsDesc (Some 99999) None) [72825; 72800; 72775; 72750] ;;
  (* After 72780 *)
  assert_rounds deps (QueryMsg_BeaconsDesc (Some 72780) None) [72775; 72750] ;;
  (* After 72750 *)
  assert_rounds deps (QueryMsg_BeaconsDesc (Some 72750) None) [].

Definition get_incentivized (deps : Deps) (bot : Addr) (rounds : list u64) :
    Test Storage (list bool) :=
  r ← query_as IsIncentivizedResponse deps (QueryMsg_IsIncentivized bot rounds);
  mret (incentivized r).

Definition query_is_incentivized_works : Test Storage unit :=
  let deps := mock_dependencies in
  init_contract deps ;;
  let bot1 := addr_make "beta1" in
  let bot2 := addr_make "gamma2" in
  (* No rounds *)
  l ← get_incentivized deps bot1 []; assert_eq l [] ;;
  (* One round (incentivized by round, not job) *)
  l ← get_incentivized deps bot1 [TESTING_MIN_ROUND]; assert_eq l [true] ;;
  l ← get_incentivized deps bot1 [TESTING_MIN_ROUND + 15]; assert_eq l [false] ;;
  (* multiple *)
  let rounds := [TESTING_MIN_ROUND; TESTING_MIN_ROUND + 25; TESTING_MIN_ROUND + 50] in
  l ← get_incentivized deps bot1 rounds; assert_eq l [true; false; true] ;;
  (* bot 2 gets different results *)
  l ← get_incentivized deps bot2 rounds; assert_eq l [false; true; false] ;;
  (* many *)
  l ← get_incentivized deps bot1 (TESTING_MIN_ROUND :: seqN (TESTING_MIN_ROUND + 10) 12);
  assert_eq l (true :: replicate 12 false) ;;
  (* Very many. *)
  l ← get_incentivized deps bot1 (seqN TESTING_MIN_ROUND 999);
  assert_eq (length l) 999%nat ;;
  (* Values below min_round are always false *)
  l ← get_incentivized deps bot1 (seqN (TESTING_MIN_ROUND - 200) 200);
  assert_eq l (replicate 200 false).

Definition assert_submissions (deps : Deps) (round : u64) (bots : list Addr) :
    Test Storage unit :=
  r ← query_as SubmissionsResponse deps (QueryMsg_Submissions round);
  assert_eq (response_round r) round ;;
  assert_eq (response_submissions r) ((λ bot, {|
    submission_bot := bot; submission_time := DEFAULT_TIME; submission_height := DEFAULT_HEIGHT;
    submission_tx_index := DEFAULT_TX_INDEX |}) <$> bots).

Definition query_submissions_works : Test Storage unit :=
  let deps := mock_dependencies in
  let creator := addr_make "creator" in
  register_bot deps creator ;;
  init_contract deps ;;
  (* Address order is not submission order *)
  let bot1 := addr_make "beta1" in
  let bot2 := addr_make "gamma2" in
  let bot3 := addr_make "alpha3" in
  register_bot deps bot1 ;;
  add_test_rounds deps bot1 ;;
  let test_round := 72775 in
  (* No submissions *)
  assert_submissions deps (test_round - 1) [] ;;
  (* One submission *)
  assert_submissions deps test_round [bot1] ;;
  add_test_rounds deps bot2 ;;
  (* Two submissions *)
  assert_submissions deps test_round [bot1; bot2] ;;
  add_test_rounds deps bot3 ;;
  (* Three submissions *)
  assert_submissions deps test_round [bot1; bot2; bot3].

Definition get_allowed (deps : Deps) : Test Storage (list string) :=
  r ← query_as AllowlistResponse deps QueryMsg_Allowlist; mret (allowed r).

Definition query_allowlist_works : Test Storage unit :=
  let deps := mock_dependencies in
  let manager := addr_make TESTING_MANAGER in
  let bot_a := addr_make "bot_a" in
  let bot_b := addr_make "bot_b" in
  let bot_c := addr_make "bot_c" in
  init_contract deps ;;
  l ← get_allowed deps; assert_eq l [] ;;
  (* Add one entry *)
  run deps manager (ExecuteMsg_UpdateAllowlistBots [bot_b] []) ;;
  l ← get_allowed deps; assert_eq l [bot_b] ;;
  (* Add two more entries *)
  run deps manager (ExecuteMsg_UpdateAllowlistBots [bot_a; bot_c] []) ;;
  l ← get_allowed deps;
  assert_eq (list_to_set l : gset string) {[bot_a; bot_b; bot_c]}.

Definition query_bot_works : Test Storage unit :=
  let deps := mock_dependencies in
  init_contract deps ;;
  let unregistered := addr_make "unregistered_bot" in
  let registered := addr_make "registered_bot" in
  let allowlisted := addr_make "allowlisted_bot" in
  register_bot deps registered ;;
  register_bot deps allowlisted ;;
  allowlist_bot deps allowlisted ;;
  (* Unregisrered *)
  r ← query_as BotResponse deps (QueryMsg_Bot unregistered);
  assert_eq (response_bot r) None ;;
  (* Registered *)
  assert_bot deps registered "Best Bot" 0 0 ;;
  add_test_rounds deps registered ;;
  assert_bot deps registered "Best Bot" 4 0 ;; (* Not allowlisted *)
  (* Allowlisted *)
  assert_bot deps allowlisted "Best Bot" 0 0 ;;
  add_test_rounds deps allowlisted ;;
  assert_bot deps allowlisted "Best Bot" 4
    (2 * (INCENTIVE_POINTS_FOR_FAST_BOT + INCENTIVE_POINTS_FOR_VERIFICATION)).

Definition is_query_allowlisted_works : Test Storage unit :=
  let deps := mock_dependencies in
  let manager := addr_make TESTING_MANAGER in
  let bot_a := addr_make "bot_a" in
  let bot_b := addr_make "bot_b" in
  init_contract deps ;;
  (* Add one entry *)
  run deps manager (ExecuteMsg_UpdateAllowlistBots [bot_b] []) ;;
  (* bot_b is listed *)
  listed ← is_listed deps bot_b; assert listed ;;
  (* bot_a is not listed *)
  listed ← is_listed deps bot_a; assert (negb listed).

Definition only_manager_can_set_manager : Test Storage unit :=
  let deps := mock_dependencies in
  let creator := addr_make "creator" in
  let manager := addr_make TESTING_MANAGER in
  let new_manager := addr_make "new manager" in
  let guest := addr_make "guest" in
  register_bot deps creator ;;
  init_contract deps ;;
  let msg := ExecuteMsg_SetConfig (Some new_manager) None None None None in
  (* A random addr cannot set a new manager *)
  err ← run_err deps guest msg;
  assert (matches! err with ContractError_Unauthorized end) ;;
  (* Creator cannot set a new manager *)
  err ← run_err deps creator msg;
  assert (matches! err with ContractError_Unauthorized end) ;;
  (* Manager can set a new manager *)
  run deps manager msg ;;
  config ← query_as ConfigResponse deps QueryMsg_Config;
  assert_eq config {|
    Drand.manager := new_manager; gateway := None; min_round := TESTING_MIN_ROUND;
    incentive_point_price := 20000; incentive_denom := "unois" |}.

Definition drand_tests : list (Test Storage unit) :=
  [validate_moniker_works; group_works; eligible_group_works; instantiate_works;
   add_round_verifies_and_stores_randomness; add_round_not_divisible_by_15_succeeds;
   add_round_fails_when_round_too_low; unregistered_bot_does_not_get_incentives;
   set_incentivized_works; allowlisting_and_deallowlisting_work;
   updateallowlistbots_handles_invalid_addresses;
   when_contract_does_not_have_enough_funds_no_bot_incentives_are_sent;
   only_top_x_bots_receive_incentive; unregistered_bot_can_add_round;
   add_round_fails_for_broken_signature; add_round_fails_for_invalid_signature;
   add_round_succeeds_multiple_times; add_round_fails_when_same_bot_submits_multiple_times;
   register_bot_works_for_updates; query_beacons_asc_works; query_beacons_desc_works;
   query_is_incentivized_works; query_submissions_works; query_allowlist_works;
   query_bot_works; is_query_allowlisted_works; only_manager_can_set_manager].

Lemma drand_tests_pass : Forall (passes empty_storage) drand_tests.
Proof. run_tests. Qed.
