(* ===== verification/MiscTests.v ===== *)
(** * The addresses on mainnet (packages/misc/src/mainnet_addresses.rs)

    Two contracts were deployed to addresses that are computed from their
    checksums. The tests compare the results with the addresses on the chain,
    and so check SHA-256, bech32 and the derivation of [Testing] as well. *)
From stdpp Require Import prelude gmap strings list sorting pretty.
From Stdlib Require Import NArith Lia.
From S2P Require Import Prelude.
From S2P Require Import CosmWasm.
From S2P Require Import Testing.

Definition DEPLOYMENTS : string := "nois1p9tw323xdjp5q3yzuecfahmgrpufmm89z93wpk".
Definition PREFIX : string := "nois".
Definition SALT : Binary := of_bytes [1].

(** Both functions of the source, for the checksum of a contract. *)
Definition mainnet_address (checksum : Binary) : Test unit string :=
  creator ← unwrap_some (bech32_decode PREFIX DEPLOYMENTS);
  mret (bech32_encode PREFIX (instantiate2_digest checksum creator SALT)).

Definition icecube_address : Test unit string :=
  mainnet_address (hex "b8cc8ae4201ee757a70c1e6d8b72c3afb94fc36ba95294ab0614011069de0fe5").

Definition sink_address : Test unit string :=
  mainnet_address (hex "cb7b021831dd908b673491288b7a76f7ae973b8c1586ce41d9a69cadab5202c7").

Definition icecube_address_works : Test unit unit :=
  addr ← icecube_address;
  assert_eq addr "nois1gwnfyx82rwgc4y9r8vx6nr9v35dwezw3dadw6h39mad9amg7shnsler5f0".

Definition sink_address_works : Test unit unit :=
  addr ← sink_address;
  assert_eq addr "nois10c0ppz0n57hqrmfp7g7lqs6k4xk9rxhvcfkqt83r8mars2lc57mq0f6cty".

Definition misc_tests : list (Test unit unit) := [icecube_address_works; sink_address_works].

Lemma misc_tests_pass : Forall (passes tt) misc_tests.
Proof. run_tests. Qed.
